(* ===== verification/_CoqProject ===== *)
-Q . S2P
Prelude.v
DnsName.v
DnsParse.v
DnsBuild.v
DnsBloom.v
BloomStats.v
DnsCache.v
CacheLinks.v
CacheRefine.v
CacheStrip.v
CacheTheorems.v
CacheThreads.v
CacheFresh.v
Dissect.v
Resolver.v
Backend.v
ResolverStub.v
XdpKern.v
XdpFrame.v
JobQueue.v
Server.v
DnsTcp.v
TcpTable.v
XskRing.v
XskLoop.v
XskFrames.v
XskSetup.v
XdpServer.v
XdpReport.v
LoopWake.v
XdpConfig.v
LoadGen.v
BenchBloom.v
Startup.v
