(* ===== verification/Prelude.v ===== *)
(** * fizzDNS: a verification of its resolver and of its packet paths

    fizzDNS (under src/) is a recursive DNS server in C. A query arrives over an
    ordinary UDP socket (server.c), over TCP (dns_tcp.c) or over AF_XDP
    (af_xdp_kern.c in the kernel, af_xdp_user.c in user space). Each transport
    hands the message to a backend through the one function of dns_iface.h:
    the caching resolver (dns_backend.c over resolver.c, dns_cache.c,
    dns_bloom.c and dns_msg.c), or a stub without upstream traffic
    (resolver_stub.c). This library models these parts as executable functions
    and proves what each promises to the next.

    ** Conventions

    The model is a shallow embedding. A w-bit integer is a [Z] with its
    wrap-around written out ([u8] to [u64]); an array is a list of bytes with
    checked accesses; a C function returns a [res]: [Ok] is its normal return,
    [Fail] its own error return, [Fault] an access outside of an array or
    through a bad pointer, [Diverge] a loop that ran out of the fuel its
    definition gives it. A theorem with [returns] or [ensures] therefore says
    that the code neither faults nor runs forever on the inputs it covers.
    Fuel is a bound the loop cannot exceed, and the theorems show that:
    [decode_fuel] (32 pointers and 255 bytes of text), the number of nodes for
    the chains and the list of the cache, [resolve_fuel] (four levels of nested
    name-server lookups with nine CNAME hops each), the length of the message
    for the stub's walk, three rounds for the folding of a checksum, the bytes
    a client sends for the messages of a TCP connection, the number of finished
    jobs for the batches of [drain_done_and_tx]. Three loops read from a source
    without an end (the receive loops of the resolver, of server.c and of the
    load generator): their events are functions of the number of the round, and
    what is proved of their end says what the source has to do for it; that
    without it they go on is shown as well ([recv_flood_never_ends],
    [load_without_concurrency_never_ends]). Threads are step relations
    whose steps are the critical sections of the code; what holds of them is
    proved of every reachable state.

    ** Files

    - Prelude.v: outcomes, arrays, C strings, tactics and shared lemmas.
    - DnsName.v (dns_msg.c): [dns_name_decode], [dns_name_encode],
      [dns_name_equal], [dns_name_in_bailiwick]. Decoding is safe on every
      message and computes the grammar of RFC 1035; encoding is exact; the two
      are inverse to each other; comparison is equality up to case, and
      bailiwick the suffix order on labels.
    - DnsParse.v (dns_msg.c): [dns_parse_header], [dns_parse_query],
      [dns_parse_rr], EDNS0. Safety on every input, and which queries are
      accepted.
    - DnsBuild.v (dns_msg.c): [dns_build_response] and [dns_build_query]. The
      bytes written are those of a reference definition, respect the UDP size
      limits, and read back as what they were built from.
    - DnsBloom.v (dns_bloom.c, dns_bloom.h): the counting Bloom filter, its hash
      and its sharded statistics, and the build without it. The class [Filter]
      with [FilterLaws] is what the cache relies on; both builds are
      instances. BloomStats.v takes the increments of the statistics apart into
      load and store: they are exact with up to 64 threads, and not with more.
    - DnsCache.v (dns_cache.c): the cache on a heap of nodes that are linked in
      hash chains and in the LRU list, and the abstract LRU map. CacheLinks.v
      and CacheRefine.v prove that every operation keeps the two related;
      CacheTheorems.v states the results: the cache is an LRU map with expiry,
      and (with CacheStrip.v) the filter is invisible. CacheThreads.v lets threads call the cache at
      once, counter by counter where they read or write the filter: every
      history is one of the atomic LRU map. CacheFresh.v: every hit of such a
      history is an answer inserted before that has not expired.
    - Dissect.v (resolver.c, [dissect]): which records of a reply are accepted.
      Resolver.v (the rest of resolver.c): transaction ids, one exchange with a
      server, the iteration over referrals, CNAMEs and servers without glue,
      and [dns_resolve] with the cache. Resolution ends against every network
      that falls silent at times; only replies to the question asked are
      accepted; only facts are cached.
    - Backend.v (dns_iface.h, dns_backend.c): the contract [Backend] with
      [BackendLaws], and the caching resolver as an instance: from a datagram
      to a response inside of its buffer. ResolverStub.v (resolver_stub.c) is
      the other instance.
    - XdpKern.v (af_xdp_kern.c): the XDP filter; it redirects exactly the DNS
      queries, and its counters add up. XdpFrame.v (af_xdp_user.c): frames to
      jobs, the worker, and reply frames with their checksum; composed, a query
      that reaches the socket is answered to its sender, for every backend.
    - JobQueue.v (the queues of server.c and af_xdp_user.c): the linked list is
      a bounded FIFO, and the mutex with its condition variable never leaves a
      job waiting while all workers sleep.
    - Server.v (server.c): the receive loop and the workers; every response
      answers a datagram of its client, and jobs and counters are accounted for.
    - DnsTcp.v (dns_tcp.c): the framing of a connection: the messages are served
      in order however the stream is cut. TcpTable.v: start, the table of
      connections, the accept thread, the connection threads and stop,
      interleaved: the table is exact, nothing is used after it is freed, and
      stop completes.
    - XskRing.v: the functions of libxdp on the rings, as a class with laws.
      XskLoop.v (af_xdp_user.c, xsk_setup.h): the frame pool, [drain_rx],
      [refill_fq], [drain_done_and_tx], [reclaim_tx]. XskFrames.v: no frame is
      lost or in two places, whatever the kernel does at its end of the rings.
    - XskSetup.v (xsk_setup.c, the setup of main in af_xdp_user.c): what program,
      UMEM, sockets and loops own; every error path releases it once.
      XdpConfig.v: options, the check of the card's queues, and the sum of the
      filter's counters over the CPUs.
    - XdpServer.v (af_xdp_user.c: loop_main, worker_main): the whole AF_XDP
      server with several queues, workers and the kernel: every packet sent is a
      reply to a packet received on the same queue, and none is answered twice.
      XdpReport.v ([print_stats]): the report accounts for every packet.
      LoopWake.v (loop_main, drain_eventfd, queue_push): how workers wake a loop
      through its eventfd; no wake-up is lost.
    - Startup.v (main of server.c and of af_xdp_user.c): threads, TCP server and
      backend are started and ended in the order dns_iface.h asks for, and a
      failed start of a loop ends the others.
    - LoadGen.v (loadgen.c): what it sends are the queries it counts, when its
      array of latencies is large enough, and the ranks of the latencies it
      prints. BenchBloom.v (bench_bloom.c): the hits the benchmark counts are
      those of its names, with and without the filter, and its report adds up
      unless the filter's statistics lose a count.

    ** What is assumed

    The network and the random numbers of the kernel are the parameter [world]
    of Resolver.v: what each exchange delivers, for every server and query;
    [world_ok] says that it delivers bytes, and that in each exchange one of the
    first [w_patience] calls of [recv] times out or fails. [calloc] is a parameter that returns
    a location not in use, or fails. [bpf_redirect_map] is a parameter that
    returns XDP_REDIRECT or the fallback. libxdp's rings are parameters with the
    laws of [RingLaws], of which lists are an instance; the outcomes of the other
    calls of libxdp and libbpf and of the system calls are inputs, and the
    theorems hold for all of them. New descriptors and objects are not in use.
    Time is a parameter of each call, and [qsort] of the load generator one that
    sorts by its comparison. The backend is used by the transports
    through [BackendLaws] only.

    ** What is not modelled

    Weak memory: relaxed atomic accesses see the last store in BloomStats.v and
    CacheThreads.v. A call of the backend in the servers is one step, in
    XdpServer.v and DnsTcp.v from any state that other threads can leave it in.
    The clock of the resolver's timeouts is an event of an exchange. Left out are
    getopt itself, the text of usage messages and reports, socket options, what a
    signal does to a blocked [recvfrom] of server.c, the call that tells the
    kernel of new fill frames, measured times and rates, and the project's own
    tests (test_dns.c). *)

From stdpp Require Import prelude list.
From Stdlib Require Import ZArith Lia.

Local Open Scope Z_scope.

(** ** Machine integers

    A w-bit unsigned C integer is a [Z]; the conversions below are the
    C conversions to [uint8_t], [uint16_t], [uint32_t] and [uint64_t]
    (and [size_t], which is 64 bits wide on the target). *)

Definition u8 (z : Z) : Z := z mod 2 ^ 8.
Definition u16 (z : Z) : Z := z mod 2 ^ 16.
Definition u32 (z : Z) : Z := z mod 2 ^ 32.
Definition u64 (z : Z) : Z := z mod 2 ^ 64.

Definition byte (z : Z) : Prop := 0 <= z < 256.
Definition bytes (l : list Z) : Prop := Forall byte l.

(** ** Outcomes of C code

    [Ok v] is a normal return, [Fail] is the C function's own error return
    ([return -1], or a [goto] to its error label), [Fault] is undefined
    behaviour of the memory kind (an access outside of an array, a read of
    bytes nobody wrote, a dangling or null pointer), and [Diverge] is a
    loop that used up the fuel its definition gives it. *)

Inductive res (A : Type) : Type :=
| Ok (a : A)
| Fail
| Fault
| Diverge.
Arguments Ok {A} a.
Arguments Fail {A}.
Arguments Fault {A}.
Arguments Diverge {A}.

#[global] Instance res_ret : MRet res := fun A => Ok.
#[global] Instance res_bind : MBind res := fun A B f m =>
  match m with
  | Ok a => f a
  | Fail => Fail
  | Fault => Fault
  | Diverge => Diverge
  end.

(** [ensures r Q]: [r] performs no undefined behaviour and terminates, and
    when it returns normally its value satisfies [Q]. *)
Definition ensures {A} (r : res A) (Q : A -> Prop) : Prop :=
  match r with
  | Ok a => Q a
  | Fail => True
  | Fault | Diverge => False
  end.

(** [returns r Q]: [r] returns normally, with a value that satisfies [Q]. *)
Definition returns {A} (r : res A) (Q : A -> Prop) : Prop :=
  match r with
  | Ok a => Q a
  | Fail | Fault | Diverge => False
  end.

(** [safe r]: [r] performs no undefined behaviour and terminates. *)
Definition safe {A} (r : res A) : Prop := ensures r (fun _ => True).

(** ** Arrays of bytes with [Z] indices *)

Definition zlen {A} (l : list A) : Z := Z.of_nat (length l).
Definition ztake {A} (n : Z) (l : list A) : list A := take (Z.to_nat n) l.
Definition zdrop {A} (n : Z) (l : list A) : list A := drop (Z.to_nat n) l.

(** [msg[i]] on an array of exactly [zlen msg] readable bytes. *)
Definition get8 (msg : list Z) (i : Z) : res Z :=
  if (0 <=? i) then
    match msg !! Z.to_nat i with
    | Some v => Ok v
    | None => Fault
    end
  else Fault.

(** The [n] bytes read by [memcpy(_, msg + off, n)]. *)
Definition get_slice (msg : list Z) (off n : Z) : res (list Z) :=
  if (0 <=? off) && (0 <=? n) && (off + n <=? zlen msg)
  then Ok (ztake n (zdrop off msg))
  else Fault.

(** [buf[i] = v] on an array of exactly [zlen buf] writable bytes. *)
Definition put8 (buf : list Z) (i v : Z) : res (list Z) :=
  if (0 <=? i) && (i <? zlen buf)
  then Ok (<[Z.to_nat i := v]> buf)
  else Fault.

(** [memcpy(buf + i, bs, |bs|)], byte by byte. *)
Fixpoint put_bytes (buf : list Z) (i : Z) (bs : list Z) : res (list Z) :=
  match bs with
  | [] => Ok buf
  | b :: bs' => buf' ← put8 buf i b; put_bytes buf' (i + 1) bs'
  end.

(** ** C strings

    A [char] array is the list of its bytes; the end of the list stands for
    the terminating NUL, and a 0 inside of the list terminates the string as
    it does in C. [cstr] is the string a reader of the array sees. *)

Fixpoint cstr (s : list Z) : list Z :=
  match s with
  | [] => []
  | c :: s' => if c =? 0 then [] else c :: cstr s'
  end.

(** [*s] *)
Definition chr (s : list Z) : Z :=
  match s with
  | [] => 0
  | c :: _ => c
  end.

Definition strlen (s : list Z) : Z := zlen (cstr s).

(** [snprintf(dst, cap, "%s", s)]: the string, cut to [cap - 1] bytes. *)
Definition snprintf_s (cap : Z) (s : list Z) : list Z := ztake (cap - 1) (cstr s).

(** [tolower] in the C locale (the program never calls [setlocale]). *)
Definition tolower (c : Z) : Z :=
  if (65 <=? c) && (c <=? 90) then c + 32 else c.

(** The case-folded string: RFC 4343 compares names by it. *)
Definition fold_case (s : list Z) : list Z := tolower <$> cstr s.

(** [%u] and [%d] of a number below 2^32, which has at most ten digits. *)
Fixpoint decimal_loop (fuel : nat) (v : Z) (acc : list Z) : list Z :=
  match fuel with
  | O => acc
  | S fuel' =>
      let acc' := (48 + v mod 10) :: acc in
      if v <? 10 then acc' else decimal_loop fuel' (v / 10) acc'
  end.
Definition decimal (v : Z) : list Z := decimal_loop 10 v [].

(** ".example.com", which ends the names of the load generator and of the
    benchmark *)
Definition example_com : list Z := [46; 101; 120; 97; 109; 112; 108; 101; 46; 99; 111; 109].

(** ** Automation *)

Create HintDb fizz.
Create Rewrite HintDb zlen.

Ltac zbool :=
  repeat match goal with
  | H : (_ && _)%bool = true |- _ => apply andb_true_iff in H; destruct H
  | H : (_ || _)%bool = false |- _ => apply orb_false_iff in H; destruct H
  | H : negb _ = true |- _ => apply negb_true_iff in H
  | H : negb _ = false |- _ => apply negb_false_iff in H
  | H : (_ <? _) = true |- _ => apply Z.ltb_lt in H
  | H : (_ <? _) = false |- _ => apply Z.ltb_ge in H
  | H : (_ <=? _) = true |- _ => apply Z.leb_le in H
  | H : (_ <=? _) = false |- _ => apply Z.leb_gt in H
  | H : (_ =? _) = true |- _ => apply Z.eqb_eq in H
  | H : (_ =? _) = false |- _ => apply Z.eqb_neq in H
  end.

(** Case split on the first test the goal is stuck on. *)
Ltac case_test :=
  match goal with
  | |- context [if ?b then _ else _] =>
      match b with
      | context [if _ then _ else _] => fail 1
      | _ => let E := fresh "Etest" in destruct b eqn:E; zbool
      end
  end.

Ltac case_test_in H :=
  match type of H with
  | context [if ?b then _ else _] =>
      match b with
      | context [if _ then _ else _] => fail 1
      | _ => let E := fresh "Etest" in destruct b eqn:E; zbool
      end
  end.

(** ** Lemmas: outcomes *)

Section outcomes.
Context {A B : Type}.
Implicit Types (m : res A) (f : A -> res B).

Lemma bind_Ok m f b :
  (m ≫= f) = Ok b <-> exists a, m = Ok a /\ f a = Ok b.
Proof. destruct m; cbn; naive_solver. Qed.

Lemma Ok_bind a f : (Ok a ≫= f) = f a.
Proof. done. Qed.

Lemma ensures_bind m f (Q : B -> Prop) :
  ensures (m ≫= f) Q <-> ensures m (fun a => ensures (f a) Q).
Proof. by destruct m. Qed.

Lemma ensures_mono m (P Q : A -> Prop) :
  ensures m P -> (forall a, P a -> Q a) -> ensures m Q.
Proof. destruct m; cbn; auto. Qed.

Lemma ensures_bind_intro m f (P : A -> Prop) (Q : B -> Prop) :
  ensures m P -> (forall a, P a -> ensures (f a) Q) -> ensures (m ≫= f) Q.
Proof. rewrite ensures_bind. apply ensures_mono. Qed.

Lemma ensures_Ok m (Q : A -> Prop) a : ensures m Q -> m = Ok a -> Q a.
Proof. by intros ? ->. Qed.

Lemma ensures_and_Ok m (Q : A -> Prop) :
  ensures m Q -> ensures m (fun a => m = Ok a /\ Q a).
Proof. destruct m; cbn; auto. Qed.

Lemma returns_bind m f (Q : B -> Prop) :
  returns (m ≫= f) Q <-> returns m (fun a => returns (f a) Q).
Proof. by destruct m. Qed.

Lemma returns_mono m (P Q : A -> Prop) :
  returns m P -> (forall a, P a -> Q a) -> returns m Q.
Proof. destruct m; cbn; auto. Qed.

Lemma returns_bind_intro m f (P : A -> Prop) (Q : B -> Prop) :
  returns m P -> (forall a, P a -> returns (f a) Q) -> returns (m ≫= f) Q.
Proof. rewrite returns_bind. apply returns_mono. Qed.

Lemma returns_and_Ok m (Q : A -> Prop) :
  returns m Q -> returns m (fun a => m = Ok a /\ Q a).
Proof. destruct m; cbn; auto. Qed.

Lemma returns_Ok m (Q : A -> Prop) : returns m Q <-> exists a, m = Ok a /\ Q a.
Proof. destruct m; cbn; naive_solver. Qed.

Lemma ensures_safe m (Q : A -> Prop) : ensures m Q -> safe m.
Proof. unfold safe. destruct m; cbn; auto. Qed.
End outcomes.

(** Invert a hypothesis [m = Ok v] whose [m] is built from binds and tests. *)
Ltac inv_ok H :=
  repeat first
  [ discriminate H
  | match type of H with
    | (_ ≫= _) = Ok _ =>
        let a := fresh "a" in let Ha := fresh "Ha" in
        apply bind_Ok in H; destruct H as [a [Ha H]]; try (progress inv_ok Ha)
    | (if _ then _ else _) = Ok _ => case_test_in H
    | Ok _ = Ok _ => injection H as H; try subst
    end ].

(** ** Lemmas: arrays *)

Section arrays.
Context {A : Type}.
Implicit Types (l : list A).

Lemma zlen_nonneg l : 0 <= zlen l.
Proof. unfold zlen. lia. Qed.

Lemma zlen_nil : zlen (@nil A) = 0.
Proof. done. Qed.

Lemma zlen_cons x l : zlen (x :: l) = 1 + zlen l.
Proof. unfold zlen. cbn [length]. lia. Qed.

Lemma zlen_app l k : zlen (l ++ k) = zlen l + zlen k.
Proof. unfold zlen. rewrite length_app. lia. Qed.

Lemma zlen_ztake n l : 0 <= n <= zlen l -> zlen (ztake n l) = n.
Proof. unfold zlen, ztake. intros. rewrite length_take. lia. Qed.

Lemma zlen_ztake_min n l : 0 <= n -> zlen (ztake n l) = Z.min n (zlen l).
Proof. unfold zlen, ztake. intros. rewrite length_take. lia. Qed.

Lemma zlen_zdrop n l : 0 <= n <= zlen l -> zlen (zdrop n l) = zlen l - n.
Proof. unfold zlen, zdrop. intros. rewrite length_drop. lia. Qed.

Lemma zlen_insert i x l : zlen (<[i := x]> l) = zlen l.
Proof. unfold zlen. by rewrite length_insert. Qed.

Lemma zlen_fmap {B} (f : A -> B) l : zlen (f <$> l) = zlen l.
Proof. unfold zlen. by rewrite length_fmap. Qed.

Lemma zlen_map {B} (f : A -> B) l : zlen (map f l) = zlen l.
Proof. unfold zlen. by rewrite length_map. Qed.

Lemma ztake_all n l : zlen l <= n -> ztake n l = l.
Proof. unfold zlen, ztake. intros. apply take_ge. lia. Qed.

Lemma ztake_0 l : ztake 0 l = [].
Proof. done. Qed.

Lemma zdrop_0 l : zdrop 0 l = l.
Proof. done. Qed.

Lemma zdrop_all n l : zlen l <= n -> zdrop n l = [].
Proof. unfold zlen, zdrop. intros. apply drop_ge. lia. Qed.

Lemma ztake_zdrop n l : ztake n l ++ zdrop n l = l.
Proof. apply take_drop. Qed.

Lemma ztake_app_le n l k : n <= zlen l -> ztake n (l ++ k) = ztake n l.
Proof. unfold zlen, ztake. intros. apply take_app_le. lia. Qed.

Lemma ztake_app_add n l k : 0 <= n -> ztake (zlen l + n) (l ++ k) = l ++ ztake n k.
Proof.
  unfold zlen, ztake. intros.
  replace (Z.to_nat (Z.of_nat (length l) + n)) with (length l + Z.to_nat n)%nat by lia.
  apply take_app_add.
Qed.

Lemma ztake_app_eq n l k : n = zlen l -> ztake n (l ++ k) = l.
Proof. intros ->. rewrite ztake_app_le by lia. apply ztake_all. lia. Qed.

Lemma zdrop_app_eq n l k : n = zlen l -> zdrop n (l ++ k) = k.
Proof. unfold zlen, zdrop. intros ->. apply drop_app_length'. lia. Qed.

Lemma zdrop_app_add n l k : 0 <= n -> zdrop (zlen l + n) (l ++ k) = zdrop n k.
Proof.
  unfold zlen, zdrop. intros.
  replace (Z.to_nat (Z.of_nat (length l) + n)) with (length l + Z.to_nat n)%nat by lia.
  apply drop_app_add.
Qed.

Lemma ztake_ztake n m l : 0 <= n <= m -> ztake n (ztake m l) = ztake n l.
Proof. unfold ztake. intros. rewrite take_take. f_equal. lia. Qed.

Lemma zdrop_zdrop n m l : 0 <= n -> 0 <= m -> zdrop n (zdrop m l) = zdrop (m + n) l.
Proof. unfold zdrop. intros. rewrite drop_drop. f_equal. lia. Qed.

Lemma ztake_add n m l :
  0 <= n -> 0 <= m -> ztake (n + m) l = ztake n l ++ ztake m (zdrop n l).
Proof.
  unfold ztake, zdrop. intros.
  rewrite Z2Nat.inj_add by lia. symmetry. apply take_take_drop.
Qed.

Lemma lookup_zdrop_0 l off x : 0 <= off ->
  l !! Z.to_nat off = Some x <-> zdrop off l = x :: zdrop (off + 1) l.
Proof.
  unfold zdrop. intros. replace (Z.to_nat (off + 1)) with (S (Z.to_nat off)) by lia.
  split.
  - intros. by apply drop_S.
  - intros E. rewrite <- (Nat.add_0_r (Z.to_nat off)), <- lookup_drop, E. done.
Qed.
End arrays.

#[export] Hint Rewrite @zlen_nil @zlen_cons @zlen_app @zlen_insert @zlen_fmap @zlen_map : zlen.

Ltac zl := autorewrite with zlen in *; repeat match goal with
  | |- context [zlen ?l] =>
      lazymatch goal with
      | H : 0 <= zlen l |- _ => fail
      | _ => pose proof (zlen_nonneg l)
      end
  | _ : context [zlen ?l] |- _ =>
      lazymatch goal with
      | H : 0 <= zlen l |- _ => fail
      | _ => pose proof (zlen_nonneg l)
      end
  end; try lia.

Lemma bytes_app l k : bytes (l ++ k) <-> bytes l /\ bytes k.
Proof. apply Forall_app. Qed.

Lemma bytes_ztake n l : bytes l -> bytes (ztake n l).
Proof. apply Forall_take. Qed.

Lemma bytes_zdrop n l : bytes l -> bytes (zdrop n l).
Proof. apply Forall_drop. Qed.

#[export] Hint Resolve bytes_ztake bytes_zdrop : fizz.

(** A decidable fact about bytes is checked on the 256 of them. *)
Lemma byte_forallb (f : Z -> bool) b :
  forallb f (seqZ 0 256) = true -> byte b -> f b = true.
Proof.
  intros H Hb. rewrite forallb_forall in H. apply H.
  apply list_elem_of_In, elem_of_seqZ. unfold byte in Hb. lia.
Qed.

(** Reads *)

Lemma get8_Ok msg i v :
  get8 msg i = Ok v <-> 0 <= i /\ msg !! Z.to_nat i = Some v.
Proof. unfold get8. case_test; [destruct (msg !! _) eqn:E|]; naive_solver lia. Qed.

Lemma get8_in_range msg i : 0 <= i < zlen msg -> exists v, get8 msg i = Ok v.
Proof.
  unfold zlen. intros. destruct (lookup_lt_is_Some_2 msg (Z.to_nat i)) as [v Hv]; [lia|].
  exists v. apply get8_Ok. auto with lia.
Qed.

Lemma get8_byte msg i v : bytes msg -> get8 msg i = Ok v -> byte v.
Proof. rewrite get8_Ok. intros Hb [_ Hv]. by eapply Forall_lookup_1. Qed.

Lemma get8_bound msg i v : get8 msg i = Ok v -> 0 <= i < zlen msg.
Proof.
  rewrite get8_Ok. intros [? Hv]. apply lookup_lt_Some in Hv. unfold zlen. lia.
Qed.

Lemma ensures_get8 msg i (Q : Z -> Prop) :
  0 <= i < zlen msg -> (forall v, get8 msg i = Ok v -> Q v) -> ensures (get8 msg i) Q.
Proof. intros Hi HQ. destruct (get8_in_range msg i Hi) as [v Hv]. rewrite Hv. by apply HQ. Qed.

Lemma returns_get8 msg i (Q : Z -> Prop) :
  0 <= i < zlen msg -> (forall v, get8 msg i = Ok v -> Q v) -> returns (get8 msg i) Q.
Proof. intros Hi HQ. destruct (get8_in_range msg i Hi) as [v Hv]. rewrite Hv. by apply HQ. Qed.

Lemma get8_app_r l k i : 0 <= i -> get8 (l ++ k) (zlen l + i) = get8 k i.
Proof.
  intros. unfold get8, zlen. rewrite !(proj2 (Z.leb_le _ _)) by lia.
  rewrite lookup_app_r by lia. by replace (_ - _)%nat with (Z.to_nat i) by lia.
Qed.

Lemma get8_app_l l k i : i < zlen l -> get8 (l ++ k) i = get8 l i.
Proof.
  unfold get8, zlen. intros. case_test; [|done]. by rewrite lookup_app_l by lia.
Qed.

Lemma get8_cons_0 x l : get8 (x :: l) 0 = Ok x.
Proof. done. Qed.

Lemma get8_zdrop msg off i : 0 <= off -> 0 <= i -> get8 (zdrop off msg) i = get8 msg (off + i).
Proof.
  intros. unfold get8, zdrop. rewrite !(proj2 (Z.leb_le _ _)) by lia.
  rewrite lookup_drop. by replace (Z.to_nat (off + i)) with (Z.to_nat off + Z.to_nat i)%nat by lia.
Qed.

Lemma get_slice_Ok msg off n bs :
  get_slice msg off n = Ok bs <->
  0 <= off /\ 0 <= n /\ off + n <= zlen msg /\ bs = ztake n (zdrop off msg).
Proof. unfold get_slice. case_test; zbool; [|rewrite !andb_false_iff, !Z.leb_gt in *]; naive_solver lia. Qed.

Lemma get_slice_in_range msg off n : 0 <= off -> 0 <= n -> off + n <= zlen msg ->
  get_slice msg off n = Ok (ztake n (zdrop off msg)).
Proof. intros. by apply get_slice_Ok. Qed.

Lemma zlen_slice {A} (msg : list A) off n : 0 <= off -> 0 <= n -> off + n <= zlen msg ->
  zlen (ztake n (zdrop off msg)) = n.
Proof. intros. rewrite zlen_ztake; rewrite ?zlen_zdrop; lia. Qed.

(** Writes *)

Lemma put8_Ok buf i v :
  0 <= i < zlen buf -> put8 buf i v = Ok (ztake i buf ++ v :: zdrop (i + 1) buf).
Proof.
  intros. unfold put8. rewrite (proj2 (Z.leb_le _ _)), (proj2 (Z.ltb_lt _ _)) by lia. cbn.
  f_equal. unfold zlen in *. rewrite insert_take_drop by lia. unfold ztake, zdrop.
  by replace (Z.to_nat (i + 1)) with (S (Z.to_nat i)) by lia.
Qed.

Lemma put_bytes_Ok bs buf i :
  0 <= i -> i + zlen bs <= zlen buf ->
  put_bytes buf i bs = Ok (ztake i buf ++ bs ++ zdrop (i + zlen bs) buf).
Proof.
  revert buf i. induction bs as [|b bs IH]; intros buf i Hi Hl; cbn [put_bytes].
  { rewrite zlen_nil, Z.add_0_r. cbn. by rewrite ztake_zdrop. }
  rewrite zlen_cons in *. pose proof (zlen_nonneg bs).
  rewrite put8_Ok by lia. cbn.
  assert (zlen (ztake i buf) = i) as Hti by (apply zlen_ztake; lia).
  rewrite IH; cycle 1.
  { lia. }
  { rewrite zlen_app, zlen_cons, Hti, zlen_zdrop; lia. }
  f_equal. rewrite <- Hti at 1. rewrite ztake_app_add by lia.
  rewrite <- Hti at 3. rewrite <- Z.add_assoc, zdrop_app_add by lia.
  rewrite <- app_assoc. cbn. do 3 f_equal.
  change (b :: zdrop (i + 1) buf) with ([b] ++ zdrop (i + 1) buf).
  replace (1 + zlen bs) with (zlen [b] + zlen bs) by done.
  rewrite zdrop_app_add, zdrop_zdrop by lia. f_equal. rewrite zlen_cons, zlen_nil. lia.
Qed.

Lemma put_bytes_app bs1 bs2 buf i :
  put_bytes buf i (bs1 ++ bs2) =
  (buf' ← put_bytes buf i bs1; put_bytes buf' (i + zlen bs1) bs2).
Proof.
  revert buf i. induction bs1 as [|b bs1 IH]; intros buf i; cbn [put_bytes app].
  { by rewrite zlen_nil, Z.add_0_r. }
  unfold mbind, res_bind at 1. destruct (put8 buf i b); cbn; [|done..].
  rewrite IH, zlen_cons. by rewrite Z.add_assoc.
Qed.

(** What a sequence of appending writes knows about its buffer: the first [o]
    bytes are [p]. *)
Lemma put_bytes_append bs buf o p :
  0 <= o -> ztake o buf = p -> o + zlen bs <= zlen buf ->
  exists buf', put_bytes buf o bs = Ok buf' /\ zlen buf' = zlen buf /\
    ztake (o + zlen bs) buf' = p ++ bs /\
    (forall k, k <= o -> ztake k buf' = ztake k buf).
Proof.
  intros Ho <- Hl. rewrite put_bytes_Ok by done. eexists; split; [done|].
  assert (zlen (ztake o buf) = o) as Hto by (apply zlen_ztake; zl).
  pose proof (zlen_nonneg bs).
  split_and!.
  - rewrite !zlen_app, zlen_zdrop; lia.
  - rewrite app_assoc. apply ztake_app_eq. rewrite zlen_app. lia.
  - intros k Hk. rewrite ztake_app_le by lia.
    destruct (decide (0 <= k)); [by rewrite ztake_ztake by lia|].
    unfold ztake. by replace (Z.to_nat k) with 0%nat by lia.
Qed.

(** C strings *)

Lemma cstr_no_nul s : Forall (fun c => c <> 0) s -> cstr s = s.
Proof. induction 1; cbn; [done|]. case_test; congruence. Qed.

Lemma cstr_nul_free s : Forall (fun c => c <> 0) (cstr s).
Proof. induction s; cbn; [done|]. case_test; auto. Qed.

Lemma cstr_cstr s : cstr (cstr s) = cstr s.
Proof. apply cstr_no_nul, cstr_nul_free. Qed.

Lemma cstr_prefix s : cstr s `prefix_of` s.
Proof.
  induction s; cbn; [done|]. case_test; [apply prefix_nil|by apply prefix_cons].
Qed.

Lemma strlen_le s : strlen s <= zlen s.
Proof. unfold strlen, zlen. pose proof (prefix_length _ _ (cstr_prefix s)). lia. Qed.

Lemma snprintf_s_fits cap s : strlen s < cap -> snprintf_s cap s = cstr s.
Proof. unfold strlen, snprintf_s. intros. apply ztake_all. lia. Qed.

Lemma bytes_cstr s : bytes s -> bytes (cstr s).
Proof. destruct (cstr_prefix s) as [k E]. rewrite E at 1. rewrite bytes_app. tauto. Qed.

Lemma tolower_idemp c : tolower (tolower c) = tolower c.
Proof. unfold tolower. repeat case_test; lia. Qed.

Lemma tolower_0 c : tolower c = 0 <-> c = 0.
Proof. unfold tolower. case_test; lia. Qed.

Lemma tolower_dot c : tolower c = 46 <-> c = 46.
Proof. unfold tolower. case_test; lia. Qed.

Lemma tolower_byte c : byte c -> byte (tolower c).
Proof. unfold tolower, byte. case_test; lia. Qed.

Lemma zlen_fold_case s : zlen (fold_case s) = strlen s.
Proof. unfold fold_case, strlen. by rewrite zlen_fmap. Qed.

(** [%d] writes one to ten digits. *)
Lemma decimal_digits v : Forall (fun c => 48 <= c <= 57) (decimal v) /\ 1 <= zlen (decimal v) <= 10.
Proof.
  assert (forall fuel u acc, Forall (fun c => 48 <= c <= 57) acc ->
    Forall (fun c => 48 <= c <= 57) (decimal_loop fuel u acc) /\
    zlen acc + Z.min 1 (Z.of_nat fuel) <= zlen (decimal_loop fuel u acc) <= zlen acc + Z.of_nat fuel) as Hd.
  { induction fuel as [|fuel IH]; intros u acc Hacc; cbn [decimal_loop]; [split; [done|lia]|].
    assert (Forall (fun c => 48 <= c <= 57) ((48 + u mod 10) :: acc)) as Hacc'.
    { constructor; [|done]. pose proof (Z.mod_pos_bound u 10). lia. }
    case_test; [split; [done|rewrite zlen_cons; lia]|].
    destruct (IH (u / 10) _ Hacc') as [? Hl]. split; [done|]. rewrite zlen_cons in Hl. lia. }
  destruct (Hd 10%nat v [] ltac:(constructor)) as [H1 H2]. split; [exact H1|]. exact H2.
Qed.

(** ** Lemmas: machine integers *)

(** ** Counters *)

Lemma u64_u64 a : u64 (u64 a) = u64 a.
Proof. unfold u64. apply Z.mod_mod. lia. Qed.

Lemma u64_wrapped a b : u64 (u64 a + b) = u64 (a + b).
Proof. unfold u64. by apply Z.add_mod_idemp_l. Qed.

Lemma u64_shift a b c : u64 a = u64 b -> u64 (a + c) = u64 (b + c).
Proof. unfold u64. intros E1. by rewrite <- Z.add_mod_idemp_l, E1, Z.add_mod_idemp_l by lia. Qed.

(** Two fields that do not overlap: or is addition. *)
Lemma lor_shiftl_add a b k :
  0 <= k -> 0 <= b < 2 ^ k -> Z.lor (Z.shiftl a k) b = a * 2 ^ k + b.
Proof.
  intros Hk Hb. rewrite <- Z.shiftl_mul_pow2 by lia. symmetry. apply Z.add_nocarry_lor.
  apply Z.bits_inj'. intros n Hn. rewrite Z.land_spec, Z.bits_0.
  destruct (Z.lt_ge_cases n k).
  - by rewrite Z.shiftl_spec_low by lia.
  - rewrite <- (Z.mod_small b (2 ^ k)) by lia. rewrite Z.mod_pow2_bits_high by lia.
    apply andb_false_r.
Qed.

Lemma lor_mul_add a b k : 0 <= k -> 0 <= b < 2 ^ k -> Z.lor (a * 2 ^ k) b = a * 2 ^ k + b.
Proof. intros. rewrite <- Z.shiftl_mul_pow2 at 1 by lia. by apply lor_shiftl_add. Qed.

Lemma byte_land_192_pointer l : byte l -> (Z.land l 192 =? 192) = (192 <=? l).
Proof.
  intros Hl. apply Bool.eqb_prop.
  apply (byte_forallb (fun l => Bool.eqb (Z.land l 192 =? 192) (192 <=? l)) l eq_refl Hl).
Qed.

Lemma byte_land_192_label l : byte l -> (Z.land l 192 =? 0) = (l <=? 63).
Proof.
  intros Hl. apply Bool.eqb_prop.
  apply (byte_forallb (fun l => Bool.eqb (Z.land l 192 =? 0) (l <=? 63)) l eq_refl Hl).
Qed.

Lemma byte_land_63 l : byte l -> 192 <= l -> Z.land l 63 = l - 192.
Proof.
  intros Hl H. change 63 with (Z.ones 6). rewrite Z.land_ones by lia.
  unfold byte in Hl. symmetry. apply (Z.mod_unique_pos l (2 ^ 6) 3); lia.
Qed.

(** ** Lemmas: sequences of writes *)

Lemma split_at {A} (l : list A) o n : 0 <= o -> 0 <= n -> o + n <= zlen l ->
  exists p x s, l = p ++ x ++ s /\ zlen p = o /\ zlen x = n.
Proof.
  intros Ho Hn Hl. exists (ztake o l), (ztake n (zdrop o l)), (zdrop n (zdrop o l)).
  rewrite ztake_zdrop, ztake_zdrop. split_and!; [done|apply zlen_ztake|apply zlen_slice]; zl.
Qed.

Lemma put_bytes_at p x s bs : zlen x = zlen bs ->
  put_bytes (p ++ x ++ s) (zlen p) bs = Ok (p ++ bs ++ s).
Proof.
  intros Hx. rewrite put_bytes_Ok by zl. rewrite ztake_app_eq, <- Hx by done.
  rewrite zdrop_app_add by zl. by rewrite zdrop_app_eq.
Qed.

Lemma put_bytes_split l p x s i bs : l = p ++ x ++ s -> i = zlen p -> zlen x = zlen bs ->
  put_bytes l i bs = Ok (p ++ bs ++ s).
Proof. intros -> -> Hx. by apply put_bytes_at. Qed.

Lemma put_bytes_seq {B} out p p' bs1 bs2 (f : list Z -> res B) : p' = p + zlen bs1 ->
  (b ← put_bytes out p bs1; c ← put_bytes b p' bs2; f c) = (c ← put_bytes out p (bs1 ++ bs2); f c).
Proof.
  intros ->. rewrite put_bytes_app. by destruct (put_bytes out p bs1).
Qed.

(** A field that is filled in after what follows it. *)
Lemma put_bytes_gap {B} out o bs1 bs2 bs3 p2 p3 (f : list Z -> res B) :
  0 <= o -> p2 = o + zlen bs1 -> p3 = o + zlen bs1 + zlen bs2 ->
  o + zlen bs1 + zlen bs2 + zlen bs3 <= zlen out ->
  (x ← put_bytes out o bs1; y ← put_bytes x p3 bs3; z ← put_bytes y p2 bs2; f z) =
  (z ← put_bytes out o (bs1 ++ bs2 ++ bs3); f z).
Proof.
  intros Ho -> -> Hl.
  destruct (split_at out o (zlen bs1)) as (p & x & s & -> & <- & Hx); [zl..|].
  destruct (split_at s 0 (zlen bs2)) as (e & y & s' & -> & He & Hy); [zl..|].
  destruct e; [|rewrite zlen_cons in He; zl]. cbn [app].
  destruct (split_at s' 0 (zlen bs3)) as (e & z & s'' & -> & He' & Hz); [zl..|].
  destruct e; [|rewrite zlen_cons in He'; zl]. cbn [app].
  assert (put_bytes (p ++ x ++ y ++ z ++ s'') (zlen p) (bs1 ++ bs2 ++ bs3) =
    Ok (p ++ bs1 ++ bs2 ++ bs3 ++ s'')) as ->.
  { replace (p ++ x ++ y ++ z ++ s'') with (p ++ (x ++ y ++ z) ++ s'') by by rewrite <- !app_assoc.
    rewrite put_bytes_at by zl. by rewrite <- !app_assoc. }
  rewrite (put_bytes_at p x), Ok_bind by done.
  replace (zlen p + zlen bs1 + zlen bs2) with (zlen (p ++ bs1 ++ y)) by zl.
  replace (p ++ bs1 ++ y ++ z ++ s'') with ((p ++ bs1 ++ y) ++ z ++ s'') by by rewrite <- !app_assoc.
  rewrite put_bytes_at, Ok_bind by done.
  replace (zlen p + zlen bs1) with (zlen (p ++ bs1)) by zl.
  replace ((p ++ bs1 ++ y) ++ bs3 ++ s'') with ((p ++ bs1) ++ y ++ bs3 ++ s'') by by rewrite <- !app_assoc.
  rewrite put_bytes_at, Ok_bind by done. by rewrite <- !app_assoc.
Qed.

Lemma put8_put_bytes buf p v : put8 buf p v = put_bytes buf p [v].
Proof. cbn. by destruct (put8 buf p v). Qed.

Lemma put_bytes_1_bind {B} buf p v (f : list Z -> res B) :
  (b ← put8 buf p v; f b) = (b ← put_bytes buf p [v]; f b).
Proof. by rewrite put8_put_bytes. Qed.

(** ** Lemmas: lists *)

Lemma filter_id {A} (P : A -> Prop) `{!forall x, Decision (P x)} (l : list A) :
  (forall x, x ∈ l -> P x) -> filter P l = l.
Proof.
  induction l as [|x l IH]; intros Hl; [done|].
  rewrite filter_cons_True by (apply Hl; set_solver). f_equal. apply IH. set_solver.
Qed.

(** ** Sums over a list *)

Section sums.
Context {A : Type}.

Fixpoint sum_over (f : A -> Z) (l : list A) : Z :=
  match l with
  | [] => 0
  | a :: l' => f a + sum_over f l'
  end.

Lemma sum_insert f l i a b : l !! i = Some a -> sum_over f (<[i := b]> l) = sum_over f l - f a + f b.
Proof.
  revert i. induction l as [|c l IH]; intros [|i] Hi; [done|done| |].
  - injection Hi as ->. cbn. lia.
  - change (<[S i := b]> (c :: l)) with (c :: <[i := b]> l). cbn [sum_over]. rewrite (IH i Hi). lia.
Qed.

Lemma sum_add f g l : sum_over (fun a => f a + g a) l = sum_over f l + sum_over g l.
Proof. induction l as [|a l IH]; cbn; [done|]. rewrite IH. lia. Qed.

Lemma sum_sub f g l : sum_over (fun a => f a - g a) l = sum_over f l - sum_over g l.
Proof. induction l as [|a l IH]; cbn; [done|]. rewrite IH. lia. Qed.

Lemma sum_app f l k : sum_over f (l ++ k) = sum_over f l + sum_over f k.
Proof. induction l as [|a l IH]; cbn; [done|]. rewrite IH. lia. Qed.

Lemma sum_mono f g l : (forall a, f a <= g a) -> sum_over f l <= sum_over g l.
Proof. intros Hf. induction l as [|a l IH]; cbn; [done|]. specialize (Hf a). lia. Qed.

Lemma sum_ext f g l : (forall a, a ∈ l -> f a = g a) -> sum_over f l = sum_over g l.
Proof.
  induction l as [|a l IH]; intros Hf; cbn [sum_over]; [done|].
  rewrite (Hf a), IH; [done|intros b Hb; apply Hf; by right|by left].
Qed.

Lemma sum_const v l : sum_over (fun _ => v) l = v * zlen l.
Proof. induction l as [|a l IH]; cbn [sum_over]; [unfold zlen; cbn; lia|]. rewrite IH, zlen_cons. lia. Qed.

Lemma sum_zero f l : (forall a, a ∈ l -> f a = 0) -> sum_over f l = 0.
Proof. intros Hf. rewrite (sum_ext f (fun _ => 0)) by done. by rewrite sum_const. Qed.
End sums.

Lemma sum_fmap {A B} (f : B -> Z) (g : A -> B) l : sum_over f (g <$> l) = sum_over (fun a => f (g a)) l.
Proof. induction l as [|a l IH]; cbn; [done|]. by rewrite IH. Qed.

Lemma sum_index {A} (f : A -> Z) (g : nat -> Z) l : forall n, (forall k a, l !! k = Some a -> f a = g (n + k)%nat) ->
  sum_over f l = sum_over g (seq n (length l)).
Proof.
  induction l as [|a l IH]; intros n Hf; cbn [sum_over length seq]; [done|]. rewrite (Hf 0%nat a eq_refl), Nat.add_0_r. f_equal.
  apply IH. intros k b Hk. rewrite (Hf (S k) b Hk). f_equal. lia.
Qed.
