(* ===== verification/DnsName.v ===== *)
(** * Domain names (src/dns_msg.c, names)

    The name codec: [dns_name_decode] with compression pointers,
    [dns_name_encode], the case-insensitive comparison [dns_name_equal] and
    the zone-containment predicate [dns_name_in_bailiwick]. The file also
    holds the wire grammar of names ([name_at]) and the dotted text of a
    label list, which the decoder and the encoder are proved against. *)

From stdpp Require Import prelude list.
From Stdlib Require Import ZArith Lia.
From S2P Require Import Prelude.

Local Open Scope Z_scope.

Definition DNS_MAX_NAME : Z := 255.
Definition DNS_MAX_LABEL : Z := 63.
Definition DNS_HDR_LEN : Z := 12.
Definition MAX_PTR_JUMPS : Z := 32.

(** The size of a [char name[DNS_MAX_NAME + 1]] array. *)
Definition NAME_CAP : Z := DNS_MAX_NAME + 1.

(** ** Decoding *)

(** [out[written++] = c] on an array of [cap] bytes; [w] is what
    [out[0 .. written)] holds. *)
Definition putc (cap : Z) (w : list Z) (c : Z) : res (list Z) :=
  if zlen w <? cap then Ok (w ++ [c]) else Fault.

(** The [for] loop that copies the label's [n] bytes from [msg + p]. *)
Fixpoint copy_label (msg : list Z) (p : Z) (n : nat) (cap : Z) (w : list Z) : res (list Z) :=
  match n with
  | O => Ok w
  | S n' =>
      c ← get8 msg p;
      w' ← putc cap w (tolower c);
      copy_label msg (p + 1) n' cap w'
  end.

(** The local variables of the decoder's loop. *)
Record decode_state := DecodeState {
  d_off : Z;
  d_out : list Z;        (* out[0 .. written) *)
  d_jumps : Z;
  d_jumped : bool;
  d_after : Z
}.

(** One iteration of [for (;;)]; [inr] is the [break]. *)
Definition decode_iter (msg : list Z) (cap : Z) (s : decode_state)
    : res (decode_state + decode_state) :=
  let off := d_off s in
  let written := zlen (d_out s) in
  if zlen msg <=? off then Fail else
  l ← get8 msg off;
  if l =? 0 then
    Ok (inr (DecodeState off (d_out s) (d_jumps s) (d_jumped s)
               (if d_jumped s then d_after s else off + 1)))
  else if Z.land l 192 =? 192 then
    if zlen msg <=? off + 1 then Fail else
    let jumps := d_jumps s + 1 in
    if MAX_PTR_JUMPS <? jumps then Fail else
    b ← get8 msg (off + 1);
    let target := Z.lor (Z.shiftl (Z.land l 63) 8) b in
    let after := if d_jumped s then d_after s else off + 2 in
    if off <=? target then Fail else
    Ok (inl (DecodeState target (d_out s) jumps true after))
  else if negb (Z.land l 192 =? 0) then Fail
  else if DNS_MAX_LABEL <? l then Fail
  else if zlen msg <? off + 1 + l then Fail
  else if cap <? written + (if written =? 0 then 0 else 1) + l + 1 then Fail
  else if DNS_MAX_NAME <? written + l then Fail
  else
    w ← (if written =? 0 then Ok (d_out s) else putc cap (d_out s) 46);
    w' ← copy_label msg (off + 1) (Z.to_nat l) cap w;
    Ok (inl (DecodeState (off + 1 + l) w' (d_jumps s) (d_jumped s) (d_after s))).

Fixpoint decode_loop (fuel : nat) (msg : list Z) (cap : Z) (s : decode_state) : res decode_state :=
  match fuel with
  | O => Diverge
  | S fuel' =>
      r ← decode_iter msg cap s;
      match r with
      | inl s' => decode_loop fuel' msg cap s'
      | inr s' => Ok s'
      end
  end.

(** Every iteration but the last takes a pointer or writes a byte. *)
Definition decode_fuel (cap : Z) : nat := Z.to_nat (cap + MAX_PTR_JUMPS + 1).

(** Returns the bytes written before the terminating NUL and [*next_off]. *)
Definition dns_name_decode (msg : list Z) (off cap : Z) : res (list Z * Z) :=
  if cap =? 0 then Fail else
  s ← decode_loop (decode_fuel cap) msg cap (DecodeState off [] 0 false 0);
  if zlen (d_out s) <? cap then Ok (d_out s, d_after s) else Fault.

(** ** Encoding *)

(** [strchr(p, '.')]: the bytes before the first dot, and the string after it. *)
Fixpoint strchr_dot (p : list Z) : list Z * option (list Z) :=
  match p with
  | [] => ([], None)
  | c :: p' =>
      if c =? 46 then ([], Some p')
      else let '(lab, rest) := strchr_dot p' in (c :: lab, rest)
  end.

(** The [while ( *p )] loop; [out + base] is the pointer the caller passes and
    [cap] the room it claims there, [out] is the caller's whole array. *)
Fixpoint encode_loop (fuel : nat) (p out : list Z) (base cap o : Z) : res (list Z * Z) :=
  match fuel with
  | O => Diverge
  | S fuel' =>
      match p with
      | [] => Ok (out, o)
      | _ :: _ =>
          let '(lab, dot) := strchr_dot p in
          let l := zlen lab in
          if (l =? 0) || (DNS_MAX_LABEL <? l) then Fail else
          if cap <? o + 1 + l + 1 then Fail else
          out1 ← put8 out (base + o) (u8 l);
          out2 ← put_bytes out1 (base + o + 1) lab;
          match dot with
          | None => Ok (out2, o + 1 + l)
          | Some rest => encode_loop fuel' rest out2 base cap (o + 1 + l)
          end
      end
  end.

(** Returns the array and [*written]. *)
Definition dns_name_encode (name out : list Z) (base cap : Z) : res (list Z * Z) :=
  let p := cstr name in
  if bool_decide (p = []) || bool_decide (p = [46]) then
    if cap <? 1 then Fail else
    out' ← put8 out base 0;
    Ok (out', 1)
  else
    '(out', o) ← encode_loop (S (length p)) p out base cap 0;
    if cap <? o + 1 then Fail else
    out'' ← put8 out' (base + o) 0;
    if DNS_MAX_NAME + 1 <? o + 1 then Fail else
    Ok (out'', o + 1).

(** ** Comparison *)

Fixpoint dns_name_equal (a b : list Z) {struct a} : bool :=
  match a, b with
  | x :: a', y :: b' =>
      if (x =? 0) || (y =? 0) then x =? y
      else if tolower x =? tolower y then dns_name_equal a' b' else false
  | _, _ => chr a =? chr b
  end.

Definition dns_name_in_bailiwick (name zone : list Z) : bool :=
  if chr zone =? 0 then true else
  let nl := strlen name in
  let zl := strlen zone in
  if nl =? zl then dns_name_equal name zone
  else if nl <? zl + 2 then false
  else (chr (zdrop (nl - zl - 1) name) =? 46) && dns_name_equal (zdrop (nl - zl) name) zone.

(** ** Reference definitions *)

(** The wire grammar of RFC 1035 s3.1 and s4.1.4: at offset [off] of [msg]
    stands a name with labels [ls]; reading it follows [j] pointers, and the
    bytes after it start at [next]. *)
Inductive name_at (msg : list Z) : Z -> nat -> list (list Z) -> Z -> Prop :=
| name_at_end off :
    get8 msg off = Ok 0 ->
    name_at msg off 0 [] (off + 1)
| name_at_label off j lab ls next :
    get8 msg off = Ok (zlen lab) ->
    1 <= zlen lab <= 63 ->
    get_slice msg (off + 1) (zlen lab) = Ok lab ->
    name_at msg (off + 1 + zlen lab) j ls next ->
    name_at msg off j (lab :: ls) next
| name_at_pointer off b0 b1 j ls next :
    get8 msg off = Ok b0 ->
    192 <= b0 ->
    get8 msg (off + 1) = Ok b1 ->
    (b0 - 192) * 256 + b1 < off ->
    name_at msg ((b0 - 192) * 256 + b1) j ls next ->
    name_at msg off (S j) ls (off + 2).

Fixpoint join_dots (ls : list (list Z)) : list Z :=
  match ls with
  | [] => []
  | [l] => l
  | l :: ls' => l ++ 46 :: join_dots ls'
  end.

Fixpoint split_dots (s : list Z) : list (list Z) :=
  match s with
  | [] => [[]]
  | c :: s' =>
      if c =? 46 then [] :: split_dots s'
      else match split_dots s' with
           | l :: ls => (c :: l) :: ls
           | [] => [[c]]
           end
  end.

(** The presentation form: lower case, dots between labels, "" for the root. *)
Definition text_of (ls : list (list Z)) : list Z :=
  join_dots (map (map tolower) ls).

Definition label_ok (l : list Z) : bool := (1 <=? zlen l) && (zlen l <=? 63).

Definition lab_bytes (ls : list (list Z)) : list Z := concat (map (fun l => zlen l :: l) ls).

(** The uncompressed wire form. *)
Definition wire_of (ls : list (list Z)) : list Z :=
  lab_bytes ls ++ [0].

(** The labels a presentation-form name stands for: none for "" and ".", and
    no empty label for a trailing dot. *)
Definition text_labels (s : list Z) : list (list Z) :=
  if bool_decide (s = []) || bool_decide (s = [46]) then []
  else let ls := split_dots s in
       if bool_decide (last ls = Some []) then removelast ls else ls.

(** What [dns_name_encode] is to write for a name, if it can be written. *)
Definition encode_spec (name : list Z) : option (list Z) :=
  let ls := text_labels (cstr name) in
  if forallb label_ok ls && (zlen (wire_of ls) <=? DNS_MAX_NAME + 1)
  then Some (wire_of ls) else None.

(** The labels the encoder's loop reads from the string at [p]. *)
Definition loop_labels (p : list Z) : list (list Z) :=
  if bool_decide (p = []) then []
  else let ls := split_dots p in
       if bool_decide (last ls = Some []) then removelast ls else ls.

(** A presentation-form name without its trailing dot. *)
Definition strip_dot (s : list Z) : list Z :=
  if bool_decide (last s = Some 46) then removelast s else s.

(** A label the presentation form keeps: not empty, with no dot and no NUL. *)
Definition clean_label (l : list Z) : Prop :=
  1 <= zlen l /\ Forall (fun c => c <> 46 /\ c <> 0) l.

(** Appending labels to the text decoded so far. *)
Definition extend (w : list Z) (ls : list (list Z)) : list Z :=
  fold_left (fun w l => (if zlen w =? 0 then w else w ++ [46]) ++ map tolower l) ls w.

(** The outcome of one iteration: end of name, pointer, or label. *)
Inductive decode_step (msg : list Z) (cap : Z) (s : decode_state) : decode_state + decode_state -> Prop :=
| step_end :
    get8 msg (d_off s) = Ok 0 ->
    decode_step msg cap s (inr (DecodeState (d_off s) (d_out s) (d_jumps s) (d_jumped s)
      (if d_jumped s then d_after s else d_off s + 1)))
| step_pointer b0 b1 :
    get8 msg (d_off s) = Ok b0 -> 192 <= b0 -> get8 msg (d_off s + 1) = Ok b1 ->
    (b0 - 192) * 256 + b1 < d_off s -> d_jumps s < MAX_PTR_JUMPS ->
    decode_step msg cap s (inl (DecodeState ((b0 - 192) * 256 + b1) (d_out s) (d_jumps s + 1) true
      (if d_jumped s then d_after s else d_off s + 2)))
| step_label lab :
    get8 msg (d_off s) = Ok (zlen lab) -> 1 <= zlen lab <= 63 ->
    get_slice msg (d_off s + 1) (zlen lab) = Ok lab ->
    zlen (extend (d_out s) [lab]) < cap -> zlen (d_out s) + zlen lab <= DNS_MAX_NAME ->
    decode_step msg cap s (inl (DecodeState (d_off s + 1 + zlen lab) (extend (d_out s) [lab])
      (d_jumps s) (d_jumped s) (d_after s))).

(** ** Lemmas: comparison *)

Lemma dns_name_equal_iff a b :
  dns_name_equal a b = true <-> fold_case a = fold_case b.
Proof.
  unfold fold_case. revert b. induction a as [|x a IH]; intros [|y b]; cbn -[Z.eqb].
  - done.
  - rewrite Z.eqb_eq. destruct (Z.eqb_spec y 0) as [->|]; cbn -[Z.eqb]; naive_solver.
  - rewrite Z.eqb_eq. destruct (Z.eqb_spec x 0) as [->|]; cbn -[Z.eqb]; naive_solver.
  - destruct (Z.eqb_spec x 0) as [->|]; destruct (Z.eqb_spec y 0) as [->|]; cbn -[Z.eqb].
    + done.
    + rewrite Z.eqb_eq. naive_solver.
    + rewrite Z.eqb_eq. naive_solver.
    + case_test; [rewrite IH|]; naive_solver congruence.
Qed.

Lemma dns_name_equal_false a b :
  dns_name_equal a b = false <-> fold_case a <> fold_case b.
Proof. rewrite <- dns_name_equal_iff. by destruct (dns_name_equal a b). Qed.

Lemma dns_name_equal_refl a : dns_name_equal a a = true.
Proof. by apply dns_name_equal_iff. Qed.

Lemma fold_case_cstr s : fold_case (cstr s) = fold_case s.
Proof. unfold fold_case. by rewrite cstr_cstr. Qed.

Lemma fold_case_nil_iff z : fold_case z = [] <-> chr z = 0.
Proof. unfold fold_case. destruct z as [|c z]; cbn; [done|]. case_test; naive_solver. Qed.

Lemma fold_case_zdrop s n : 0 <= n <= strlen s -> fold_case (zdrop n s) = zdrop n (fold_case s).
Proof.
  intros Hn. unfold fold_case, zdrop, strlen, zlen in *. rewrite <- fmap_drop. f_equal.
  assert (Z.to_nat n <= length (cstr s))%nat as Hk by lia. clear Hn.
  revert s Hk. generalize (Z.to_nat n). intros k. induction k as [|k IH]; intros s Hk; [done|].
  destruct s as [|c s]; cbn in *; [lia|]. case_test_in Hk; cbn in *; [lia|].
  apply IH. lia.
Qed.

Lemma chr_zdrop s n : 0 <= n < strlen s -> chr (zdrop n s) = 46 <-> exists k, zdrop n (fold_case s) = 46 :: k.
Proof.
  intros Hn. rewrite <- fold_case_zdrop by lia.
  assert (fold_case (zdrop n s) <> []) as Hne.
  { rewrite fold_case_zdrop by lia. intros E. apply (f_equal zlen) in E.
    rewrite zlen_zdrop in E; rewrite ?zlen_fold_case in *; [|lia]. rewrite zlen_nil in E. lia. }
  rewrite fold_case_nil_iff in Hne. destruct (zdrop n s) as [|c t]; cbn in *; [done|].
  unfold fold_case. cbn. rewrite (proj2 (Z.eqb_neq c 0)) by done. cbn.
  rewrite <- (tolower_dot c). split; [intros ->; eauto|intros [k E]; congruence].
Qed.

(** [dns_name_in_bailiwick] on the case-folded texts. *)
Lemma in_bailiwick_iff name zone :
  dns_name_in_bailiwick name zone = true <->
  fold_case zone = [] \/ fold_case name = fold_case zone \/
  exists pre, pre <> [] /\ fold_case name = pre ++ 46 :: fold_case zone.
Proof.
  unfold dns_name_in_bailiwick. rewrite fold_case_nil_iff.
  destruct (Z.eqb_spec (chr zone) 0) as [|Hz]; [tauto|].
  assert (0 < strlen zone) as Hzl.
  { rewrite <- fold_case_nil_iff in Hz. rewrite <- zlen_fold_case.
    destruct (fold_case zone); [done|]. rewrite zlen_cons. zl. }
  assert (forall pre, fold_case name = pre ++ 46 :: fold_case zone ->
    strlen name = zlen pre + 1 + strlen zone) as Hlen.
  { intros pre E. apply (f_equal zlen) in E. rewrite zlen_app, zlen_cons, !zlen_fold_case in E. lia. }
  assert (strlen name <> strlen zone -> fold_case name <> fold_case zone) as Hne.
  { intros ? E. apply (f_equal zlen) in E. rewrite !zlen_fold_case in E. lia. }
  case_test; [|case_test].
  - rewrite dns_name_equal_iff. split; [tauto|]. intros [?|[?|(pre & ? & E)]]; [done..|].
    specialize (Hlen _ E). zl.
  - split; [done|]. intros [?|[?|(pre & Hp & E)]]; [done|naive_solver|].
    specialize (Hlen _ E). destruct pre; [done|]. rewrite zlen_cons in *. zl.
  - rewrite andb_true_iff, Z.eqb_eq, dns_name_equal_iff, chr_zdrop, fold_case_zdrop by lia.
    set (d := strlen name - strlen zone) in *. rename Etest0 into Hd.
    assert (zlen (fold_case name) = strlen name) as Hn by apply zlen_fold_case.
    split.
    + intros [[k Hk] Hs]. right; right. exists (ztake (d - 1) (fold_case name)). split.
      * intros E%(f_equal zlen). rewrite zlen_ztake, zlen_nil in E; lia.
      * rewrite <- (ztake_zdrop (d - 1) (fold_case name)) at 1. f_equal.
        rewrite Hk. f_equal. rewrite <- Hs.
        transitivity (zdrop 1 (zdrop (d - 1) (fold_case name))); [by rewrite Hk|].
        rewrite zdrop_zdrop by lia. f_equal. lia.
    + intros [?|[?|(pre & Hp & E)]]; [done|naive_solver|]. specialize (Hlen _ E).
      rewrite E. replace (d - 1) with (zlen pre) by lia. replace d with (zlen pre + 1) by lia.
      rewrite zdrop_app_eq, zdrop_app_add by lia. cbn. split; [eauto|done].
Qed.

(** ** Lemmas: the text of labels *)

Lemma extend_cons w l ls :
  extend w (l :: ls) = extend ((if zlen w =? 0 then w else w ++ [46]) ++ map tolower l) ls.
Proof. done. Qed.

Lemma zlen_extend_mono w ls : zlen w <= zlen (extend w ls).
Proof.
  revert w. induction ls as [|l ls IH]; intros w; [cbn; lia|].
  rewrite extend_cons. etrans; [|apply IH]. case_test; zl.
Qed.

Lemma zlen_extend_ge w ls : Forall (fun l => 1 <= zlen l) ls -> zlen w + zlen ls <= zlen (extend w ls).
Proof.
  intros H. revert w. induction H as [|l ls Hl _ IH]; intros w; [cbn; zl|].
  rewrite extend_cons, zlen_cons. etrans; [|apply IH]. case_test; zl.
Qed.

Lemma extend_nonempty w ls :
  0 < zlen w -> extend w ls = w ++ concat (map (fun l => 46 :: map tolower l) ls).
Proof.
  revert w. induction ls as [|l ls IH]; intros w Hw; [by rewrite app_nil_r|].
  rewrite extend_cons. case_test; [lia|]. rewrite IH.
  - cbn. by rewrite <- !app_assoc.
  - zl.
Qed.

Lemma join_dots_cons l ls : ls <> [] -> join_dots (l :: ls) = l ++ 46 :: join_dots ls.
Proof. by destruct ls. Qed.

Lemma join_dots_concat l ls :
  join_dots (l :: ls) = l ++ concat (map (fun l => 46 :: l) ls).
Proof.
  revert l. induction ls as [|l' ls IH]; intros l; [by rewrite app_nil_r|].
  rewrite join_dots_cons by done. cbn [map concat]. rewrite IH. done.
Qed.

Lemma extend_nil ls : Forall (fun l => 1 <= zlen l) ls -> extend [] ls = text_of ls.
Proof.
  intros H. destruct H as [|l ls Hl Hls]; [done|].
  rewrite extend_cons, zlen_nil. change (0 =? 0) with true. unfold text_of. cbn [map app].
  rewrite join_dots_concat, extend_nonempty; [|zl].
  cbn. rewrite map_map. done.
Qed.

(** ** Lemmas: decoding *)

Lemma name_at_labels msg off j ls next :
  name_at msg off j ls next -> Forall (fun l => 1 <= zlen l) ls.
Proof. induction 1; auto with lia. Qed.

Lemma name_at_off msg off j ls next : name_at msg off j ls next -> 0 <= off < zlen msg.
Proof. destruct 1; eauto using get8_bound. Qed.

Lemma name_at_next msg off j ls next :
  name_at msg off j ls next -> off < next <= zlen msg.
Proof.
  induction 1 as [off H|off j lab ls next H Hl Hs _ IH|off b0 b1 j ls next H H0 H1 Ht _ IH].
  - apply get8_bound in H. lia.
  - lia.
  - apply get8_bound in H1. lia.
Qed.

Lemma putc_Ok cap w c : zlen w < cap -> putc cap w c = Ok (w ++ [c]).
Proof. unfold putc. intros. by rewrite (proj2 (Z.ltb_lt _ _)). Qed.

Lemma copy_label_Ok msg p n cap w :
  0 <= p -> p + Z.of_nat n <= zlen msg -> zlen w + Z.of_nat n <= cap ->
  copy_label msg p n cap w = Ok (w ++ map tolower (ztake (Z.of_nat n) (zdrop p msg))).
Proof.
  revert p w. induction n as [|n IH]; intros p w Hp Hm Hc.
  { by rewrite app_nil_r. }
  cbn [copy_label]. destruct (get8_in_range msg p) as [v Hv]; [lia|]. rewrite Hv. cbn.
  rewrite putc_Ok by lia. cbn. rewrite IH by (zl).
  apply get8_Ok in Hv as [_ Hv]. apply lookup_zdrop_0 in Hv; [|lia]. rewrite Hv.
  rewrite <- app_assoc. do 2 f_equal. unfold ztake. by rewrite !Nat2Z.id.
Qed.

Lemma zlen_extend_1 w l :
  zlen (extend w [l]) = zlen w + (if zlen w =? 0 then 0 else 1) + zlen l.
Proof. cbn. case_test; zl. Qed.

Lemma decode_iter_label msg cap s l :
  bytes msg -> 0 <= d_off s -> get8 msg (d_off s) = Ok l -> 1 <= l <= 63 ->
  d_off s + 1 + l <= zlen msg -> zlen (d_out s) + (if zlen (d_out s) =? 0 then 0 else 1) + l + 1 <= cap ->
  zlen (d_out s) + l <= DNS_MAX_NAME ->
  exists lab, zlen lab = l /\ get_slice msg (d_off s + 1) l = Ok lab /\
    decode_iter msg cap s = Ok (inl (DecodeState (d_off s + 1 + l) (extend (d_out s) [lab])
      (d_jumps s) (d_jumped s) (d_after s))).
Proof.
  intros Hb Ho Hl Hr Hm Hc Hn. exists (ztake l (zdrop (d_off s + 1) msg)).
  split; [apply zlen_slice; lia|]. split; [apply get_slice_in_range; lia|].
  unfold decode_iter. assert (byte l) as Hbl by (eauto using get8_byte).
  rewrite Hl, Ok_bind. cbv beta zeta.
  rewrite byte_land_192_pointer, byte_land_192_label by done. unfold DNS_MAX_LABEL.
  apply get8_bound in Hl as Hlt.
  cbn [extend fold_left]. destruct (zlen (d_out s) =? 0) eqn:Ew; zbool;
    do 8 (case_test; [lia|]); rewrite ?putc_Ok by lia; rewrite Ok_bind, copy_label_Ok by zl;
    by rewrite Z2Nat.id by lia.
Qed.

Lemma ensures_decode_iter msg cap s :
  bytes msg -> 0 <= d_off s -> ensures (decode_iter msg cap s) (decode_step msg cap s).
Proof.
  intros Hb Ho. unfold decode_iter at 1. case_test; [done|].
  destruct (get8_in_range msg (d_off s)) as [l Hl]; [lia|].
  assert (byte l) as Hbl by (eauto using get8_byte). rewrite Hl, Ok_bind. cbv beta zeta.
  rewrite byte_land_192_pointer, byte_land_192_label by done.
  destruct (Z.eqb_spec l 0) as [->|Hz]; [by constructor|].
  case_test; [|destruct (Z.leb_spec l 63); [|done]].
  - case_test; [done|]. case_test; [done|].
    destruct (get8_in_range msg (d_off s + 1)) as [b Hbk]; [lia|]. rewrite Hbk, Ok_bind. cbv beta zeta.
    rewrite byte_land_63, lor_shiftl_add by (done || lia || eapply get8_byte; eauto).
    change (2 ^ 8) with 256. case_test; [done|]. cbn. econstructor; eauto with lia.
  - cbn [negb]. set (sep := if zlen (d_out s) =? 0 then 0 else 1).
    repeat (case_test; [done|]). unfold byte in Hbl. subst sep.
    destruct (decode_iter_label msg cap s l) as (lab & <- & Hs & Hit); [done|lia|done|lia..|].
    revert Hit. unfold decode_iter. rewrite Hl, Ok_bind. cbv beta zeta.
    rewrite byte_land_192_pointer, byte_land_192_label by done.
    set (sep := if zlen (d_out s) =? 0 then 0 else 1).
    do 8 (case_test; [lia|]). intros ->. cbn -[extend]. constructor; [done|lia|done| |done].
    rewrite zlen_extend_1. lia.
Qed.

Lemma decode_iter_complete msg cap s r :
  bytes msg -> cap <= NAME_CAP -> decode_step msg cap s r -> decode_iter msg cap s = Ok r.
Proof.
  intros Hb Hcap Hst. destruct Hst as [H|b0 b1 H H0 H1 Ht Hj|lab H Hlab Hs He Hn].
  - unfold decode_iter. rewrite H. apply get8_bound in H. case_test; [lia|]. done.
  - assert (byte b0) as Hb0 by (eauto using get8_byte). assert (byte b1) as Hb1 by (eauto using get8_byte).
    unfold decode_iter. rewrite H, Ok_bind. cbv beta zeta. rewrite H1, Ok_bind. apply get8_bound in H1 as ?. cbv beta zeta.
    rewrite byte_land_192_pointer, byte_land_63, lor_shiftl_add by (done || lia). change (2 ^ 8) with 256.
    do 2 (case_test; [lia|]). case_test; [|lia]. do 3 (case_test; [lia|]). done.
  - apply get_slice_Ok in Hs as Hs'. rewrite zlen_extend_1 in He.
    pose proof (get8_bound _ _ _ H).
    destruct (decode_iter_label msg cap s (zlen lab)) as (lab' & _ & E & ->); [done|lia|done|lia..|].
    rewrite Hs in E. by injection E as ->.
Qed.

Lemma ensures_decode_loop fuel msg cap s :
  bytes msg -> 0 <= d_off s -> d_jumps s <= MAX_PTR_JUMPS -> zlen (d_out s) < cap ->
  (MAX_PTR_JUMPS - d_jumps s) + (cap - zlen (d_out s)) < Z.of_nat fuel ->
  ensures (decode_loop fuel msg cap s) (fun s' => exists j ls next,
    name_at msg (d_off s) j ls next /\ d_out s' = extend (d_out s) ls /\
    d_jumps s + Z.of_nat j <= MAX_PTR_JUMPS /\ zlen (d_out s') < cap /\
    d_after s' = if d_jumped s then d_after s else next).
Proof.
  intros Hb. revert s. induction fuel as [|fuel IH]; intros s Ho Hj Hc Hf; [lia|].
  cbn [decode_loop]. eapply ensures_bind_intro; [by apply ensures_decode_iter|].
  intros r Hst. destruct Hst as [H|b0 b1 H H0 H1 Ht Hjm|lab H Hlab Hs He Hn].
  - cbn. exists 0%nat, [], (d_off s + 1). split_and!; [by constructor|done|lia|done|done].
  - assert (byte b1) as Hb1 by (eauto using get8_byte). unfold byte in Hb1.
    eapply ensures_mono; [apply IH; cbn; lia|]. cbn.
    intros s' (j & ls & next & Hn & Ho' & Hjm' & Hc' & Ha).
    exists (S j), ls, (d_off s + 2). split_and!; [by eapply name_at_pointer|done|lia|done|done].
  - assert (zlen (d_out s) < zlen (extend (d_out s) [lab])) as Hgrow
      by (rewrite zlen_extend_1; case_test; lia).
    eapply ensures_mono; [apply IH; cbn -[extend]; lia|]. cbn -[extend].
    intros s' (j & ls & next & Hna & Ho' & Hjm' & Hc' & Ha).
    exists j, (lab :: ls), next. split_and!; [by eapply name_at_label|done..].
Qed.

Lemma decode_loop_complete msg cap off j ls next :
  bytes msg -> cap <= NAME_CAP -> name_at msg off j ls next -> forall s fuel,
  d_off s = off -> d_jumps s + Z.of_nat j <= MAX_PTR_JUMPS ->
  zlen (extend (d_out s) ls) < cap -> (j + length ls < fuel)%nat ->
  exists s', decode_loop fuel msg cap s = Ok s' /\ d_out s' = extend (d_out s) ls /\
    d_after s' = if d_jumped s then d_after s else next.
Proof.
  intros Hb Hcap Hna.
  induction Hna as [off H|off j lab ls next H Hlab Hs Hna IH|off b0 b1 j ls next H H0 H1 Ht Hna IH];
    intros s [|fuel] <- Hj He Hf; try lia; cbn [decode_loop].
  - erewrite decode_iter_complete by (done || by constructor). eexists; split; [done|]. done.
  - change (extend (d_out s) (lab :: ls)) with (extend (extend (d_out s) [lab]) ls) in *.
    pose proof (zlen_extend_mono (extend (d_out s) [lab]) ls) as Hmono.
    erewrite decode_iter_complete; [|done|done|eapply (step_label _ _ _ lab)]; [|done|done|done|lia|].
    + rewrite Ok_bind. apply (IH (DecodeState (d_off s + 1 + zlen lab) (extend (d_out s) [lab])
        (d_jumps s) (d_jumped s) (d_after s)) fuel); cbn -[extend] in *; [done|lia|done|lia].
    + rewrite zlen_extend_1 in Hmono. unfold NAME_CAP in Hcap. case_test_in Hmono; lia.
  - erewrite decode_iter_complete by (done || eapply step_pointer; eauto; lia).
    rewrite Ok_bind. destruct (IH (DecodeState ((b0 - 192) * 256 + b1) (d_out s) (d_jumps s + 1) true
      (if d_jumped s then d_after s else d_off s + 2)) fuel) as (s' & -> & Ho & Ha);
      cbn in *; [done|lia|done|lia|]. eauto.
Qed.

(** The decoder computes the wire grammar. *)
Lemma decode_grammar msg off cap out next :
  bytes msg -> 0 <= off -> 1 <= cap <= NAME_CAP ->
  dns_name_decode msg off cap = Ok (out, next) <->
  exists j ls, name_at msg off j ls next /\ Z.of_nat j <= MAX_PTR_JUMPS /\
    out = text_of ls /\ zlen out < cap.
Proof.
  intros Hb Ho Hc. unfold dns_name_decode. case_test; [lia|].
  opose proof* (ensures_decode_loop (decode_fuel cap) msg cap (DecodeState off [] 0 false 0)) as Hs; [done|done|cbn; unfold MAX_PTR_JUMPS; lia|unfold zlen; cbn; lia|
    unfold zlen, decode_fuel, MAX_PTR_JUMPS; cbn; lia|]. cbn -[decode_loop extend] in Hs.
  split.
  - intros H. apply bind_Ok in H as (s' & Hl & H). rewrite Hl in Hs. cbn -[extend] in Hs.
    destruct Hs as (j & ls & nx & Hna & Hout & Hj & Hcap & Ha). case_test_in H; [|done].
    injection H as <- <-. rewrite Ha. exists j, ls. split_and!; [done..| |done].
    rewrite Hout. apply extend_nil. by eapply name_at_labels.
  - intros (j & ls & Hna & Hj & -> & Hlen). pose proof (name_at_labels _ _ _ _ _ Hna) as Hls.
    rewrite <- extend_nil in * by done.
    assert (zlen ls <= zlen (extend [] ls)) by (pose proof (zlen_extend_ge [] ls Hls); zl).
    destruct (decode_loop_complete msg cap off j ls next Hb ltac:(lia) Hna
      (DecodeState off [] 0 false 0) (decode_fuel cap)) as (s' & -> & Ho' & Ha); cbn -[extend]; try lia.
    { unfold decode_fuel, MAX_PTR_JUMPS in *. unfold zlen in *. lia. }
    cbn -[extend] in Ho', Ha. rewrite Ho', (proj2 (Z.ltb_lt _ _)) by done. by rewrite Ha.
Qed.

Lemma ensures_decode msg off cap :
  bytes msg -> 0 <= off -> 1 <= cap ->
  ensures (dns_name_decode msg off cap) (fun '(out, next) =>
    zlen out < cap /\ off < next <= zlen msg).
Proof.
  intros Hb Ho Hc. unfold dns_name_decode. case_test; [lia|].
  eapply ensures_bind_intro; [apply ensures_decode_loop|].
  all: unfold zlen, decode_fuel, MAX_PTR_JUMPS; cbn; try lia; try done.
  intros s' (j & ls & next & Hna & _ & _ & Hlt & Ha). rewrite (proj2 (Z.ltb_lt _ _)) by done. cbn.
  rewrite Ha. split; [done|]. eapply name_at_next; eauto.
Qed.

Lemma name_at_bytes msg off j ls next : bytes msg -> name_at msg off j ls next -> Forall bytes ls.
Proof.
  intros Hb H. induction H as [|off j lab ls next _ _ Hs _ IH|]; [constructor| |done].
  constructor; [|done]. apply get_slice_Ok in Hs as (_ & _ & _ & ->). auto with fizz.
Qed.

Lemma text_of_bytes ls : Forall bytes ls -> bytes (text_of ls).
Proof.
  intros H. unfold text_of. assert (Forall bytes (map (map tolower) ls)) as Hm.
  { induction H as [|l ls Hl _ IH]; constructor; [|done]. apply Forall_map. eapply Forall_impl; [exact Hl|].
    apply tolower_byte. }
  induction Hm as [|l ls' Hl Hls IH]; [constructor|]. destruct ls' as [|l' ls']; [done|].
  change (bytes (l ++ 46 :: join_dots (l' :: ls'))). apply bytes_app. split; [done|].
  constructor; [unfold byte; lia|done].
Qed.

Lemma ensures_decode_name_cap msg off :
  bytes msg -> 0 <= off ->
  ensures (dns_name_decode msg off NAME_CAP) (fun '(out, next) =>
    zlen out <= DNS_MAX_NAME /\ off < next <= zlen msg /\ bytes out).
Proof.
  intros Hb Ho. pose proof (ensures_decode msg off NAME_CAP Hb Ho ltac:(done)) as H.
  destruct (dns_name_decode msg off NAME_CAP) as [[out next]| | |] eqn:E; cbn in *; [|done..].
  apply decode_grammar in E as (j & ls & Hna & _ & -> & _); [|done..].
  unfold NAME_CAP, DNS_MAX_NAME in *. split_and!; try lia. by eapply text_of_bytes, name_at_bytes.
Qed.

(** ** Lemmas: encoding *)

Lemma strchr_dot_split p :
  split_dots p = match strchr_dot p with
                 | (lab, None) => [lab]
                 | (lab, Some rest) => lab :: split_dots rest
                 end.
Proof.
  induction p as [|c p IH]; [done|]. cbn [split_dots strchr_dot]. case_test; [done|].
  rewrite IH. by destruct (strchr_dot p) as [lab [rest|]].
Qed.

Lemma split_dots_nonempty p : split_dots p <> [].
Proof. rewrite strchr_dot_split. by destruct (strchr_dot p) as [lab [rest|]]. Qed.

Lemma strchr_dot_rest_length p lab rest :
  strchr_dot p = (lab, Some rest) -> (length rest < length p)%nat.
Proof.
  revert lab. induction p as [|c p IH]; intros lab; cbn; [done|]. case_test; [naive_solver lia|].
  destruct (strchr_dot p) as [lab' [r|]]; intros [= <- ->]. specialize (IH _ eq_refl). lia.
Qed.

Lemma strchr_dot_none p lab : strchr_dot p = (lab, None) -> lab = p.
Proof.
  revert lab. induction p as [|c p IH]; intros lab; cbn; [naive_solver|]. case_test; [done|].
  destruct (strchr_dot p) as [lab' [r|]]; intros [= <-]. f_equal. by apply IH.
Qed.

Lemma loop_labels_unfold p : p <> [] ->
  loop_labels p = match strchr_dot p with
                  | (lab, None) => [lab]
                  | (lab, Some rest) => lab :: loop_labels rest
                  end.
Proof.
  intros Hp. unfold loop_labels. rewrite bool_decide_eq_false_2 by done.
  rewrite strchr_dot_split. destruct (strchr_dot p) as [lab [rest|]] eqn:E.
  - assert (last (lab :: split_dots rest) = last (split_dots rest)) as ->.
    { destruct (split_dots rest) eqn:Er; [by apply split_dots_nonempty in Er|done]. }
    destruct (decide (rest = [])) as [->|Hr]; [done|].
    rewrite (bool_decide_eq_false_2 (rest = [])) by done. case_bool_decide; [|done].
    cbn. destruct (split_dots rest) eqn:Er; [by apply split_dots_nonempty in Er|done].
  - apply strchr_dot_none in E as ->. cbn. case_bool_decide; naive_solver.
Qed.

Lemma lab_bytes_cons l ls : lab_bytes (l :: ls) = (zlen l :: l) ++ lab_bytes ls.
Proof. done. Qed.

Lemma label_ok_iff l : label_ok l = true <-> 1 <= zlen l <= 63.
Proof. unfold label_ok. rewrite andb_true_iff, !Z.leb_le. tauto. Qed.

Lemma encode_loop_spec fuel p out base cap o :
  p <> [] -> (length p < fuel)%nat -> 0 <= base -> 0 <= o -> base + cap <= zlen out ->
  encode_loop fuel p out base cap o =
  if forallb label_ok (loop_labels p) && (o + zlen (lab_bytes (loop_labels p)) + 1 <=? cap)
  then out' ← put_bytes out (base + o) (lab_bytes (loop_labels p));
       Ok (out', o + zlen (lab_bytes (loop_labels p)))
  else Fail.
Proof.
  revert p out o. induction fuel as [|fuel IH]; intros p out o Hp Hf Hb Ho Hc; [lia|].
  cbn [encode_loop]. rewrite loop_labels_unfold by done.
  destruct p as [|c p']; [done|]. set (p := c :: p') in *. clearbody p.
  destruct (strchr_dot p) as [lab dot] eqn:E. unfold DNS_MAX_LABEL.
  assert (((zlen lab =? 0) || (63 <? zlen lab)) = negb (label_ok lab)) as ->.
  { unfold label_ok. zl. }
  destruct (label_ok lab) eqn:Hlab; cbn [negb]; [|by destruct dot; cbn; rewrite Hlab].
  assert (u8 (zlen lab) = zlen lab) as ->.
  { apply label_ok_iff in Hlab. apply Z.mod_small. lia. }
  assert (forall f : list Z -> res (list Z * Z),
    (out1 ← put8 out (base + o) (zlen lab); out2 ← put_bytes out1 (base + o + 1) lab; f out2) =
    (out2 ← put_bytes out (base + o) (zlen lab :: lab); f out2)) as Hput.
  { intros f. cbn. by destruct (put8 out (base + o) (zlen lab)). }
  case_test; cycle 1; [rewrite Hput|].
  - pose proof (zlen_nonneg lab).
    destruct (put_bytes_append (zlen lab :: lab) out (base + o) (ztake (base + o) out))
      as (out2 & Hw & Hlen & _ & _); [lia|done|zl|].
    destruct dot as [rest|].
    + rewrite lab_bytes_cons, put_bytes_app, Hw, !Ok_bind. cbn [forallb]. rewrite Hlab, andb_true_l.
      apply strchr_dot_rest_length in E.
      replace (base + o + zlen (zlen lab :: lab)) with (base + (o + 1 + zlen lab)) by zl.
      replace (o + zlen ((zlen lab :: lab) ++ lab_bytes (loop_labels rest)))
        with (o + 1 + zlen lab + zlen (lab_bytes (loop_labels rest))) by zl.
      destruct (decide (rest = [])) as [->|Hr].
      * destruct fuel; [lia|]. cbn. rewrite !Z.add_0_r, (proj2 (Z.leb_le _ _)) by lia. done.
      * apply IH; [done|lia|done|lia|lia].
    + cbn [forallb]. rewrite Hlab, lab_bytes_cons, app_nil_r, Hw, Ok_bind. cbn -[zlen].
      rewrite (proj2 (Z.leb_le _ _)) by zl. rewrite zlen_cons. do 2 f_equal. lia.
  - assert (zlen lab <= zlen (lab_bytes (match dot with None => [lab] | Some r => lab :: loop_labels r end)) - 1
      ) as Hge by (destruct dot; rewrite lab_bytes_cons; zl).
    destruct dot; rewrite (proj2 (Z.leb_gt _ _)), andb_false_r by lia; done.
Qed.

(** The encoder computes [encode_spec], within the room it is given. *)
Lemma encode_refines_spec name out base cap :
  0 <= base -> 0 <= cap -> base + cap <= zlen out ->
  dns_name_encode name out base cap =
  match encode_spec name with
  | Some w => if zlen w <=? cap then out' ← put_bytes out base w; Ok (out', zlen w) else Fail
  | None => Fail
  end.
Proof.
  intros Hb Hc Hl. unfold dns_name_encode, encode_spec, text_labels. set (p := cstr name).
  destruct (bool_decide (p = []) || bool_decide (p = [46])) eqn:E.
  - cbn [forallb andb wire_of lab_bytes map concat app]. change (wire_of []) with [0].
    change (zlen [0] <=? DNS_MAX_NAME + 1) with true. cbv iota. change (zlen [0]) with 1.
    destruct (Z.ltb_spec cap 1), (Z.leb_spec 1 cap); try lia; [done|].
    cbn. by destruct (put8 out base 0).
  - apply orb_false_iff in E as [Hp _]. apply bool_decide_eq_false in Hp.
    cbv zeta. assert ((if bool_decide (last (split_dots p) = Some []) then removelast (split_dots p)
      else split_dots p) = loop_labels p) as ->.
    { unfold loop_labels. by rewrite (bool_decide_eq_false_2 _ Hp). }
    rewrite encode_loop_spec by (done || lia). rewrite Z.add_0_r, !Z.add_0_l. unfold wire_of.
    set (bs := lab_bytes (loop_labels p)). assert (zlen (bs ++ [0]) = zlen bs + 1) as Hw by zl.
    pose proof (zlen_nonneg bs). rewrite Hw. unfold DNS_MAX_NAME.
    destruct (forallb label_ok (loop_labels p)); [|done]. rewrite !andb_true_l.
    destruct (Z.leb_spec (zlen bs + 1) cap); [|by destruct (zlen bs + 1 <=? 255 + 1); rewrite ?Hw, ?(proj2 (Z.leb_gt _ _))].
    rewrite put_bytes_Ok, !Ok_bind by lia.
    destruct (Z.ltb_spec cap (zlen bs + 1)); [lia|].
    destruct (put_bytes_append [0] (ztake base out ++ bs ++ zdrop (base + zlen bs) out) (base + zlen bs)
      (ztake (base + zlen bs) (ztake base out ++ bs ++ zdrop (base + zlen bs) out))) as (b & Hput & _ & _).
    { lia. } { done. } { rewrite !zlen_app, zlen_ztake, zlen_zdrop; zl. }
    assert (put_bytes out base (bs ++ [0]) = Ok b) as Hput'.
    { by rewrite put_bytes_app, put_bytes_Ok, Ok_bind by lia. }
    cbn [put_bytes] in Hput. apply bind_Ok in Hput as (b' & -> & [= ->]). rewrite Ok_bind.
    destruct (Z.ltb_spec (255 + 1) (zlen bs + 1)), (Z.leb_spec (zlen bs + 1) (255 + 1)); try lia; [done|].
    rewrite Hw, (proj2 (Z.leb_le _ _)) by lia. by rewrite Hput'.
Qed.

(** ** Lemmas: round trips *)

Lemma name_at_wire pre ls suf :
  Forall (fun l => 1 <= zlen l <= 63) ls ->
  name_at (pre ++ wire_of ls ++ suf) (zlen pre) 0 ls (zlen pre + zlen (wire_of ls)).
Proof.
  intros H. revert pre. induction H as [|lab ls Hlab _ IH]; intros pre.
  - apply name_at_end. rewrite <- (Z.add_0_r (zlen pre)), get8_app_r by lia. done.
  - assert (wire_of (lab :: ls) = zlen lab :: lab ++ wire_of ls) as Hw.
    { unfold wire_of. rewrite lab_bytes_cons. cbn. by rewrite app_assoc. }
    assert (pre ++ wire_of (lab :: ls) ++ suf = (pre ++ zlen lab :: lab) ++ wire_of ls ++ suf) as Hmsg.
    { rewrite Hw. cbn. by rewrite <- !app_assoc. }
    assert (zlen (pre ++ zlen lab :: lab) = zlen pre + 1 + zlen lab) as Hp by zl.
    replace (zlen pre + zlen (wire_of (lab :: ls)))
      with (zlen (pre ++ zlen lab :: lab) + zlen (wire_of ls)) by (rewrite Hw; zl).
    apply name_at_label; [| done | | rewrite Hmsg, <- Hp; apply IH].
    + rewrite Hw, <- (Z.add_0_r (zlen pre)), get8_app_r by lia. done.
    + apply get_slice_Ok. rewrite Hw. split_and!; try zl.
      rewrite zdrop_app_add by lia. cbn. rewrite <- app_assoc. symmetry. by apply ztake_app_eq.
Qed.

Lemma zlen_wire_of ls : zlen (wire_of ls) = zlen (lab_bytes ls) + 1.
Proof. unfold wire_of. zl. Qed.

(** The wire form is two bytes longer than the text, the root apart. *)
Lemma zlen_text_wire ls : ls <> [] -> zlen (wire_of ls) = zlen (text_of ls) + 2.
Proof.
  intros Hne. destruct ls as [|l ls]; [done|]. clear Hne. rewrite zlen_wire_of.
  unfold text_of. cbn [map]. rewrite join_dots_concat, lab_bytes_cons, !zlen_app, zlen_cons, zlen_map.
  assert (zlen (lab_bytes ls) = zlen (concat (map (fun l => 46 :: l) (map (map tolower) ls)))) as ->; [|lia].
  induction ls as [|l' ls IH]; [done|]. rewrite lab_bytes_cons. cbn [map concat]. zl.
Qed.

(** What a name takes up at its own place: its labels, or some of them and a
    pointer. *)
Lemma name_at_extent msg off j ls next : name_at msg off j ls next ->
  next - off <= zlen (text_of ls) + 3.
Proof.
  intros H. assert (next - off <= zlen (lab_bytes ls) + 2) as Hl.
  { induction H; rewrite ?lab_bytes_cons; zl. }
  destruct (decide (ls = [])) as [->|Hne]; [cbn in *; zl|].
  pose proof (zlen_text_wire ls Hne). rewrite zlen_wire_of in *. lia.
Qed.

Lemma ensures_decode_extent msg off : bytes msg -> 0 <= off ->
  ensures (dns_name_decode msg off NAME_CAP) (fun '(out, next) =>
    zlen out <= DNS_MAX_NAME /\ off < next <= zlen msg /\ next <= off + DNS_MAX_NAME + 3 /\ bytes out).
Proof.
  intros Hb Ho. pose proof (ensures_decode_name_cap msg off Hb Ho) as H.
  destruct (dns_name_decode msg off NAME_CAP) as [[out next]| | |] eqn:E; cbn in *; [|done..].
  apply decode_grammar in E as (j & ls & Hna & _ & -> & Hc); [|done..].
  apply name_at_extent in Hna. unfold NAME_CAP in *. split_and!; try lia. apply H.
Qed.

Lemma join_split_dots s : join_dots (split_dots s) = s.
Proof.
  induction s as [|c s IH]; [done|]. cbn [split_dots]. pose proof (split_dots_nonempty s).
  case_test; [rewrite join_dots_cons by done; by rewrite IH; subst|].
  destruct (split_dots s) as [|l ls]; [done|]. rewrite <- IH. rewrite !join_dots_concat. done.
Qed.

Lemma map_tolower_join ls : map tolower (join_dots ls) = join_dots (map (map tolower) ls).
Proof.
  destruct ls as [|l ls]; [done|]. cbn [map]. rewrite !join_dots_concat, map_app. f_equal.
  induction ls as [|l' ls IH]; [done|]. cbn. rewrite map_app, IH. done.
Qed.

Lemma text_of_split s : text_of (split_dots s) = map tolower s.
Proof. unfold text_of. by rewrite <- map_tolower_join, join_split_dots. Qed.

Lemma split_dots_snoc s : split_dots (s ++ [46]) = split_dots s ++ [[]].
Proof.
  induction s as [|c s IH]; [done|]. cbn [split_dots app]. rewrite IH. case_test; [done|].
  pose proof (split_dots_nonempty s). by destruct (split_dots s).
Qed.

Lemma split_dots_trailing s : last (split_dots s) = Some [] -> s <> [] -> exists t, s = t ++ [46].
Proof.
  intros Hl Hs. destruct (last s) as [x|] eqn:Hx; [|by apply last_None in Hx].
  apply last_Some in Hx as [t ->]. destruct (Z.eqb_spec x 46) as [->|Hd]; [eauto|]. exfalso.
  revert Hl. clear Hs. induction t as [|c t IH]; cbn [app split_dots].
  - by rewrite (proj2 (Z.eqb_neq _ _)).
  - pose proof (split_dots_nonempty (t ++ [x])).
    case_test; destruct (split_dots (t ++ [x])) as [|l [|l' ls]]; cbn in *; naive_solver.
Qed.

Lemma last_map_tolower s : last (map tolower s) = Some 46 <-> last s = Some 46.
Proof.
  change (map tolower s) with (tolower <$> s). rewrite fmap_last. destruct (last s) as [x|]; cbn; [|done].
  split; intros [= H]; f_equal; by apply tolower_dot.
Qed.

Lemma text_of_text_labels s : text_of (text_labels s) = strip_dot (map tolower s).
Proof.
  unfold text_labels, strip_dot. rewrite (bool_decide_ext _ _ (last_map_tolower s)).
  destruct (decide (s = [])) as [->|Hs]; [done|]. rewrite (bool_decide_eq_false_2 (s = [])) by done.
  destruct (decide (s = [46])) as [->|Hd]; [done|]. rewrite (bool_decide_eq_false_2 (s = [46])) by done.
  cbn [orb]. destruct (decide (last s = Some 46)) as [Hl|Hl].
  - rewrite (bool_decide_eq_true_2 (last s = _)) by done. apply last_Some in Hl as [t ->].
    rewrite split_dots_snoc, last_snoc, bool_decide_eq_true_2, removelast_last by done.
    rewrite text_of_split, map_app. cbn. by rewrite removelast_last.
  - rewrite (bool_decide_eq_false_2 (last s = _)) by done.
    rewrite bool_decide_eq_false_2; [apply text_of_split|]. intros H.
    apply split_dots_trailing in H as [t ->]; [|done]. by rewrite last_snoc in Hl.
Qed.

Lemma encode_spec_Some name w :
  encode_spec name = Some w <->
  Forall (fun l => 1 <= zlen l <= 63) (text_labels (cstr name)) /\
  w = wire_of (text_labels (cstr name)) /\ zlen w <= DNS_MAX_NAME + 1.
Proof.
  unfold encode_spec. set (ls := text_labels (cstr name)).
  assert (forallb label_ok ls = true <-> Forall (fun l => 1 <= zlen l <= 63) ls) as <-.
  { rewrite forallb_forall, Forall_forall. setoid_rewrite list_elem_of_In.
    by setoid_rewrite label_ok_iff. }
  case_test.
  - naive_solver.
  - split; [done|]. intros (H1 & -> & H2). apply andb_false_iff in Etest as [E|E]; [congruence|].
    apply Z.leb_gt in E. lia.
Qed.

Lemma decode_wire pre ls suf :
  bytes (pre ++ wire_of ls ++ suf) -> Forall (fun l => 1 <= zlen l <= 63) ls ->
  zlen (text_of ls) <= DNS_MAX_NAME ->
  dns_name_decode (pre ++ wire_of ls ++ suf) (zlen pre) NAME_CAP =
  Ok (text_of ls, zlen pre + zlen (wire_of ls)).
Proof.
  intros Hb Hls Hlen. apply decode_grammar; [done|zl|done|].
  exists 0%nat, ls. split_and!; [by apply name_at_wire|done..|]. unfold NAME_CAP. lia.
Qed.

Lemma encode_decode_spec name w pre suf :
  encode_spec name = Some w -> bytes (pre ++ w ++ suf) ->
  dns_name_decode (pre ++ w ++ suf) (zlen pre) NAME_CAP =
  Ok (strip_dot (fold_case name), zlen pre + zlen w).
Proof.
  rewrite encode_spec_Some. intros (Hls & -> & Hlen) Hb. unfold fold_case.
  change (tolower <$> cstr name) with (map tolower (cstr name)). rewrite <- text_of_text_labels.
  apply decode_wire; [done|done|].
  destruct (decide (text_labels (cstr name) = [])) as [->|Hne]; [done|].
  rewrite zlen_text_wire in Hlen by done. lia.
Qed.

Lemma split_dots_app a b : split_dots (a ++ 46 :: b) = split_dots a ++ split_dots b.
Proof.
  induction a as [|c a IH]; [done|]. cbn [split_dots app]. rewrite IH. case_test; [done|].
  pose proof (split_dots_nonempty a). by destruct (split_dots a).
Qed.

Lemma split_dots_label l : Forall (fun c => c <> 46) l -> split_dots l = [l].
Proof. induction 1 as [|c l Hc _ IH]; [done|]. cbn. rewrite IH. by rewrite (proj2 (Z.eqb_neq _ _)). Qed.

Lemma clean_label_nodot l : clean_label l -> Forall (fun c => c <> 46) l.
Proof. intros [_ H]. eapply Forall_impl; [done|naive_solver]. Qed.

Lemma clean_label_lower l : clean_label l -> clean_label (map tolower l).
Proof.
  intros [Hl H]. split; [by rewrite zlen_map|]. apply Forall_map.
  eapply Forall_impl; [done|]. intros c [? ?]. cbn. rewrite tolower_dot, tolower_0. done.
Qed.

Lemma split_join_dots ls : ls <> [] -> Forall clean_label ls -> split_dots (join_dots ls) = ls.
Proof.
  intros Hne H. induction H as [|l ls Hl Hls IH]; [done|].
  destruct (decide (ls = [])) as [->|Hn]; [by apply split_dots_label, clean_label_nodot|].
  rewrite join_dots_cons, split_dots_app, IH by done.
  by rewrite split_dots_label by by apply clean_label_nodot.
Qed.

Lemma Forall_clean_lower ls : Forall clean_label ls -> Forall clean_label (map (map tolower) ls).
Proof. intros H. apply Forall_map. eapply Forall_impl; [done|]. intros. by apply clean_label_lower. Qed.

Lemma join_dots_nul_free ls : Forall clean_label ls -> Forall (fun c => c <> 0) (join_dots ls).
Proof.
  intros H. destruct H as [|l ls Hl Hls]; [done|]. rewrite join_dots_concat. apply Forall_app. split.
  - destruct Hl as [_ Hl]. eapply Forall_impl; [done|naive_solver].
  - induction Hls as [|l' ls [_ Hl'] _ IH]; [done|]. cbn. constructor; [done|]. apply Forall_app. split; [|done].
    eapply Forall_impl; [done|naive_solver].
Qed.

Lemma cstr_text_of ls : Forall clean_label ls -> cstr (text_of ls) = text_of ls.
Proof. intros. apply cstr_no_nul. by apply join_dots_nul_free, Forall_clean_lower. Qed.

Lemma map_tolower_text_of ls : map tolower (text_of ls) = text_of ls.
Proof.
  unfold text_of. rewrite map_tolower_join, map_map. f_equal. apply map_ext. intros l.
  rewrite map_map. apply map_ext, tolower_idemp.
Qed.

Lemma fold_case_text_of ls : Forall clean_label ls -> fold_case (text_of ls) = text_of ls.
Proof.
  intros. unfold fold_case. rewrite cstr_text_of by done. apply map_tolower_text_of.
Qed.

Lemma fold_case_join ls : Forall clean_label ls -> fold_case (join_dots ls) = text_of ls.
Proof.
  intros H. unfold fold_case, text_of. rewrite cstr_no_nul by by apply join_dots_nul_free. apply map_tolower_join.
Qed.

Lemma text_of_nil_iff ls : Forall clean_label ls -> text_of ls = [] <-> ls = [].
Proof.
  intros H. split; [|by intros ->]. destruct H as [|l ls [Hl _] _]; [done|].
  unfold text_of. cbn [map]. rewrite join_dots_concat. destruct l; [by destruct Hl|done].
Qed.

Lemma text_of_split_lower ls : ls <> [] -> Forall clean_label ls ->
  split_dots (text_of ls) = map (map tolower) ls.
Proof.
  intros Hne H. apply split_join_dots; [by destruct ls|by apply Forall_clean_lower].
Qed.

Lemma text_labels_text_of ls : Forall clean_label ls -> text_labels (text_of ls) = map (map tolower) ls.
Proof.
  intros H. destruct (decide (ls = [])) as [->|Hne]; [done|]. unfold text_labels.
  rewrite text_of_split_lower by done.
  rewrite (bool_decide_eq_false_2 (text_of ls = [])) by (by rewrite text_of_nil_iff).
  rewrite bool_decide_eq_false_2.
  - cbn [orb]. apply Forall_clean_lower in H as H'. rewrite bool_decide_eq_false_2; [done|].
    intros [t Ht]%last_Some. rewrite Ht in H'. apply Forall_app in H' as [_ H'].
    apply Forall_inv in H' as [H' _]. by destruct H'.
  - intros E. apply (f_equal split_dots) in E. rewrite text_of_split_lower in E by done.
    apply Forall_clean_lower in H. rewrite E in H. apply Forall_inv in H as [H _]. by destruct H.
Qed.

Lemma zlen_wire_lower ls : zlen (wire_of (map (map tolower) ls)) <= 256 <-> zlen (text_of ls) <= 254.
Proof.
  destruct (decide (ls = [])) as [->|Hne]; [by split; vm_compute|].
  rewrite zlen_text_wire by (by destruct ls). fold (text_of ls).
  assert (text_of (map (map tolower) ls) = text_of ls) as ->; [|lia].
  unfold text_of. f_equal. rewrite map_map. apply map_ext. intros l. rewrite map_map.
  apply map_ext, tolower_idemp.
Qed.

(** A decoded name whose labels are clean encodes back to its lower-case
    wire form, if its text has at most 254 bytes. *)
Lemma encode_spec_text_of ls :
  Forall clean_label ls -> Forall (fun l => zlen l <= 63) ls ->
  encode_spec (text_of ls) =
  if zlen (text_of ls) <=? 254 then Some (wire_of (map (map tolower) ls)) else None.
Proof.
  intros H H63. pose proof (zlen_wire_lower ls) as Hiff.
  case_test.
  - apply encode_spec_Some. rewrite cstr_text_of, text_labels_text_of by done. split_and!; [|done|].
    + apply Forall_map, Forall_forall. intros l Hl. cbn. rewrite zlen_map.
      rewrite Forall_forall in H, H63. specialize (H l Hl) as [? _]. specialize (H63 l Hl). lia.
    + unfold DNS_MAX_NAME. lia.
  - destruct (encode_spec (text_of ls)) as [w|] eqn:E; [|done].
    apply encode_spec_Some in E as (_ & -> & E). rewrite cstr_text_of, text_labels_text_of in E by done.
    unfold DNS_MAX_NAME in E. lia.
Qed.

(** Zone containment is the suffix order on case-folded label lists. *)
Lemma in_bailiwick_labels n z :
  Forall clean_label n -> Forall clean_label z ->
  dns_name_in_bailiwick (text_of n) (text_of z) = true <->
  map (map tolower) z `suffix_of` map (map tolower) n.
Proof.
  intros Hn Hz. rewrite in_bailiwick_iff, !fold_case_text_of, text_of_nil_iff by done.
  destruct (decide (z = [])) as [->|Hzne].
  { split; [intros _; apply suffix_nil|auto]. }
  apply Forall_clean_lower in Hn as Hn'. apply Forall_clean_lower in Hz as Hz'.
  unfold text_of. set (zl := map (map tolower) z) in *. set (nl := map (map tolower) n) in *.
  assert (zl <> []) as Hzl by (by destruct z). split.
  - intros [?|[E|(pre & Hp & E)]]; [done| |].
    + apply (f_equal split_dots) in E. destruct (decide (nl = [])) as [Hnl|Hnl].
      { rewrite Hnl in E. cbn in E. rewrite split_join_dots in E by done.
        rewrite <- E in Hz'. apply Forall_inv in Hz' as [Hz' _]. by destruct Hz'. }
      rewrite !split_join_dots in E by done. by rewrite E.
    + apply (f_equal split_dots) in E. rewrite split_dots_app in E. destruct (decide (nl = [])) as [Hnl|Hnl].
      { rewrite Hnl in E. cbn in E. pose proof (split_dots_nonempty pre).
        rewrite split_join_dots in E by done. by destruct (split_dots pre) as [|? [|]], zl. }
      rewrite !split_join_dots in E by done. rewrite E. by apply suffix_app_r.
  - intros [k E]. right. destruct (decide (k = [])) as [->|Hk].
    + left. by rewrite E.
    + right. exists (join_dots k). rewrite E. rewrite E in Hn'. apply Forall_app in Hn' as [Hk' _]. split.
      * destruct Hk' as [|l k [Hl _] _]; [done|]. rewrite join_dots_concat. destruct l; [by destruct Hl|done].
      * clear -Hk Hzl. induction k as [|l k IH]; [done|]. destruct (decide (k = [])) as [->|Hk'].
        -- cbn [app]. by rewrite join_dots_cons.
        -- cbn [app]. rewrite !join_dots_cons, IH by (done || by destruct k). by rewrite <- app_assoc.
Qed.

(** The encoded name consists of bytes when the text does. *)
Lemma split_dots_bytes s : bytes s -> Forall bytes (split_dots s).
Proof.
  unfold bytes. induction 1 as [|c s Hc Hs IH]; cbn [split_dots]; [by repeat constructor|].
  case_test; [by repeat constructor|].
  destruct IH as [|l ls Hl Hls]; apply Forall_cons; split; try done; apply Forall_cons; done.
Qed.

Lemma Forall_removelast {A} (P : A -> Prop) l : Forall P l -> Forall P (removelast l).
Proof. induction 1 as [|x l Hx Hl IH]; [done|]. cbn. destruct l; by constructor. Qed.

Lemma text_labels_bytes s : bytes s -> Forall bytes (text_labels s).
Proof.
  intros H%split_dots_bytes. unfold text_labels. case_test; [done|].
  case_test; [by apply Forall_removelast|done].
Qed.

Lemma encode_spec_bytes name w : bytes name -> encode_spec name = Some w -> bytes w.
Proof.
  intros Hb%bytes_cstr%text_labels_bytes (Hls & -> & _)%encode_spec_Some. unfold wire_of. apply bytes_app.
  split; [|by repeat constructor]. unfold lab_bytes.
  induction Hb as [|l ls Hl _ IH]; [constructor|]. apply Forall_cons in Hls as [Hz Hls]. cbn.
  constructor; [unfold byte; lia|]. apply bytes_app. auto.
Qed.

(** A name read without following a pointer is its uncompressed wire form. *)
Lemma name_at_uncompressed msg off ls next : name_at msg off 0 ls next ->
  get_slice msg off (next - off) = Ok (wire_of ls) /\ Forall (fun l => 1 <= zlen l <= 63) ls.
Proof.
  intros H. remember 0%nat as j eqn:Hj. induction H as [off H|off j lab ls next H Hlab Hs Hna IH|]; [| |done].
  - split; [|constructor]. apply get8_bound in H as Hb. rewrite get_slice_in_range by lia.
    apply get8_Ok in H as [_ H%lookup_zdrop_0]; [|lia]. rewrite H. by replace (off + 1 - off) with 1 by lia.
  - destruct (IH Hj) as [Hw Hls]. split; [|by constructor].
    apply get_slice_Ok in Hs as (Ho & Hn & Hb & Hs). apply get_slice_Ok in Hw as (_ & Hn' & Hb' & Hw).
    apply get8_bound in H as Hoff. rewrite get_slice_in_range by lia.
    apply get8_Ok in H as [_ H%lookup_zdrop_0]; [|lia]. f_equal.
    replace (next - off) with (1 + (zlen lab + (next - (off + 1 + zlen lab)))) by lia.
    rewrite H. change (zlen lab :: zdrop (off + 1) msg) with ([zlen lab] ++ zdrop (off + 1) msg).
    change 1 with (zlen [zlen lab]) at 1. rewrite ztake_app_add by lia.
    rewrite ztake_add, <- Hs, zdrop_zdrop, <- Hw by lia.
    unfold wire_of. rewrite lab_bytes_cons. cbn. by rewrite <- app_assoc.
Qed.

(** The comparisons look at the case-folded texts only. *)
Lemma in_bailiwick_fold n n' z z' : fold_case n = fold_case n' -> fold_case z = fold_case z' ->
  dns_name_in_bailiwick n z = dns_name_in_bailiwick n' z'.
Proof. intros En Ez. apply eq_bool_prop_intro. rewrite !Is_true_true, !in_bailiwick_iff, En, Ez. done. Qed.

Lemma dns_name_equal_fold a a' b b' : fold_case a = fold_case a' -> fold_case b = fold_case b' ->
  dns_name_equal a b = dns_name_equal a' b'.
Proof. intros Ea Eb. apply eq_bool_prop_intro. rewrite !Is_true_true, !dns_name_equal_iff, Ea, Eb. done. Qed.

(** A decoded name survives [snprintf] into a name array. *)
Lemma copy_name s : zlen s <= DNS_MAX_NAME -> snprintf_s NAME_CAP s = cstr s.
Proof. intros Hs. apply snprintf_s_fits. pose proof (strlen_le s). unfold NAME_CAP. lia. Qed.

Lemma copy_name_fold s : zlen s <= DNS_MAX_NAME -> fold_case (snprintf_s NAME_CAP s) = fold_case s.
Proof. intros Hs. rewrite copy_name by done. apply fold_case_cstr. Qed.

Lemma copy_name_ok s : zlen s <= DNS_MAX_NAME -> bytes s ->
  strlen (snprintf_s NAME_CAP s) <= DNS_MAX_NAME /\ bytes (snprintf_s NAME_CAP s).
Proof.
  intros Hs Hb. rewrite copy_name by done. split; [|by apply bytes_cstr].
  unfold strlen. rewrite cstr_cstr. pose proof (strlen_le s). unfold strlen in *. lia.
Qed.

(** ** Theorems *)

(** C4: [dns_name_decode] is safe on every message an attacker can send: from
    any offset it terminates (at most 32 pointers, at most [cap] bytes
    written), reads no byte outside of the message and writes none outside of
    the [cap] bytes of the caller; when it succeeds, the text and its NUL fit
    in [cap] and [*next_off] lies behind [off] and not behind the message's
    end. *)
Theorem name_decode_safe msg off cap :
  bytes msg -> 0 <= off -> 1 <= cap ->
  ensures (dns_name_decode msg off cap) (fun '(out, next) =>
    zlen out < cap /\ off < next <= zlen msg).
Proof. apply ensures_decode. Qed.

Lemma name_decode_safe_witness :
  ensures (dns_name_decode [192; 0; 1; 65; 192; 2] 4 8) (fun '(out, next) =>
    zlen out < 8 /\ 4 < next <= zlen [192; 0; 1; 65; 192; 2]).
Proof. apply name_decode_safe; [repeat constructor; lia|lia|lia]. Defined.

(** C29: [dns_name_decode] accepts exactly the names of the wire grammar of
    RFC 1035 (labels of 1 to 63 bytes, pointers that point strictly
    backwards) that follow at most 32 pointers and fit the buffer, and its
    output is their lower-cased text. *)
Theorem name_decode_grammar msg off cap out next :
  bytes msg -> 0 <= off -> 1 <= cap <= NAME_CAP ->
  dns_name_decode msg off cap = Ok (out, next) <->
  exists j ls, name_at msg off j ls next /\ Z.of_nat j <= MAX_PTR_JUMPS /\
    out = text_of ls /\ zlen out < cap.
Proof. apply decode_grammar. Qed.

Lemma name_decode_grammar_witness :
  exists j ls, name_at [1; 65; 0; 1; 66; 192; 0] 3 j ls 7 /\ Z.of_nat j <= MAX_PTR_JUMPS /\
    [98; 46; 97] = text_of ls /\ zlen [98; 46; 97] < NAME_CAP.
Proof.
  apply (name_decode_grammar [1; 65; 0; 1; 66; 192; 0] 3 NAME_CAP [98; 46; 97] 7);
    [repeat constructor; lia|lia|unfold NAME_CAP, DNS_MAX_NAME; lia|reflexivity].
Defined.

(** [dns_name_encode] writes the uncompressed wire form of a name, NUL
    label included, exactly when every label has 1 to 63 bytes, the wire form
    has at most 256 bytes and the buffer has room for it; otherwise it
    returns its error. It never writes outside of the [cap] bytes at
    [base]. *)
Theorem name_encode_exact name out base cap :
  0 <= base -> 0 <= cap -> base + cap <= zlen out ->
  dns_name_encode name out base cap =
  match encode_spec name with
  | Some w => if zlen w <=? cap then out' ← put_bytes out base w; Ok (out', zlen w) else Fail
  | None => Fail
  end.
Proof. apply encode_refines_spec. Qed.

Lemma name_encode_exact_witness :
  dns_name_encode [97; 46; 98] (replicate 8 0) 1 6 =
  match encode_spec [97; 46; 98] with
  | Some w => if zlen w <=? 6 then out' ← put_bytes (replicate 8 0) 1 w; Ok (out', zlen w) else Fail
  | None => Fail
  end.
Proof. apply name_encode_exact; [lia|lia|vm_compute; congruence]. Defined.

(** C32: A name written by [dns_name_encode] anywhere in a message is read back
    by [dns_name_decode] as the same name, lower-cased and without its
    trailing dot, and the decoder ends where the encoder ended. *)
Theorem name_roundtrip name out base cap out' n :
  bytes name -> bytes out -> 0 <= base -> 0 <= cap -> base + cap <= zlen out ->
  dns_name_encode name out base cap = Ok (out', n) ->
  dns_name_decode out' base NAME_CAP = Ok (strip_dot (fold_case name), base + n).
Proof.
  intros Hn Ho Hb Hc Hl. rewrite encode_refines_spec by done.
  destruct (encode_spec name) as [w|] eqn:Ew; [|done]. case_test; [|done].
  pose proof (encode_spec_bytes _ _ Hn Ew) as Hw. rewrite put_bytes_Ok by zl. rewrite Ok_bind.
  intros [= <- <-]. set (suf := zdrop (base + zlen w) out).
  assert (bytes (ztake base out ++ w ++ suf)) as Hm by (rewrite !bytes_app; subst suf; auto with fizz).
  pose proof (encode_decode_spec name w (ztake base out) suf Ew Hm) as Hd.
  by rewrite zlen_ztake in Hd by zl.
Qed.

Lemma name_roundtrip_witness :
  dns_name_decode [7; 1; 65; 1; 98; 0; 0; 0] 1 NAME_CAP = Ok (strip_dot (fold_case [65; 46; 98; 46]), 1 + 5).
Proof.
  apply (name_roundtrip [65; 46; 98; 46] [7; 0; 0; 0; 0; 0; 0; 0] 1 7 _ 5);
    [repeat constructor; lia|repeat constructor; lia|lia|lia|vm_compute; congruence|reflexivity].
Defined.

(** [dns_name_equal] is equality of the case-folded strings: an
    equivalence that looks at nothing but the letters' case. *)
Theorem name_equal_case a b : dns_name_equal a b = true <-> fold_case a = fold_case b.
Proof. apply dns_name_equal_iff. Qed.

(** C37: On names made of labels without dots and NULs, in whatever letter
    case, [dns_name_in_bailiwick] is the suffix order on label lists: a label
    boundary is required ("notexample.com" is not in "example.com"), the case
    of letters is not looked at, and the root contains every name. *)
Theorem bailiwick_suffix n z :
  Forall clean_label n -> Forall clean_label z ->
  dns_name_in_bailiwick (join_dots n) (join_dots z) = true <->
  map (map tolower) z `suffix_of` map (map tolower) n.
Proof.
  intros Hn Hz. rewrite <- in_bailiwick_labels by done.
  by rewrite (in_bailiwick_fold _ (text_of n) _ (text_of z)) by (by rewrite fold_case_text_of, fold_case_join).
Qed.

(** "W.Ex" is in "eX". *)
Lemma bailiwick_suffix_witness :
  dns_name_in_bailiwick [87; 46; 69; 120] [101; 88] = true <->
  map (map tolower) [[101; 88]] `suffix_of` map (map tolower) [[87]; [69; 120]].
Proof. apply (bailiwick_suffix [[87]; [69; 120]] [[101; 88]]); repeat constructor; vm_compute; congruence. Defined.

(** The decoder and the encoder disagree at the limit: a name in a message
    whose labels have no dot and no NUL and whose text has 255 bytes is
    decoded, and the text cannot be encoded again, whatever the buffer; a
    shorter one can. *)
Theorem name_reencode_limit pre ls suf out base cap :
  let msg := pre ++ wire_of ls ++ suf in
  bytes msg -> Forall clean_label ls -> Forall (fun l => zlen l <= 63) ls -> zlen (text_of ls) <= 255 ->
  0 <= base -> 256 <= cap -> base + cap <= zlen out ->
  dns_name_decode msg (zlen pre) NAME_CAP = Ok (text_of ls, zlen pre + zlen (wire_of ls)) /\
  (dns_name_encode (text_of ls) out base cap = Fail <-> zlen (text_of ls) = 255).
Proof.
  intros msg Hb Hc H63 Hlen Hbase Hcap Hout. assert (Forall (fun l => 1 <= zlen l <= 63) ls) as Hls.
  { apply Forall_forall. intros l Hl. rewrite Forall_forall in Hc, H63. destruct (Hc l Hl) as [? _]. specialize (H63 l Hl). lia. }
  split.
  - apply decode_grammar; [done|apply zlen_nonneg|done|]. exists 0%nat, ls.
    split_and!; [by apply name_at_wire|done|done|unfold NAME_CAP, DNS_MAX_NAME; lia].
  - rewrite encode_refines_spec, encode_spec_text_of by (done || lia). case_test; [|split; [lia|done]].
    pose proof (proj2 (zlen_wire_lower ls) Etest). rewrite (proj2 (Z.leb_le _ _)), put_bytes_Ok by lia. split; [done|lia].
Qed.

Lemma name_reencode_limit_witness :
  let ls := replicate 4 (replicate 63 97) in
  dns_name_decode ([0] ++ wire_of ls ++ []) (zlen [0]) NAME_CAP = Ok (text_of ls, zlen [0] + zlen (wire_of ls)) /\
  (dns_name_encode (text_of ls) (replicate 300 0) 0 300 = Fail <-> zlen (text_of ls) = 255).
Proof.
  apply (name_reencode_limit [0] (replicate 4 (replicate 63 97)) [] (replicate 300 0) 0 300).
  - apply bytes_app. split; [repeat constructor; lia|]. rewrite app_nil_r. vm_compute. repeat constructor; discriminate.
  - apply Forall_replicate. split; [vm_compute; congruence|]. apply Forall_replicate. lia.
  - apply Forall_replicate. vm_compute. congruence.
  - vm_compute. congruence.
  - lia.
  - lia.
  - vm_compute. congruence.
Defined.
