(* ===== verification/DnsParse.v ===== *)
(** * Message parsing (src/dns_msg.c, parsing)

    Big-endian reads, the header, the question section, resource records and
    client queries with their EDNS0 record. A [uint8_t *msg, size_t len]
    argument pair is the list of the [len] readable bytes. *)

From stdpp Require Import prelude list.
From Stdlib Require Import ZArith Lia.
From S2P Require Import Prelude DnsName.

Local Open Scope Z_scope.

Definition DNS_TYPE_A : Z := 1.
Definition DNS_TYPE_NS : Z := 2.
Definition DNS_TYPE_CNAME : Z := 5.
Definition DNS_TYPE_AAAA : Z := 28.
Definition DNS_TYPE_OPT : Z := 41.
Definition DNS_CLASS_IN : Z := 1.
Definition DNS_MAX_ANSWERS : Z := 8.

Definition DNS_RCODE_NOERROR : Z := 0.
Definition DNS_RCODE_SERVFAIL : Z := 2.
Definition DNS_RCODE_NXDOMAIN : Z := 3.
Definition DNS_RCODE_NOTIMP : Z := 4.

Definition DNS_FLAG_QR : Z := 32768.      (* 0x8000 *)
Definition DNS_FLAG_TC : Z := 512.        (* 0x0200 *)
Definition DNS_FLAG_RD : Z := 256.        (* 0x0100 *)
Definition DNS_FLAG_RA : Z := 128.        (* 0x0080 *)
Definition DNS_OPCODE_MASK : Z := 30720.  (* 0x7800 *)
Definition DNS_RCODE_MASK : Z := 15.      (* 0x000F *)

(** [flags & mask] as a condition. *)
Definition has_flag (flags mask : Z) : bool := negb (Z.land flags mask =? 0).

Definition rd16 (msg : list Z) (p : Z) : res Z :=
  b0 ← get8 msg p;
  b1 ← get8 msg (p + 1);
  Ok (u16 (Z.lor (Z.shiftl b0 8) b1)).

Definition rd32 (msg : list Z) (p : Z) : res Z :=
  b0 ← get8 msg p;
  b1 ← get8 msg (p + 1);
  b2 ← get8 msg (p + 2);
  b3 ← get8 msg (p + 3);
  Ok (Z.lor (Z.lor (Z.lor (u32 (Z.shiftl b0 24)) (u32 (Z.shiftl b1 16))) (u32 (Z.shiftl b2 8))) b3).

Record dns_header := DnsHeader {
  h_id : Z;
  h_flags : Z;
  h_qdcount : Z;
  h_ancount : Z;
  h_nscount : Z;
  h_arcount : Z
}.

Record dns_question := DnsQuestion {
  q_name : list Z;
  q_qtype : Z;
  q_qclass : Z;
  q_raw_off : Z;
  q_raw_len : Z
}.

Record dns_query_info := DnsQueryInfo {
  qi_hdr : dns_header;
  qi_q : dns_question;
  qi_recursion_desired : bool;
  qi_has_edns : bool;
  qi_edns_udp_payload : Z;
  qi_edns_version : Z;
  qi_edns_do : bool
}.

(** [rr_rdata] is the offset of the [rdata] pointer in the message. *)
Record dns_rr := DnsRr {
  rr_name : list Z;
  rr_type : Z;
  rr_rclass : Z;
  rr_ttl : Z;
  rr_rdlength : Z;
  rr_rdata : Z
}.

Definition dns_parse_header (msg : list Z) : res dns_header :=
  if zlen msg <? DNS_HDR_LEN then Fail else
  id ← rd16 msg 0;
  flags ← rd16 msg 2;
  qdcount ← rd16 msg 4;
  ancount ← rd16 msg 6;
  nscount ← rd16 msg 8;
  arcount ← rd16 msg 10;
  Ok (DnsHeader id flags qdcount ancount nscount arcount).

(** Returns [*next]. *)
Definition dns_skip_question (msg : list Z) (off : Z) : res Z :=
  '(_, after) ← dns_name_decode msg off NAME_CAP;
  if zlen msg <? after + 4 then Fail else
  Ok (after + 4).

(** Returns the record and [*next]. *)
Definition dns_parse_rr (msg : list Z) (off : Z) : res (dns_rr * Z) :=
  '(name, after) ← dns_name_decode msg off NAME_CAP;
  if zlen msg <? after + 10 then Fail else
  type ← rd16 msg after;
  rclass ← rd16 msg (after + 2);
  ttl ← rd32 msg (after + 4);
  rdlength ← rd16 msg (after + 8);
  if zlen msg <? after + 10 + rdlength then Fail else
  Ok (DnsRr name type rclass ttl rdlength (after + 10), after + 10 + rdlength).

(** The EDNS0 fields of a query: those of a first additional record that
    parses, is an OPT record and has the root as its owner. *)
Definition parse_edns (msg : list Z) (arr_off arcount : Z) : res (bool * Z * Z * bool) :=
  if 1 <=? arcount then
    match dns_parse_rr msg arr_off with
    | Ok (opt, _) =>
        if (rr_type opt =? DNS_TYPE_OPT) && (chr (rr_name opt) =? 0)
        then Ok (true, rr_rclass opt, u8 (Z.land (Z.shiftr (rr_ttl opt) 16) 255),
                 has_flag (rr_ttl opt) 32768)
        else Ok (false, 0, 0, false)
    | Fail => Ok (false, 0, 0, false)
    | Fault => Fault
    | Diverge => Diverge
    end
  else Ok (false, 0, 0, false).

Definition dns_parse_query (msg : list Z) : res dns_query_info :=
  hdr ← dns_parse_header msg;
  if has_flag (h_flags hdr) DNS_FLAG_QR then Fail else
  if has_flag (h_flags hdr) DNS_OPCODE_MASK then Fail else
  if negb (h_qdcount hdr =? 1) then Fail else
  '(name, after) ← dns_name_decode msg DNS_HDR_LEN NAME_CAP;
  if zlen msg <? after + 4 then Fail else
  qtype ← rd16 msg after;
  qclass ← rd16 msg (after + 2);
  '(has_edns, payload, version, do_bit) ← parse_edns msg (after + 4) (h_arcount hdr);
  Ok (DnsQueryInfo hdr
        (DnsQuestion name qtype qclass DNS_HDR_LEN (after + 4 - DNS_HDR_LEN))
        (has_flag (h_flags hdr) DNS_FLAG_RD)
        has_edns payload version do_bit).

(** ** Reference definitions *)

(** The big-endian bytes of 16-bit and 32-bit values. *)
Definition be16 (v : Z) : list Z := [v / 256 mod 256; v mod 256].
Definition be32 (v : Z) : list Z := be16 (v / 65536) ++ be16 v.

Definition header_ok (h : dns_header) : Prop :=
  0 <= h_id h < 65536 /\ 0 <= h_flags h < 65536 /\ 0 <= h_qdcount h < 65536 /\
  0 <= h_ancount h < 65536 /\ 0 <= h_nscount h < 65536 /\ 0 <= h_arcount h < 65536.

(** A record [r] that ends at [next] lies inside of the message. *)
Definition rr_ok (msg : list Z) (r : dns_rr) (next : Z) : Prop :=
  zlen (rr_name r) <= DNS_MAX_NAME /\ bytes (rr_name r) /\
  0 <= rr_type r < 65536 /\ 0 <= rr_rclass r < 65536 /\ 0 <= rr_ttl r < 2 ^ 32 /\
  0 <= rr_rdlength r < 65536 /\ 11 <= rr_rdata r /\
  rr_rdata r + rr_rdlength r = next /\ next <= zlen msg.

(** What [dns_parse_query] promises about a query it accepts. *)
Definition query_ok (msg : list Z) (q : dns_query_info) : Prop :=
  header_ok (qi_hdr q) /\
  has_flag (h_flags (qi_hdr q)) DNS_FLAG_QR = false /\
  has_flag (h_flags (qi_hdr q)) DNS_OPCODE_MASK = false /\
  h_qdcount (qi_hdr q) = 1 /\
  zlen (q_name (qi_q q)) <= DNS_MAX_NAME /\ bytes (q_name (qi_q q)) /\
  0 <= q_qtype (qi_q q) < 65536 /\ 0 <= q_qclass (qi_q q) < 65536 /\
  q_raw_off (qi_q q) = DNS_HDR_LEN /\ 5 <= q_raw_len (qi_q q) <= DNS_MAX_NAME + 7 /\
  q_raw_off (qi_q q) + q_raw_len (qi_q q) <= zlen msg /\
  0 <= qi_edns_udp_payload q < 65536 /\ 0 <= qi_edns_version q < 256.

(** *** Messages as bytes *)

(** The 16-bit and 32-bit big-endian numbers at offset [p]. *)
Definition field16 (msg : list Z) (p v : Z) : Prop :=
  exists b0 b1, get8 msg p = Ok b0 /\ get8 msg (p + 1) = Ok b1 /\ v = b0 * 256 + b1.
Definition field32 (msg : list Z) (p v : Z) : Prop :=
  exists hi lo, field16 msg p hi /\ field16 msg (p + 2) lo /\ v = hi * 65536 + lo.

(** The twelve bytes of the header. *)
Definition header_at (msg : list Z) (h : dns_header) : Prop :=
  field16 msg 0 (h_id h) /\ field16 msg 2 (h_flags h) /\ field16 msg 4 (h_qdcount h) /\
  field16 msg 6 (h_ancount h) /\ field16 msg 8 (h_nscount h) /\ field16 msg 10 (h_arcount h).

(** The resource record [r] from [off] to [next]. *)
Definition rr_at (msg : list Z) (off : Z) (r : dns_rr) (next : Z) : Prop :=
  exists after, dns_name_decode msg off NAME_CAP = Ok (rr_name r, after) /\
    field16 msg after (rr_type r) /\ field16 msg (after + 2) (rr_rclass r) /\
    field32 msg (after + 4) (rr_ttl r) /\ field16 msg (after + 8) (rr_rdlength r) /\
    rr_rdata r = after + 10 /\ next = after + 10 + rr_rdlength r /\ next <= zlen msg.

(** The OPT record a query begins its additional section with, at [p]: its
    owner is the root, its class field holds the payload size, and its TTL
    field the version (third byte) and the DO flag (bit 15). *)
Definition opt_at (msg : list Z) (p arcount : Z) (r : dns_rr) : Prop :=
  1 <= arcount /\ (exists next, rr_at msg p r next) /\ rr_type r = 41 /\ chr (rr_name r) = 0.

Definition edns_at (msg : list Z) (p : Z) (q : dns_query_info) : Prop :=
  (exists r, opt_at msg p (h_arcount (qi_hdr q)) r /\ qi_has_edns q = true /\
     qi_edns_udp_payload q = rr_rclass r /\ qi_edns_version q = rr_ttl r / 65536 mod 256 /\
     qi_edns_do q = Z.testbit (rr_ttl r) 15) \/
  ((forall r, ~ opt_at msg p (h_arcount (qi_hdr q)) r) /\ qi_has_edns q = false /\
     qi_edns_udp_payload q = 0 /\ qi_edns_version q = 0 /\ qi_edns_do q = false).

(** A standard query: flag QR (bit 15) and the opcode (bits 11 to 14) clear,
    one question, which begins after the header. *)
Definition query_at (msg : list Z) (q : dns_query_info) : Prop :=
  exists after, header_at msg (qi_hdr q) /\
    Z.testbit (h_flags (qi_hdr q)) 15 = false /\ h_flags (qi_hdr q) / 2048 mod 16 = 0 /\
    h_qdcount (qi_hdr q) = 1 /\
    dns_name_decode msg 12 NAME_CAP = Ok (q_name (qi_q q), after) /\
    field16 msg after (q_qtype (qi_q q)) /\ field16 msg (after + 2) (q_qclass (qi_q q)) /\
    q_raw_off (qi_q q) = 12 /\ q_raw_len (qi_q q) = after + 4 - 12 /\
    qi_recursion_desired q = Z.testbit (h_flags (qi_hdr q)) 8 /\
    edns_at msg (after + 4) q.

(** ** Lemmas: big-endian values *)

Lemma be16_bytes v : bytes (be16 v).
Proof. repeat constructor; apply Z.mod_pos_bound; lia. Qed.

Lemma be32_bytes v : bytes (be32 v).
Proof. apply bytes_app. split; apply be16_bytes. Qed.

Lemma zlen_be16 v : zlen (be16 v) = 2.
Proof. done. Qed.

Lemma zlen_be32 v : zlen (be32 v) = 4.
Proof. done. Qed.

#[export] Hint Rewrite zlen_be16 zlen_be32 : zlen.
#[export] Hint Resolve be16_bytes be32_bytes : fizz.

Lemma rd16_get8 msg p v b0 b1 :
  bytes msg -> get8 msg p = Ok b0 -> get8 msg (p + 1) = Ok b1 ->
  rd16 msg p = Ok v <-> v = b0 * 256 + b1.
Proof.
  intros Hb H0 H1. unfold rd16. rewrite H0, Ok_bind, H1, Ok_bind.
  apply get8_byte in H0, H1; [|done..]. unfold byte, u16 in *.
  rewrite lor_shiftl_add by lia. change (2 ^ 8) with 256. rewrite Z.mod_small by lia.
  split; [by intros [= <-]|by intros ->].
Qed.

Lemma rd16_range msg p : bytes msg -> 0 <= p -> p + 2 <= zlen msg ->
  exists v, rd16 msg p = Ok v /\ 0 <= v < 65536.
Proof.
  intros Hb Hp Hl. destruct (get8_in_range msg p) as [b0 H0]; [lia|].
  destruct (get8_in_range msg (p + 1)) as [b1 H1]; [lia|].
  exists (b0 * 256 + b1). split; [by eapply rd16_get8|].
  apply get8_byte in H0, H1; [|done..]. unfold byte in *. lia.
Qed.

Lemma rd32_rd16 msg p a b : bytes msg -> rd16 msg p = Ok a -> rd16 msg (p + 2) = Ok b ->
  rd32 msg p = Ok (a * 65536 + b).
Proof.
  intros Hb Ha Hb'. unfold rd32. unfold rd16 in Ha, Hb'.
  apply bind_Ok in Ha as (b0 & H0 & Ha). apply bind_Ok in Ha as (b1 & H1 & Ha).
  apply bind_Ok in Hb' as (b2 & H2 & Hb'). apply bind_Ok in Hb' as (b3 & H3 & Hb').
  rewrite <- Z.add_assoc in H3. change (2 + 1) with 3 in H3.
  rewrite H0, Ok_bind, H1, Ok_bind, H2, Ok_bind, H3, Ok_bind.
  apply get8_byte in H0, H1, H2, H3; [|done..]. unfold byte, u16, u32 in *.
  rewrite lor_shiftl_add in Ha, Hb' by lia. change (2 ^ 8) with 256 in *.
  rewrite Z.mod_small in Ha, Hb' by lia. injection Ha as <-. injection Hb' as <-. f_equal.
  rewrite !Z.mod_small by (rewrite Z.shiftl_mul_pow2; lia).
  rewrite !Z.shiftl_mul_pow2, lor_mul_add by lia.
  replace (b0 * 2 ^ 24 + b1 * 2 ^ 16) with ((b0 * 256 + b1) * 2 ^ 16) by lia.
  rewrite lor_mul_add by lia.
  replace ((b0 * 256 + b1) * 2 ^ 16 + b2 * 2 ^ 8) with (((b0 * 256 + b1) * 256 + b2) * 2 ^ 8) by lia.
  rewrite lor_mul_add by lia. lia.
Qed.

Lemma rd32_range msg p : bytes msg -> 0 <= p -> p + 4 <= zlen msg ->
  exists v, rd32 msg p = Ok v /\ 0 <= v < 2 ^ 32.
Proof.
  intros Hb Hp Hl. destruct (rd16_range msg p) as (a & Ha & ?); [done|lia..|].
  destruct (rd16_range msg (p + 2)) as (b & Hb' & ?); [done|lia..|].
  exists (a * 65536 + b). split; [by apply rd32_rd16|lia].
Qed.

Lemma rd16_be16 pre v suf : bytes (pre ++ be16 v ++ suf) -> 0 <= v < 65536 ->
  rd16 (pre ++ be16 v ++ suf) (zlen pre) = Ok v.
Proof.
  intros Hb Hv. eapply rd16_get8; [done| | |].
  - rewrite <- (Z.add_0_r (zlen pre)), get8_app_r by lia. done.
  - rewrite get8_app_r by lia. done.
  - rewrite (Z.mod_small (v / 256)); [|split; [apply Z.div_pos|apply Z.div_lt_upper_bound]; lia].
    rewrite Z.mul_comm. apply Z.div_mod. lia.
Qed.

Lemma rd32_be32 pre v suf : bytes (pre ++ be32 v ++ suf) -> 0 <= v < 2 ^ 32 ->
  rd32 (pre ++ be32 v ++ suf) (zlen pre) = Ok v.
Proof.
  intros Hb Hv. unfold be32 in *. rewrite <- app_assoc in *.
  assert (be16 v = be16 (v mod 65536)) as E.
  { unfold be16. f_equal; [|f_equal]; Z.to_euclidean_division_equations; lia. }
  erewrite rd32_rd16; [|done|apply rd16_be16; [done|]|].
  - instantiate (1 := v mod 65536). f_equal. rewrite Z.mul_comm. symmetry. apply Z.div_mod. lia.
  - split; [apply Z.div_pos|apply Z.div_lt_upper_bound]; lia.
  - rewrite app_assoc. replace (zlen pre + 2) with (zlen (pre ++ be16 (v / 65536))) by zl.
    rewrite E. apply rd16_be16; [by rewrite <- E, <- app_assoc|]. apply Z.mod_pos_bound. lia.
Qed.

(** ** Lemmas: parsing *)

Lemma ensures_rd16 msg p (Q : Z -> Prop) : bytes msg -> 0 <= p -> p + 2 <= zlen msg ->
  (forall v, rd16 msg p = Ok v -> 0 <= v < 65536 -> Q v) -> ensures (rd16 msg p) Q.
Proof. intros Hb Hp Hl HQ. destruct (rd16_range msg p) as (v & Hv & ?); [done..|]. rewrite Hv. cbn. auto. Qed.

Lemma ensures_rd32 msg p (Q : Z -> Prop) : bytes msg -> 0 <= p -> p + 4 <= zlen msg ->
  (forall v, rd32 msg p = Ok v -> 0 <= v < 2 ^ 32 -> Q v) -> ensures (rd32 msg p) Q.
Proof. intros Hb Hp Hl HQ. destruct (rd32_range msg p) as (v & Hv & ?); [done..|]. rewrite Hv. cbn. auto. Qed.

Lemma returns_rd16 msg p (Q : Z -> Prop) : bytes msg -> 0 <= p -> p + 2 <= zlen msg ->
  (forall v, rd16 msg p = Ok v -> 0 <= v < 65536 -> Q v) -> returns (rd16 msg p) Q.
Proof. intros Hb Hp Hl HQ. destruct (rd16_range msg p) as (v & Hv & ?); [done..|]. rewrite Hv. cbn. auto. Qed.

(** One read of a straight-line parser. *)
Ltac ens_read :=
  rewrite ensures_bind; first [apply ensures_rd16 | apply ensures_rd32]; [assumption|lia|lia|];
  let v := fresh "v" in let Hv := fresh "Hrd" in let Hr := fresh "Hrange" in intros v Hv Hr.

Ltac ret_read :=
  rewrite returns_bind; apply returns_rd16; [assumption|lia|lia|];
  let v := fresh "v" in let Hv := fresh "Hrd" in let Hr := fresh "Hrange" in intros v Hv Hr.

Lemma ensures_parse_header msg :
  bytes msg -> ensures (dns_parse_header msg) (fun h => header_ok h /\ 12 <= zlen msg).
Proof.
  intros Hb. unfold dns_parse_header, DNS_HDR_LEN. case_test; [done|]. do 6 ens_read.
  split; [|done]. red; cbn. auto 10.
Qed.

Lemma parse_header_app pre h suf :
  bytes (pre ++ suf) -> pre = be16 (h_id h) ++ be16 (h_flags h) ++ be16 (h_qdcount h) ++
    be16 (h_ancount h) ++ be16 (h_nscount h) ++ be16 (h_arcount h) -> header_ok h ->
  dns_parse_header (pre ++ suf) = Ok h.
Proof.
  intros Hb -> (H1 & H2 & H3 & H4 & H5 & H6). unfold dns_parse_header, DNS_HDR_LEN.
  destruct h as [a b c d e f]. cbn [h_id h_flags h_qdcount h_ancount h_nscount h_arcount] in *.
  rewrite (proj2 (Z.ltb_ge _ _)) by zl.
  assert (forall p v s, (be16 a ++ be16 b ++ be16 c ++ be16 d ++ be16 e ++ be16 f) ++ suf = p ++ be16 v ++ s ->
    0 <= v < 65536 -> rd16 ((be16 a ++ be16 b ++ be16 c ++ be16 d ++ be16 e ++ be16 f) ++ suf) (zlen p) = Ok v) as Hrd.
  { intros p v s E Hv. rewrite E in *. by apply rd16_be16. }
  change 0 with (zlen (@nil Z)) at 1. erewrite (Hrd [] a), Ok_bind; [|by rewrite <- !app_assoc|done].
  change 2 with (zlen (be16 a)) at 1. erewrite (Hrd (be16 a) b), Ok_bind; [|by rewrite <- !app_assoc|done].
  change 4 with (zlen (be16 a ++ be16 b)). erewrite (Hrd _ c), Ok_bind; [|by rewrite <- !app_assoc|done].
  change 6 with (zlen (be16 a ++ be16 b ++ be16 c)). erewrite (Hrd _ d), Ok_bind; [|by rewrite <- !app_assoc|done].
  change 8 with (zlen (be16 a ++ be16 b ++ be16 c ++ be16 d)). erewrite (Hrd _ e), Ok_bind; [|by rewrite <- !app_assoc|done].
  change 10 with (zlen (be16 a ++ be16 b ++ be16 c ++ be16 d ++ be16 e)). erewrite (Hrd _ f), Ok_bind; [|by rewrite <- !app_assoc|done].
  done.
Qed.

Lemma split12 (l : list Z) : 12 <= zlen l ->
  exists a0 a1 a2 a3 a4 a5 a6 a7 a8 a9 a10 a11 r, l = a0 :: a1 :: a2 :: a3 :: a4 :: a5 :: a6 :: a7 :: a8 :: a9 :: a10 :: a11 :: r.
Proof.
  intros Hl. do 12 (destruct l as [|? l]; [unfold zlen in Hl; cbn in Hl; lia|]). by repeat eexists.
Qed.

Lemma be16_pair a b : byte a -> byte b -> be16 (a * 256 + b) = [a; b].
Proof.
  unfold byte, be16. intros. rewrite (Z.add_comm (a * 256)), Z.div_add, Z.mod_add by lia.
  rewrite Z.div_small, !Z.mod_small by lia. done.
Qed.

(** A header is read from the first 12 bytes. *)
Lemma parse_header_12 a0 a1 a2 a3 a4 a5 a6 a7 a8 a9 a10 a11 r :
  let msg := a0 :: a1 :: a2 :: a3 :: a4 :: a5 :: a6 :: a7 :: a8 :: a9 :: a10 :: a11 :: r in
  bytes msg -> dns_parse_header msg = Ok (DnsHeader (a0 * 256 + a1) (a2 * 256 + a3) (a4 * 256 + a5)
    (a6 * 256 + a7) (a8 * 256 + a9) (a10 * 256 + a11)).
Proof.
  intros msg Hb. assert (bytes msg) as Hb' by done. unfold msg, bytes in Hb'. repeat (apply Forall_cons in Hb' as [? Hb']).
  apply (parse_header_app [a0; a1; a2; a3; a4; a5; a6; a7; a8; a9; a10; a11]); [done| |].
  - cbn [h_id h_flags h_qdcount h_ancount h_nscount h_arcount]. rewrite !be16_pair by assumption. reflexivity.
  - unfold header_ok, byte in *. cbn. lia.
Qed.

Lemma ensures_skip_question msg off : bytes msg -> 0 <= off ->
  ensures (dns_skip_question msg off) (fun next => off < next <= zlen msg).
Proof.
  intros Hb Ho. unfold dns_skip_question.
  eapply ensures_bind_intro; [by apply ensures_decode_name_cap|]. intros [name after] (? & ? & ?).
  case_test; [done|]. cbn. lia.
Qed.

Lemma ensures_parse_rr msg off : bytes msg -> 0 <= off ->
  ensures (dns_parse_rr msg off) (fun '(rr, next) => rr_ok msg rr next /\ off < rr_rdata rr).
Proof.
  intros Hb Ho. unfold dns_parse_rr.
  eapply ensures_bind_intro; [by apply ensures_decode_name_cap|]. intros [name after] (? & ? & ?).
  case_test; [done|]. do 4 ens_read. case_test; [done|].
  cbn. unfold rr_ok. cbn. split_and!; try done; lia.
Qed.

Lemma ensures_parse_edns msg off n : bytes msg -> 0 <= off ->
  ensures (parse_edns msg off n) (fun '(_, payload, version, _) =>
    0 <= payload < 65536 /\ 0 <= version < 256).
Proof.
  intros Hb Ho. unfold parse_edns. case_test; [|cbn; lia].
  pose proof (ensures_parse_rr msg off Hb Ho) as H.
  destruct (dns_parse_rr msg off) as [[rr next]| | |]; cbn in H; [|cbn; lia|done..].
  unfold rr_ok in H. case_test; cbn; [|lia]. split; [lia|]. apply Z.mod_pos_bound. lia.
Qed.

Lemma ensures_parse_query msg : bytes msg -> ensures (dns_parse_query msg) (query_ok msg).
Proof.
  intros Hb. unfold dns_parse_query.
  eapply ensures_bind_intro; [by apply ensures_parse_header|]. intros h [Hh Hlen].
  repeat (case_test; [done|]).
  eapply ensures_bind_intro; [by apply ensures_decode_extent|]. intros [name after] (? & ? & ? & ?).
  unfold DNS_HDR_LEN in *. case_test; [done|]. do 2 ens_read.
  eapply ensures_bind_intro; [apply ensures_parse_edns; [done|lia]|].
  intros [[[has pay] ver] d] [? ?]. cbn -[Z.add Z.sub]. unfold query_ok, DNS_HDR_LEN. cbn -[Z.add Z.sub].
  split_and!; try done; lia.
Qed.

(** ** Lemmas: parsers and bytes *)

Lemma rd16_field msg p v : bytes msg -> rd16 msg p = Ok v <-> field16 msg p v.
Proof.
  intros Hb. split.
  - intros H. assert (H' := H). unfold rd16 in H'. apply bind_Ok in H' as (b0 & H0 & H').
    apply bind_Ok in H' as (b1 & H1 & _). exists b0, b1. split_and!; [done..|]. by eapply rd16_get8.
  - intros (b0 & b1 & H0 & H1 & E). by eapply rd16_get8.
Qed.

Lemma field16_bound msg p v : field16 msg p v -> 0 <= p /\ p + 2 <= zlen msg.
Proof. intros (b0 & b1 & H0%get8_bound & H1%get8_bound & _). lia. Qed.

Lemma rd32_field msg p v : bytes msg -> rd32 msg p = Ok v <-> field32 msg p v.
Proof.
  intros Hb. split.
  - intros H. assert (0 <= p /\ p + 4 <= zlen msg) as [Hp Hl].
    { unfold rd32 in H. apply bind_Ok in H as (? & H0%get8_bound & H). do 2 apply bind_Ok in H as (? & _ & H).
      apply bind_Ok in H as (? & H3%get8_bound & _). lia. }
    destruct (rd16_range msg p) as (a & Ha & _); [done|lia..|].
    destruct (rd16_range msg (p + 2)) as (b & Hb' & _); [done|lia..|].
    rewrite (rd32_rd16 _ _ a b) in H by done. injection H as <-. exists a, b. by rewrite <- !rd16_field.
  - intros (hi & lo & Hhi & Hlo & ->). apply rd32_rd16; [done|by apply rd16_field..].
Qed.

Lemma parse_header_at msg h : bytes msg -> dns_parse_header msg = Ok h <-> header_at msg h.
Proof.
  intros Hb. unfold dns_parse_header, header_at, DNS_HDR_LEN. rewrite <- !rd16_field by done. split.
  - case_test; [done|]. intros H. do 6 (apply bind_Ok in H as (? & ? & H)). injection H as <-. cbn. auto 10.
  - intros (-> & -> & -> & -> & -> & H). rewrite H. apply rd16_field in H as H%field16_bound; [|done].
    rewrite (proj2 (Z.ltb_ge _ _)) by lia. by destruct h.
Qed.

Lemma parse_rr_at msg off r next : bytes msg -> 0 <= off -> dns_parse_rr msg off = Ok (r, next) <-> rr_at msg off r next.
Proof.
  intros Hb Ho. unfold dns_parse_rr, rr_at. split.
  - intros H. apply bind_Ok in H as ([name after] & Hn & H). case_test_in H; [done|].
    apply bind_Ok in H as (ty & Ht & H). apply bind_Ok in H as (cl & Hc & H).
    apply bind_Ok in H as (ttl & Hl & H). apply bind_Ok in H as (rdl & Hr & H). case_test_in H; [done|].
    injection H as <- <-. exists after. cbn. rewrite <- !rd16_field, <- rd32_field by done. split_and!; done || lia.
  - intros (after & -> & H1 & H2 & H3 & H4 & Hd & -> & Hz). rewrite Ok_bind.
    apply field16_bound in H4 as Hb4. rewrite (proj2 (Z.ltb_ge _ _)) by lia.
    apply rd16_field in H1 as ->; [|done]. apply rd16_field in H2 as ->; [|done].
    apply rd32_field in H3 as ->; [|done]. apply rd16_field in H4 as ->; [|done].
    rewrite !Ok_bind, (proj2 (Z.ltb_ge _ _)) by lia. rewrite <- Hd. by destruct r.
Qed.

(** A mask of one bit, and the mask of the opcode. *)
Lemma has_flag_bit f i : 0 <= i -> has_flag f (2 ^ i) = Z.testbit f i.
Proof.
  intros Hi. unfold has_flag. destruct (Z.testbit f i) eqn:E.
  - apply negb_true_iff, Z.eqb_neq. intros H. apply (f_equal (fun x => Z.testbit x i)) in H.
    rewrite Z.land_spec, Z.pow2_bits_true, E, Z.bits_0 in H by done. done.
  - apply negb_false_iff, Z.eqb_eq, Z.bits_inj'. intros k Hk. rewrite Z.land_spec, Z.pow2_bits_eqb, Z.bits_0 by done.
    destruct (i =? k) eqn:Ek; zbool; subst; [by rewrite E|apply andb_false_r].
Qed.

Lemma has_flag_opcode f : has_flag f DNS_OPCODE_MASK = false <-> f / 2048 mod 16 = 0.
Proof.
  unfold has_flag, DNS_OPCODE_MASK. rewrite negb_false_iff, Z.eqb_eq.
  change 2048 with (2 ^ 11). change 16 with (2 ^ 4). change 30720 with (Z.shiftl (Z.ones 4) 11).
  rewrite <- Z.shiftr_div_pow2, <- Z.land_ones by lia. split; intros H; apply Z.bits_inj'; intros k Hk.
  - apply (f_equal (fun x => Z.testbit x (k + 11))) in H.
    rewrite Z.land_spec, Z.shiftl_spec, Z.bits_0 in H by lia. replace (k + 11 - 11) with k in H by lia.
    by rewrite Z.land_spec, Z.shiftr_spec, Z.bits_0 by lia.
  - rewrite Z.land_spec, Z.shiftl_spec, Z.bits_0 by lia. destruct (decide (k < 11)).
    { rewrite (Z.testbit_neg_r _ (k - 11)) by lia. apply andb_false_r. }
    apply (f_equal (fun x => Z.testbit x (k - 11))) in H. rewrite Z.land_spec, Z.shiftr_spec, Z.bits_0 in H by lia.
    by replace (k - 11 + 11) with k in H by lia.
Qed.

Lemma edns_version_byte ttl : 0 <= ttl -> u8 (Z.land (Z.shiftr ttl 16) 255) = ttl / 65536 mod 256.
Proof.
  intros. unfold u8. change 255 with (Z.ones 8). rewrite Z.land_ones, Z.shiftr_div_pow2 by lia.
  change (2 ^ 8) with 256. apply Z.mod_mod. lia.
Qed.

(** What [parse_edns] returns, in the fields of a query. *)
Lemma parse_edns_at msg p hdr q0 rd has pay ver d : bytes msg -> 0 <= p ->
  parse_edns msg p (h_arcount hdr) = Ok (has, pay, ver, d) <->
  edns_at msg p (DnsQueryInfo hdr q0 rd has pay ver d).
Proof.
  intros Hb Hp. unfold parse_edns, edns_at, opt_at.
  cbn [qi_hdr qi_has_edns qi_edns_udp_payload qi_edns_version qi_edns_do].
  assert (forall f ar, (forall r, ~ (1 <= ar /\ (exists next, rr_at msg p r next) /\ rr_type r = 41 /\ chr (rr_name r) = 0)) ->
    (Ok (false, 0, 0, false) = Ok (has, pay, ver, d) <->
    ((exists r, (1 <= ar /\ (exists next, rr_at msg p r next) /\ rr_type r = 41 /\ chr (rr_name r) = 0) /\ f r) \/
     ((forall r, ~ (1 <= ar /\ (exists next, rr_at msg p r next) /\ rr_type r = 41 /\ chr (rr_name r) = 0)) /\
      has = false /\ pay = 0 /\ ver = 0 /\ d = false)))) as Hno.
  { intros f ar H. split; [intros [= <- <- <- <-]; by right|].
    intros [(r & H' & _)|(_ & -> & -> & -> & ->)]; [by apply H in H'|done]. }
  case_test; [|apply Hno; lia]. pose proof (ensures_parse_rr msg p Hb Hp) as Hsafe.
  destruct (dns_parse_rr msg p) as [[opt next]| | |] eqn:E; [|apply Hno|done..].
  2: { intros r (_ & [nx H%parse_rr_at] & _); [congruence|done..]. }
  destruct Hsafe as [(_ & _ & _ & _ & Httl & _) _]. apply parse_rr_at in E as Hat; [|done..].
  assert (forall r nx, rr_at msg p r nx -> r = opt) as Huniq.
  { intros r nx H%parse_rr_at; [congruence|done..]. }
  case_match eqn:Em.
  - apply andb_true_iff in Em as [Ht%Z.eqb_eq Hc%Z.eqb_eq]. rewrite edns_version_byte by lia.
    change 32768 with (2 ^ 15). rewrite has_flag_bit by lia. split.
    + intros [= <- <- <- <-]. left. exists opt. split_and!; eauto.
    + intros [(r & (_ & (nx & ->%Huniq) & _) & -> & -> & -> & ->)|[H _]]; [done|]. exfalso. apply (H opt). split_and!; eauto.
  - apply Hno. intros r (_ & (nx & ->%Huniq) & Ht & Hc). rewrite Ht, Hc in Em. done.
Qed.

(** ** Theorems *)

(** [dns_parse_rr] is safe on every message: it reads inside of the
    message only and terminates, and a record it returns has its rdata inside
    of the message, ends at [*next], and makes progress. *)
Theorem parse_rr_safe msg off : bytes msg -> 0 <= off ->
  ensures (dns_parse_rr msg off) (fun '(rr, next) => rr_ok msg rr next /\ off < rr_rdata rr).
Proof. apply ensures_parse_rr. Qed.

Lemma parse_rr_safe_witness :
  ensures (dns_parse_rr [0; 0; 1; 0; 1; 0; 0; 0; 9; 0; 2; 7; 7] 0) (fun '(rr, next) =>
    rr_ok [0; 0; 1; 0; 1; 0; 0; 0; 9; 0; 2; 7; 7] rr next /\ 0 < rr_rdata rr).
Proof. apply parse_rr_safe; [repeat constructor; lia|lia]. Defined.

(** [dns_parse_query] is safe on every datagram, and a query it accepts is
    well formed: not a response, opcode QUERY, one question whose raw bytes
    start at offset 12, have at most 262 bytes and lie inside of the
    datagram. *)
Theorem parse_query_safe msg : bytes msg -> ensures (dns_parse_query msg) (query_ok msg).
Proof. apply ensures_parse_query. Qed.

Lemma parse_query_safe_witness :
  ensures (dns_parse_query [0; 7; 1; 0; 0; 1; 0; 0; 0; 0; 0; 0; 1; 97; 0; 0; 1; 0; 1])
    (query_ok [0; 7; 1; 0; 0; 1; 0; 0; 0; 0; 0; 0; 1; 97; 0; 0; 1; 0; 1]).
Proof. apply parse_query_safe. repeat constructor; lia. Defined.


