(* ===== verification/DnsBuild.v ===== *)
(** * Message building (src/dns_msg.c, building)

    [dns_build_response] and [dns_build_query] write into the caller's
    buffer: a [uint8_t *out, size_t cap] argument pair is a list of [cap]
    writable bytes, every write is checked against it, and [size_t]
    subtraction wraps. The file also holds the byte string a response is to
    consist of ([response_bytes]), which the in-place writer is proved
    against. *)

From stdpp Require Import prelude list.
From Stdlib Require Import ZArith Lia.
From S2P Require Import Prelude DnsName DnsParse.

Local Open Scope Z_scope.

Definition DNS_EDNS_MIN_PAYLOAD : Z := 512.
Definition DNS_EDNS_OUR_UDP_PAYLOAD : Z := 1232.
Definition DNS_CLASSIC_UDP_LIMIT : Z := 512.
Definition DNS_OPT_RR_LEN : Z := 11.

Definition wr16 (buf : list Z) (p v : Z) : res (list Z) :=
  buf1 ← put8 buf p (u8 (Z.shiftr v 8));
  put8 buf1 (p + 1) (u8 (Z.land v 255)).

Definition wr32 (buf : list Z) (p v : Z) : res (list Z) :=
  buf1 ← put8 buf p (u8 (Z.shiftr v 24));
  buf2 ← put8 buf1 (p + 1) (u8 (Z.shiftr v 16));
  buf3 ← put8 buf2 (p + 2) (u8 (Z.shiftr v 8));
  put8 buf3 (p + 3) (u8 v).

(** An RR to emit. [a_rdata] is the union's memory: the bytes that were
    written to it, read as [rdata.a] (4 of them), [rdata.aaaa] (16) or the
    string [rdata.cname]. *)
Record dns_answer := DnsAnswer {
  a_type : Z;
  a_ttl : Z;
  a_rdata : list Z;
  a_owner : list Z
}.

(** [a - b] on [size_t]. *)
Definition size_sub (a b : Z) : Z := u64 (a - b).

(** The response size ceiling: EDNS0 over UDP, 512 without it, the buffer
    over TCP. *)
Definition effective_cap (q : dns_query_info) (is_udp : bool) (cap : Z) : Z :=
  if is_udp then
    let c :=
      if qi_has_edns q then
        let theirs := if qi_edns_udp_payload q <? DNS_EDNS_MIN_PAYLOAD
                      then DNS_EDNS_MIN_PAYLOAD else qi_edns_udp_payload q in
        if theirs <? DNS_EDNS_OUR_UDP_PAYLOAD then theirs else DNS_EDNS_OUR_UDP_PAYLOAD
      else DNS_CLASSIC_UDP_LIMIT in
    if cap <? c then cap else c
  else cap.

(** The end of the answers, with room left for our own OPT record. *)
Definition answer_cap (q : dns_query_info) (eff o : Z) : Z :=
  if qi_has_edns q then
    if DNS_OPT_RR_LEN <? eff then eff - DNS_OPT_RR_LEN else o
  else eff.

(** The owner of one answer: a pointer to the question, or the name. *)
Definition emit_owner (qname : list Z) (a : dns_answer) (ans_cap : Z) (out : list Z) (o : Z)
    : res (list Z * Z) :=
  if dns_name_equal (a_owner a) qname then
    if ans_cap <? o + 2 then Fail else
    out1 ← put8 out o 192;
    out2 ← put8 out1 (o + 1) 12;
    Ok (out2, o + 2)
  else
    '(out1, n) ← dns_name_encode (a_owner a) out o (size_sub ans_cap o);
    Ok (out1, o + n).

(** The rdata of one answer and its length field; [o1] is the end of the
    owner. *)
Definition emit_rdata (a : dns_answer) (ans_cap : Z) (out : list Z) (o1 : Z)
    : res (option (list Z * Z)) :=
  let rdlen_at := o1 + 8 in
  let o2 := o1 + 10 in
  if a_type a =? DNS_TYPE_A then
    if ans_cap <? o2 + 4 then Fail else
    bs ← get_slice (a_rdata a) 0 4;
    out5 ← put_bytes out o2 bs;
    out6 ← wr16 out5 rdlen_at 4;
    Ok (Some (out6, o2 + 4))
  else if a_type a =? DNS_TYPE_AAAA then
    if ans_cap <? o2 + 16 then Fail else
    bs ← get_slice (a_rdata a) 0 16;
    out5 ← put_bytes out o2 bs;
    out6 ← wr16 out5 rdlen_at 16;
    Ok (Some (out6, o2 + 16))
  else if a_type a =? DNS_TYPE_CNAME then
    '(out5, n) ← dns_name_encode (a_rdata a) out o2 (size_sub ans_cap o2);
    out6 ← wr16 out5 rdlen_at (u16 n);
    Ok (Some (out6, o2 + n))
  else Ok None.

(** One iteration of the answer loop. [Fail] is [goto full], [Ok None] the
    [continue] for a type that is not emitted. Bytes the C code leaves behind
    the position it rolls back to are not kept: nobody reads beyond
    [*out_len]. *)
Definition emit_answer (qname : list Z) (a : dns_answer) (ans_cap : Z) (out : list Z) (o : Z)
    : res (option (list Z * Z)) :=
  '(out1, o1) ← emit_owner qname a ans_cap out o;
  if ans_cap <? o1 + 10 then Fail else
  out2 ← wr16 out1 o1 (a_type a);
  out3 ← wr16 out2 (o1 + 2) DNS_CLASS_IN;
  out4 ← wr32 out3 (o1 + 4) (a_ttl a);
  emit_rdata a ans_cap out4 o1.

(** The answer loop: the buffer, [o], [emitted] and [truncated] after it. *)
Fixpoint emit_answers (qname : list Z) (ans : list dns_answer) (ans_cap : Z)
    (out : list Z) (o emitted : Z) : res (list Z * Z * Z * bool) :=
  match ans with
  | [] => Ok (out, o, emitted, false)
  | a :: ans' =>
      match emit_answer qname a ans_cap out o with
      | Ok (Some (out', o')) => emit_answers qname ans' ans_cap out' o' (emitted + 1)
      | Ok None => emit_answers qname ans' ans_cap out o emitted
      | Fail => Ok (out, o, emitted, true)
      | Fault => Fault
      | Diverge => Diverge
      end
  end.

(** Our own OPT record; returns the buffer, [o] and [arcount]. *)
Definition emit_opt (q : dns_query_info) (eff : Z) (out : list Z) (o : Z) : res (list Z * Z * Z) :=
  if qi_has_edns q && (o + DNS_OPT_RR_LEN <=? eff) then
    out1 ← put8 out o 0;
    out2 ← wr16 out1 (o + 1) DNS_TYPE_OPT;
    out3 ← wr16 out2 (o + 3) DNS_EDNS_OUR_UDP_PAYLOAD;
    out4 ← wr32 out3 (o + 5) (if qi_edns_do q then 32768 else 0);
    out5 ← wr16 out4 (o + 9) 0;
    Ok (out5, o + 11, 1)
  else Ok (out, o, 0).

Definition response_flags (q : dns_query_info) (rcode : Z) (truncated : bool) : Z :=
  let f0 := Z.lor DNS_FLAG_QR DNS_FLAG_RA in
  let f1 := if qi_recursion_desired q then Z.lor f0 DNS_FLAG_RD else f0 in
  let f2 := if truncated then Z.lor f1 DNS_FLAG_TC else f1 in
  u16 (Z.lor f2 (u16 (Z.land rcode DNS_RCODE_MASK))).

Definition write_header (out : list Z) (id flags qd an ns ar : Z) : res (list Z) :=
  out1 ← wr16 out 0 id;
  out2 ← wr16 out1 2 flags;
  out3 ← wr16 out2 4 qd;
  out4 ← wr16 out3 6 an;
  out5 ← wr16 out4 8 ns;
  wr16 out5 10 ar.

(** Returns the buffer and [*out_len]. *)
Definition dns_build_response (query : list Z) (q : dns_query_info) (ans : list dns_answer)
    (rcode : Z) (is_udp : bool) (out : list Z) : res (list Z * Z) :=
  let cap := zlen out in
  let raw_off := q_raw_off (qi_q q) in
  let raw_len := q_raw_len (qi_q q) in
  if cap <? DNS_HDR_LEN then Fail else
  if zlen query <? raw_off + raw_len then Fail else
  if cap <? DNS_HDR_LEN + raw_len then Fail else
  question ← get_slice query raw_off raw_len;
  out1 ← put_bytes out DNS_HDR_LEN question;
  let o := DNS_HDR_LEN + raw_len in
  let eff := effective_cap q is_udp cap in
  let ans_cap := answer_cap q eff o in
  '(out2, o2, emitted, truncated) ←
    (if rcode =? DNS_RCODE_NOERROR
     then emit_answers (q_name (qi_q q)) ans ans_cap out1 o 0
     else Ok (out1, o, 0, false));
  '(out3, o3, arcount) ← emit_opt q eff out2 o2;
  out4 ← write_header out3 (h_id (qi_hdr q)) (response_flags q rcode truncated)
           1 (u16 emitted) 0 arcount;
  Ok (out4, o3).

(** Returns the buffer and [*out_len]; [edns = 0] attaches no OPT record. *)
Definition dns_build_query (id : Z) (name : list Z) (qtype : Z) (rd : bool) (edns : Z)
    (out : list Z) : res (list Z * Z) :=
  let cap := zlen out in
  if cap <? DNS_HDR_LEN then Fail else
  out1 ← write_header out id (if rd then DNS_FLAG_RD else 0) 1 0 0 (if edns =? 0 then 0 else 1);
  '(out2, n) ← dns_name_encode name out1 DNS_HDR_LEN (cap - DNS_HDR_LEN);
  let o := DNS_HDR_LEN + n in
  if cap <? o + 4 then Fail else
  out3 ← wr16 out2 o qtype;
  out4 ← wr16 out3 (o + 2) DNS_CLASS_IN;
  if edns =? 0 then Ok (out4, o + 4) else
  if cap <? o + 4 + DNS_OPT_RR_LEN then Fail else
  out5 ← put8 out4 (o + 4) 0;
  out6 ← wr16 out5 (o + 5) DNS_TYPE_OPT;
  out7 ← wr16 out6 (o + 7) edns;
  out8 ← wr32 out7 (o + 9) 0;
  out9 ← wr16 out8 (o + 13) 0;
  Ok (out9, o + 15).

(** ** Reference definitions *)

(** An answer whose fields are in range and whose union was written for its
    type. *)
Definition answer_ok (a : dns_answer) : Prop :=
  0 <= a_type a < 65536 /\ 0 <= a_ttl a < 2 ^ 32 /\ bytes (a_rdata a) /\ bytes (a_owner a) /\
  (a_type a = DNS_TYPE_A -> 4 <= zlen (a_rdata a)) /\
  (a_type a = DNS_TYPE_AAAA -> 16 <= zlen (a_rdata a)).

Definition rr_bytes (owner : list Z) (type rclass ttl : Z) (rdata : list Z) : list Z :=
  owner ++ be16 type ++ be16 rclass ++ be32 ttl ++ be16 (zlen rdata) ++ rdata.

Definition owner_bytes (qname : list Z) (a : dns_answer) : option (list Z) :=
  if dns_name_equal (a_owner a) qname then Some [192; 12] else encode_spec (a_owner a).

(** The rdata of an answer: [None] if it cannot be encoded, [Some None] if its
    type is not emitted. *)
Definition rdata_bytes (a : dns_answer) : option (option (list Z)) :=
  if a_type a =? DNS_TYPE_A then Some (Some (ztake 4 (a_rdata a)))
  else if a_type a =? DNS_TYPE_AAAA then Some (Some (ztake 16 (a_rdata a)))
  else if a_type a =? DNS_TYPE_CNAME then
    match encode_spec (a_rdata a) with Some w => Some (Some w) | None => None end
  else Some None.

(** What one answer contributes to a response with [room] bytes left:
    [None] if it does not fit, [Some None] if its type is not emitted. *)
Definition emit_spec (qname : list Z) (a : dns_answer) (room : Z) : option (option (list Z)) :=
  match owner_bytes qname a with
  | None => None
  | Some ow =>
      if room <? zlen ow + 10 then None else
      match rdata_bytes a with
      | None => None
      | Some None => Some None
      | Some (Some d) =>
          if room <? zlen ow + 10 + zlen d then None
          else Some (Some (rr_bytes ow (a_type a) DNS_CLASS_IN (a_ttl a) d))
      end
  end.

(** The answers up to the first that does not fit, and whether there was one. *)
Fixpoint answers_spec (qname : list Z) (ans : list dns_answer) (room : Z) : list (list Z) * bool :=
  match ans with
  | [] => ([], false)
  | a :: ans' =>
      match emit_spec qname a room with
      | None => ([], true)
      | Some None => answers_spec qname ans' room
      | Some (Some bs) =>
          let '(rest, tc) := answers_spec qname ans' (room - zlen bs) in (bs :: rest, tc)
      end
  end.

Definition header_bytes (id flags qd an ns ar : Z) : list Z :=
  be16 id ++ be16 flags ++ be16 qd ++ be16 an ++ be16 ns ++ be16 ar.

Definition opt_bytes (payload : Z) (do_bit : bool) : list Z :=
  rr_bytes [0] DNS_TYPE_OPT payload (if do_bit then 32768 else 0) [].

(** Our OPT record, where the query had one. *)
Definition opt_part (q : dns_query_info) : list Z :=
  if qi_has_edns q then opt_bytes DNS_EDNS_OUR_UDP_PAYLOAD (qi_edns_do q) else [].

Definition question_bytes (query : list Z) (q : dns_query_info) : list Z :=
  ztake (q_raw_len (qi_q q)) (zdrop (q_raw_off (qi_q q)) query).

(** The answer records of a response, and whether some did not fit. *)
Definition response_rrs (q : dns_query_info) (ans : list dns_answer) (rcode : Z) (is_udp : bool)
    (cap : Z) : list (list Z) * bool :=
  let o := DNS_HDR_LEN + q_raw_len (qi_q q) in
  if rcode =? DNS_RCODE_NOERROR
  then answers_spec (q_name (qi_q q)) ans (answer_cap q (effective_cap q is_udp cap) o - o)
  else ([], false).

(** The whole response. *)
Definition response_bytes (query : list Z) (q : dns_query_info) (ans : list dns_answer)
    (rcode : Z) (is_udp : bool) (cap : Z) : list Z :=
  let '(rrs, tc) := response_rrs q ans rcode is_udp cap in
  header_bytes (h_id (qi_hdr q)) (response_flags q rcode tc) 1 (u16 (zlen rrs)) 0
    (if qi_has_edns q then 1 else 0)
  ++ question_bytes query q ++ concat rrs ++ opt_part q.

(** The whole query, if its name can be encoded. *)
Definition query_bytes (id : Z) (name : list Z) (qtype : Z) (rd : bool) (edns : Z) : option (list Z) :=
  match encode_spec name with
  | None => None
  | Some w =>
      Some (header_bytes id (if rd then DNS_FLAG_RD else 0) 1 0 0 (if edns =? 0 then 0 else 1)
            ++ w ++ be16 qtype ++ be16 DNS_CLASS_IN
            ++ (if edns =? 0 then [] else opt_bytes edns false))
  end.

(** The reserve of the OPT record. *)
Definition opt_room (q : dns_query_info) : Z := if qi_has_edns q then DNS_OPT_RR_LEN else 0.

(** Reading [n] records, as a client of a response does. *)
Fixpoint parse_rrs (n : nat) (msg : list Z) (off : Z) : res (list dns_rr * Z) :=
  match n with
  | O => Ok ([], off)
  | S n' =>
      '(r, next) ← dns_parse_rr msg off;
      '(rs, last) ← parse_rrs n' msg next;
      Ok (r :: rs, last)
  end.

(** The record [bs] carries the answer [a]. *)
Definition rr_of (qname : list Z) (a : dns_answer) (bs : list Z) : Prop :=
  exists ow d, owner_bytes qname a = Some ow /\ rdata_bytes a = Some (Some d) /\
    bs = rr_bytes ow (a_type a) DNS_CLASS_IN (a_ttl a) d.

(** The types [dns_build_response] emits. *)
Definition emittable (a : dns_answer) : Prop :=
  a_type a = DNS_TYPE_A \/ a_type a = DNS_TYPE_AAAA \/ a_type a = DNS_TYPE_CNAME.

#[global] Instance emittable_dec a : Decision (emittable a).
Proof. unfold emittable. apply _. Defined.

(** The record [r] read from [msg] says what the answer [a] says. *)
Definition reads_as (msg : list Z) (a : dns_answer) (r : dns_rr) : Prop :=
  (dns_name_equal (rr_name r) (a_owner a) = true \/ rr_name r = strip_dot (fold_case (a_owner a))) /\
  rr_type r = a_type a /\ rr_rclass r = DNS_CLASS_IN /\ rr_ttl r = a_ttl a /\
  exists d, rdata_bytes a = Some (Some d) /\ get_slice msg (rr_rdata r) (rr_rdlength r) = Ok d.

(** A query for [a] with an OPT record, and an answer to it. *)
Definition sample_query : list Z :=
  [0; 7; 1; 0; 0; 1; 0; 0; 0; 0; 0; 1; 1; 97; 0; 0; 1; 0; 1; 0; 0; 41; 4; 208; 0; 0; 0; 0; 0; 0].

Definition sample_info : dns_query_info :=
  DnsQueryInfo (DnsHeader 7 256 1 0 0 1) (DnsQuestion [97] 1 1 12 7) true true 1232 0 false.

Definition sample_answers : list dns_answer :=
  [DnsAnswer 5 60 [98] [97]; DnsAnswer 1 30 [10; 0; 0; 1] [98]].

(** ** Lemmas: fields *)

Lemma wr16_be16 buf p v : wr16 buf p v = put_bytes buf p (be16 v).
Proof.
  unfold wr16, be16. cbn [put_bytes]. unfold u8. rewrite Z.shiftr_div_pow2 by lia.
  change 255 with (Z.ones 8). rewrite Z.land_ones, Z.mod_mod by lia. change (2 ^ 8) with 256.
  destruct (put8 buf p _) as [b| | |]; [cbn|done..]. by destruct (put8 b _ _).
Qed.

Lemma wr32_be32 buf p v : wr32 buf p v = put_bytes buf p (be32 v).
Proof.
  unfold wr32, be32, be16. cbn [put_bytes app]. unfold u8. rewrite !Z.shiftr_div_pow2 by lia.
  change (2 ^ 8) with 256. change (2 ^ 16) with 65536. change (2 ^ 24) with (65536 * 256).
  rewrite Z.div_div by lia.
  destruct (put8 buf p _) as [b| | |]; [cbn|done..]. destruct (put8 b _ _) as [c| | |]; [cbn|done..].
  rewrite <- !Z.add_assoc. change (1 + 1) with 2. change (2 + 1) with 3. destruct (put8 c _ _) as [d| | |]; [cbn|done..].
  change (1 + (1 + 1)) with 3. by destruct (put8 d _ _).
Qed.

(** Appending a field to what was just written. *)
Section appending.
Context {B : Type} (out : list Z) (p p' : Z) (bs : list Z) (f : list Z -> res B).

Lemma first_wr16 v : (b ← wr16 out p v; f b) = (b ← put_bytes out p (be16 v); f b).
Proof. by rewrite wr16_be16. Qed.

Lemma first_put8 v : (b ← put8 out p v; f b) = (b ← put_bytes out p [v]; f b).
Proof. by rewrite put8_put_bytes. Qed.

Lemma next_put8 v : p' = p + zlen bs ->
  (b ← put_bytes out p bs; c ← put8 b p' v; f c) = (c ← put_bytes out p (bs ++ [v]); f c).
Proof.
  intros ->. rewrite put_bytes_app. destruct (put_bytes out p bs); [|done..].
  by rewrite !Ok_bind, put8_put_bytes.
Qed.

Lemma next_wr16 v : p' = p + zlen bs ->
  (b ← put_bytes out p bs; c ← wr16 b p' v; f c) = (c ← put_bytes out p (bs ++ be16 v); f c).
Proof.
  intros ->. rewrite put_bytes_app. destruct (put_bytes out p bs); [|done..].
  by rewrite !Ok_bind, wr16_be16.
Qed.

Lemma next_wr32 v : p' = p + zlen bs ->
  (b ← put_bytes out p bs; c ← wr32 b p' v; f c) = (c ← put_bytes out p (bs ++ be32 v); f c).
Proof.
  intros ->. rewrite put_bytes_app. destruct (put_bytes out p bs); [|done..].
  by rewrite !Ok_bind, wr32_be32.
Qed.

Lemma last_wr16 v : p' = p + zlen bs ->
  (b ← put_bytes out p bs; wr16 b p' v) = put_bytes out p (bs ++ be16 v).
Proof.
  intros ->. rewrite put_bytes_app. destruct (put_bytes out p bs); [|done..].
  by rewrite !Ok_bind, wr16_be16.
Qed.
End appending.

(** Turns a run of appending writes into one [put_bytes]. *)
Ltac merge_writes :=
  rewrite ?first_wr16, ?first_put8;
  repeat first [rewrite next_wr16 by zl | rewrite next_wr32 by zl | rewrite next_put8 by zl];
  rewrite ?last_wr16 by zl; rewrite <- ?app_assoc.

Lemma write_header_bytes out id flags qd an ns ar :
  write_header out id flags qd an ns ar = put_bytes out 0 (header_bytes id flags qd an ns ar).
Proof. unfold write_header. by merge_writes. Qed.

Lemma zlen_header_bytes id flags qd an ns ar : zlen (header_bytes id flags qd an ns ar) = 12.
Proof. done. Qed.

Lemma header_bytes_bytes id flags qd an ns ar : bytes (header_bytes id flags qd an ns ar).
Proof. unfold header_bytes. rewrite !bytes_app. auto 10 with fizz. Qed.

#[export] Hint Rewrite zlen_header_bytes : zlen.
#[export] Hint Resolve header_bytes_bytes : fizz.

Lemma zlen_rr_bytes ow t c ttl d : zlen (rr_bytes ow t c ttl d) = zlen ow + 10 + zlen d.
Proof. unfold rr_bytes. zl. Qed.

#[export] Hint Rewrite zlen_rr_bytes : zlen.

Lemma rr_bytes_bytes ow t c ttl d : bytes ow -> bytes d -> bytes (rr_bytes ow t c ttl d).
Proof. intros. unfold rr_bytes. rewrite !bytes_app. auto 10 with fizz. Qed.

Lemma opt_room_bound q : 0 <= opt_room q <= 11.
Proof. unfold opt_room, DNS_OPT_RR_LEN. case_test; lia. Qed.

Lemma zlen_opt_part q : zlen (opt_part q) = opt_room q.
Proof. unfold opt_part, opt_room. by case_test. Qed.

Lemma emit_opt_bytes q eff out o :
  o + opt_room q <= eff ->
  emit_opt q eff out o =
  (out' ← put_bytes out o (opt_part q); Ok (out', o + opt_room q, if qi_has_edns q then 1 else 0)).
Proof.
  intros He. unfold emit_opt, opt_part, opt_room, DNS_OPT_RR_LEN in *. destruct (qi_has_edns q); cbn [andb].
  - rewrite (proj2 (Z.leb_le _ _)) by lia. by merge_writes.
  - cbn. by rewrite Z.add_0_r.
Qed.

(** ** Lemmas: answers *)

Lemma size_sub_small a b : 0 <= b <= a -> a < 2 ^ 64 -> size_sub a b = a - b.
Proof. intros. unfold size_sub, u64. apply Z.mod_small. lia. Qed.

Lemma emit_owner_spec qname a ans_cap out o :
  0 <= o <= ans_cap -> ans_cap <= zlen out -> zlen out < 2 ^ 64 ->
  emit_owner qname a ans_cap out o =
  match owner_bytes qname a with
  | Some ow => if zlen ow <=? ans_cap - o
               then out' ← put_bytes out o ow; Ok (out', o + zlen ow) else Fail
  | None => Fail
  end.
Proof.
  intros Ho Hc Hl. unfold emit_owner, owner_bytes. case_test.
  - change (zlen [192; 12]) with 2.
    destruct (Z.ltb_spec ans_cap (o + 2)), (Z.leb_spec 2 (ans_cap - o)); try lia; [done|].
    by merge_writes.
  - rewrite size_sub_small, encode_refines_spec by lia.
    destruct (encode_spec (a_owner a)) as [w|]; [|done]. case_test; [|done].
    by destruct (put_bytes out o w).
Qed.

(** The three shapes of rdata, written behind the fixed part of an RR whose
    length field is filled in last. *)
Lemma emit_fixed_rdata {B} out o ow t ttl d (f : list Z -> res B) :
  0 <= o -> o + zlen ow + 10 + zlen d <= zlen out ->
  (out1 ← put_bytes out o ow;
   out2 ← wr16 out1 (o + zlen ow) t;
   out3 ← wr16 out2 (o + zlen ow + 2) DNS_CLASS_IN;
   out4 ← wr32 out3 (o + zlen ow + 4) ttl;
   out5 ← put_bytes out4 (o + zlen ow + 10) d;
   out6 ← wr16 out5 (o + zlen ow + 8) (zlen d);
   f out6) =
  (out6 ← put_bytes out o (rr_bytes ow t DNS_CLASS_IN ttl d); f out6).
Proof.
  intros Ho Hl. merge_writes.
  transitivity (x ← put_bytes out o (ow ++ be16 t ++ be16 DNS_CLASS_IN ++ be32 ttl);
    y ← put_bytes x (o + zlen ow + 10) d; z ← put_bytes y (o + zlen ow + 8) (be16 (zlen d)); f z).
  { destruct (put_bytes out o _) as [x| | |]; [|done..]. rewrite !Ok_bind.
    destruct (put_bytes x _ _) as [y| | |]; [|done..]. by rewrite !Ok_bind, wr16_be16. }
  rewrite put_bytes_gap by zl. unfold rr_bytes. by rewrite <- !app_assoc.
Qed.

Lemma put_bytes_fits out o bs : 0 <= o -> o + zlen bs <= zlen out ->
  exists out', put_bytes out o bs = Ok out' /\ zlen out' = zlen out.
Proof.
  intros Ho Hl. destruct (put_bytes_append bs out o (ztake o out)) as (out' & H & ? & _); eauto.
Qed.

Lemma emit_fixed_part out o ow t ttl :
  0 <= o -> o + zlen ow + 10 <= zlen out ->
  exists out4, zlen out4 = zlen out /\
  forall (B : Type) (f : list Z -> res B),
  (out1 ← put_bytes out o ow;
   out2 ← wr16 out1 (o + zlen ow) t;
   out3 ← wr16 out2 (o + zlen ow + 2) DNS_CLASS_IN;
   out4 ← wr32 out3 (o + zlen ow + 4) ttl;
   f out4) = f out4.
Proof.
  intros Ho Hl.
  destruct (put_bytes_fits out o (ow ++ be16 t ++ be16 DNS_CLASS_IN ++ be32 ttl)) as (x & Hx & Hlen); [zl..|].
  exists x. split; [done|]. intros B f. merge_writes. by rewrite Hx.
Qed.

Lemma emit_rdata_spec a ans_cap out o1 :
  answer_ok a -> 0 <= o1 -> o1 + 10 <= ans_cap -> ans_cap <= zlen out -> zlen out < 2 ^ 64 ->
  emit_rdata a ans_cap out o1 =
  match rdata_bytes a with
  | None => Fail
  | Some None => Ok None
  | Some (Some d) =>
      if ans_cap <? o1 + 10 + zlen d then Fail else
      out5 ← put_bytes out (o1 + 10) d;
      out6 ← wr16 out5 (o1 + 8) (zlen d);
      Ok (Some (out6, o1 + 10 + zlen d))
  end.
Proof.
  intros (_ & _ & _ & _ & HA & HAAAA) Ho Hr Hc Hl. unfold emit_rdata, rdata_bytes.
  case_test; [|case_test; [|case_test; [|done]]].
  - specialize (HA Etest). rewrite zlen_ztake by lia. case_test; [done|].
    by rewrite get_slice_in_range, Ok_bind by lia.
  - specialize (HAAAA Etest0). rewrite zlen_ztake by lia. case_test; [done|].
    by rewrite get_slice_in_range, Ok_bind by lia.
  - rewrite size_sub_small, encode_refines_spec by lia.
    destruct (encode_spec (a_rdata a)) as [w|] eqn:Ew; [|done].
    apply encode_spec_Some in Ew as (_ & _ & Hw). unfold DNS_MAX_NAME in Hw. pose proof (zlen_nonneg w).
    destruct (Z.leb_spec (zlen w) (ans_cap - (o1 + 10))), (Z.ltb_spec ans_cap (o1 + 10 + zlen w)); try lia; [|done].
    destruct (put_bytes out (o1 + 10) w); [|done..]. rewrite !Ok_bind.
    unfold u16. by rewrite Z.mod_small by lia.
Qed.

Lemma emit_answer_spec qname a ans_cap out o :
  answer_ok a -> 0 <= o <= ans_cap -> ans_cap <= zlen out -> zlen out < 2 ^ 64 ->
  emit_answer qname a ans_cap out o =
  match emit_spec qname a (ans_cap - o) with
  | None => Fail
  | Some None => Ok None
  | Some (Some bs) => out' ← put_bytes out o bs; Ok (Some (out', o + zlen bs))
  end.
Proof.
  intros Ha Ho Hc Hl. unfold emit_answer, emit_spec. rewrite emit_owner_spec by lia.
  destruct (owner_bytes qname a) as [ow|]; [|done]. pose proof (zlen_nonneg ow).
  destruct (Z.ltb_spec (ans_cap - o) (zlen ow + 10)) as [Hr|Hr].
  { case_test; [|done]. destruct (put_bytes_fits out o ow) as (x & -> & _); [lia..|].
    rewrite !Ok_bind. by rewrite (proj2 (Z.ltb_lt _ _)) by lia. }
  rewrite (proj2 (Z.leb_le _ _)) by lia.
  destruct (emit_fixed_part out o ow (a_type a) (a_ttl a)) as (out4 & Hlen4 & Hfix); [lia..|].
  pose proof (emit_rdata_spec a ans_cap out4 (o + zlen ow) Ha ltac:(lia) ltac:(lia) ltac:(lia) ltac:(lia)) as Hrd.
  transitivity (emit_rdata a ans_cap out4 (o + zlen ow)).
  { rewrite <- (Hfix _ (fun x => emit_rdata a ans_cap x (o + zlen ow))).
    destruct (put_bytes out o ow); [|done..]. rewrite !Ok_bind. by rewrite (proj2 (Z.ltb_ge _ _)) by lia. }
  rewrite Hrd. destruct (rdata_bytes a) as [[d|]|]; [|done..].
  destruct (Z.ltb_spec ans_cap (o + zlen ow + 10 + zlen d)), (Z.ltb_spec (ans_cap - o) (zlen ow + 10 + zlen d));
    try lia; [done|].
  rewrite zlen_rr_bytes, !Z.add_assoc. rewrite <- emit_fixed_rdata by lia. by rewrite Hfix.
Qed.

Lemma emit_spec_fits qname a room bs : emit_spec qname a room = Some (Some bs) -> zlen bs <= room.
Proof.
  unfold emit_spec. destruct (owner_bytes qname a); [|done]. case_test; [done|].
  destruct (rdata_bytes a) as [[d|]|]; [|done..]. case_test; [done|]. intros [= <-]. zl.
Qed.

(** The loop writes the answers of [answers_spec], one behind the other. *)
Lemma emit_answers_spec qname ans ans_cap : Forall answer_ok ans ->
  forall out o em rrs tc,
  0 <= o <= ans_cap -> ans_cap <= zlen out -> zlen out < 2 ^ 64 ->
  answers_spec qname ans (ans_cap - o) = (rrs, tc) ->
  exists out', emit_answers qname ans ans_cap out o em = Ok (out', o + zlen (concat rrs), em + zlen rrs, tc) /\
    put_bytes out o (concat rrs) = Ok out' /\ o + zlen (concat rrs) <= ans_cap.
Proof.
  induction 1 as [|a ans Ha _ IH]; intros out o em rrs tc Ho Hc Hl; cbn [answers_spec emit_answers].
  { intros [= <- <-]. exists out. cbn. rewrite !zlen_nil, !Z.add_0_r. split_and!; [done..|lia]. }
  rewrite emit_answer_spec by done.
  destruct (emit_spec qname a (ans_cap - o)) as [[bs|]|] eqn:Eb.
  - apply emit_spec_fits in Eb. pose proof (zlen_nonneg bs).
    destruct (put_bytes_fits out o bs) as (out1 & Hput & Hlen); [lia..|].
    rewrite Hput, Ok_bind.
    destruct (answers_spec qname ans (ans_cap - o - zlen bs)) as [rest tc'] eqn:Er.
    intros [= <- <-]. destruct (IH out1 (o + zlen bs) (em + 1) rest tc') as (out' & Hem & Hput' & Hfit); [lia..| |].
    { rewrite <- Er. f_equal. lia. }
    exists out'. cbn [concat]. rewrite Hem, put_bytes_app, Hput, Ok_bind, !zlen_app, zlen_cons, !Z.add_assoc. done.
  - intros Hs. apply IH; done.
  - intros [= <- <-]. exists out. cbn. rewrite !zlen_nil, !Z.add_0_r. split_and!; [done..|lia].
Qed.

Lemma effective_cap_bound q is_udp cap : 0 <= cap -> 0 <= effective_cap q is_udp cap <= cap.
Proof.
  unfold effective_cap, DNS_EDNS_MIN_PAYLOAD, DNS_EDNS_OUR_UDP_PAYLOAD, DNS_CLASSIC_UDP_LIMIT. intros.
  repeat case_test; lia.
Qed.

Lemma answer_cap_room q eff o : 0 < o -> o + opt_room q <= eff -> answer_cap q eff o = eff - opt_room q.
Proof. unfold answer_cap, opt_room, DNS_OPT_RR_LEN. intros. repeat case_test; lia. Qed.

(** The answer section as [dns_build_response] writes it. *)
Lemma response_rrs_spec q ans rcode is_udp out rrs tc :
  let o := DNS_HDR_LEN + q_raw_len (qi_q q) in
  let eff := effective_cap q is_udp (zlen out) in
  Forall answer_ok ans -> zlen out < 2 ^ 64 -> 0 <= q_raw_len (qi_q q) ->
  o + opt_room q <= eff ->
  response_rrs q ans rcode is_udp (zlen out) = (rrs, tc) ->
  exists out',
    (if rcode =? DNS_RCODE_NOERROR
     then emit_answers (q_name (qi_q q)) ans (answer_cap q eff o) out o 0
     else Ok (out, o, 0, false)) = Ok (out', o + zlen (concat rrs), zlen rrs, tc) /\
    put_bytes out o (concat rrs) = Ok out' /\ o + zlen (concat rrs) + opt_room q <= eff.
Proof.
  intros o eff Ha Hl Hr Hroom. unfold response_rrs. fold o eff. pose proof (opt_room_bound q).
  pose proof (effective_cap_bound q is_udp (zlen out) (zlen_nonneg out)) as Heff. fold eff in Heff.
  assert (0 < o) by (unfold o, DNS_HDR_LEN; lia).
  rewrite answer_cap_room by lia. destruct (rcode =? DNS_RCODE_NOERROR).
  - intros (out' & Hem & Hput & Hfit)%(emit_answers_spec _ _ _ Ha out o 0); [|lia..].
    exists out'. split_and!; [done..|lia].
  - intros [= <- <-]. exists out. change (zlen (concat [])) with 0. rewrite !Z.add_0_r.
    split_and!; [done..|lia].
Qed.

(** The builder writes exactly the bytes of [response_bytes], which fit. *)
Lemma build_response_spec query q ans rcode is_udp out :
  let R := response_bytes query q ans rcode is_udp (zlen out) in
  Forall answer_ok ans -> zlen out < 2 ^ 64 ->
  0 <= q_raw_off (qi_q q) -> 0 <= q_raw_len (qi_q q) ->
  q_raw_off (qi_q q) + q_raw_len (qi_q q) <= zlen query ->
  DNS_HDR_LEN + q_raw_len (qi_q q) + opt_room q <= effective_cap q is_udp (zlen out) ->
  dns_build_response query q ans rcode is_udp out = (out' ← put_bytes out 0 R; Ok (out', zlen R)) /\
  zlen R <= effective_cap q is_udp (zlen out).
Proof.
  intros R Ha Hl Hoff Hlen Hq Hroom. unfold DNS_HDR_LEN in Hroom. subst R.
  pose proof (effective_cap_bound q is_udp (zlen out) (zlen_nonneg out)). pose proof (opt_room_bound q).
  unfold dns_build_response, response_bytes. destruct (response_rrs q ans rcode is_udp (zlen out)) as [rrs tc] eqn:Er.
  rewrite !(proj2 (Z.ltb_ge _ _)) by (unfold DNS_HDR_LEN; lia).
  rewrite get_slice_in_range, Ok_bind by lia. fold (question_bytes query q).
  assert (zlen (question_bytes query q) = q_raw_len (qi_q q)) as Hqb by (apply zlen_slice; lia).
  destruct (put_bytes_fits out DNS_HDR_LEN (question_bytes query q)) as (out1 & Hput1 & Hlen1); [unfold DNS_HDR_LEN; lia..|].
  rewrite Hput1, Ok_bind. rewrite <- Hlen1 in Er |- *.
  apply response_rrs_spec in Er as (out2 & -> & Hput2 & Hfit); [|unfold DNS_HDR_LEN; rewrite ?Hlen1; done..].
  rewrite Ok_bind, emit_opt_bytes by done. rewrite Hlen1 in *. unfold DNS_HDR_LEN in *.
  autorewrite with zlen. rewrite Hqb, zlen_opt_part. split; [|lia].
  transitivity (x ← put_bytes out 12 (question_bytes query q ++ concat rrs ++ opt_part q);
    y ← put_bytes x 0 (header_bytes (h_id (qi_hdr q)) (response_flags q rcode tc) 1 (u16 (zlen rrs)) 0
                        (if qi_has_edns q then 1 else 0));
    Ok (y, 12 + (q_raw_len (qi_q q) + (zlen (concat rrs) + opt_room q)))).
  { rewrite !put_bytes_app, Hput1, Ok_bind, Hqb, put_bytes_app, Hput2, Ok_bind, !Z.add_assoc.
    destruct (put_bytes out2 _ (opt_part q)); [|done..]. rewrite !Ok_bind. by rewrite write_header_bytes. }
  apply (put_bytes_gap out 0 [] _ _ 0 12); [lia|done|zl|].
  autorewrite with zlen. rewrite Hqb, zlen_opt_part. lia.
Qed.

(** ** Lemmas: reading back what was built *)

Lemma parse_rr_bytes pre ow t c ttl d suf name :
  let msg := pre ++ rr_bytes ow t c ttl d ++ suf in
  bytes msg -> 0 <= t < 65536 -> 0 <= c < 65536 -> 0 <= ttl < 2 ^ 32 -> zlen d < 65536 ->
  dns_name_decode msg (zlen pre) NAME_CAP = Ok (name, zlen pre + zlen ow) ->
  dns_parse_rr msg (zlen pre) =
  Ok (DnsRr name t c ttl (zlen d) (zlen pre + zlen ow + 10), zlen pre + zlen (rr_bytes ow t c ttl d)).
Proof.
  intros msg Hb Ht Hc Httl Hd Hn. unfold dns_parse_rr. rewrite Hn, Ok_bind.
  rewrite (proj2 (Z.ltb_ge _ _)) by (subst msg; zl).
  assert (forall p v s, msg = p ++ be16 v ++ s -> 0 <= v < 65536 -> rd16 msg (zlen p) = Ok v) as Hrd.
  { intros p v s E Hv. rewrite E in *. by apply rd16_be16. }
  assert (forall p v s, msg = p ++ be32 v ++ s -> 0 <= v < 2 ^ 32 -> rd32 msg (zlen p) = Ok v) as Hrd32.
  { intros p v s E Hv. rewrite E in *. by apply rd32_be32. }
  unfold msg, rr_bytes in Hrd, Hrd32 |- *. rewrite <- !app_assoc in *. pose proof (zlen_nonneg d).
  replace (zlen pre + zlen ow) with (zlen (pre ++ ow)) by zl.
  erewrite (Hrd (pre ++ ow) t), Ok_bind; [|by rewrite <- !app_assoc|done].
  replace (zlen (pre ++ ow) + 2) with (zlen (pre ++ ow ++ be16 t)) by zl.
  erewrite (Hrd _ c), Ok_bind; [|by rewrite <- !app_assoc|done].
  replace (zlen (pre ++ ow) + 4) with (zlen (pre ++ ow ++ be16 t ++ be16 c)) by zl.
  erewrite (Hrd32 _ ttl), Ok_bind; [|by rewrite <- !app_assoc|done].
  replace (zlen (pre ++ ow) + 8) with (zlen (pre ++ ow ++ be16 t ++ be16 c ++ be32 ttl)) by zl.
  erewrite (Hrd _ (zlen d)), Ok_bind; [|by rewrite <- !app_assoc|lia].
  rewrite (proj2 (Z.ltb_ge _ _)) by zl. f_equal. f_equal. zl.
Qed.

(** The bytes of a query. *)
Lemma build_query_spec id name qtype rd edns out :
  zlen out < 2 ^ 64 ->
  dns_build_query id name qtype rd edns out =
  match query_bytes id name qtype rd edns with
  | Some m => if zlen m <=? zlen out then out' ← put_bytes out 0 m; Ok (out', zlen m) else Fail
  | None => Fail
  end.
Proof.
  intros Hl. unfold dns_build_query, query_bytes, DNS_HDR_LEN. case_test.
  { destruct (encode_spec name) as [w|]; [|done]. rewrite (proj2 (Z.leb_gt _ _)); [done|].
    autorewrite with zlen. case_test; zl. }
  rewrite write_header_bytes. set (h := header_bytes _ _ _ _ _ _). assert (zlen h = 12) as Hh by done.
  destruct (put_bytes_fits out 0 h) as (out1 & Hput1 & Hlen1); [lia..|]. rewrite Hput1, Ok_bind.
  rewrite encode_refines_spec by lia. destruct (encode_spec name) as [w|]; [|done].
  pose proof (zlen_nonneg w). autorewrite with zlen. rewrite Hh.
  assert (0 <= zlen (if edns =? 0 then [] else opt_bytes edns false)) by apply zlen_nonneg.
  destruct (Z.leb_spec (zlen w) (zlen out - 12)); [|by rewrite (proj2 (Z.leb_gt _ _)) by lia].
  rewrite (put_bytes_app h), Hput1, Ok_bind, (put_bytes_app w), Hh. change (0 + 12) with 12.
  destruct (put_bytes_fits out1 12 w) as (out2 & -> & Hlen2); [lia..|]. rewrite !Ok_bind.
  destruct (Z.ltb_spec (zlen out) (12 + zlen w + 4)); [by rewrite (proj2 (Z.leb_gt _ _)) by lia|].
  rewrite first_wr16, next_wr16 by zl. rewrite (app_assoc (be16 qtype)), (put_bytes_app (be16 qtype ++ _)).
  destruct (put_bytes_fits out2 (12 + zlen w) (be16 qtype ++ be16 DNS_CLASS_IN)) as (out4 & -> & Hlen4); [zl..|].
  rewrite !Ok_bind. destruct (edns =? 0).
  { rewrite zlen_nil, (proj2 (Z.leb_le _ _)) by lia. cbn [put_bytes]. rewrite Ok_bind. do 2 f_equal. lia. }
  unfold DNS_OPT_RR_LEN. change (zlen (opt_bytes edns false)) with 11.
  case_test; [by rewrite (proj2 (Z.leb_gt _ _)) by lia|]. rewrite (proj2 (Z.leb_le _ _)) by lia.
  merge_writes. autorewrite with zlen. rewrite Z.add_assoc.
  change (2 + (2 + 11)) with 15. change (2 + 2) with 4. done.
Qed.

Lemma opt_bytes_bytes p d : bytes (opt_bytes p d).
Proof. apply rr_bytes_bytes; repeat constructor; lia. Qed.

#[export] Hint Resolve opt_bytes_bytes : fizz.

Lemma parse_opt_bytes pre payload d suf :
  bytes (pre ++ opt_bytes payload d ++ suf) -> 0 <= payload < 65536 ->
  dns_parse_rr (pre ++ opt_bytes payload d ++ suf) (zlen pre) =
  Ok (DnsRr [] DNS_TYPE_OPT payload (if d then 32768 else 0) 0 (zlen pre + 11), zlen pre + 11).
Proof.
  intros Hb Hp. unfold opt_bytes in *.
  rewrite (parse_rr_bytes _ _ _ _ _ _ _ []); [|done|done|done|by destruct d|done|].
  - rewrite zlen_rr_bytes, <- Z.add_assoc. done.
  - apply (decode_wire pre [] (be16 DNS_TYPE_OPT ++ be16 payload ++ be32 (if d then 32768 else 0) ++ be16 0 ++ suf)).
    + revert Hb. unfold rr_bytes, wire_of. cbn [lab_bytes map concat app]. by rewrite <- !app_assoc.
    + constructor.
    + done.
Qed.

Lemma parse_edns_built pre edns :
  bytes (pre ++ if edns =? 0 then [] else opt_bytes edns false) -> 0 <= edns < 65536 ->
  parse_edns (pre ++ if edns =? 0 then [] else opt_bytes edns false) (zlen pre) (if edns =? 0 then 0 else 1) =
  Ok (negb (edns =? 0), edns, 0, false).
Proof.
  intros Hb He. destruct (edns =? 0) eqn:E; zbool; [by subst|]. unfold parse_edns.
  rewrite <- (app_nil_r (opt_bytes _ _)) in *. rewrite parse_opt_bytes by done. done.
Qed.

Lemma has_flag_RD (rd : bool) : has_flag (if rd then DNS_FLAG_RD else 0) DNS_FLAG_RD = rd.
Proof. by destruct rd. Qed.

(** The server reads a query this program builds as it was meant. *)
Lemma parse_built_query id name qtype rd edns m :
  query_bytes id name qtype rd edns = Some m -> bytes name ->
  0 <= id < 65536 -> 0 <= qtype < 65536 -> 0 <= edns < 65536 ->
  dns_parse_query m = Ok (DnsQueryInfo
    (DnsHeader id (if rd then DNS_FLAG_RD else 0) 1 0 0 (if edns =? 0 then 0 else 1))
    (DnsQuestion (strip_dot (fold_case name)) qtype DNS_CLASS_IN DNS_HDR_LEN
       (zlen m - DNS_HDR_LEN - (if edns =? 0 then 0 else DNS_OPT_RR_LEN)))
    rd (negb (edns =? 0)) edns 0 false).
Proof.
  unfold query_bytes. destruct (encode_spec name) as [w|] eqn:Ew; [|done].
  intros <-%(inj Some) Hname Hid Hqt He. pose proof (encode_spec_bytes _ _ Hname Ew) as Hw.
  set (fl := if rd then DNS_FLAG_RD else 0). set (ar := if edns =? 0 then 0 else 1).
  set (opt := if edns =? 0 then [] else opt_bytes edns false).
  set (h := header_bytes id fl 1 0 0 ar). assert (zlen h = 12) as Hh by done.
  set (msg := h ++ w ++ be16 qtype ++ be16 DNS_CLASS_IN ++ opt).
  assert (bytes opt) as Hopt by (subst opt; destruct (edns =? 0); [constructor|auto with fizz]).
  assert (bytes msg) as Hb by (subst msg h; rewrite !bytes_app; auto 10 with fizz).
  unfold dns_parse_query. assert (dns_parse_header msg = Ok (DnsHeader id fl 1 0 0 ar)) as ->.
  { apply (parse_header_app h); [done|done|].
    subst fl ar. red; cbn. destruct rd, (edns =? 0); unfold DNS_FLAG_RD; lia. }
  rewrite Ok_bind. cbn [h_flags h_qdcount h_arcount].
  assert (has_flag fl DNS_FLAG_QR = false) as -> by (subst fl; by destruct rd).
  assert (has_flag fl DNS_OPCODE_MASK = false) as -> by (subst fl; by destruct rd).
  change (negb (1 =? 1)) with false. cbv iota.
  assert (dns_name_decode msg DNS_HDR_LEN NAME_CAP = Ok (strip_dot (fold_case name), 12 + zlen w)) as ->.
  { by apply (encode_decode_spec name w h). }
  rewrite Ok_bind. assert (zlen msg = 12 + zlen w + 4 + zlen opt) as Hlen by (subst msg; zl).
  pose proof (zlen_nonneg opt). pose proof (zlen_nonneg w). rewrite (proj2 (Z.ltb_ge _ _)) by lia.
  assert (rd16 msg (12 + zlen w) = Ok qtype) as ->.
  { replace (12 + zlen w) with (zlen (h ++ w)) by zl. subst msg. rewrite (app_assoc h) in *. by apply rd16_be16. }
  rewrite Ok_bind. assert (rd16 msg (12 + zlen w + 2) = Ok DNS_CLASS_IN) as ->.
  { replace (12 + zlen w + 2) with (zlen (h ++ w ++ be16 qtype)) by zl. subst msg.
    replace (h ++ w ++ be16 qtype ++ be16 DNS_CLASS_IN ++ opt) with
      ((h ++ w ++ be16 qtype) ++ be16 DNS_CLASS_IN ++ opt) in * by (by rewrite <- !app_assoc).
    by apply rd16_be16. }
  rewrite Ok_bind. assert (parse_edns msg (12 + zlen w + 4) ar = Ok (negb (edns =? 0), edns, 0, false)) as ->.
  { replace (12 + zlen w + 4) with (zlen (h ++ w ++ be16 qtype ++ be16 DNS_CLASS_IN)) by zl.
    subst msg ar opt.
    replace (h ++ w ++ be16 qtype ++ be16 DNS_CLASS_IN ++ _) with
      ((h ++ w ++ be16 qtype ++ be16 DNS_CLASS_IN) ++ (if edns =? 0 then [] else opt_bytes edns false)) in *
      by (by rewrite <- !app_assoc). by apply parse_edns_built. }
  rewrite Ok_bind. subst fl. rewrite has_flag_RD. do 3 f_equal. rewrite Hlen. unfold DNS_HDR_LEN, DNS_OPT_RR_LEN.
  subst opt. destruct (edns =? 0); [rewrite zlen_nil; lia|]. change (zlen (opt_bytes edns false)) with 11. lia.
Qed.

(** The records are those of the answers in order, without the ones whose type
    is not emitted; none is left out unless the TC bit is set. *)
Lemma answers_spec_sent qname ans room rrs tc : answers_spec qname ans room = (rrs, tc) ->
  exists sent, sent `prefix_of` filter emittable ans /\ (tc = false -> sent = filter emittable ans) /\
    Forall2 (rr_of qname) sent rrs.
Proof.
  revert room rrs tc. induction ans as [|a ans IH]; intros room rrs tc; cbn [answers_spec].
  { intros [= <- <-]. by exists []. }
  assert (forall d, rdata_bytes a = Some d -> (d = None <-> ~ emittable a)) as Hem.
  { unfold rdata_bytes, emittable. repeat case_test; try (naive_solver lia).
    destruct (encode_spec _); naive_solver. }
  rewrite filter_cons. destruct (emit_spec qname a room) as [[bs|]|] eqn:E; unfold emit_spec in E;
    destruct (owner_bytes qname a) as [ow|] eqn:Eo; try done; try (case_test_in E; [done|]).
  - destruct (rdata_bytes a) as [[d|]|] eqn:Ed; try done. case_test_in E; [done|].
    destruct (decide (emittable a)) as [He|He]; [|by apply (Hem _ eq_refl) in He].
    destruct (answers_spec qname ans (room - zlen bs)) as [rest tc'] eqn:Er. intros [= <- <-].
    destruct (IH _ _ _ Er) as (sent & Hp & Hf & H2). exists (a :: sent).
    split_and!; [by apply prefix_cons|intros Htc; by rewrite Hf|]. constructor; [|done].
    exists ow, d. naive_solver.
  - destruct (rdata_bytes a) as [[d|]|] eqn:Ed; try done; [by case_test_in E|].
    destruct (decide (emittable a)) as [He|He]; [by apply (Hem _ eq_refl) in He|]. apply IH.
  - intros [= <- <-]. exists []. split_and!; [apply prefix_nil|done|constructor].
  - intros [= <- <-]. exists []. split_and!; [apply prefix_nil|done|constructor].
Qed.

Lemma rdata_bytes_short a d : answer_ok a -> rdata_bytes a = Some (Some d) -> zlen d < 65536.
Proof.
  intros (_ & _ & _ & _ & HA & HAAAA). unfold rdata_bytes.
  case_test; [intros [= <-]; rewrite zlen_ztake; [lia|by specialize (HA Etest); zl]|].
  case_test; [intros [= <-]; rewrite zlen_ztake; [lia|by specialize (HAAAA Etest0); zl]|].
  case_test; [|done]. destruct (encode_spec _) as [w|] eqn:E; [|done]. intros [= <-].
  apply encode_spec_Some in E as (_ & _ & Hw). unfold DNS_MAX_NAME in Hw. lia.
Qed.

(** The owner of a record, read back: through the pointer to the question, or
    from its own labels. *)
Lemma decode_owner pre ow suf qname a ls :
  let msg := pre ++ ow ++ suf in
  bytes msg -> owner_bytes qname a = Some ow -> qname = text_of ls -> zlen qname <= DNS_MAX_NAME ->
  12 < zlen pre -> name_at msg 12 0 ls (12 + zlen (wire_of ls)) ->
  exists name, dns_name_decode msg (zlen pre) NAME_CAP = Ok (name, zlen pre + zlen ow) /\
    (dns_name_equal name (a_owner a) = true \/ name = strip_dot (fold_case (a_owner a))).
Proof.
  intros msg Hb Eo -> Hq Hpre Hna. unfold owner_bytes in Eo. case_test_in Eo.
  - injection Eo as <-. exists (text_of ls). split; [|left; by rewrite dns_name_equal_iff in *].
    apply decode_grammar; [done|lia|done|]. exists 1%nat, ls.
    split_and!; [|done..|unfold NAME_CAP; lia]. change (zlen [192; 12]) with 2.
    apply (name_at_pointer msg (zlen pre) 192 12 0 ls (12 + zlen (wire_of ls))); [|lia| |lia|done].
    + rewrite <- (Z.add_0_r (zlen pre)). unfold msg. by rewrite get8_app_r.
    + unfold msg. by rewrite get8_app_r.
  - exists (strip_dot (fold_case (a_owner a))). split; [by apply encode_decode_spec|by right].
Qed.

(** A record that stands behind the question [qname] of offset 12 is read as
    the answer it was built from. *)
Lemma parse_rr_of pre bs suf qname a ls :
  let msg := pre ++ bs ++ suf in
  bytes msg -> answer_ok a -> rr_of qname a bs -> qname = text_of ls -> zlen qname <= DNS_MAX_NAME ->
  12 < zlen pre -> name_at msg 12 0 ls (12 + zlen (wire_of ls)) ->
  exists r, dns_parse_rr msg (zlen pre) = Ok (r, zlen pre + zlen bs) /\ reads_as msg a r.
Proof.
  intros msg Hb Ha (ow & d & Eo & Ed & ->) Hqn Hq Hpre Hna.
  pose proof (rdata_bytes_short a d Ha Ed) as Hd. destruct Ha as (Ht & Httl & _).
  set (rest := be16 (a_type a) ++ be16 DNS_CLASS_IN ++ be32 (a_ttl a) ++ be16 (zlen d) ++ d ++ suf).
  assert (msg = pre ++ ow ++ rest) as Hmsg.
  { unfold msg, rest, rr_bytes. by rewrite <- !app_assoc. }
  destruct (decode_owner pre ow rest qname a ls) as (name & Hn & Hname); [by rewrite <- Hmsg|done..|by rewrite <- Hmsg|].
  rewrite <- Hmsg in Hn. eexists. split; [by apply (parse_rr_bytes _ _ _ _ _ _ _ name)|].
  red; cbn [rr_name rr_type rr_rclass rr_ttl rr_rdata rr_rdlength]. split_and!; [done..|].
  exists d. split; [done|]. rewrite get_slice_in_range; [|unfold msg; zl..]. f_equal.
  replace msg with ((pre ++ ow ++ be16 (a_type a) ++ be16 DNS_CLASS_IN ++ be32 (a_ttl a) ++ be16 (zlen d)) ++ d ++ suf)
    by (by rewrite Hmsg; unfold rest; rewrite <- !app_assoc).
  rewrite zdrop_app_eq by zl. by apply ztake_app_eq.
Qed.

Lemma parse_rrs_of qname ls sent rrs : qname = text_of ls -> zlen qname <= DNS_MAX_NAME ->
  Forall2 (rr_of qname) sent rrs -> Forall answer_ok sent -> forall pre suf,
  let msg := pre ++ concat rrs ++ suf in
  bytes msg -> 12 < zlen pre -> name_at msg 12 0 ls (12 + zlen (wire_of ls)) ->
  exists rs, parse_rrs (length rrs) msg (zlen pre) = Ok (rs, zlen pre + zlen (concat rrs)) /\
    Forall2 (reads_as msg) sent rs.
Proof.
  intros Hqn Hq H. induction H as [|a bs sent rrs Hrr _ IH]; intros Hok pre suf msg Hb Hpre Hna.
  { exists []. cbn. by rewrite zlen_nil, Z.add_0_r. }
  apply Forall_cons in Hok as [Ha Hok]. cbn [concat length parse_rrs].
  assert (msg = pre ++ bs ++ concat rrs ++ suf) as Hmsg by (unfold msg; cbn; by rewrite <- app_assoc).
  destruct (parse_rr_of pre bs (concat rrs ++ suf) qname a ls) as (r & Hr & Hread); [by rewrite <- Hmsg|done..|by rewrite <- Hmsg|].
  rewrite <- Hmsg in Hr, Hread. rewrite Hr, Ok_bind.
  assert (msg = (pre ++ bs) ++ concat rrs ++ suf) as Hmsg' by (by rewrite Hmsg, <- app_assoc).
  destruct (IH Hok (pre ++ bs) suf) as (rs & Hrs & H2); [by rewrite <- Hmsg'|zl|by rewrite <- Hmsg'|].
  rewrite <- Hmsg' in Hrs, H2. replace (zlen pre + zlen bs) with (zlen (pre ++ bs)) by zl.
  rewrite Hrs, Ok_bind. exists (r :: rs). split; [|by constructor]. do 2 f_equal. zl.
Qed.

(** ** Lemmas: the header of a response *)

Lemma response_flags_bits q rcode tc :
  let f := response_flags q rcode tc in
  0 <= f < 65536 /\ has_flag f DNS_FLAG_QR = true /\ has_flag f DNS_OPCODE_MASK = false /\
  has_flag f DNS_FLAG_TC = tc /\ has_flag f DNS_FLAG_RD = qi_recursion_desired q /\
  has_flag f DNS_FLAG_RA = true /\ Z.land f DNS_RCODE_MASK = rcode mod 16.
Proof.
  intros f. subst f. unfold response_flags, DNS_RCODE_MASK.
  assert (Z.land rcode 15 = rcode mod 16) as -> by (change 15 with (Z.ones 4); by rewrite Z.land_ones).
  assert (0 <= rcode mod 16 < 16) as Hr by (apply Z.mod_pos_bound; lia).
  set (r := rcode mod 16) in *. clearbody r.
  assert (r = 0 \/ r = 1 \/ r = 2 \/ r = 3 \/ r = 4 \/ r = 5 \/ r = 6 \/ r = 7 \/ r = 8 \/ r = 9 \/
    r = 10 \/ r = 11 \/ r = 12 \/ r = 13 \/ r = 14 \/ r = 15) as Hc by lia.
  destruct (qi_recursion_desired q), tc; repeat (destruct Hc as [->|Hc]; [by vm_compute|]); subst; by vm_compute.
Qed.

Lemma parse_response_header query q ans rcode is_udp cap rrs tc :
  let R := response_bytes query q ans rcode is_udp cap in
  response_rrs q ans rcode is_udp cap = (rrs, tc) -> bytes R -> 0 <= h_id (qi_hdr q) < 65536 ->
  dns_parse_header R = Ok (DnsHeader (h_id (qi_hdr q)) (response_flags q rcode tc) 1 (u16 (zlen rrs)) 0
    (if qi_has_edns q then 1 else 0)).
Proof.
  intros R Er Hb Hid. unfold R, response_bytes in *. rewrite Er in *.
  apply parse_header_app; [done|done|]. red; cbn.
  destruct (response_flags_bits q rcode tc) as [? _].
  assert (0 <= u16 (zlen rrs) < 65536) by (apply Z.mod_pos_bound; lia).
  destruct (qi_has_edns q); lia.
Qed.

Lemma bytes_concat ls : Forall bytes ls -> bytes (concat ls).
Proof. induction 1; cbn; [constructor|]. by apply bytes_app. Qed.

Lemma rr_of_bytes qname a bs : answer_ok a -> rr_of qname a bs -> bytes bs.
Proof.
  intros (_ & _ & Hrd & How & _) (ow & d & Eo & Ed & ->). apply rr_bytes_bytes.
  - unfold owner_bytes in Eo. case_test_in Eo; [injection Eo as <-; repeat constructor; lia|].
    by eapply encode_spec_bytes.
  - unfold rdata_bytes in Ed. repeat case_test_in Ed; try (injection Ed as <-; auto with fizz); try done.
    destruct (encode_spec _) as [w|] eqn:Ew; [|done]. injection Ed as <-. exact (encode_spec_bytes _ _ Hrd Ew).
Qed.

Lemma response_rrs_sent q ans rcode is_udp cap rrs tc :
  response_rrs q ans rcode is_udp cap = (rrs, tc) -> rcode = DNS_RCODE_NOERROR ->
  exists sent, sent `prefix_of` filter emittable ans /\ (tc = false -> sent = filter emittable ans) /\
    Forall2 (rr_of (q_name (qi_q q))) sent rrs.
Proof. unfold response_rrs. intros H ->. by apply answers_spec_sent in H. Qed.

Lemma Forall_prefix_filter {A} (P Q : A -> Prop) `{!forall x, Decision (Q x)} l k :
  Forall P l -> k `prefix_of` filter Q l -> Forall P k.
Proof.
  intros Hl [s Hs]. assert (Forall P (filter Q l)) as Hf.
  { apply Forall_forall. intros x [_ Hx]%list_elem_of_filter. by eapply Forall_forall in Hl. }
  rewrite Hs in Hf. by apply Forall_app in Hf as [? _].
Qed.

Lemma Forall2_rr_bytes qname sent rrs :
  Forall answer_ok sent -> Forall2 (rr_of qname) sent rrs -> bytes (concat rrs).
Proof.
  intros Hok H. apply bytes_concat. revert Hok. induction H; intros Hok; [constructor|].
  apply Forall_cons in Hok as [? ?]. constructor; [by eapply rr_of_bytes|auto].
Qed.

Lemma response_bytes_bytes query q ans rcode is_udp cap :
  bytes query -> Forall answer_ok ans -> bytes (response_bytes query q ans rcode is_udp cap).
Proof.
  intros Hq Ha. unfold response_bytes. destruct (response_rrs q ans rcode is_udp cap) as [rrs tc] eqn:Er.
  assert (bytes (concat rrs)) as Hrrs.
  { destruct (decide (rcode = DNS_RCODE_NOERROR)) as [Hr|Hr].
    - apply response_rrs_sent in Er as (sent & Hp & _ & H2); [|done].
      eapply Forall2_rr_bytes; [|done]. by eapply Forall_prefix_filter.
    - unfold response_rrs in Er. rewrite (proj2 (Z.eqb_neq _ _) Hr) in Er. injection Er as <- <-. constructor. }
  unfold question_bytes, opt_part. rewrite !bytes_app.
  split_and!; auto with fizz. case_test; [auto with fizz|constructor].
Qed.

(** What the parser promises is what the builder asks for. *)
Lemma query_ok_room msg q is_udp cap : query_ok msg q -> 512 <= cap ->
  0 <= q_raw_off (qi_q q) /\ 0 <= q_raw_len (qi_q q) /\
  q_raw_off (qi_q q) + q_raw_len (qi_q q) <= zlen msg /\
  DNS_HDR_LEN + q_raw_len (qi_q q) + opt_room q <= effective_cap q is_udp cap.
Proof.
  intros (_ & _ & _ & _ & _ & _ & _ & _ & Ho & Hl & Hm & _) Hc.
  pose proof (opt_room_bound q). unfold DNS_HDR_LEN, DNS_MAX_NAME in *. split_and!; try lia.
  unfold effective_cap, DNS_EDNS_MIN_PAYLOAD, DNS_EDNS_OUR_UDP_PAYLOAD, DNS_CLASSIC_UDP_LIMIT.
  repeat case_test; lia.
Qed.

(** The response to an accepted query, in a buffer of at least 512 bytes. *)
Lemma respond_spec query q ans rcode is_udp out :
  let R := response_bytes query q ans rcode is_udp (zlen out) in
  bytes query -> dns_parse_query query = Ok q -> Forall answer_ok ans -> 512 <= zlen out < 2 ^ 64 ->
  exists out', dns_build_response query q ans rcode is_udp out = Ok (out', zlen R) /\
    zlen out' = zlen out /\ ztake (zlen R) out' = R /\ zlen R <= effective_cap q is_udp (zlen out).
Proof.
  intros R Hb Hq Ha Hout. pose proof (ensures_parse_query query Hb) as Hok. rewrite Hq in Hok. cbn in Hok.
  destruct (query_ok_room query q is_udp (zlen out) Hok) as (? & ? & ? & ?); [lia|].
  destruct (build_response_spec query q ans rcode is_udp out) as [-> Hfit]; [done|lia|done..|]. fold R in Hfit |- *.
  pose proof (effective_cap_bound q is_udp (zlen out) (zlen_nonneg out)).
  destruct (put_bytes_append R out 0 []) as (out' & -> & Hlen & Hpre & _); [done|done|lia|].
  exists out'. by rewrite Ok_bind.
Qed.

Lemma zlen_question query q : query_ok query q ->
  zlen (question_bytes query q) = q_raw_len (qi_q q).
Proof.
  intros (_ & _ & _ & _ & _ & _ & _ & _ & Ho & Hl & Hm & _). unfold DNS_HDR_LEN in Ho. apply zlen_slice; lia.
Qed.

(** The answer section of a response is read back as the answers sent. *)
Lemma response_records query q ans rcode is_udp cap rrs tc ls sent :
  let R := response_bytes query q ans rcode is_udp cap in
  query_ok query q -> bytes R -> response_rrs q ans rcode is_udp cap = (rrs, tc) ->
  name_at query DNS_HDR_LEN 0 ls (DNS_HDR_LEN + q_raw_len (qi_q q) - 4) ->
  q_name (qi_q q) = text_of ls -> Forall2 (rr_of (q_name (qi_q q))) sent rrs -> Forall answer_ok sent ->
  exists recs,
    parse_rrs (length rrs) R (DNS_HDR_LEN + q_raw_len (qi_q q)) =
      Ok (recs, DNS_HDR_LEN + q_raw_len (qi_q q) + zlen (concat rrs)) /\
    Forall2 (reads_as R) sent recs.
Proof.
  intros R Hok Hb Er Hna Hname H2 Hsent. pose proof (zlen_question _ _ Hok) as Hql.
  destruct Hok as (_ & _ & _ & _ & Hqn & _ & _ & _ & Ho & Hl & Hm & _). unfold DNS_HDR_LEN in *.
  unfold R, response_bytes in *. rewrite Er in *.
  set (h := header_bytes _ _ _ _ _ _) in *. assert (zlen h = 12) as Hh by done.
  apply name_at_uncompressed in Hna as [Hs Hls]. apply get_slice_Ok in Hs as (_ & Hn & Hb' & Hs).
  assert (zlen (wire_of ls) = q_raw_len (qi_q q) - 4) as Hw by (rewrite Hs, zlen_slice; lia).
  assert (question_bytes query q = wire_of ls ++ ztake 4 (zdrop (12 + zlen (wire_of ls)) query)) as Hqb.
  { unfold question_bytes. rewrite Ho, Hw. replace (12 + q_raw_len (qi_q q) - 4 - 12) with (q_raw_len (qi_q q) - 4) in Hs by lia.
    replace (q_raw_len (qi_q q)) with ((q_raw_len (qi_q q) - 4) + 4) at 1 by lia.
    by rewrite ztake_add, zdrop_zdrop, <- Hs by lia. }
  replace (12 + q_raw_len (qi_q q)) with (zlen (h ++ question_bytes query q)) by zl.
  rewrite (app_assoc h) in *. apply (parse_rrs_of (q_name (qi_q q)) ls sent rrs); try done; [zl|].
  rewrite Hqb, <- !app_assoc. rewrite <- Hh at 2 3. by apply name_at_wire.
Qed.

(** The reference message, read back. *)
Lemma response_bytes_readback query q ans is_udp cap ls :
  let R := response_bytes query q ans DNS_RCODE_NOERROR is_udp cap in
  bytes query -> dns_parse_query query = Ok q -> Forall answer_ok ans -> zlen ans < 65536 -> 512 <= cap ->
  name_at query DNS_HDR_LEN 0 ls (DNS_HDR_LEN + q_raw_len (qi_q q) - 4) ->
  q_name (qi_q q) = text_of ls ->
  exists h recs sent last,
    dns_parse_header R = Ok h /\ h_id h = h_id (qi_hdr q) /\ h_qdcount h = 1 /\
    has_flag (h_flags h) DNS_FLAG_QR = true /\ has_flag (h_flags h) DNS_FLAG_RD = qi_recursion_desired q /\
    Z.land (h_flags h) DNS_RCODE_MASK = DNS_RCODE_NOERROR /\
    parse_rrs (Z.to_nat (h_ancount h)) R (DNS_HDR_LEN + q_raw_len (qi_q q)) = Ok (recs, last) /\
    Forall2 (reads_as R) sent recs /\ sent `prefix_of` filter emittable ans /\
    (has_flag (h_flags h) DNS_FLAG_TC = false -> sent = filter emittable ans).
Proof.
  intros R Hb Hq Ha Hans Hcap Hna Hname. pose proof (ensures_parse_query query Hb) as Hok. rewrite Hq in Hok. cbn in Hok.
  pose proof (response_bytes_bytes query q ans DNS_RCODE_NOERROR is_udp cap Hb Ha) as HbR. fold R in HbR.
  destruct (response_rrs q ans DNS_RCODE_NOERROR is_udp cap) as [rrs tc] eqn:Er.
  pose proof Hok as (Hh & _ & _ & _ & Hqn & _). destruct Hh as [Hid _].
  pose proof (parse_response_header query q ans DNS_RCODE_NOERROR is_udp cap rrs tc Er HbR Hid) as Hph.
  destruct (response_rrs_sent _ _ _ _ _ _ _ Er eq_refl) as (sent & Hpre & Hall & H2).
  assert (length rrs = length sent) as Hlen by (symmetry; by eapply Forall2_length).
  assert (Z.to_nat (u16 (zlen rrs)) = length rrs) as Hn.
  { assert (length sent <= length ans)%nat as Hs.
    { apply prefix_length in Hpre. pose proof (length_filter emittable ans). lia. }
    unfold u16, zlen in *. rewrite Z.mod_small; lia. }
  destruct (response_flags_bits q DNS_RCODE_NOERROR tc) as (_ & HQR & _ & HTC & HRD & _ & Hrc).
  destruct (response_records query q ans DNS_RCODE_NOERROR is_udp cap rrs tc ls sent) as (recs & Hp & Hr); try done.
  { by eapply Forall_prefix_filter. }
  exists (DnsHeader (h_id (qi_hdr q)) (response_flags q DNS_RCODE_NOERROR tc) 1 (u16 (zlen rrs)) 0
    (if qi_has_edns q then 1 else 0)), recs, sent, (DNS_HDR_LEN + q_raw_len (qi_q q) + zlen (concat rrs)).
  cbn [h_id h_qdcount h_flags h_ancount]. rewrite Hn, HTC. fold R in Hp, Hr. split_and!; done.
Qed.

(** ** Theorems *)


Lemma sample_answers_ok : Forall answer_ok sample_answers.
Proof.
  repeat constructor; cbn; try lia; unfold DNS_TYPE_A, DNS_TYPE_AAAA; try discriminate.
Qed.


(** The size limits of UDP responses: 512 bytes to a client without EDNS0;
    with it, what the client advertises (512 at least), and never more than
    the 1232 bytes this server advertises, so that no response fragments. *)
Theorem build_response_udp_limit query q ans rcode out :
  bytes query -> dns_parse_query query = Ok q -> Forall answer_ok ans -> 512 <= zlen out < 2 ^ 64 ->
  ensures (dns_build_response query q ans rcode true out) (fun '(_, n) =>
    n <= (if qi_has_edns q then Z.min 1232 (Z.max 512 (qi_edns_udp_payload q)) else 512)).
Proof.
  intros Hb Hq Ha Ho. destruct (respond_spec query q ans rcode true out) as (out' & -> & _ & _ & Hn); [done..|].
  cbn -[zlen]. unfold effective_cap, DNS_EDNS_MIN_PAYLOAD, DNS_EDNS_OUR_UDP_PAYLOAD, DNS_CLASSIC_UDP_LIMIT in Hn.
  repeat case_test_in Hn; lia.
Qed.

Lemma build_response_udp_limit_witness :
  ensures (dns_build_response sample_query sample_info sample_answers 0 true (replicate 600 0)) (fun '(_, n) => n <= 1232).
Proof.
  apply (build_response_udp_limit sample_query sample_info sample_answers 0 (replicate 600 0)).
  - repeat constructor; lia.
  - reflexivity.
  - exact sample_answers_ok.
  - split; vm_compute; congruence.
Defined.

(** C13: What a client reads from a NOERROR response, built in a buffer of at
    least 512 bytes, to a query whose name is not compressed: the query's id,
    QR set, RD echoed, the rcode, one question, and as many answer records as
    the header announces, which say what the first answers of an emitted type
    (A, AAAA and CNAME) say (owner, type, class, TTL and rdata), in order; all
    of them unless TC is set. Responses with another rcode carry no answers
    ([response_bytes]). *)
Theorem build_response_readback query q ans is_udp out ls :
  bytes query -> dns_parse_query query = Ok q -> Forall answer_ok ans -> zlen ans < 65536 -> 512 <= zlen out < 2 ^ 64 ->
  name_at query DNS_HDR_LEN 0 ls (DNS_HDR_LEN + q_raw_len (qi_q q) - 4) ->
  q_name (qi_q q) = text_of ls ->
  exists out' n, dns_build_response query q ans DNS_RCODE_NOERROR is_udp out = Ok (out', n) /\
  let R := ztake n out' in
  exists h recs sent last,
    dns_parse_header R = Ok h /\ h_id h = h_id (qi_hdr q) /\ h_qdcount h = 1 /\
    has_flag (h_flags h) DNS_FLAG_QR = true /\ has_flag (h_flags h) DNS_FLAG_RD = qi_recursion_desired q /\
    Z.land (h_flags h) DNS_RCODE_MASK = DNS_RCODE_NOERROR /\
    parse_rrs (Z.to_nat (h_ancount h)) R (DNS_HDR_LEN + q_raw_len (qi_q q)) = Ok (recs, last) /\
    Forall2 (reads_as R) sent recs /\ sent `prefix_of` filter emittable ans /\
    (has_flag (h_flags h) DNS_FLAG_TC = false -> sent = filter emittable ans).
Proof.
  intros Hb Hq Ha Hans Hout Hna Hname.
  destruct (respond_spec query q ans DNS_RCODE_NOERROR is_udp out Hb Hq Ha Hout) as (out' & Hr & _ & HR & _).
  eexists _, _. split; [exact Hr|]. cbv zeta. rewrite HR. apply (response_bytes_readback query q ans is_udp (zlen out) ls); (done || lia).
Qed.

Lemma build_response_readback_witness :
  exists out' n, dns_build_response sample_query sample_info sample_answers DNS_RCODE_NOERROR true (replicate 512 0) = Ok (out', n) /\
  let R := ztake n out' in
  exists h recs sent last,
    dns_parse_header R = Ok h /\ h_id h = 7 /\ h_qdcount h = 1 /\
    has_flag (h_flags h) DNS_FLAG_QR = true /\ has_flag (h_flags h) DNS_FLAG_RD = true /\
    Z.land (h_flags h) DNS_RCODE_MASK = DNS_RCODE_NOERROR /\
    parse_rrs (Z.to_nat (h_ancount h)) R 19 = Ok (recs, last) /\
    Forall2 (reads_as R) sent recs /\ sent `prefix_of` filter emittable sample_answers /\
    (has_flag (h_flags h) DNS_FLAG_TC = false -> sent = filter emittable sample_answers).
Proof.
  apply (build_response_readback sample_query sample_info sample_answers true (replicate 512 0) [[97]]).
  - repeat constructor; lia.
  - reflexivity.
  - exact sample_answers_ok.
  - vm_compute; congruence.
  - split; vm_compute; congruence.
  - apply (name_at_label sample_query 12 0 [97] [] 15); [reflexivity|vm_compute; split; congruence|reflexivity|].
    apply (name_at_end sample_query 14). reflexivity.
  - reflexivity.
Defined.

(** A query built by [dns_build_query] (the resolver's outgoing side) is
    read by [dns_parse_query] (the server's incoming side) as it was meant:
    id, RD, name, type, class IN, and the advertised EDNS0 payload if one was
    asked for. *)
Theorem build_query_roundtrip id name qtype rd edns out out' n :
  bytes name -> zlen out < 2 ^ 64 ->
  0 <= id < 65536 -> 0 <= qtype < 65536 -> 0 <= edns < 65536 ->
  dns_build_query id name qtype rd edns out = Ok (out', n) ->
  dns_parse_query (ztake n out') = Ok (DnsQueryInfo
    (DnsHeader id (if rd then DNS_FLAG_RD else 0) 1 0 0 (if edns =? 0 then 0 else 1))
    (DnsQuestion (strip_dot (fold_case name)) qtype DNS_CLASS_IN DNS_HDR_LEN
       (n - DNS_HDR_LEN - (if edns =? 0 then 0 else DNS_OPT_RR_LEN)))
    rd (negb (edns =? 0)) edns 0 false).
Proof.
  intros Hn Hl Hid Hqt He. rewrite build_query_spec by done.
  destruct (query_bytes id name qtype rd edns) as [m|] eqn:Em; [|done]. case_test; [|done].
  destruct (put_bytes_append m out 0 []) as (o & -> & _ & Hpre & _); [done..|].
  rewrite Ok_bind. intros [= -> <-]. rewrite Z.add_0_l in Hpre. rewrite Hpre. by apply parse_built_query.
Qed.

Lemma build_query_roundtrip_witness :
  dns_parse_query [0; 9; 1; 0; 0; 1; 0; 0; 0; 0; 0; 0; 1; 66; 0; 0; 28; 0; 1] =
  Ok (DnsQueryInfo (DnsHeader 9 256 1 0 0 0) (DnsQuestion [98] 28 1 12 7) true false 0 0 false).
Proof.
  apply (build_query_roundtrip 9 [66] 28 true 0 (replicate 20 0)
    [0; 9; 1; 0; 0; 1; 0; 0; 0; 0; 0; 0; 1; 66; 0; 0; 28; 0; 1; 0] 19);
    [repeat constructor; lia|reflexivity|lia|lia|lia|reflexivity].
Defined.

(** [dns_build_query] succeeds exactly when the name can be encoded and the
    query fits, and then its bytes are those of [query_bytes]; otherwise it
    returns its error, never writing outside of the buffer. *)
Theorem build_query_exact id name qtype rd edns out :
  zlen out < 2 ^ 64 ->
  dns_build_query id name qtype rd edns out =
  match query_bytes id name qtype rd edns with
  | Some m => if zlen m <=? zlen out then out' ← put_bytes out 0 m; Ok (out', zlen m) else Fail
  | None => Fail
  end.
Proof. apply build_query_spec. Qed.

Lemma build_query_exact_witness :
  dns_build_query 9 [66] 28 true 0 (replicate 18 0) = Fail.
Proof. rewrite (build_query_exact 9 [66] 28 true 0 (replicate 18 0)); reflexivity. Defined.

(** A buffer that has room for the question but not for the question and
    our OPT record lets [ans_cap - o] wrap around to a huge [size_t] when an
    answer has an owner of its own: the builder then writes behind the
    buffer's end. *)
Theorem build_response_small_buffer :
  dns_build_response sample_query sample_info [DnsAnswer 1 30 [10; 0; 0; 1] [98]] 0 true (replicate 20 0) = Fault.
Proof. reflexivity. Qed.
