(* ===== verification/DnsBloom.v ===== *)
(** * The counting Bloom filter (src/dns_bloom.h, src/dns_bloom.c)

    The shared key hash, the filter's operations on 65536 one-byte counters
    and per-thread statistics, and the build without a filter
    ([DNS_BLOOM_DISABLED]). [Filter] and [FilterLaws] state what the cache
    relies on; both builds are instances. Calls are
    whole here; CacheThreads.v interleaves the accesses to the slots, and
    BloomStats.v those to the statistics. *)

From stdpp Require Import prelude list gmap.
From Stdlib Require Import ZArith Lia.
From S2P Require Import Prelude DnsName.

Local Open Scope Z_scope.

Definition BLOOM_SLOTS : Z := 65536.
Definition BLOOM_HASHES : Z := 4.
Definition BLOOM_MAX : Z := 255.
Definition STAT_SHARDS : Z := 64.

(** ** The key hash *)

Definition FNV_PRIME : Z := 1099511628211.
Definition FNV_OFFSET : Z := 14695981039346656037.

(** The loop over the name, up to its NUL. *)
Fixpoint hash_loop (name : list Z) (h : Z) : Z :=
  match name with
  | [] => h
  | c :: name' =>
      if c =? 0 then h
      else hash_loop name' (u64 (Z.lxor h (u8 (tolower c)) * FNV_PRIME))
  end.

Definition dns_key_hash (name : list Z) (qtype : Z) : Z :=
  u64 (Z.lxor (hash_loop name FNV_OFFSET) qtype * FNV_PRIME).

(** ** State *)

Record stat_shard := StatShard {
  st_queries : Z;
  st_rejected : Z;
  st_saturated : Z
}.

(** The static data of dns_bloom.c: [b_slots] holds the counters that are not
    0, and [b_mine] the shard index behind the [my_shard] of each thread that
    has one. *)
Record bloom := Bloom {
  b_slots : gmap Z Z;
  b_shards : list stat_shard;
  b_next_shard : Z;
  b_mine : gmap nat Z
}.

(** Static storage starts zeroed. *)
Definition bloom_zero : bloom :=
  Bloom ∅ (replicate (Z.to_nat STAT_SHARDS) (StatShard 0 0 0)) 0 ∅.

(** [atomic_load(&slots[i])] *)
Definition slot (b : bloom) (i : Z) : Z := default 0 (b_slots b !! i).

(** [atomic_store(&slots[i], v)] *)
Definition set_slot (b : bloom) (i v : Z) : bloom :=
  Bloom (<[i := v]> (b_slots b)) (b_shards b) (b_next_shard b) (b_mine b).

(** [shard()] of thread [t]: the state and the shard's index. *)
Definition shard (t : nat) (b : bloom) : bloom * Z :=
  match b_mine b !! t with
  | Some i => (b, i)
  | None =>
      let i := b_next_shard b mod STAT_SHARDS in
      (Bloom (b_slots b) (b_shards b) (u32 (b_next_shard b + 1)) (<[t := i]> (b_mine b)), i)
  end.

(** [bump] of one counter of shard [i]; [f] increments the counter. Its load
    and its store are apart in BloomStats.v. *)
Definition bump (i : Z) (f : stat_shard -> stat_shard) (b : bloom) : bloom :=
  Bloom (b_slots b) (alter f (Z.to_nat i) (b_shards b)) (b_next_shard b) (b_mine b).

Definition inc_queries (s : stat_shard) : stat_shard :=
  StatShard (u64 (st_queries s + 1)) (st_rejected s) (st_saturated s).
Definition inc_rejected (s : stat_shard) : stat_shard :=
  StatShard (st_queries s) (u64 (st_rejected s + 1)) (st_saturated s).
Definition inc_saturated (s : stat_shard) : stat_shard :=
  StatShard (st_queries s) (st_rejected s) (u64 (st_saturated s + 1)).

(** ** Operations *)

(** [idx[i]] *)
Definition bloom_idx (hash i : Z) : Z :=
  let h1 := u32 hash in
  let h2 := Z.lor (u32 (Z.shiftr hash 32)) 1 in
  Z.land (u32 (h1 + u32 (i * h2))) (BLOOM_SLOTS - 1).

Definition bloom_slots (hash : Z) : list Z := bloom_idx hash <$> seqZ 0 BLOOM_HASHES.

Definition dns_bloom_reset (b : bloom) : bloom :=
  Bloom ∅ (replicate (Z.to_nat STAT_SHARDS) (StatShard 0 0 0)) (b_next_shard b) (b_mine b).

(** The loop of [dns_bloom_maybe]. *)
Fixpoint maybe_loop (idx : list Z) (st : Z) (b : bloom) : bloom * bool :=
  match idx with
  | [] => (b, true)
  | i :: idx' =>
      if slot b i =? 0 then (bump st inc_rejected b, false)
      else maybe_loop idx' st b
  end.

Definition dns_bloom_maybe (t : nat) (hash : Z) (b : bloom) : bloom * bool :=
  let '(b1, st) := shard t b in
  maybe_loop (bloom_slots hash) st (bump st inc_queries b1).

(** One iteration of the loop of [dns_bloom_add]. *)
Definition add_slot (t : nat) (b : bloom) (i : Z) : bloom :=
  let v := slot b i in
  if v =? BLOOM_MAX then
    let '(b1, st) := shard t b in bump st inc_saturated b1
  else set_slot b i (u8 (v + 1)).

Definition dns_bloom_add (t : nat) (hash : Z) (b : bloom) : bloom :=
  fold_left (add_slot t) (bloom_slots hash) b.

(** One iteration of the loop of [dns_bloom_del]. *)
Definition del_slot (b : bloom) (i : Z) : bloom :=
  let v := slot b i in
  if (v =? 0) || (v =? BLOOM_MAX) then b else set_slot b i (u8 (v - 1)).

Definition dns_bloom_del (hash : Z) (b : bloom) : bloom :=
  fold_left del_slot (bloom_slots hash) b.

(** [uint64_t] sums over the shards. *)
Definition shard_sum (f : stat_shard -> Z) (l : list stat_shard) : Z :=
  fold_left (fun acc s => u64 (acc + f s)) l 0.

(** The four output parameters: queries, rejected, saturated, used. *)
Definition dns_bloom_stats (b : bloom) : Z * Z * Z * Z :=
  (shard_sum st_queries (b_shards b), shard_sum st_rejected (b_shards b),
   shard_sum st_saturated (b_shards b),
   fold_left (fun n i => if slot b i =? 0 then n else n + 1) (seqZ 0 BLOOM_SLOTS) 0).

(** ** The interface to the cache *)

(** The four entry points, as the cache calls them on thread [t]. *)
Class Filter (F : Type) := {
  f_reset : F -> F;
  f_maybe : nat -> Z -> F -> F * bool;
  f_add : nat -> Z -> F -> F;
  f_del : nat -> Z -> F -> F
}.

(** [covers f l]: [f] is a filter for a map whose live keys have the hashes
    [l], with repetitions. *)
Class FilterLaws (F : Type) `{Filter F} := {
  covers : F -> list Z -> Prop;
  covers_perm : forall f, Proper ((≡ₚ) ==> iff) (covers f);
  covers_reset : forall f, covers (f_reset f) [];
  covers_maybe : forall f t h l, covers f l -> covers (f_maybe t h f).1 l;
  covers_add : forall f t h l, covers f l -> covers (f_add t h f) (h :: l);
  covers_del : forall f t h l, covers f (h :: l) -> covers (f_del t h f) l;
  maybe_no_false_negative : forall f t h l, covers f l -> h ∈ l -> (f_maybe t h f).2 = true
}.

#[global] Instance bloom_filter : Filter bloom := {
  f_reset := dns_bloom_reset;
  f_maybe := dns_bloom_maybe;
  f_add := dns_bloom_add;
  f_del := fun _ => dns_bloom_del
}.

(** The build with [DNS_BLOOM_DISABLED]. *)
Inductive no_bloom : Type := NoBloom.

#[global] Instance disabled_filter : Filter no_bloom := {
  f_reset := fun f => f;
  f_maybe := fun _ _ f => (f, true);
  f_add := fun _ _ f => f;
  f_del := fun _ _ f => f
}.

(** The counters lie in the range of a byte. *)
Definition slots_ok (b : bloom) : Prop := forall i, 0 <= slot b i <= BLOOM_MAX.

(** How many of the hashes [l] use slot [i]. *)
Definition users (i : Z) (l : list Z) : Z := zlen (filter (fun h => i ∈ bloom_slots h) l).

(** A counter counts the live keys that use it, unless it is pinned. *)
Definition slots_cover (b : bloom) (l : list Z) : Prop :=
  forall i, 0 <= slot b i <= BLOOM_MAX /\ (slot b i = BLOOM_MAX \/ slot b i = users i l).

(** The states the cache can bring the filter to, with the hashes of the keys
    in the map: every [del] is of a key that is there. *)
Inductive bloom_reach : bloom -> list Z -> Prop :=
| reach_reset b : bloom_reach (dns_bloom_reset b) []
| reach_maybe b l t h : bloom_reach b l -> bloom_reach (dns_bloom_maybe t h b).1 l
| reach_add b l t h : bloom_reach b l -> bloom_reach (dns_bloom_add t h b) (h :: l)
| reach_del b l l' h : bloom_reach b l -> l ≡ₚ h :: l' -> bloom_reach (dns_bloom_del h b) l'.

(** Every thread's shard exists. *)
Definition shards_ok (b : bloom) : Prop :=
  length (b_shards b) = Z.to_nat STAT_SHARDS /\ map_Forall (fun _ i => 0 <= i < STAT_SHARDS) (b_mine b).

(** ** Lemmas: the hash *)

Lemma hash_loop_fold a b h : fold_case a = fold_case b -> hash_loop a h = hash_loop b h.
Proof.
  unfold fold_case. revert b h. induction a as [|x a IH]; intros b h; cbn.
  - destruct b as [|y b]; cbn; [done|]. by destruct (y =? 0).
  - destruct (x =? 0); cbn.
    + destruct b as [|y b]; cbn; [done|]. by destruct (y =? 0).
    + destruct b as [|y b]; cbn; [done|]. destruct (y =? 0); cbn; [done|]. intros [= -> E]. by apply IH.
Qed.

Lemma key_hash_fold a b q : fold_case a = fold_case b -> dns_key_hash a q = dns_key_hash b q.
Proof. intros E. unfold dns_key_hash. by rewrite (hash_loop_fold a b) by done. Qed.

Lemma key_hash_range n q : 0 <= dns_key_hash n q < 2 ^ 64.
Proof. apply Z.mod_pos_bound. lia. Qed.

(** ** Lemmas: slot indices *)

Lemma u32_add_mod a b : u32 (a + u32 b) mod 65536 = (a + b) mod 65536.
Proof. unfold u32. rewrite Z.add_mod_idemp_r by lia. apply Z.mod_mod_divide. by exists 65536. Qed.

Lemma bloom_idx_mod h i : bloom_idx h i = (u32 h + i * Z.lor (u32 (Z.shiftr h 32)) 1) mod 65536.
Proof.
  unfold bloom_idx, BLOOM_SLOTS. change (65536 - 1) with (Z.ones 16). rewrite Z.land_ones by lia.
  apply u32_add_mod.
Qed.

Lemma bloom_idx_range h i : 0 <= bloom_idx h i < BLOOM_SLOTS.
Proof. rewrite bloom_idx_mod. by apply Z.mod_pos_bound. Qed.

(** Forcing [h2] odd keeps the four indices distinct. *)
Lemma bloom_idx_inj h i j : 0 <= i < 4 -> 0 <= j < 4 -> bloom_idx h i = bloom_idx h j -> i = j.
Proof.
  intros Hi Hj. rewrite !bloom_idx_mod. set (h2 := Z.lor _ _). set (h1 := u32 h).
  assert (exists k, h2 = 2 * k + 1) as [k ->].
  { apply Z.odd_spec. rewrite <- Z.bit0_odd. unfold h2. rewrite Z.lor_spec. apply orb_true_r. }
  intros E.
  pose proof (Z.div_mod (h1 + i * (2 * k + 1)) 65536 ltac:(lia)) as E1.
  pose proof (Z.div_mod (h1 + j * (2 * k + 1)) 65536 ltac:(lia)) as E2.
  assert (i = 0 \/ i = 1 \/ i = 2 \/ i = 3) as Hi' by lia. assert (j = 0 \/ j = 1 \/ j = 2 \/ j = 3) as Hj' by lia.
  clearbody h1. rewrite E in E1.
  destruct Hi' as [->|[->|[->| ->]]], Hj' as [->|[->|[->| ->]]]; lia.
Qed.

Lemma bloom_slots_nodup h : NoDup (bloom_slots h).
Proof.
  unfold bloom_slots, BLOOM_HASHES. apply NoDup_fmap_2_strong; [|apply NoDup_seqZ].
  intros i j Hi%elem_of_seqZ Hj%elem_of_seqZ. apply bloom_idx_inj; lia.
Qed.

(** ** Lemmas: the counters *)

Lemma slot_set_slot b i v j : slot (set_slot b i v) j = if decide (i = j) then v else slot b j.
Proof. unfold slot, set_slot. cbn. case_decide; subst; [by rewrite lookup_insert_eq|by rewrite lookup_insert_ne]. Qed.

Lemma slot_bump i f b j : slot (bump i f b) j = slot b j.
Proof. done. Qed.

Lemma slot_shard t b j : slot (shard t b).1 j = slot b j.
Proof. unfold shard. by destruct (b_mine b !! t). Qed.

Lemma slot_add_slot t b i j : 0 <= slot b i <= BLOOM_MAX ->
  slot (add_slot t b i) j =
  if decide (i = j) then Z.min BLOOM_MAX (slot b j + 1) else slot b j.
Proof.
  intros Hi. unfold add_slot, BLOOM_MAX in *. case_test.
  - pose proof (slot_shard t b j) as Hs. destruct (shard t b) as [b1 st]; cbn [fst] in Hs.
    rewrite slot_bump, Hs. case_decide; subst; lia.
  - rewrite slot_set_slot. case_decide; subst; [|done]. unfold u8. rewrite Z.mod_small; lia.
Qed.

Lemma slot_del_slot b i j : 0 <= slot b i <= BLOOM_MAX ->
  slot (del_slot b i) j =
  if decide (i = j) then (if slot b j =? BLOOM_MAX then BLOOM_MAX else Z.max 0 (slot b j - 1)) else slot b j.
Proof.
  intros Hi. unfold del_slot, BLOOM_MAX in *. case_test.
  - apply orb_true_iff in Etest as [?|?]; zbool; case_decide; subst; try done; case_test; lia.
  - rewrite slot_set_slot. case_decide; subst; [|done]. unfold u8. rewrite Z.mod_small by lia. case_test; lia.
Qed.

Lemma slot_add_loop t idx b j : NoDup idx -> slots_ok b ->
  slots_ok (fold_left (add_slot t) idx b) /\
  slot (fold_left (add_slot t) idx b) j = if decide (j ∈ idx) then Z.min BLOOM_MAX (slot b j + 1) else slot b j.
Proof.
  intros Hn. revert b. induction Hn as [|i idx Hi _ IH]; intros b Hb; cbn [fold_left]; [done|].
  assert (slots_ok (add_slot t b i)) as Hb'.
  { intros k. rewrite slot_add_slot by done. specialize (Hb k). unfold BLOOM_MAX in *. destruct (decide (i = k)); lia. }
  destruct (IH _ Hb') as [Hok ->]. split; [done|]. rewrite slot_add_slot by done.
  destruct (decide (i = j)) as [->|Hne].
  - rewrite decide_False, decide_True by (done || set_solver). done.
  - apply decide_ext. set_solver.
Qed.

Lemma slot_del_loop idx b j : NoDup idx -> slots_ok b ->
  slots_ok (fold_left del_slot idx b) /\
  slot (fold_left del_slot idx b) j =
  if decide (j ∈ idx) then (if slot b j =? BLOOM_MAX then BLOOM_MAX else Z.max 0 (slot b j - 1)) else slot b j.
Proof.
  intros Hn. revert b. induction Hn as [|i idx Hi _ IH]; intros b Hb; cbn [fold_left]; [done|].
  assert (slots_ok (del_slot b i)) as Hb'.
  { intros k. rewrite slot_del_slot by done. specialize (Hb k). unfold BLOOM_MAX in *.
    destruct (decide (i = k)), (slot b k =? 255); lia. }
  destruct (IH _ Hb') as [Hok ->]. split; [done|]. rewrite slot_del_slot by done.
  destruct (decide (i = j)) as [->|Hne].
  - rewrite decide_False, decide_True by (done || set_solver). done.
  - apply decide_ext. set_solver.
Qed.

Lemma slot_add t h b j : slots_ok b ->
  slots_ok (dns_bloom_add t h b) /\
  slot (dns_bloom_add t h b) j = if decide (j ∈ bloom_slots h) then Z.min BLOOM_MAX (slot b j + 1) else slot b j.
Proof. apply slot_add_loop, bloom_slots_nodup. Qed.

Lemma slot_del h b j : slots_ok b ->
  slots_ok (dns_bloom_del h b) /\
  slot (dns_bloom_del h b) j =
  if decide (j ∈ bloom_slots h) then (if slot b j =? BLOOM_MAX then BLOOM_MAX else Z.max 0 (slot b j - 1)) else slot b j.
Proof. apply slot_del_loop, bloom_slots_nodup. Qed.

(** ** Lemmas: what the counters count *)

Lemma users_nil i : users i [] = 0.
Proof. done. Qed.

Lemma users_cons i h l : users i (h :: l) = (if decide (i ∈ bloom_slots h) then 1 else 0) + users i l.
Proof. unfold users. rewrite filter_cons. case_decide; [by rewrite zlen_cons|done]. Qed.

Lemma users_nonneg i l : 0 <= users i l.
Proof. apply zlen_nonneg. Qed.

Lemma users_perm i l k : l ≡ₚ k -> users i l = users i k.
Proof. intros E. unfold users, zlen. by rewrite E. Qed.

Lemma users_elem i h l : h ∈ l -> i ∈ bloom_slots h -> 1 <= users i l.
Proof.
  intros [k E]%elem_of_Permutation Hi. rewrite (users_perm _ _ _ E), users_cons, decide_True by done.
  pose proof (users_nonneg i k). lia.
Qed.

#[global] Instance slots_cover_proper b : Proper ((≡ₚ) ==> iff) (slots_cover b).
Proof. intros l k E. unfold slots_cover. by setoid_rewrite (fun i => users_perm i l k E). Qed.

Lemma slots_cover_ok b l : slots_cover b l -> slots_ok b.
Proof. intros H i. apply H. Qed.

(** Coverage looks at the counters only. *)
Lemma slots_cover_slots b b' l : (forall i, slot b' i = slot b i) -> slots_cover b l -> slots_cover b' l.
Proof. intros E H i. rewrite E. apply H. Qed.

Lemma slot_maybe_loop idx st b j : slot (maybe_loop idx st b).1 j = slot b j.
Proof. induction idx as [|i idx IH]; cbn; [done|]. by case_test. Qed.

Lemma slot_maybe t h b j : slot (dns_bloom_maybe t h b).1 j = slot b j.
Proof.
  unfold dns_bloom_maybe. pose proof (slot_shard t b j) as Hs. destruct (shard t b) as [b1 st]. cbn in Hs.
  by rewrite slot_maybe_loop, slot_bump.
Qed.

(** A lookup writes no counter. *)
Lemma maybe_slots t h b : b_slots (dns_bloom_maybe t h b).1 = b_slots b.
Proof.
  assert (forall idx st b', b_slots (maybe_loop idx st b').1 = b_slots b') as Hl.
  { intros idx st b'. induction idx as [|i idx IH]; cbn; [done|]. by case_test. }
  unfold dns_bloom_maybe, shard. destruct (b_mine b !! t); by rewrite Hl.
Qed.

Lemma maybe_loop_result idx st b : (maybe_loop idx st b).2 = forallb (fun i => negb (slot b i =? 0)) idx.
Proof. induction idx as [|i idx IH]; cbn; [done|]. by destruct (slot b i =? 0). Qed.

(** The answer is "maybe" exactly when no counter of the key is 0. *)
Lemma maybe_result t h b : (dns_bloom_maybe t h b).2 = forallb (fun i => negb (slot b i =? 0)) (bloom_slots h).
Proof.
  unfold dns_bloom_maybe. assert (forall j, slot (shard t b).1 j = slot b j) as Hs by apply slot_shard.
  destruct (shard t b) as [b1 st]. cbn in Hs. rewrite maybe_loop_result.
  induction (bloom_slots h) as [|i idx IH]; cbn; [done|]. by rewrite slot_bump, Hs, IH.
Qed.

Lemma slots_cover_add b t h l : slots_cover b l -> slots_cover (dns_bloom_add t h b) (h :: l).
Proof.
  intros H i. pose proof (slots_cover_ok _ _ H) as Hok. destruct (slot_add t h b i Hok) as [Hok' E].
  split; [apply Hok'|]. rewrite E, users_cons. specialize (H i). pose proof (Hok i).
  unfold BLOOM_MAX in *. case_decide; lia.
Qed.

Lemma slots_cover_del b h l : slots_cover b (h :: l) -> slots_cover (dns_bloom_del h b) l.
Proof.
  intros H i. pose proof (slots_cover_ok _ _ H) as Hok. destruct (slot_del h b i Hok) as [Hok' E].
  split; [apply Hok'|]. rewrite E. specialize (H i). rewrite users_cons in H. pose proof (Hok i).
  pose proof (users_nonneg i l). unfold BLOOM_MAX in *. case_decide; [case_test|]; lia.
Qed.

Lemma slots_cover_maybe b t h l : slots_cover b l -> h ∈ l -> (dns_bloom_maybe t h b).2 = true.
Proof.
  intros H Hl. rewrite maybe_result. apply forallb_forall. intros i Hi%list_elem_of_In.
  pose proof (users_elem i h l Hl Hi). destruct (H i) as [_ [E|E]]; rewrite E; unfold BLOOM_MAX; [done|].
  apply negb_true_iff, Z.eqb_neq. lia.
Qed.

Lemma slots_cover_reset b : slots_cover (dns_bloom_reset b) [].
Proof. intros i. unfold slot. cbn. rewrite lookup_empty. cbn. unfold BLOOM_MAX. split; [lia|by right]. Qed.

Lemma slots_cover_maybe_keeps b t h l : slots_cover b l -> slots_cover (dns_bloom_maybe t h b).1 l.
Proof. apply slots_cover_slots. intros i. apply slot_maybe. Qed.

#[global] Instance bloom_laws : FilterLaws bloom := {
  covers := slots_cover;
  covers_perm := slots_cover_proper;
  covers_reset := slots_cover_reset;
  covers_maybe := slots_cover_maybe_keeps;
  covers_add := slots_cover_add;
  covers_del := fun b _ => slots_cover_del b;
  maybe_no_false_negative := slots_cover_maybe
}.

(** Without a filter every key is a maybe. *)
#[global] Instance disabled_laws : FilterLaws no_bloom := {
  covers := fun _ _ => True;
  covers_perm := fun _ _ _ _ => iff_refl True;
  covers_reset := fun _ => I;
  covers_maybe := fun _ _ _ _ _ => I;
  covers_add := fun _ _ _ _ _ => I;
  covers_del := fun _ _ _ _ _ => I;
  maybe_no_false_negative := fun _ _ _ _ _ _ => eq_refl
}.

(** ** Lemmas: statistics *)

Lemma u64_add_l a b : u64 (u64 a + b) = u64 (a + b).
Proof. unfold u64. by rewrite Z.add_mod_idemp_l. Qed.

Lemma u64_add_r a b : u64 (a + u64 b) = u64 (a + b).
Proof. unfold u64. by rewrite Z.add_mod_idemp_r. Qed.

Lemma fold_u64_shift l (f : stat_shard -> Z) acc :
  fold_left (fun acc s => u64 (acc + f s)) l (u64 acc) = u64 (acc + foldr Z.add 0 (f <$> l)).
Proof.
  revert acc. induction l as [|s l IH]; intros acc; cbn; [by rewrite Z.add_0_r|].
  rewrite u64_add_l, IH. f_equal. lia.
Qed.

Lemma shard_sum_spec f l : shard_sum f l = u64 (foldr Z.add 0 (f <$> l)).
Proof. unfold shard_sum. change 0 with (u64 0) at 1. by rewrite fold_u64_shift. Qed.

(** Bumping one shard's counter adds one to the sum. *)
Lemma shard_sum_alter (f : stat_shard -> Z) g i l :
  (i < length l)%nat -> (forall s, u64 (f (g s)) = u64 (f s + 1)) ->
  shard_sum f (alter g i l) = u64 (shard_sum f l + 1).
Proof.
  intros Hi Hg. rewrite !shard_sum_spec, u64_add_l.
  revert i Hi. induction l as [|s l IH]; intros i Hi; cbn in Hi; [lia|]. destruct i as [|i]; cbn.
  - rewrite <- u64_add_l, Hg, u64_add_l. f_equal. lia.
  - specialize (IH i ltac:(lia)). rewrite <- u64_add_r. cbn in IH. rewrite IH, u64_add_r. f_equal. lia.
Qed.

Lemma shard_sum_alter_other (f : stat_shard -> Z) g i l : (forall s, f (g s) = f s) ->
  shard_sum f (alter g i l) = shard_sum f l.
Proof.
  intros Hg. rewrite !shard_sum_spec. f_equal. f_equal. revert i. induction l as [|s l IH]; intros [|i]; cbn; [done..|by rewrite Hg|].
  f_equal. apply IH.
Qed.

Lemma shard_ok t b : shards_ok b ->
  shards_ok (shard t b).1 /\ b_shards (shard t b).1 = b_shards b /\ 0 <= (shard t b).2 < STAT_SHARDS.
Proof.
  intros [Hl Hm]. unfold shard. destruct (b_mine b !! t) as [i|] eqn:E; cbn.
  - split_and!; [done..|apply (Hm _ _ E)|apply (Hm _ _ E)].
  - assert (0 <= b_next_shard b mod STAT_SHARDS < STAT_SHARDS) by by apply Z.mod_pos_bound.
    split_and!; [|done|lia..]. split; [done|]. by apply map_Forall_insert_2.
Qed.

Lemma maybe_loop_shards idx st b : b_shards (maybe_loop idx st b).1 =
  if (maybe_loop idx st b).2 then b_shards b else alter inc_rejected (Z.to_nat st) (b_shards b).
Proof. induction idx as [|i idx IH]; cbn; [done|]. by case_test. Qed.

Lemma maybe_loop_mine idx st b : b_mine (maybe_loop idx st b).1 = b_mine b.
Proof. induction idx as [|i idx IH]; cbn; [done|]. by case_test. Qed.

(** A lookup counts itself as a query, and as rejected if it is. *)
Lemma maybe_sums t h b : shards_ok b ->
  let r := dns_bloom_maybe t h b in
  shards_ok r.1 /\ shard_sum st_queries (b_shards r.1) = u64 (shard_sum st_queries (b_shards b) + 1) /\
  shard_sum st_rejected (b_shards r.1) =
    if r.2 then shard_sum st_rejected (b_shards b) else u64 (shard_sum st_rejected (b_shards b) + 1).
Proof.
  intros Hb. unfold dns_bloom_maybe. destruct (shard_ok t b Hb) as ([Hl Hm] & Hs & Hi).
  destruct (shard t b) as [b1 st]. cbn [fst snd] in *. unfold shards_ok. rewrite maybe_loop_shards, maybe_loop_mine. unfold bump.
  cbn [b_shards b_mine]. rewrite Hs in *. unfold STAT_SHARDS in *.
  assert (Z.to_nat st < length (b_shards b))%nat by lia.
  assert (shard_sum st_queries (alter inc_queries (Z.to_nat st) (b_shards b)) = u64 (shard_sum st_queries (b_shards b) + 1)) as Hq.
  { apply shard_sum_alter; [done|]. intros s. apply u64_u64. }
  assert (shard_sum st_rejected (alter inc_queries (Z.to_nat st) (b_shards b)) = shard_sum st_rejected (b_shards b)) as Hr.
  { by apply shard_sum_alter_other. }
  destruct (maybe_loop (bloom_slots h) st _).2; split_and!; rewrite ?length_alter; try done.
  - by rewrite shard_sum_alter_other.
  - rewrite <- Hr. apply shard_sum_alter; [by rewrite length_alter|]. intros s. apply u64_u64.
Qed.

Lemma bloom_reach_cover b l : bloom_reach b l -> slots_cover b l.
Proof.
  induction 1 as [b|b l t h _ IH|b l t h _ IH|b l l' h _ IH E].
  - apply slots_cover_reset.
  - by apply slots_cover_maybe_keeps.
  - by apply slots_cover_add.
  - apply slots_cover_del. by rewrite <- E.
Qed.

(** ** Theorems *)

(** Names the cache takes to be equal have equal hashes, so that a lookup
    with other letter case finds the same bucket and the same counters. *)
Theorem key_hash_respects_equal a b qtype :
  dns_name_equal a b = true -> dns_key_hash a qtype = dns_key_hash b qtype.
Proof. rewrite dns_name_equal_iff. apply key_hash_fold. Qed.

Lemma key_hash_respects_equal_witness : dns_key_hash [65; 46; 66] 1 = dns_key_hash [97; 46; 98] 1.
Proof. apply key_hash_respects_equal. reflexivity. Defined.

(** The four slot indices of a hash are distinct and inside of the counter
    array, for all 2^64 hashes. *)
Theorem bloom_slots_distinct h :
  NoDup (bloom_slots h) /\ length (bloom_slots h) = 4%nat /\ Forall (fun i => 0 <= i < BLOOM_SLOTS) (bloom_slots h).
Proof.
  split_and!; [apply bloom_slots_nodup|done|].
  apply Forall_fmap, Forall_true. intros i. apply bloom_idx_range.
Qed.

(** C36: In every state the cache can bring the filter to, every counter is
    pinned at 255 or counts exactly the live keys that use it; so a live key
    is never reported absent (no false negatives), and a key with a counter
    that no live key uses is reported absent unless that counter is
    pinned. A lookup leaves all counters as they are. *)
Theorem bloom_exact b l t h : bloom_reach b l ->
  slots_cover b l /\ (h ∈ l -> (dns_bloom_maybe t h b).2 = true) /\
  (forall i, i ∈ bloom_slots h -> users i l = 0 -> slot b i <> BLOOM_MAX -> (dns_bloom_maybe t h b).2 = false) /\
  b_slots (dns_bloom_maybe t h b).1 = b_slots b.
Proof.
  intros H%bloom_reach_cover. split_and!; [done|by apply slots_cover_maybe| |apply maybe_slots].
  intros i Hi Hu Hs. rewrite maybe_result. destruct (forallb _ _) eqn:E; [exfalso|done].
  rewrite forallb_forall in E. specialize (E i (proj1 (list_elem_of_In _ _) Hi)).
  destruct (H i) as [_ [?|E']]; [done|]. rewrite E', Hu in E. done.
Qed.

Lemma bloom_exact_witness : let b := dns_bloom_add 0 7 (dns_bloom_reset bloom_zero) in
  slots_cover b [7] /\ (7 ∈ [7] -> (dns_bloom_maybe 0 7 b).2 = true) /\
  (forall i, i ∈ bloom_slots 7 -> users i [7] = 0 -> slot b i <> BLOOM_MAX -> (dns_bloom_maybe 0 7 b).2 = false) /\
  b_slots (dns_bloom_maybe 0 7 b).1 = b_slots b.
Proof. apply bloom_exact. apply reach_add, reach_reset. Defined.

(** [dns_bloom_del] undoes [dns_bloom_add]: unless a counter of the key
    reaches 255, all counters are as before. *)
Theorem bloom_add_del b t h j : slots_ok b -> (forall i, i ∈ bloom_slots h -> slot b i < BLOOM_MAX - 1) ->
  slot (dns_bloom_del h (dns_bloom_add t h b)) j = slot b j.
Proof.
  intros Hok Hlt. destruct (slot_add t h b j Hok) as [Hok' E]. destruct (slot_del h _ j Hok') as [_ ->].
  rewrite E. specialize (Hok j). case_decide as Hj; [|done]. specialize (Hlt j Hj). unfold BLOOM_MAX in *. case_test; lia.
Qed.

Lemma bloom_add_del_witness : slot (dns_bloom_del 7 (dns_bloom_add 0 7 bloom_zero)) 7 = 0.
Proof. apply (bloom_add_del bloom_zero 0 7 7); intros i; vm_compute; [split|]; congruence. Defined.

(** Every lookup adds exactly one to the queries total, and one to the
    rejected total exactly when it answers absent, whichever shard its thread
    has (both totals modulo 2^64). *)
Theorem bloom_stats_maybe b t h : shards_ok b ->
  let '(q, r, _, _) := dns_bloom_stats b in
  let '(q', r', _, _) := dns_bloom_stats (dns_bloom_maybe t h b).1 in
  q' = u64 (q + 1) /\ r' = if (dns_bloom_maybe t h b).2 then r else u64 (r + 1).
Proof.
  intros Hb. unfold dns_bloom_stats. by destruct (maybe_sums t h b Hb) as (_ & ? & ?).
Qed.

Lemma bloom_stats_maybe_witness :
  let '(q, r, _, _) := dns_bloom_stats bloom_zero in
  let '(q', r', _, _) := dns_bloom_stats (dns_bloom_maybe 0 7 bloom_zero).1 in
  q' = u64 (q + 1) /\ r' = if (dns_bloom_maybe 0 7 bloom_zero).2 then r else u64 (r + 1).
Proof. apply (bloom_stats_maybe bloom_zero 0 7). split; [reflexivity|]. apply map_Forall_empty. Defined.
