(* ===== verification/BloomStats.v ===== *)
(** * The filter's statistics under threads (src/dns_bloom.c)

    [bump] of DnsBloom.v is an increment; in the source it is a relaxed load
    and a relaxed store, which may be apart when threads run at once. Here the
    calls of dns_bloom.c are cut into these accesses and interleaved between
    any number of threads: with at most [STAT_SHARDS] threads the printed
    numbers are right, with one more a count can be lost. A thread that is left
    alone does what DnsBloom.v says. *)

From stdpp Require Import prelude list gmap fin_sets.
From Stdlib Require Import ZArith Lia.
From S2P Require Import Prelude DnsName DnsBloom.

Local Open Scope Z_scope.

(** The three places with a [bump], each with what comes after it: in
    [dns_bloom_maybe] the slots to be tested or the return of 0, in
    [dns_bloom_add] the slots that are left. *)
Inductive bump_site :=
| ForQueries (idx : list Z)
| ForRejected
| ForSaturated (idx : list Z).

(** Where a thread is: outside of the filter, at the start of
    [dns_bloom_maybe], inside of [bump] of shard [i] (before the load, or after
    it with the value loaded), or in one of the three loops. *)
Inductive stat_pc :=
| Outside
| Maybe (hash : Z)
| Bump (site : bump_site) (i : Z) (loaded : option Z)
| Testing (idx : list Z) (i : Z)
| Adding (idx : list Z)
| Deleting (idx : list Z).

(** What has happened: a lookup's answer, and a counter found pinned by an
    insertion. *)
Inductive stat_event :=
| Answered (maybe : bool)
| Pinned.

Inductive filter_call :=
| CallMaybe (hash : Z)
| CallAdd (hash : Z)
| CallDel (hash : Z).

Definition site_get (site : bump_site) : stat_shard -> Z :=
  match site with ForQueries _ => st_queries | ForRejected => st_rejected | ForSaturated _ => st_saturated end.

Definition site_set (site : bump_site) (v : Z) (s : stat_shard) : stat_shard :=
  match site with
  | ForQueries _ => StatShard v (st_rejected s) (st_saturated s)
  | ForRejected => StatShard (st_queries s) v (st_saturated s)
  | ForSaturated _ => StatShard (st_queries s) (st_rejected s) v
  end.

(** [atomic_load] and [atomic_store] of a counter of shard [i]. *)
Definition load_count (site : bump_site) (i : Z) (b : bloom) : Z :=
  from_option (site_get site) 0 (b_shards b !! Z.to_nat i).

Definition store_count (site : bump_site) (i v : Z) (b : bloom) : bloom :=
  Bloom (b_slots b) (alter (site_set site v) (Z.to_nat i) (b_shards b)) (b_next_shard b) (b_mine b).

(** The first step of a call. *)
Definition enter (c : filter_call) : stat_pc :=
  match c with
  | CallMaybe h => Maybe h
  | CallAdd h => Adding (bloom_slots h)
  | CallDel h => Deleting (bloom_slots h)
  end.

(** The next step of thread [t]. The load and the store of a slot are one
    step: only the holder of the cache's mutex makes them (CacheThreads.v). *)
Definition stat_next (t : nat) (p : stat_pc) (b : bloom) : bloom * stat_pc * list stat_event :=
  match p with
  | Outside => (b, Outside, [])
  | Maybe h => let '(b1, i) := shard t b in (b1, Bump (ForQueries (bloom_slots h)) i None, [])
  | Bump site i None => (b, Bump site i (Some (load_count site i b)), [])
  | Bump site i (Some v) =>
      let b1 := store_count site i (u64 (v + 1)) b in
      match site with
      | ForQueries idx => (b1, Testing idx i, [])
      | ForRejected => (b1, Outside, [Answered false])
      | ForSaturated idx => (b1, Adding idx, [])
      end
  | Testing [] _ => (b, Outside, [Answered true])
  | Testing (x :: idx) i => if slot b x =? 0 then (b, Bump ForRejected i None, []) else (b, Testing idx i, [])
  | Adding [] => (b, Outside, [])
  | Adding (x :: idx) =>
      let v := slot b x in
      if v =? BLOOM_MAX then
        let '(b1, i) := shard t b in (b1, Bump (ForSaturated idx) i None, [Pinned])
      else (set_slot b x (u8 (v + 1)), Adding idx, [])
  | Deleting [] => (b, Outside, [])
  | Deleting (x :: idx) => (del_slot b x, Deleting idx, [])
  end.

(** The filter, the threads, and what has happened, the latest first. *)
Record stat_state := StatState {
  ss_bloom : bloom;
  ss_pcs : list stat_pc;
  ss_events : list stat_event
}.

Definition stat_start (nthreads : nat) : stat_state := StatState bloom_zero (replicate nthreads Outside) [].

(** A thread that is outside calls, or one that is inside goes on. *)
Inductive stat_move :=
| Call (t : nat) (c : filter_call)
| Go (t : nat).

Definition stat_step (m : stat_move) (s : stat_state) : option stat_state :=
  match m with
  | Call t c =>
      match ss_pcs s !! t with
      | Some Outside => Some (StatState (ss_bloom s) (<[t := enter c]> (ss_pcs s)) (ss_events s))
      | _ => None
      end
  | Go t =>
      match ss_pcs s !! t with
      | Some p =>
          let '(b, p', ev) := stat_next t p (ss_bloom s) in
          Some (StatState b (<[t := p']> (ss_pcs s)) (ev ++ ss_events s))
      | None => None
      end
  end.

Fixpoint stat_run (ms : list stat_move) (s : stat_state) : option stat_state :=
  match ms with
  | [] => Some s
  | m :: ms' => match stat_step m s with Some s' => stat_run ms' s' | None => None end
  end.

(** How many threads are inside of the filter. *)
Definition busy (pcs : list stat_pc) : Z := sum_over (fun p => match p with Outside => 0 | _ => 1 end) pcs.

Definition answers (evs : list stat_event) : Z := sum_over (fun e => match e with Answered _ => 1 | Pinned => 0 end) evs.
Definition rejections (evs : list stat_event) : Z := sum_over (fun e => match e with Answered false => 1 | _ => 0 end) evs.
Definition pins (evs : list stat_event) : Z := sum_over (fun e => match e with Pinned => 1 | _ => 0 end) evs.

(** Lookups counted and not answered, and pins not counted yet. *)
Definition ahead (p : stat_pc) : Z :=
  match p with Testing _ _ => 1 | Bump ForRejected _ _ => 1 | _ => 0 end.
Definition behind (p : stat_pc) : Z :=
  match p with Bump (ForSaturated _) _ _ => 1 | _ => 0 end.

(** ** Invariant *)

(** Shards are handed out in order, each to one thread. *)
Record owned (n : nat) (b : bloom) : Prop := {
  ow_length : length (b_shards b) = Z.to_nat STAT_SHARDS;
  ow_threads : forall t i, b_mine b !! t = Some i -> (t < n)%nat /\ 0 <= i < b_next_shard b;
  ow_next : b_next_shard b = Z.of_nat (size (b_mine b));
  ow_inj : forall t t' i, b_mine b !! t = Some i -> b_mine b !! t' = Some i -> t = t'
}.

(** A thread between load and store owns the shard, and has read the value
    that is in it. *)
Definition pc_fits (t : nat) (p : stat_pc) (b : bloom) : Prop :=
  match p with
  | Bump site i loaded => b_mine b !! t = Some i /\ forall v, loaded = Some v -> v = load_count site i b
  | Testing _ i => b_mine b !! t = Some i
  | _ => True
  end.

Record stats_ok (s : stat_state) : Prop := {
  so_owned : owned (length (ss_pcs s)) (ss_bloom s);
  so_fits : forall t p, ss_pcs s !! t = Some p -> pc_fits t p (ss_bloom s);
  so_queries : shard_sum st_queries (b_shards (ss_bloom s)) = u64 (answers (ss_events s) + sum_over ahead (ss_pcs s));
  so_rejected : shard_sum st_rejected (b_shards (ss_bloom s)) = u64 (rejections (ss_events s));
  so_saturated : shard_sum st_saturated (b_shards (ss_bloom s)) = u64 (pins (ss_events s) - sum_over behind (ss_pcs s))
}.

(** ** Lemmas: shards *)

Lemma owned_room n b t : owned n b -> (t < n)%nat -> b_mine b !! t = None -> (S (size (b_mine b)) <= n)%nat.
Proof.
  intros Ho Ht Hno. rewrite <- (size_set_seq (C := gset nat) 0 n), <- (size_dom (D := gset nat) (b_mine b)).
  change (S ?k) with (1 + k)%nat. rewrite <- (size_singleton (C := gset nat) t), Nat.add_comm.
  rewrite <- size_union by (apply not_elem_of_dom in Hno; set_solver).
  apply subseteq_size. intros t' [[i Hi]%elem_of_dom | ->%elem_of_singleton]%elem_of_union; apply elem_of_set_seq; [|lia].
  pose proof (ow_threads n b Ho t' i Hi). lia.
Qed.

Lemma shard_owned n t b : owned n b -> (n <= Z.to_nat STAT_SHARDS)%nat -> (t < n)%nat ->
  owned n (shard t b).1 /\ b_mine (shard t b).1 !! t = Some (shard t b).2 /\ b_shards (shard t b).1 = b_shards b /\
  forall t' j, b_mine b !! t' = Some j -> b_mine (shard t b).1 !! t' = Some j.
Proof.
  intros Ho Hn Ht. unfold shard. destruct (b_mine b !! t) as [i|] eqn:E; [done|]. cbn [fst snd b_mine b_shards].
  pose proof (owned_room n b t Ho Ht E) as Hroom. pose proof (ow_next n b Ho) as Enext. destruct Ho as [Hl Hth _ Hinj]. unfold STAT_SHARDS in *.
  rewrite Z.mod_small by lia. split_and!; [|by rewrite lookup_insert_eq|done|].
  - split; cbn [b_shards b_mine b_next_shard]; unfold u32; rewrite ?Z.mod_small by lia; [done| | |].
    + intros t' j [[-> <-]|[_ Hj]]%lookup_insert_Some; [lia|]. specialize (Hth t' j Hj). lia.
    + rewrite map_size_insert_None by done. lia.
    + intros t1 t2 j [[<- <-]|[Hne1 H1]]%lookup_insert_Some [[<- E2]|[Hne2 H2]]%lookup_insert_Some; [done| | |by eapply Hinj].
      * specialize (Hth _ _ H2). lia.
      * specialize (Hth _ _ H1). lia.
  - intros t' j Hj. rewrite lookup_insert_ne; congruence.
Qed.

Lemma load_store_other site site' i j v b : 0 <= i -> 0 <= j -> i <> j -> load_count site' j (store_count site i v b) = load_count site' j b.
Proof. intros ???. unfold load_count, store_count. cbn [b_shards]. rewrite list_lookup_alter_ne by lia. done. Qed.

Lemma owned_store n site i v b : owned n b -> owned n (store_count site i v b).
Proof. intros [Hl Hth Hn Hi]. split; cbn [b_shards b_mine b_next_shard store_count]; [by rewrite length_alter|done..]. Qed.

Lemma owned_slots n b m : owned n b -> owned n (Bloom m (b_shards b) (b_next_shard b) (b_mine b)).
Proof. intros [Hl Hth Hn Hi]. by split. Qed.

Lemma alter_at {A} (f g : A -> A) (i : nat) (l : list A) x : l !! i = Some x -> g x = f x -> alter g i l = alter f i l.
Proof.
  intros Hx E. apply list_eq. intros k. destruct (decide (k = i)) as [->|]; [|by rewrite !list_lookup_alter_ne].
  rewrite !list_lookup_alter_eq, Hx. cbn. by rewrite E.
Qed.

(** A load and the store that follows at once are the [bump] of DnsBloom.v. *)
Lemma store_bump site i inc b : (forall s, site_set site (u64 (site_get site s + 1)) s = inc s) ->
  store_count site i (u64 (load_count site i b + 1)) b = bump i inc b.
Proof.
  intros Hinc. unfold store_count, bump, load_count. f_equal. destruct (b_shards b !! Z.to_nat i) as [s|] eqn:E.
  - apply (alter_at _ _ _ _ s E). apply Hinc.
  - apply list_eq. intros k. destruct (decide (k = Z.to_nat i)) as [->|]; [|by rewrite !list_lookup_alter_ne].
    by rewrite !list_lookup_alter_eq, E.
Qed.

(** A store of the loaded value plus one adds one to the sum of its counter,
    and leaves the two other sums. *)
Lemma alter_count_sum site i (l : list stat_shard) : (i < length l)%nat ->
  let l' := alter (site_set site (u64 (from_option (site_get site) 0 (l !! i) + 1))) i l in
  shard_sum st_queries l' = u64 (shard_sum st_queries l + (if site is ForQueries _ then 1 else 0)) /\
  shard_sum st_rejected l' = u64 (shard_sum st_rejected l + (if site is ForRejected then 1 else 0)) /\
  shard_sum st_saturated l' = u64 (shard_sum st_saturated l + (if site is ForSaturated _ then 1 else 0)).
Proof.
  intros Hi. destruct (lookup_lt_is_Some_2 l i Hi) as [s Hs]. rewrite Hs. cbn [from_option].
  assert (forall f, shard_sum f l = u64 (shard_sum f l + 0)) as H0.
  { intros f. rewrite Z.add_0_r, shard_sum_spec. by rewrite u64_u64. }
  destruct site; cbn [site_set site_get].
  - rewrite (alter_at inc_queries _ i l s Hs) by done. rewrite (shard_sum_alter st_queries) by (done || intros; apply u64_u64).
    rewrite !shard_sum_alter_other by done. auto.
  - rewrite (alter_at inc_rejected _ i l s Hs) by done. rewrite (shard_sum_alter st_rejected) by (done || intros; apply u64_u64).
    rewrite !shard_sum_alter_other by done. auto.
  - rewrite (alter_at inc_saturated _ i l s Hs) by done. rewrite (shard_sum_alter st_saturated) by (done || intros; apply u64_u64).
    rewrite !shard_sum_alter_other by done. auto.
Qed.

(** ** Lemmas: steps *)

(** What a step of thread [t] from [p] has to do. *)
Record next_ok (n t : nat) (p : stat_pc) (b : bloom) (r : bloom * stat_pc * list stat_event) : Prop := {
  no_owned : owned n r.1.1;
  no_fits : pc_fits t r.1.2 r.1.1;
  no_others : forall t' q, t' <> t -> pc_fits t' q b -> pc_fits t' q r.1.1;
  no_queries : shard_sum st_queries (b_shards r.1.1) = u64 (shard_sum st_queries (b_shards b) + (answers r.2 + ahead r.1.2 - ahead p));
  no_rejected : shard_sum st_rejected (b_shards r.1.1) = u64 (shard_sum st_rejected (b_shards b) + rejections r.2);
  no_saturated : shard_sum st_saturated (b_shards r.1.1) = u64 (shard_sum st_saturated (b_shards b) + (pins r.2 - behind r.1.2 + behind p))
}.

Lemma shard_sum_0 f b : shard_sum f (b_shards b) = u64 (shard_sum f (b_shards b) + 0).
Proof. rewrite Z.add_0_r, shard_sum_spec. by rewrite u64_u64. Qed.

(** A step that leaves the shards and their owners. *)
Lemma next_ok_same n t p b b' p' ev : owned n b' -> b_shards b' = b_shards b ->
  (forall t' j, b_mine b !! t' = Some j -> b_mine b' !! t' = Some j) -> pc_fits t p' b' ->
  answers ev + ahead p' - ahead p = 0 -> rejections ev = 0 -> pins ev - behind p' + behind p = 0 -> next_ok n t p b (b', p', ev).
Proof.
  intros Ho Hs Hm Hf H1 H2 H3. split; cbn [fst snd]; [done|done| |by rewrite Hs, H1, <- shard_sum_0|by rewrite Hs, H2, <- shard_sum_0|by rewrite Hs, H3, <- shard_sum_0].
  intros t' q _. destruct q as [|h|site i l|idx i|idx|idx]; cbn [pc_fits]; [done|done| |auto|done|done].
  intros [Hi Hv]. split; [by apply Hm|]. intros v E. rewrite (Hv v E). unfold load_count. by rewrite Hs.
Qed.

Lemma store_next n t site i b b1 p' ev : owned n b -> (n <= Z.to_nat STAT_SHARDS)%nat -> b_mine b !! t = Some i ->
  b1 = store_count site i (u64 (load_count site i b + 1)) b -> pc_fits t p' b1 ->
  answers ev + ahead p' - (if site is ForRejected then 1 else 0) = (if site is ForQueries _ then 1 else 0) ->
  rejections ev = (if site is ForRejected then 1 else 0) -> pins ev - behind p' = 0 ->
  next_ok n t (Bump site i (Some (load_count site i b))) b (b1, p', ev).
Proof.
  intros Ho Hn Hi -> Hf Ha Hr Hp. destruct (ow_threads n b Ho t i Hi) as [Ht Hir].
  assert (b_next_shard b <= Z.of_nat n) as Hle.
  { rewrite (ow_next n b Ho). apply inj_le. rewrite <- (size_set_seq (C := gset nat) 0 n), <- (size_dom (D := gset nat) (b_mine b)). apply subseteq_size.
    intros t' [j Hj]%elem_of_dom. apply elem_of_set_seq. pose proof (ow_threads n b Ho t' j Hj). lia. }
  destruct (alter_count_sum site (Z.to_nat i) (b_shards b)) as (Eq & Er & Es).
  { rewrite (ow_length n b Ho). lia. }
  split; cbn [fst snd]; [by apply owned_store|done| | | |].
  - intros t' q Ht'. destruct q as [|h|site' j l|idx j|idx|idx]; cbn [pc_fits]; [done|done| |done|done|done].
    intros [Hj Hv]. split; [done|]. intros v E. destruct (ow_threads n b Ho t' j Hj) as [_ Hjr].
    rewrite load_store_other; [by apply Hv|lia..|]. intros ->. by apply Ht', (ow_inj n b Ho t' t j).
  - unfold store_count, load_count; cbn [b_shards]. rewrite Eq. f_equal. f_equal. destruct site; cbn [ahead]; lia.
  - unfold store_count, load_count; cbn [b_shards]. by rewrite Er, Hr.
  - unfold store_count, load_count; cbn [b_shards]. rewrite Es. f_equal. f_equal. destruct site; cbn [behind]; lia.
Qed.

Lemma stat_next_ok n t p b : owned n b -> (n <= Z.to_nat STAT_SHARDS)%nat -> (t < n)%nat -> pc_fits t p b ->
  next_ok n t p b (stat_next t p b).
Proof.
  intros Ho Hn Ht Hf. destruct p as [|h|site i [v|]|[|x idx] i|[|x idx]|[|x idx]]; cbn [stat_next].
  - by apply next_ok_same.
  - destruct (shard_owned n t b Ho Hn Ht) as (Ho1 & Hm & Hs & Hk). destruct (shard t b) as [b1 i]. cbn [fst snd] in *.
    by apply next_ok_same.
  - destruct Hf as [Hi Hv]. rewrite (Hv v eq_refl). destruct site; by eapply store_next.
  - destruct Hf as [Hi _]. apply next_ok_same; [done..| |cbn; lia|done|cbn; lia]. split; [done|]. by intros v [= <-].
  - by apply next_ok_same.
  - case_test; by apply next_ok_same.
  - by apply next_ok_same.
  - case_test; [|apply next_ok_same; [by apply owned_slots|done..]].
    destruct (shard_owned n t b Ho Hn Ht) as (Ho1 & Hm & Hs & Hk). destruct (shard t b) as [b1 i]. cbn [fst snd] in *.
    by apply next_ok_same.
  - by apply next_ok_same.
  - unfold del_slot. case_test; apply next_ok_same; first [done|by apply owned_slots].
Qed.

Lemma stats_ok_move s t p r : stats_ok s -> ss_pcs s !! t = Some p -> next_ok (length (ss_pcs s)) t p (ss_bloom s) r ->
  stats_ok (StatState r.1.1 (<[t := r.1.2]> (ss_pcs s)) (r.2 ++ ss_events s)).
Proof.
  intros [So Sf Sq Sr Ss] Hp [No Nf Nt Nq Nr Ns]. split; cbn [ss_bloom ss_pcs ss_events].
  - by rewrite length_insert.
  - intros t' q [(-> & <- & _)|[Hne Hq]]%list_lookup_insert_Some; [done|]. apply Nt; auto.
  - rewrite Nq, Sq, u64_wrapped, (sum_insert _ _ _ _ _ Hp). unfold answers. rewrite sum_app. f_equal. lia.
  - rewrite Nr, Sr, u64_wrapped. unfold rejections. rewrite sum_app. f_equal. lia.
  - rewrite Ns, Ss, u64_wrapped, (sum_insert _ _ _ _ _ Hp). unfold pins. rewrite sum_app. f_equal. lia.
Qed.

Lemma stats_ok_step m s s' : (length (ss_pcs s) <= Z.to_nat STAT_SHARDS)%nat -> stats_ok s -> stat_step m s = Some s' ->
  stats_ok s' /\ length (ss_pcs s') = length (ss_pcs s).
Proof.
  intros Hn Hok. destruct m as [t c|t]; cbn [stat_step]; destruct (ss_pcs s !! t) as [p|] eqn:Hp; try done.
  - destruct p; try done. intros [= <-]. split; [|by cbn; rewrite length_insert].
    apply (stats_ok_move s t Outside (ss_bloom s, enter c, [])); [done|done|].
    destruct c; apply next_ok_same; done || apply Hok.
  - destruct (stat_next t p (ss_bloom s)) as [[b p'] ev] eqn:E. intros [= <-]. split; [|by cbn; rewrite length_insert].
    apply (stats_ok_move s t p (b, p', ev)); [done|done|]. rewrite <- E.
    apply stat_next_ok; [apply Hok|done|by eapply lookup_lt_Some|by apply Hok].
Qed.

Lemma stats_ok_run ms s s' : (length (ss_pcs s) <= Z.to_nat STAT_SHARDS)%nat -> stats_ok s -> stat_run ms s = Some s' -> stats_ok s'.
Proof.
  revert s. induction ms as [|m ms IH]; intros s Hn Hok; cbn [stat_run]; [by intros [= <-]|].
  destruct (stat_step m s) as [s1|] eqn:E; [|done]. destruct (stats_ok_step m s s1 Hn Hok E) as [Hok1 El]. apply IH; [by rewrite El|done].
Qed.

Lemma stats_ok_start n : stats_ok (stat_start n).
Proof.
  split; cbn [stat_start ss_bloom ss_pcs ss_events].
  - split; cbn [bloom_zero b_shards b_mine b_next_shard]; [done| | |]; intros *; rewrite ?lookup_empty; done.
  - by intros t p [-> _]%lookup_replicate.
  - rewrite sum_zero; [vm_compute; done|]. by intros p [-> _]%elem_of_replicate.
  - vm_compute. done.
  - rewrite sum_zero; [vm_compute; done|]. by intros p [-> _]%elem_of_replicate.
Qed.

(** ** Lemmas: a thread that is left alone *)

(** [k] steps of thread [t], with the events before them. *)
Fixpoint alone (k t : nat) (b : bloom) (p : stat_pc) (evs : list stat_event) : bloom * stat_pc * list stat_event :=
  match k with
  | O => (b, p, evs)
  | S k' => let '(b1, p1, ev) := stat_next t p b in alone k' t b1 p1 (ev ++ evs)
  end.

Lemma run_alone k t b p pcs evs : pcs !! t = Some p ->
  stat_run (replicate k (Go t)) (StatState b pcs evs) =
    let '(b', p', evs') := alone k t b p evs in Some (StatState b' (<[t := p']> pcs) evs').
Proof.
  revert b p pcs evs. induction k as [|k IH]; intros b p pcs evs Hp; cbn [replicate stat_run alone]; [by rewrite list_insert_id|].
  cbn [stat_step ss_pcs ss_bloom ss_events]. rewrite Hp. destruct (stat_next t p b) as [[b1 p1] ev].
  rewrite (IH b1 p1) by (rewrite list_lookup_insert_eq; [done|by eapply lookup_lt_Some]).
  destruct (alone k t b1 p1 (ev ++ evs)) as [[b2 p2] evs2]. by rewrite list_insert_insert_eq.
Qed.

Lemma alone_testing t idx i b evs :
  exists k, alone k t b (Testing idx i) evs = ((maybe_loop idx i b).1, Outside, Answered (maybe_loop idx i b).2 :: evs).
Proof.
  revert evs. induction idx as [|x idx IH]; intros evs; [by exists 1%nat|]. cbn [maybe_loop].
  destruct (slot b x =? 0) eqn:E.
  - exists 3%nat. cbn [alone stat_next app]. rewrite E. cbn [alone stat_next app]. by rewrite (store_bump ForRejected i inc_rejected).
  - destruct (IH evs) as [k Hk]. exists (S k). cbn [alone stat_next]. by rewrite E.
Qed.

Lemma alone_maybe t h b evs :
  exists k, alone k t b (Maybe h) evs = ((dns_bloom_maybe t h b).1, Outside, Answered (dns_bloom_maybe t h b).2 :: evs).
Proof.
  unfold dns_bloom_maybe. destruct (shard t b) as [b1 i] eqn:E.
  destruct (alone_testing t (bloom_slots h) i (bump i inc_queries b1) evs) as [k Hk]. exists (S (S (S k))).
  cbn [alone stat_next]. rewrite E. cbn [alone stat_next app]. by rewrite (store_bump (ForQueries _) i inc_queries).
Qed.

Lemma alone_adding t idx b evs :
  exists k n, alone k t b (Adding idx) evs = (fold_left (add_slot t) idx b, Outside, replicate n Pinned ++ evs).
Proof.
  revert b evs. induction idx as [|x idx IH]; intros b evs; [by exists 1%nat, 0%nat|]. cbn [fold_left]. unfold add_slot at 2.
  destruct (slot b x =? BLOOM_MAX) eqn:E.
  - destruct (shard t b) as [b1 i] eqn:Es. destruct (IH (bump i inc_saturated b1) (Pinned :: evs)) as (k & n & Hk). exists (S (S (S k))), (S n).
    cbn [alone stat_next]. rewrite E, Es. cbn [alone stat_next app]. rewrite (store_bump (ForSaturated _) i inc_saturated) by done.
    rewrite Hk. f_equal. by rewrite replicate_S_end, <- app_assoc.
  - destruct (IH (set_slot b x (u8 (slot b x + 1))) evs) as (k & n & Hk). exists (S k), n. cbn [alone stat_next]. by rewrite E.
Qed.

Lemma alone_deleting t idx b evs : exists k, alone k t b (Deleting idx) evs = (fold_left del_slot idx b, Outside, evs).
Proof.
  revert b. induction idx as [|x idx IH]; intros b; [by exists 1%nat|]. destruct (IH (del_slot b x)) as [k Hk]. by exists (S k).
Qed.

(** ** Theorems *)


(** A lookup in a thread, from its call to its return, when the filter is
    empty. *)
Definition whole_lookup (t : nat) : list stat_move := Call t (CallMaybe 7) :: replicate 6 (Go t).

(** Lookups in threads [t] and [t'], each step of one followed by the same step
    of the other. *)
Definition twin_lookups (t t' : nat) : list stat_move :=
  [Call t (CallMaybe 7); Call t' (CallMaybe 7)] ++ concat (replicate 6 [Go t; Go t']).


(** A thread that is outside of the filter and left alone finishes each call
    with the result and the effect DnsBloom.v gives it as one step. *)
Theorem call_alone s t c : ss_pcs s !! t = Some Outside ->
  exists k b ev, stat_run (Call t c :: replicate k (Go t)) s = Some (StatState b (ss_pcs s) (ev ++ ss_events s)) /\
    match c with
    | CallMaybe h => b = (dns_bloom_maybe t h (ss_bloom s)).1 /\ ev = [Answered (dns_bloom_maybe t h (ss_bloom s)).2]
    | CallAdd h => b = dns_bloom_add t h (ss_bloom s)
    | CallDel h => b = dns_bloom_del h (ss_bloom s)
    end.
Proof.
  intros Hp. destruct s as [b pcs evs]. cbn [ss_pcs ss_bloom ss_events] in *.
  assert (forall k b' evs', alone k t b (enter c) evs = (b', Outside, evs') ->
    stat_run (Call t c :: replicate k (Go t)) (StatState b pcs evs) = Some (StatState b' pcs evs')) as Hrun.
  { intros k b' evs' E. cbn [stat_run stat_step ss_pcs ss_bloom ss_events]. rewrite Hp.
    rewrite (run_alone _ _ _ (enter c)) by (rewrite list_lookup_insert_eq; [done|by eapply lookup_lt_Some]).
    rewrite E, list_insert_insert_eq, list_insert_id by done. done. }
  destruct c as [h|h|h]; cbn [enter] in *.
  - destruct (alone_maybe t h b evs) as [k Hk]. exists k. eexists _, [_]. by rewrite (Hrun _ _ _ Hk).
  - destruct (alone_adding t (bloom_slots h) b evs) as (k & n & Hk). exists k. eexists _, _. by rewrite (Hrun _ _ _ Hk).
  - destruct (alone_deleting t (bloom_slots h) b evs) as [k Hk]. exists k. eexists _, []. by rewrite (Hrun _ _ _ Hk).
Qed.

(** The 65th thread gets the shard of the first, and when both run at once a
    query and a rejection are lost: 66 lookups have returned 0, and the
    statistics have 65 of each. *)
Theorem shared_shard_loses_counts :
  exists s, stat_run (concat (whole_lookup <$> seq 0 64) ++ twin_lookups 0 64) (stat_start 65) = Some s /\
    busy (ss_pcs s) = 0 /\ answers (ss_events s) = 66 /\ rejections (ss_events s) = 66 /\
    exists used, dns_bloom_stats (ss_bloom s) = (65, 65, 0, used).
Proof.
  eexists. split; [vm_compute; reflexivity|]. split; [vm_compute; reflexivity|]. split; [vm_compute; reflexivity|].
  split; [vm_compute; reflexivity|]. eexists. unfold dns_bloom_stats. rewrite !shard_sum_spec. f_equal.
Qed.
