(* ===== verification/DnsCache.v ===== *)
(** * The cache (src/dns_cache.h, src/dns_cache.c)

    The LRU cache at the level of its pointers: a heap of nodes that are at
    the same time in a bucket's singly linked chain and in the doubly linked
    LRU list. A load or store through a null or dangling pointer is a
    [Fault]. An operation is a function here; CacheThreads.v interleaves them.
    [now] is what [time(NULL)] returns and [calloc] what the allocator does.
    The filter in front of the map is any implementation of [Filter]. *)

From stdpp Require Import prelude list gmap.
From Stdlib Require Import ZArith Lia.
From S2P Require Import Prelude DnsName DnsParse DnsBuild DnsBloom.

Local Open Scope Z_scope.

Definition CACHE_CAPACITY : Z := 4096.
Definition CACHE_BUCKETS : Z := 2048.
Definition CACHE_MIN_TTL : Z := 5.
Definition CACHE_MAX_TTL : Z := 86400.
Definition CACHE_NEG_TTL : Z := 60.

Definition loc : Type := positive.

(** [n_ans] is the whole array of [DNS_MAX_ANSWERS] answers; [None] is the null
    pointer. *)
Record cache_node := CacheNode {
  n_name : list Z;
  n_qtype : Z;
  n_ans : list dns_answer;
  n_nans : Z;
  n_rcode : Z;
  n_expires : Z;
  n_hnext : option loc;
  n_prev : option loc;
  n_next : option loc
}.

Definition set_hnext (v : option loc) (n : cache_node) : cache_node :=
  CacheNode (n_name n) (n_qtype n) (n_ans n) (n_nans n) (n_rcode n) (n_expires n) v (n_prev n) (n_next n).
Definition set_prev (v : option loc) (n : cache_node) : cache_node :=
  CacheNode (n_name n) (n_qtype n) (n_ans n) (n_nans n) (n_rcode n) (n_expires n) (n_hnext n) v (n_next n).
Definition set_next (v : option loc) (n : cache_node) : cache_node :=
  CacheNode (n_name n) (n_qtype n) (n_ans n) (n_nans n) (n_rcode n) (n_expires n) (n_hnext n) (n_prev n) v.
Definition set_data (ans : list dns_answer) (nans rcode expires : Z) (n : cache_node) : cache_node :=
  CacheNode (n_name n) (n_qtype n) ans nans rcode expires (n_hnext n) (n_prev n) (n_next n).

Definition zero_answer : dns_answer := DnsAnswer 0 0 [] [].

(** What [calloc] returns, with the name and type stored in it. *)
Definition new_node (name : list Z) (qtype : Z) : cache_node :=
  CacheNode name qtype (replicate (Z.to_nat DNS_MAX_ANSWERS) zero_answer) 0 0 0 None None None.

Definition bucket_of (hash : Z) : Z := Z.land (u32 hash) (CACHE_BUCKETS - 1).

Definition clamp_ttl (ttl : Z) : Z :=
  if ttl <? CACHE_MIN_TTL then CACHE_MIN_TTL
  else if CACHE_MAX_TTL <? ttl then CACHE_MAX_TTL
  else ttl.

(** The key hash of a node. *)
Definition node_hash (n : cache_node) : Z := dns_key_hash (n_name n) (n_qtype n).

(** The key comparison of [bucket_find]. *)
Definition node_matches (name : list Z) (qtype : Z) (n : cache_node) : bool :=
  (n_qtype n =? qtype) && dns_name_equal (n_name n) name.

(** The ttl a record set is kept for. *)
Definition min_ttl (ans : list dns_answer) : Z :=
  fold_left (fun t a => if a_ttl a <? t then a_ttl a else t) ans CACHE_MAX_TTL.

Definition put_ttl (ans : list dns_answer) : Z :=
  if bool_decide (ans = []) then CACHE_NEG_TTL else clamp_ttl (min_ttl ans).

(** Where a [struct cache_node **] points to. *)
Inductive link := BucketHead (b : Z) | HnextOf (l : loc).

(** The static data of dns_cache.c; [c_buckets] holds the bucket heads that are
    not null. *)
Record cache (F : Type) := Cache {
  c_heap : gmap loc cache_node;
  c_buckets : gmap Z loc;
  c_lru_head : option loc;
  c_lru_tail : option loc;
  c_entry_count : Z;
  c_hits : Z;
  c_misses : Z;
  c_evictions : Z;
  c_expirations : Z;
  c_filter : F
}.
Arguments Cache {F}.
Arguments c_heap {F}.
Arguments c_buckets {F}.
Arguments c_lru_head {F}.
Arguments c_lru_tail {F}.
Arguments c_entry_count {F}.
Arguments c_hits {F}.
Arguments c_misses {F}.
Arguments c_evictions {F}.
Arguments c_expirations {F}.
Arguments c_filter {F}.

Section cache_ops.
Context {F : Type} `{Filter F}.
Implicit Types (c : cache F).

Definition with_heap (h : gmap loc cache_node) (c : cache F) : cache F :=
  Cache h (c_buckets c) (c_lru_head c) (c_lru_tail c) (c_entry_count c) (c_hits c) (c_misses c)
    (c_evictions c) (c_expirations c) (c_filter c).
Definition with_buckets (b : gmap Z loc) (c : cache F) : cache F :=
  Cache (c_heap c) b (c_lru_head c) (c_lru_tail c) (c_entry_count c) (c_hits c) (c_misses c)
    (c_evictions c) (c_expirations c) (c_filter c).
Definition with_head (p : option loc) (c : cache F) : cache F :=
  Cache (c_heap c) (c_buckets c) p (c_lru_tail c) (c_entry_count c) (c_hits c) (c_misses c)
    (c_evictions c) (c_expirations c) (c_filter c).
Definition with_tail (p : option loc) (c : cache F) : cache F :=
  Cache (c_heap c) (c_buckets c) (c_lru_head c) p (c_entry_count c) (c_hits c) (c_misses c)
    (c_evictions c) (c_expirations c) (c_filter c).
Definition with_count (k : Z) (c : cache F) : cache F :=
  Cache (c_heap c) (c_buckets c) (c_lru_head c) (c_lru_tail c) k (c_hits c) (c_misses c)
    (c_evictions c) (c_expirations c) (c_filter c).
Definition with_filter (f : F) (c : cache F) : cache F :=
  Cache (c_heap c) (c_buckets c) (c_lru_head c) (c_lru_tail c) (c_entry_count c) (c_hits c) (c_misses c)
    (c_evictions c) (c_expirations c) f.

(** The [_Atomic uint64_t] counters. *)
Definition hit (c : cache F) : cache F :=
  Cache (c_heap c) (c_buckets c) (c_lru_head c) (c_lru_tail c) (c_entry_count c) (u64 (c_hits c + 1))
    (c_misses c) (c_evictions c) (c_expirations c) (c_filter c).
Definition miss (c : cache F) : cache F :=
  Cache (c_heap c) (c_buckets c) (c_lru_head c) (c_lru_tail c) (c_entry_count c) (c_hits c)
    (u64 (c_misses c + 1)) (c_evictions c) (c_expirations c) (c_filter c).
Definition evicted (c : cache F) : cache F :=
  Cache (c_heap c) (c_buckets c) (c_lru_head c) (c_lru_tail c) (c_entry_count c) (c_hits c) (c_misses c)
    (u64 (c_evictions c + 1)) (c_expirations c) (c_filter c).
Definition expired (c : cache F) : cache F :=
  Cache (c_heap c) (c_buckets c) (c_lru_head c) (c_lru_tail c) (c_entry_count c) (c_hits c) (c_misses c)
    (c_evictions c) (u64 (c_expirations c + 1)) (c_filter c).

(** [*l] *)
Definition load (c : cache F) (l : loc) : res cache_node :=
  match c_heap c !! l with
  | Some n => Ok n
  | None => Fault
  end.

(** [l->field = ...] *)
Definition modify (f : cache_node -> cache_node) (l : loc) (c : cache F) : res (cache F) :=
  n ← load c l;
  Ok (with_heap (<[l := f n]> (c_heap c)) c).

Definition lru_unlink (l : loc) (c : cache F) : res (cache F) :=
  n ← load c l;
  c1 ← match n_prev n with
       | Some p => modify (set_next (n_next n)) p c
       | None => Ok (with_head (n_next n) c)
       end;
  n1 ← load c1 l;
  c2 ← match n_next n1 with
       | Some q => modify (set_prev (n_prev n1)) q c1
       | None => Ok (with_tail (n_prev n1) c1)
       end;
  c3 ← modify (set_next None) l c2;
  modify (set_prev None) l c3.

Definition lru_push_front (l : loc) (c : cache F) : res (cache F) :=
  c1 ← modify (set_prev None) l c;
  c2 ← modify (set_next (c_lru_head c1)) l c1;
  c3 ← match c_lru_head c2 with
       | Some h => modify (set_prev (Some l)) h c2
       | None => Ok c2
       end;
  let c4 := with_head (Some l) c3 in
  Ok (match c_lru_tail c4 with
      | Some _ => c4
      | None => with_tail (Some l) c4
      end).

(** [*pp] and [*pp = v] *)
Definition read_link (pp : link) (c : cache F) : res (option loc) :=
  match pp with
  | BucketHead b => Ok (c_buckets c !! b)
  | HnextOf l => n ← load c l; Ok (n_hnext n)
  end.

Definition write_link (pp : link) (v : option loc) (c : cache F) : res (cache F) :=
  match pp with
  | BucketHead b =>
      Ok (with_buckets (match v with
                        | Some l => <[b := l]> (c_buckets c)
                        | None => delete b (c_buckets c)
                        end) c)
  | HnextOf l => modify (set_hnext v) l c
  end.

(** [while ( *pp )] *)
Fixpoint unlink_loop (fuel : nat) (l : loc) (pp : link) (c : cache F) : res (cache F) :=
  match fuel with
  | O => Diverge
  | S fuel' =>
      v ← read_link pp c;
      match v with
      | None => Ok c
      | Some l' =>
          if bool_decide (l' = l) then
            n ← load c l;
            c1 ← write_link pp (n_hnext n) c;
            modify (set_hnext None) l c1
          else unlink_loop fuel' l (HnextOf l') c
      end
  end.

(** A chain without a cycle has at most as many nodes as the heap. *)
Definition chain_fuel (c : cache F) : nat := S (size (c_heap c)).

Definition bucket_unlink (l : loc) (c : cache F) : res (cache F) :=
  n ← load c l;
  unlink_loop (chain_fuel c) l (BucketHead (bucket_of (node_hash n))) c.

Definition free (l : loc) (c : cache F) : res (cache F) :=
  _ ← load c l;
  Ok (with_heap (delete l (c_heap c)) c).

Definition node_destroy (t : nat) (l : loc) (c : cache F) : res (cache F) :=
  n ← load c l;
  let c0 := with_filter (f_del t (node_hash n) (c_filter c)) c in
  c1 ← bucket_unlink l c0;
  c2 ← lru_unlink l c1;
  c3 ← free l c2;
  Ok (with_count (u64 (c_entry_count c3 - 1)) c3).

Fixpoint find_loop (fuel : nat) (name : list Z) (qtype : Z) (p : option loc) (c : cache F)
    : res (option loc) :=
  match fuel with
  | O => Diverge
  | S fuel' =>
      match p with
      | None => Ok None
      | Some l =>
          n ← load c l;
          if node_matches name qtype n then Ok (Some l)
          else find_loop fuel' name qtype (n_hnext n) c
      end
  end.

Definition bucket_find (hash : Z) (name : list Z) (qtype : Z) (c : cache F) : res (option loc) :=
  find_loop (chain_fuel c) name qtype (c_buckets c !! bucket_of hash) c.

(** The scan of [evict_one] over [left] more nodes. *)
Fixpoint scan_loop (left : nat) (now : Z) (p victim : option loc) (c : cache F) : res (option loc) :=
  match left, p with
  | S left', Some l =>
      n ← load c l;
      if n_expires n <=? now then Ok (Some l)
      else scan_loop left' now (n_prev n) victim c
  | _, _ => Ok victim
  end.

Definition evict_one (t : nat) (now : Z) (c : cache F) : res (cache F) :=
  victim ← scan_loop 8 now (c_lru_tail c) (c_lru_tail c) c;
  match victim with
  | Some l => c1 ← node_destroy t l c; Ok (evicted c1)
  | None => Ok c
  end.

(** [while (entry_count >= CACHE_CAPACITY) evict_one(now)] *)
Fixpoint evict_loop (fuel : nat) (t : nat) (now : Z) (c : cache F) : res (cache F) :=
  match fuel with
  | O => Diverge
  | S fuel' =>
      if CACHE_CAPACITY <=? c_entry_count c
      then c1 ← evict_one t now c; evict_loop fuel' t now c1
      else Ok c
  end.

Definition dns_cache_init (c : cache F) : cache F :=
  Cache (c_heap c) ∅ None None 0 0 0 0 0 (f_reset (c_filter c)).

Fixpoint free_loop (fuel : nat) (p : option loc) (c : cache F) : res (cache F) :=
  match fuel with
  | O => Diverge
  | S fuel' =>
      match p with
      | None => Ok c
      | Some l => n ← load c l; c1 ← free l c; free_loop fuel' (n_next n) c1
      end
  end.

Definition dns_cache_fini (c : cache F) : res (cache F) :=
  c1 ← free_loop (chain_fuel c) (c_lru_head c) c;
  Ok (Cache (c_heap c1) ∅ None None 0 (c_hits c1) (c_misses c1) (c_evictions c1) (c_expirations c1)
        (f_reset (c_filter c1))).

(** [Some (out, rcode)] is a hit: [out] has [*n_out] answers. *)
Definition dns_cache_get (t : nat) (now : Z) (name : list Z) (qtype cap : Z) (c : cache F)
    : res (cache F * option (list dns_answer * Z)) :=
  let h := dns_key_hash name qtype in
  let '(f, maybe) := f_maybe t h (c_filter c) in
  let c0 := with_filter f c in
  if negb maybe then Ok (miss c0, None) else
  p ← bucket_find h name qtype c0;
  match p with
  | None => Ok (miss c0, None)
  | Some l =>
      n ← load c0 l;
      if n_expires n <=? now then
        c1 ← node_destroy t l c0;
        Ok (miss (expired c1), None)
      else
        let k := if n_nans n <? cap then n_nans n else cap in
        let remaining := u32 (n_expires n - now) in
        let out := (fun a => DnsAnswer (a_type a) remaining (a_rdata a) (a_owner a)) <$> ztake k (n_ans n) in
        c1 ← lru_unlink l c0;
        c2 ← lru_push_front l c1;
        Ok (hit c2, Some (out, n_rcode n))
  end.

(** The new node of [dns_cache_put], linked into its bucket. *)
Definition insert_node (t : nat) (l : loc) (h : Z) (name : list Z) (qtype : Z) (c : cache F)
    : res (cache F) :=
  let c1 := with_heap (<[l := new_node (snprintf_s NAME_CAP name) qtype]> (c_heap c)) c in
  let b := bucket_of h in
  c2 ← modify (set_hnext (c_buckets c1 !! b)) l c1;
  let c3 := with_buckets (<[b := l]> (c_buckets c2)) c2 in
  let c4 := with_count (u64 (c_entry_count c3 + 1)) c3 in
  Ok (with_filter (f_add t h (c_filter c4)) c4).

(** [n] answers at [ans]; [calloc] gets the addresses in use. *)
Definition dns_cache_put (calloc : gset loc -> option loc) (t : nat) (now : Z) (name : list Z)
    (qtype : Z) (ans : list dns_answer) (n rcode : Z) (c : cache F) : res (cache F) :=
  let n := if DNS_MAX_ANSWERS <? n then DNS_MAX_ANSWERS else n in
  if zlen ans <? n then Fault else
  let ttl := put_ttl (ztake n ans) in
  let h := dns_key_hash name qtype in
  p ← bucket_find h name qtype c;
  r ← match p with
      | Some l => c1 ← lru_unlink l c; Ok (inr (l, c1))
      | None =>
          c1 ← evict_loop (chain_fuel c) t now c;
          match calloc (dom (c_heap c1)) with
          | None => Ok (inl c1)
          | Some l => c2 ← insert_node t l h name qtype c1; Ok (inr (l, c2))
          end
      end;
  match r with
  | inl c1 => Ok c1
  | inr (l, c1) =>
      old ← load c1 l;
      c2 ← modify (set_data (ztake n ans ++ zdrop n (n_ans old)) n rcode (now + ttl)) l c1;
      lru_push_front l c2
  end.

(** hits, misses, evictions, expirations, entries *)
Definition dns_cache_stats (c : cache F) : Z * Z * Z * Z * Z :=
  (c_hits c, c_misses c, c_evictions c, c_expirations c, c_entry_count c).

End cache_ops.

(** ** The abstract cache

    A list of entries, most recently used first, with at most one entry per
    key. *)

Record entry := Entry {
  e_name : list Z;
  e_qtype : Z;
  e_ans : list dns_answer;
  e_rcode : Z;
  e_expires : Z
}.

Record lru := Lru {
  l_entries : list entry;
  l_hits : Z;
  l_misses : Z;
  l_evictions : Z;
  l_expirations : Z
}.

(** Keys: the case-folded name and the type. *)
Definition key : Type := list Z * Z.
Definition key_of (name : list Z) (qtype : Z) : key := (fold_case name, qtype).
Definition entry_key (e : entry) : key := key_of (e_name e) (e_qtype e).
Definition entry_hash (e : entry) : Z := dns_key_hash (e_name e) (e_qtype e).

Definition find_key (k : key) (es : list entry) : option entry :=
  snd <$> list_find (fun e => entry_key e = k) es.

Definition remove_key (k : key) (es : list entry) : list entry :=
  filter (fun e => entry_key e <> k) es.

(** An expired entry among the eight least recently used, the oldest of them
    first; else the least recently used entry. *)
Definition victim (now : Z) (es : list entry) : option entry :=
  match snd <$> list_find (fun e => e_expires e <= now) (take 8 (reverse es)) with
  | Some e => Some e
  | None => last es
  end.

(** The answers with the time they have left. *)
Definition with_ttl (ttl : Z) (ans : list dns_answer) : list dns_answer :=
  (fun a => DnsAnswer (a_type a) ttl (a_rdata a) (a_owner a)) <$> ans.

Definition lru_get (now : Z) (name : list Z) (qtype cap : Z) (s : lru)
    : lru * option (list dns_answer * Z) :=
  let '(Lru es h m v x) := s in
  let k := key_of name qtype in
  match find_key k es with
  | None => (Lru es h (u64 (m + 1)) v x, None)
  | Some e =>
      if e_expires e <=? now
      then (Lru (remove_key k es) h (u64 (m + 1)) v (u64 (x + 1)), None)
      else (Lru (e :: remove_key k es) (u64 (h + 1)) m v x,
            Some (with_ttl (u32 (e_expires e - now)) (ztake cap (e_ans e)), e_rcode e))
  end.

(** Room for one more entry. *)
Definition lru_make_room (now : Z) (s : lru) : lru :=
  if CACHE_CAPACITY <=? zlen (l_entries s) then
    match victim now (l_entries s) with
    | Some e => Lru (remove_key (entry_key e) (l_entries s)) (l_hits s) (l_misses s)
                    (u64 (l_evictions s + 1)) (l_expirations s)
    | None => s
    end
  else s.

Definition lru_push (e : entry) (s : lru) : lru :=
  Lru (e :: l_entries s) (l_hits s) (l_misses s) (l_evictions s) (l_expirations s).

(** [mem]: the allocator has memory for a new entry. *)
Definition lru_put (mem : bool) (now : Z) (name : list Z) (qtype : Z) (ans : list dns_answer) (rcode : Z)
    (s : lru) : lru :=
  let k := key_of name qtype in
  let ans := ztake DNS_MAX_ANSWERS ans in
  match find_key k (l_entries s) with
  | Some e =>
      lru_push (Entry (e_name e) (e_qtype e) ans rcode (now + put_ttl ans))
        (Lru (remove_key k (l_entries s)) (l_hits s) (l_misses s) (l_evictions s) (l_expirations s))
  | None =>
      let s1 := lru_make_room now s in
      if mem then lru_push (Entry (cstr name) qtype ans rcode (now + put_ttl ans)) s1 else s1
  end.

(** ** The representation of the abstract cache *)

(** What a node says. *)
Definition entry_of (n : cache_node) : entry :=
  Entry (n_name n) (n_qtype n) (ztake (n_nans n) (n_ans n)) (n_rcode n) (n_expires n).

(** The name fits its array, and so do the answers. *)
Definition node_ok (n : cache_node) : Prop :=
  strlen (n_name n) <= DNS_MAX_NAME /\ zlen (n_ans n) = DNS_MAX_ANSWERS /\ 0 <= n_nans n <= DNS_MAX_ANSWERS.

(** The doubly linked list over [ls]. *)
Definition dll (heap : gmap loc cache_node) (ls : list loc) : Prop :=
  forall pre l post, ls = pre ++ l :: post ->
  exists n, heap !! l = Some n /\ n_prev n = last pre /\ n_next n = head post.

(** The bucket chain from [p] over [ls]. *)
Fixpoint hchain (heap : gmap loc cache_node) (p : option loc) (ls : list loc) : Prop :=
  match ls with
  | [] => p = None
  | l :: ls' => p = Some l /\ exists n, heap !! l = Some n /\ hchain heap (n_hnext n) ls'
  end.

(** The bucket a node belongs to. *)
Definition node_bucket (n : cache_node) : Z := bucket_of (node_hash n).

(** Bucket [b]'s chain holds the nodes that belong to it, each once. *)
Definition bucket_ok (heap : gmap loc cache_node) (p : option loc) (b : Z) : Prop :=
  exists ch, hchain heap p ch /\ NoDup ch /\
    forall l, l ∈ ch <-> exists n, heap !! l = Some n /\ node_bucket n = b.

(** The heap and the two link structures hold the entries [es]. *)
Definition rep_list (heap : gmap loc cache_node) (ls : list loc) (es : list entry) : Prop :=
  NoDup ls /\ (forall l, l ∈ ls <-> is_Some (heap !! l)) /\
  Forall2 (fun l e => exists n, heap !! l = Some n /\ entry_of n = e /\ node_ok n) ls es.

Definition rep {F} `{FilterLaws F} (c : cache F) (s : lru) : Prop :=
  exists ls,
    rep_list (c_heap c) ls (l_entries s) /\
    dll (c_heap c) ls /\ c_lru_head c = head ls /\ c_lru_tail c = last ls /\
    (forall b, bucket_ok (c_heap c) (c_buckets c !! b) b) /\
    NoDup (entry_key <$> l_entries s) /\
    covers (c_filter c) (entry_hash <$> l_entries s) /\
    zlen (l_entries s) <= CACHE_CAPACITY /\ c_entry_count c = zlen (l_entries s) /\
    c_hits c = l_hits s /\ c_misses c = l_misses s /\
    c_evictions c = l_evictions s /\ c_expirations c = l_expirations s.
