(* ===== verification/CacheLinks.v ===== *)
(** * The cache's links (src/dns_cache.c)

    What the list and chain operations of the cache do to the doubly linked
    LRU list and to the bucket chains. *)

From stdpp Require Import prelude list gmap.
From Stdlib Require Import ZArith Lia.
From S2P Require Import Prelude DnsName DnsParse DnsBuild DnsBloom DnsCache.

Local Open Scope Z_scope.

(** A node without its LRU links, and without its chain link. *)
Definition erase (n : cache_node) : cache_node := set_prev None (set_next None n).
Definition unhash (n : cache_node) : cache_node := set_hnext None n.

(** Setting one link of the node at [l]. *)
Definition link_prev (l : option loc) (v : option loc) (h : gmap loc cache_node) : gmap loc cache_node :=
  match l with Some l => alter (set_prev v) l h | None => h end.
Definition link_next (l : option loc) (v : option loc) (h : gmap loc cache_node) : gmap loc cache_node :=
  match l with Some l => alter (set_next v) l h | None => h end.

(** The heap after [lru_unlink]. *)
Definition unlinked (n : cache_node) (l : loc) (h : gmap loc cache_node) : gmap loc cache_node :=
  alter (set_prev None) l (alter (set_next None) l
    (link_prev (n_next n) (n_prev n) (link_next (n_prev n) (n_next n) h))).

(** The LRU list of a cache. *)
Definition links {F} (c : cache F) (ls : list loc) : Prop :=
  dll (c_heap c) ls /\ c_lru_head c = head ls /\ c_lru_tail c = last ls.

(** ** Lemmas: loads and stores *)

Section heap_ops.
Context {F : Type} `{Filter F}.
Implicit Types (c : cache F).

Lemma load_Ok c l n : c_heap c !! l = Some n -> load c l = Ok n.
Proof. unfold load. by intros ->. Qed.

Lemma modify_Ok f l c : is_Some (c_heap c !! l) ->
  modify f l c = Ok (with_heap (alter f l (c_heap c)) c).
Proof.
  intros [n Hn]. unfold modify. rewrite (load_Ok _ _ _ Hn), Ok_bind. f_equal. f_equal.
  apply map_eq. intros i. destruct (decide (i = l)) as [->|Hne].
  - rewrite lookup_insert_eq, lookup_alter_eq, Hn. done.
  - rewrite lookup_insert_ne, lookup_alter_ne by done. done.
Qed.

Lemma unlink_prev o v c : (forall p, o = Some p -> is_Some (c_heap c !! p)) ->
  match o with Some p => modify (set_next v) p c | None => Ok (with_head v c) end =
  Ok (with_heap (link_next o v (c_heap c)) (with_head (match o with Some _ => c_lru_head c | None => v end) c)).
Proof. intros Ho. destruct o as [p|]; cbn; [rewrite modify_Ok by auto|]; by destruct c. Qed.

Lemma unlink_next o v c : (forall p, o = Some p -> is_Some (c_heap c !! p)) ->
  match o with Some p => modify (set_prev v) p c | None => Ok (with_tail v c) end =
  Ok (with_heap (link_prev o v (c_heap c)) (with_tail (match o with Some _ => c_lru_tail c | None => v end) c)).
Proof. intros Ho. destruct o as [p|]; cbn; [rewrite modify_Ok by auto|]; by destruct c. Qed.

Lemma lookup_link_next o v h l : o <> Some l -> link_next o v h !! l = h !! l.
Proof. intros Ho. destruct o as [p|]; [|done]. cbn. apply lookup_alter_ne. congruence. Qed.

Lemma lookup_link_prev o v h l : o <> Some l -> link_prev o v h !! l = h !! l.
Proof. intros Ho. destruct o as [p|]; [|done]. cbn. apply lookup_alter_ne. congruence. Qed.

Lemma link_next_Some o v h l : is_Some (link_next o v h !! l) <-> is_Some (h !! l).
Proof. destruct o; [|done]. apply lookup_alter_is_Some. Qed.

Lemma link_prev_Some o v h l : is_Some (link_prev o v h !! l) <-> is_Some (h !! l).
Proof. destruct o; [|done]. apply lookup_alter_is_Some. Qed.

Lemma lru_unlink_run l c n :
  c_heap c !! l = Some n ->
  n_prev n <> Some l -> (forall p, n_prev n = Some p -> is_Some (c_heap c !! p)) ->
  n_next n <> Some l -> (forall q, n_next n = Some q -> is_Some (c_heap c !! q)) ->
  lru_unlink l c = Ok (with_heap (unlinked n l (c_heap c))
    (with_head (match n_prev n with Some _ => c_lru_head c | None => n_next n end)
    (with_tail (match n_next n with Some _ => c_lru_tail c | None => n_prev n end) c))).
Proof.
  intros Hl Hp Hp' Hq Hq'. unfold lru_unlink. rewrite (load_Ok _ _ _ Hl), Ok_bind.
  rewrite unlink_prev, Ok_bind by done. erewrite load_Ok; [|cbn; by rewrite lookup_link_next].
  rewrite Ok_bind, unlink_next, Ok_bind by (cbn; intros q Eq; rewrite link_next_Some; auto).
  rewrite modify_Ok, Ok_bind by (cbn; rewrite link_prev_Some, link_next_Some; by eexists).
  rewrite modify_Ok by (cbn; rewrite lookup_alter_is_Some, link_prev_Some, link_next_Some; by eexists).
  done.
Qed.

Lemma lru_push_front_run l c :
  is_Some (c_heap c !! l) -> (forall h, c_lru_head c = Some h -> is_Some (c_heap c !! h)) ->
  lru_push_front l c = Ok (with_heap (link_prev (c_lru_head c) (Some l)
      (alter (set_next (c_lru_head c)) l (alter (set_prev None) l (c_heap c))))
    (with_head (Some l) (with_tail (match c_lru_tail c with Some q => Some q | None => Some l end) c))).
Proof.
  intros Hl Hh. unfold lru_push_front. rewrite modify_Ok, Ok_bind by done.
  rewrite modify_Ok, Ok_bind by (cbn; by rewrite lookup_alter_is_Some). cbn.
  destruct (c_lru_head c) as [h|] eqn:Eh; cbn.
  - rewrite modify_Ok, Ok_bind by (cbn; rewrite !lookup_alter_is_Some; auto). cbn.
    by destruct c; cbn in *; destruct c_lru_tail.
  - by destruct c; cbn in *; destruct c_lru_tail.
Qed.
End heap_ops.

(** ** Lemmas: the LRU list *)

Lemma app_split {A} (pre post pre' post' : list A) x : pre ++ post = pre' ++ x :: post' ->
  (exists m, pre = pre' ++ x :: m /\ post' = m ++ post) \/ (exists m, pre' = pre ++ m /\ post = m ++ x :: post').
Proof.
  intros [(k & -> & Hk)|(k & -> & ->)]%app_eq_inv; [|by eauto].
  destruct k as [|y k]; cbn in Hk; [subst; right; exists []; by rewrite !app_nil_r|].
  injection Hk as -> ->. eauto.
Qed.

Lemma last_app_cons {A} (l k : list A) x : last (l ++ x :: k) = last (x :: k).
Proof. rewrite last_app. by destruct (last (x :: k)) eqn:E; [|apply last_None in E]. Qed.

Lemma erase_alter_prev v l (h : gmap loc cache_node) : erase <$> alter (set_prev v) l h = erase <$> h.
Proof.
  apply map_eq. intros i. rewrite !lookup_fmap. destruct (decide (i = l)) as [->|].
  - rewrite lookup_alter_eq. by destruct (h !! l).
  - by rewrite lookup_alter_ne.
Qed.

Lemma erase_alter_next v l (h : gmap loc cache_node) : erase <$> alter (set_next v) l h = erase <$> h.
Proof.
  apply map_eq. intros i. rewrite !lookup_fmap. destruct (decide (i = l)) as [->|].
  - rewrite lookup_alter_eq. by destruct (h !! l).
  - by rewrite lookup_alter_ne.
Qed.

Lemma erase_unlinked n l h : erase <$> unlinked n l h = erase <$> h.
Proof.
  unfold unlinked, link_prev, link_next. rewrite erase_alter_prev, erase_alter_next.
  destruct (n_next n), (n_prev n); rewrite ?erase_alter_prev, ?erase_alter_next; done.
Qed.

(** The node of [x] after links of other nodes or of its own were set. *)
Lemma unlinked_lookup n l h x nx : x <> l -> h !! x = Some nx ->
  exists nx', unlinked n l h !! x = Some nx' /\
    n_prev nx' = (if decide (n_next n = Some x) then n_prev n else n_prev nx) /\
    n_next nx' = (if decide (n_prev n = Some x) then n_next n else n_next nx).
Proof.
  intros Hx Hh. unfold unlinked. rewrite !lookup_alter_ne by done.
  assert (exists nx1, link_next (n_prev n) (n_next n) h !! x = Some nx1 /\ n_prev nx1 = n_prev nx /\
    n_next nx1 = (if decide (n_prev n = Some x) then n_next n else n_next nx)) as (nx1 & H1 & P1 & N1).
  { case_decide as Hd; [|rewrite lookup_link_next by done; eauto].
    rewrite Hd. cbn. rewrite lookup_alter_eq, Hh. cbn. eauto. }
  destruct (decide (n_next n = Some x)) as [Hd|Hd]; [|rewrite lookup_link_prev by done; eauto].
  unfold link_prev. rewrite Hd in *. rewrite lookup_alter_eq, H1. eexists. split; [done|]. by rewrite <- N1.
Qed.

Lemma head_app_ne {A} (m k : list A) : m <> [] -> head (m ++ k) = head m.
Proof. by destruct m. Qed.

Lemma dll_unlink h pre l post n : NoDup (pre ++ l :: post) -> dll h (pre ++ l :: post) ->
  h !! l = Some n -> n_prev n = last pre -> n_next n = head post -> dll (unlinked n l h) (pre ++ post).
Proof.
  intros Hnd Hd Hl Hp Hn pre' x post' [(m & -> & ->)|(m & -> & ->)]%app_split.
  - destruct (Hd pre' x (m ++ l :: post)) as (nx & Hx & Px & Nx); [by rewrite <- app_assoc|].
    destruct (unlinked_lookup n l h x nx) as (nx' & Hx' & Px' & Nx'); [|done|].
    { intros ->. rewrite <- app_assoc in Hnd. apply NoDup_app in Hnd as (_ & _ & Hnd).
      apply NoDup_cons in Hnd as [Hnd _]. set_solver. }
    exists nx'. split; [done|]. rewrite Px', Nx', Hn, Hp, Px, Nx. split.
    + rewrite decide_False; [done|]. intros Hh. destruct post as [|y post]; [done|]. injection Hh as ->.
      rewrite <- app_assoc in Hnd. apply NoDup_app in Hnd as (_ & _ & Hnd).
      apply NoDup_cons in Hnd as [Hnd _]. set_solver.
    + rewrite last_app_cons. destruct m as [|y m]; [by rewrite decide_True|].
      rewrite decide_False; [done|]. intros [t Ht]%last_Some. destruct t as [|z t]; [done|]; injection Ht as -> Ht.
      assert (z ∈ y :: m) as Hin by (rewrite Ht; set_solver).
      rewrite <- app_assoc in Hnd. apply NoDup_app in Hnd as (_ & _ & Hnd).
      apply NoDup_cons in Hnd as [Hnd _]. set_solver.
  - destruct (Hd (pre ++ l :: m) x post') as (nx & Hx & Px & Nx); [by rewrite <- app_assoc|].
    assert (x <> l /\ (x ∉ pre) /\ (x ∉ m)) as (Hxl & Hxpre & Hxm).
    { apply NoDup_app in Hnd as (_ & Hdis & Hnd). apply NoDup_cons in Hnd as [Hl' Hnd].
      apply NoDup_app in Hnd as (_ & Hdis' & _). split_and!; [set_solver| |].
      - intros Hin. apply (Hdis x Hin). set_solver.
      - intros Hin. apply (Hdis' x Hin). set_solver. }
    destruct (unlinked_lookup n l h x nx) as (nx' & Hx' & Px' & Nx'); [done..|].
    exists nx'. split; [done|]. rewrite Px', Nx', Hn, Hp, Px, Nx. split.
    + destruct m as [|y m]; [rewrite decide_True by done; by rewrite app_nil_r|].
      rewrite decide_False by (cbn; intros [= ->]; set_solver). by rewrite !last_app_cons.
    + rewrite decide_False; [done|]. intros Hlast%last_Some_elem_of. done.
Qed.

Lemma dll_push_front h ls l : NoDup ls -> l ∉ ls -> is_Some (h !! l) -> dll h ls ->
  dll (link_prev (head ls) (Some l) (alter (set_next (head ls)) l (alter (set_prev None) l h))) (l :: ls).
Proof.
  intros Hnd Hl [n Hn] Hd pre x post E. destruct pre as [|y pre]; cbn in E; injection E as -> E.
  - exists (set_next (head ls) (set_prev None n)). rewrite lookup_link_prev.
    + rewrite lookup_alter_eq, lookup_alter_eq, Hn. by subst.
    + intros Hh. destruct ls; cbn in Hh; [done|]. injection Hh as ->. set_solver.
  - subst ls. destruct (Hd pre x post eq_refl) as (nx & Hx & Px & Nx).
    assert (x <> y) by set_solver.
    destruct pre as [|z pre].
    + exists (set_prev (Some y) nx). cbn. rewrite lookup_alter_eq, !lookup_alter_ne, Hx by done. done.
    + exists nx. rewrite lookup_link_prev, !lookup_alter_ne; [|done..|].
      * split_and!; [done| |done]. by rewrite Px.
      * cbn. intros [= ->]. cbn in Hnd. apply NoDup_cons in Hnd as [Hnd _]. set_solver.
Qed.

Section lru_ops.
Context {F : Type} `{Filter F}.
Implicit Types (c : cache F).

(** [lru_unlink] takes a node out of the list and changes nothing else. *)
Lemma lru_unlink_spec c pre l post : NoDup (pre ++ l :: post) -> links c (pre ++ l :: post) ->
  exists h p q, lru_unlink l c = Ok (with_heap h (with_head p (with_tail q c))) /\
    erase <$> h = erase <$> c_heap c /\ links (with_heap h (with_head p (with_tail q c))) (pre ++ post).
Proof.
  intros Hnd (Hd & Hh & Ht). destruct (Hd pre l post eq_refl) as (n & Hl & Hp & Hn).
  assert ((l ∉ pre) /\ (l ∉ post)) as [Hlpre Hlpost].
  { apply NoDup_app in Hnd as (_ & Hdis & Hnd). apply NoDup_cons in Hnd as [? _].
    split; [|done]. intros Hin. apply (Hdis l Hin). set_solver. }
  rewrite (lru_unlink_run l c n); [|done|..].
  - do 3 eexists. split; [done|]. split; [apply erase_unlinked|]. split_and!; cbn.
    + by apply dll_unlink.
    + rewrite Hp, Hn, Hh. destruct pre as [|x pre]; [done|]. destruct (last (x :: pre)) eqn:E; [done|].
      by apply last_None in E.
    + rewrite Hp, Hn, Ht. rewrite last_app_cons. destruct post as [|y post]; cbn [head].
      * by rewrite app_nil_r.
      * by rewrite last_app_cons.
  - rewrite Hp. by intros ?%last_Some_elem_of.
  - rewrite Hp. intros p [t ->]%last_Some. destruct (Hd t p (l :: post)) as (np & Hnp & _); [by rewrite <- app_assoc|].
    by eexists.
  - rewrite Hn. by intros ?%head_Some_elem_of.
  - rewrite Hn. intros q Hq. destruct post as [|y post]; [done|]. injection Hq as ->.
    destruct (Hd (pre ++ [l]) q post) as (nq & Hnq & _); [by rewrite <- app_assoc|]. by eexists.
Qed.

(** [lru_push_front] puts a node that is not in the list in front of it. *)
Lemma lru_push_front_spec c ls l : NoDup ls -> l ∉ ls -> is_Some (c_heap c !! l) -> links c ls ->
  exists h p q, lru_push_front l c = Ok (with_heap h (with_head p (with_tail q c))) /\
    erase <$> h = erase <$> c_heap c /\ links (with_heap h (with_head p (with_tail q c))) (l :: ls).
Proof.
  intros Hnd Hl Hs (Hd & Hh & Ht). rewrite lru_push_front_run; [|done|].
  - do 3 eexists. split; [done|]. split.
    + rewrite Hh. destruct (head ls); cbn; rewrite ?erase_alter_prev, ?erase_alter_next, ?erase_alter_prev; done.
    + split_and!; cbn; [rewrite Hh; by apply dll_push_front|done|]. rewrite Ht.
      destruct ls as [|x ls]; [done|]. destruct (last (x :: ls)) as [y|] eqn:E; [|by apply last_None in E].
      change (l :: x :: ls) with ([l] ++ x :: ls). by rewrite last_app_cons.
  - rewrite Hh. intros h Hhd. destruct ls as [|x ls]; [done|]. injection Hhd as ->.
    destruct (Hd [] h ls eq_refl) as (n & Hn & _). by eexists.
Qed.
End lru_ops.

(** ** Lemmas: the bucket chains *)

Lemma hchain_frame h h' p ch : (forall x n, x ∈ ch -> h !! x = Some n -> exists n', h' !! x = Some n' /\ n_hnext n' = n_hnext n) ->
  hchain h p ch -> hchain h' p ch.
Proof.
  revert p. induction ch as [|x ch IH]; intros p Hf; [done|]. intros (-> & n & Hn & Hc). split; [done|].
  destruct (Hf x n) as (n' & Hn' & E); [set_solver|done|]. exists n'. split; [done|]. rewrite E. apply IH; [|done].
  intros y ny Hy. apply Hf. set_solver.
Qed.

Lemma hchain_elem h p ch l : hchain h p ch -> l ∈ ch -> is_Some (h !! l).
Proof.
  revert p. induction ch as [|x ch IH]; intros p; [set_solver|]. intros (-> & n & Hn & Hc) [->|Hin]%elem_of_cons; eauto.
Qed.

Lemma nodup_length_size {A} (h : gmap loc A) ch : NoDup ch -> (forall l, l ∈ ch -> is_Some (h !! l)) ->
  (length ch <= size h)%nat.
Proof.
  intros Hnd Hin. rewrite <- size_dom, <- (size_list_to_set (C := gset loc) ch) by done.
  apply subseteq_size. intros l Hl. rewrite elem_of_list_to_set in Hl. apply elem_of_dom. auto.
Qed.

Lemma unhash_alter v l (h : gmap loc cache_node) : unhash <$> alter (set_hnext v) l h = unhash <$> h.
Proof.
  apply map_eq. intros i. rewrite !lookup_fmap. destruct (decide (i = l)) as [->|].
  - rewrite lookup_alter_eq. by destruct (h !! l).
  - by rewrite lookup_alter_ne.
Qed.

Section bucket_ops.
Context {F : Type} `{Filter F}.
Implicit Types (c : cache F).

(** The search returns a node of the chain that matches, if there is one. *)
Lemma find_loop_spec fuel name qtype p c ch : hchain (c_heap c) p ch -> (length ch < fuel)%nat ->
  exists r, find_loop fuel name qtype p c = Ok r /\
  match r with
  | Some l => l ∈ ch /\ exists n, c_heap c !! l = Some n /\ node_matches name qtype n = true
  | None => forall l n, l ∈ ch -> c_heap c !! l = Some n -> node_matches name qtype n = false
  end.
Proof.
  revert fuel p. induction ch as [|x ch IH]; intros [|fuel] p; cbn [length hchain find_loop]; [lia| |lia|].
  { intros -> _. exists None. split; [done|]. set_solver. }
  intros (-> & n & Hn & Hc) Hf. rewrite (load_Ok _ _ _ Hn), Ok_bind. destruct (node_matches name qtype n) eqn:E.
  - exists (Some x). split; [done|]. split; [set_solver|eauto].
  - destruct (IH fuel _ Hc) as (r & -> & Hr); [lia|]. exists r. split; [done|]. destruct r as [l|].
    + destruct Hr. split; [set_solver|done].
    + intros l n' [->|Hin]%elem_of_cons Hn'; [congruence|]. eauto.
Qed.

(** The chain loses [l]; [pp] is the link the chain starts at. *)
Lemma unlink_loop_spec fuel l pp c p ch :
  read_link pp c = Ok p -> hchain (c_heap c) p ch -> NoDup ch -> l ∈ ch -> (length ch < fuel)%nat ->
  (forall x, pp = HnextOf x -> x ∉ ch) ->
  exists h bk, unlink_loop fuel l pp c = Ok (with_heap h (with_buckets bk c)) /\
    unhash <$> h = unhash <$> c_heap c /\
    (exists p', read_link pp (with_heap h (with_buckets bk c)) = Ok p' /\ hchain h p' (filter (fun x => x <> l) ch)) /\
    (forall x, x ∉ ch -> pp <> HnextOf x -> h !! x = c_heap c !! x) /\
    (forall b, pp <> BucketHead b -> bk !! b = c_buckets c !! b).
Proof.
  revert fuel pp p. induction ch as [|x ch IH]; intros [|fuel] pp p Hr Hc Hnd Hl Hf Hpp; cbn [length] in Hf; [lia|set_solver|lia|].
  destruct Hc as (-> & n & Hn & Hc). cbn [unlink_loop]. rewrite Hr, Ok_bind.
  apply NoDup_cons in Hnd as [Hx Hnd]. case_bool_decide as Ex.
  - subst x. rewrite (load_Ok _ _ _ Hn), Ok_bind. rewrite filter_cons, decide_False by (intros Hne; by apply Hne).
    assert (filter (fun x => x <> l) ch = ch) as ->.
    { apply filter_id. intros y Hy ->. done. }
    destruct pp as [b|y]; cbn [write_link].
    + rewrite Ok_bind, modify_Ok by (cbn; by eexists). cbn. do 2 eexists. split; [done|].
      split_and!; [apply unhash_alter| | |].
      * cbn. exists (n_hnext n). split.
        { by destruct (n_hnext n); rewrite ?lookup_insert_eq, ?lookup_delete_eq. }
        eapply hchain_frame; [|done]. intros y ny Hy Hny. rewrite lookup_alter_ne by (intros ->; done). eauto.
      * intros y Hy _. rewrite lookup_alter_ne; [done|]. intros ->. set_solver.
      * intros b' Hb. destruct (n_hnext n); rewrite ?lookup_insert_ne, ?lookup_delete_ne; congruence.
    + assert (y ∉ l :: ch) as Hy by (by apply Hpp). assert (y <> l) by set_solver.
      cbn in Hr. assert (is_Some (c_heap c !! y)) as [ny Hny].
      { unfold load in Hr. destruct (c_heap c !! y); [by eexists|done]. }
      rewrite modify_Ok, Ok_bind by by eexists. rewrite modify_Ok by (cbn; rewrite lookup_alter_is_Some; by eexists).
      exists (alter (set_hnext None) l (alter (set_hnext (n_hnext n)) y (c_heap c))), (c_buckets c).
      split; [by destruct c|]. split_and!; [by rewrite !unhash_alter| | |done].
      * exists (n_hnext n). split.
        { cbn. unfold load. cbn. rewrite lookup_alter_ne by done. by rewrite lookup_alter_eq, Hny. }
        eapply hchain_frame; [|done]. intros z nz Hz Hnz.
        rewrite !lookup_alter_ne by (intros ->; set_solver). eauto.
      * intros z Hz Hzy. rewrite !lookup_alter_ne; [done|congruence|]. intros ->. set_solver.
  - assert (l ∈ ch) as Hl' by set_solver.
    destruct (IH fuel (HnextOf x) (n_hnext n)) as (h & bk & Hrun & Hun & (p' & Hp' & Hc') & Hfr & Hbk); try done; [|lia|by intros y [= ->]|].
    { cbn. by rewrite (load_Ok _ _ _ Hn). }
    exists h, bk. split; [done|]. split; [done|]. split_and!.
    + exists (Some x). split.
      * destruct pp as [b|y]; cbn in *; [by rewrite Hbk|]. unfold load in *. cbn.
        rewrite Hfr; [done| |].
        { specialize (Hpp y eq_refl). set_solver. }
        { intros [= ->]. specialize (Hpp y eq_refl). set_solver. }
      * rewrite filter_cons, decide_True by done. split; [done|]. cbn in Hp'. unfold load in Hp'. cbn in Hp'.
        destruct (h !! x) as [nx|] eqn:Hnx; [|done]. exists nx. split; [done|]. cbn in Hp'. by injection Hp' as ->.
    + intros y Hy Hpy. apply Hfr; [set_solver|]. intros [= ->]. set_solver.
    + intros b _. by apply Hbk.
Qed.
End bucket_ops.
