(* ===== verification/CacheRefine.v ===== *)
(** * The cache refines an LRU map (src/dns_cache.c)

    Every operation of the pointer-level cache, run on a heap that represents
    an abstract LRU list, terminates without a fault and ends in a heap that
    represents what the abstract operation gives. *)

From stdpp Require Import prelude list gmap.
From Stdlib Require Import ZArith Lia.
From S2P Require Import Prelude DnsName DnsParse DnsBuild DnsBloom DnsCache CacheLinks.

Local Open Scope Z_scope.

(** A node without any links. *)
Definition payload (n : cache_node) : cache_node := erase (unhash n).

(** The cache holds the entries of [s] in the nodes [ls], of which [lk] are
    linked into the LRU list. *)
Definition rep_on {F} `{FilterLaws F} (c : cache F) (s : lru) (ls lk : list loc) : Prop :=
  rep_list (c_heap c) ls (l_entries s) /\ links c lk /\
  (forall b, bucket_ok (c_heap c) (c_buckets c !! b) b) /\
  NoDup (entry_key <$> l_entries s) /\
  covers (c_filter c) (entry_hash <$> l_entries s) /\
  zlen (l_entries s) <= CACHE_CAPACITY /\ c_entry_count c = zlen (l_entries s) /\
  c_hits c = l_hits s /\ c_misses c = l_misses s /\
  c_evictions c = l_evictions s /\ c_expirations c = l_expirations s.

(** [rep] with its LRU order of addresses. *)
Definition rep_at {F} `{FilterLaws F} (c : cache F) (s : lru) (ls : list loc) : Prop :=
  rep_on c s ls ls.

(** The same abstract state with other entries. *)
Definition with_entries (es : list entry) (s : lru) : lru :=
  Lru es (l_hits s) (l_misses s) (l_evictions s) (l_expirations s).

(** What [evict_one] does to the filter when the cache is full. *)
Definition room_calls {F} `{Filter F} (t : nat) (now : Z) (s : lru) (f : F) : F :=
  if CACHE_CAPACITY <=? zlen (l_entries s) then
    match victim now (l_entries s) with
    | Some e => f_del t (entry_hash e) f
    | None => f
    end
  else f.

(** What the locked part of a lookup does to the filter. *)
Definition get_calls {F} `{Filter F} (t : nat) (now : Z) (name : list Z) (qtype : Z) (s : lru) (f : F) : F :=
  match find_key (key_of name qtype) (l_entries s) with
  | Some e => if e_expires e <=? now then f_del t (entry_hash e) f else f
  | None => f
  end.

(** What an insertion does to the filter. *)
Definition put_calls {F} `{Filter F} (mem : bool) (t : nat) (now : Z) (name : list Z) (qtype : Z) (s : lru) (f : F) : F :=
  match find_key (key_of name qtype) (l_entries s) with
  | Some _ => f
  | None =>
      let f1 := room_calls t now s f in
      if mem then f_add t (dns_key_hash name qtype) f1 else f1
  end.

Lemma rep_rep_at {F} `{FilterLaws F} (c : cache F) s : rep c s <-> exists ls, rep_at c s ls.
Proof. unfold rep, rep_at, rep_on, links. split; intros (ls & ?); exists ls; tauto. Qed.

(** ** Lemmas: what depends on which fields *)

Lemma fmap_lookup_rel {A B} (f : A -> B) (h h' : gmap loc A) x n :
  f <$> h' = f <$> h -> h !! x = Some n -> exists n', h' !! x = Some n' /\ f n' = f n.
Proof.
  intros E Hn. apply (f_equal (lookup x)) in E. rewrite !lookup_fmap, Hn in E. cbn in E.
  destruct (h' !! x) as [n'|]; [|done]. cbn in E. injection E as E. eauto.
Qed.

Lemma payload_erase (h h' : gmap loc cache_node) : erase <$> h' = erase <$> h -> payload <$> h' = payload <$> h.
Proof.
  intros E. apply (f_equal (fmap unhash)) in E. rewrite <- !map_fmap_compose in E.
  exact E.
Qed.

Lemma payload_unhash (h h' : gmap loc cache_node) : unhash <$> h' = unhash <$> h -> payload <$> h' = payload <$> h.
Proof. intros E. apply (f_equal (fmap erase)) in E. rewrite <- !map_fmap_compose in E. exact E. Qed.

Lemma payload_entry n n' : payload n' = payload n -> entry_of n' = entry_of n.
Proof. intros E. by apply (f_equal entry_of) in E. Qed.

Lemma payload_ok n n' : payload n' = payload n -> node_ok n -> node_ok n'.
Proof. intros E Hn. change (node_ok (payload n')). by rewrite E. Qed.

Lemma payload_bucket n n' : payload n' = payload n -> node_bucket n' = node_bucket n.
Proof. intros E. by apply (f_equal node_bucket) in E. Qed.

Lemma payload_hash n n' : payload n' = payload n -> node_hash n' = node_hash n.
Proof. intros E. by apply (f_equal node_hash) in E. Qed.

Lemma erase_hnext n n' : erase n' = erase n -> n_hnext n' = n_hnext n.
Proof. intros E. by apply (f_equal n_hnext) in E. Qed.

Lemma rep_list_payload h h' ls es : payload <$> h' = payload <$> h -> rep_list h ls es -> rep_list h' ls es.
Proof.
  intros E (Hnd & Hin & H2). split_and!; [done| |].
  - intros l. rewrite Hin. apply (f_equal (lookup l)) in E. rewrite !lookup_fmap in E.
    destruct (h' !! l), (h !! l); try done; split; intros [? ?]; by eexists.
  - eapply Forall2_impl; [exact H2|]. intros l e (n & Hn & <- & Hok).
    destruct (fmap_lookup_rel payload h h' l n E Hn) as (n' & Hn' & En).
    exists n'. split_and!; [done|by apply payload_entry|by eapply payload_ok].
Qed.

Lemma bucket_ok_erase h h' p b : erase <$> h' = erase <$> h -> bucket_ok h p b -> bucket_ok h' p b.
Proof.
  intros E (ch & Hc & Hnd & Hin). exists ch. split_and!; [|done|].
  - eapply hchain_frame; [|done]. intros x n _ Hn.
    destruct (fmap_lookup_rel erase h h' x n E Hn) as (n' & Hn' & En). exists n'. split; [done|by apply erase_hnext].
  - intros l. rewrite Hin. apply payload_erase in E. split; intros (n & Hn & Hb).
    + destruct (fmap_lookup_rel payload h h' l n E Hn) as (n' & Hn' & En).
      exists n'. split; [done|]. by rewrite (payload_bucket _ _ En).
    + destruct (fmap_lookup_rel payload h' h l n (eq_sym E) Hn) as (n' & Hn' & En).
      exists n'. split; [done|]. by rewrite (payload_bucket _ _ En).
Qed.

Lemma dll_unhash h h' ls : unhash <$> h' = unhash <$> h -> dll h ls -> dll h' ls.
Proof.
  intros E Hd pre l post El. destruct (Hd pre l post El) as (n & Hn & Hp & Hx).
  destruct (fmap_lookup_rel unhash h h' l n E Hn) as (n' & Hn' & En). exists n'. split; [done|].
  pose proof (f_equal n_prev En) as E1. pose proof (f_equal n_next En) as E2. cbn in E1, E2. by rewrite E1, E2.
Qed.

Lemma dll_delete h ls l : l ∉ ls -> dll h ls -> dll (delete l h) ls.
Proof.
  intros Hl Hd pre x post El. destruct (Hd pre x post El) as (n & Hn & ?). exists n.
  rewrite lookup_delete_ne; [done|]. intros ->. subst. set_solver.
Qed.

(** ** Lemmas: keys *)

Lemma node_matches_key name qtype n :
  node_matches name qtype n = true <-> entry_key (entry_of n) = key_of name qtype.
Proof.
  unfold node_matches, entry_key, key_of. cbn [entry_of e_name e_qtype]. rewrite andb_true_iff, Z.eqb_eq, dns_name_equal_iff. split.
  - by intros [-> ->].
  - intros [= E1 E2]. done.
Qed.

Lemma key_of_hash name qtype name' qtype' :
  key_of name qtype = key_of name' qtype' -> dns_key_hash name qtype = dns_key_hash name' qtype'.
Proof. intros [= E ->]. by apply key_hash_fold. Qed.

Lemma NoDup_middle {A} (l k : list A) x : NoDup (l ++ x :: k) -> (x ∉ l) /\ (x ∉ k) /\ NoDup (l ++ k).
Proof.
  intros Hnd. rewrite <- Permutation_middle in Hnd. apply NoDup_cons in Hnd as [Hx Hnd]. set_solver.
Qed.

Lemma find_key_split epre e epost : NoDup (entry_key <$> epre ++ e :: epost) ->
  find_key (entry_key e) (epre ++ e :: epost) = Some e /\
  remove_key (entry_key e) (epre ++ e :: epost) = epre ++ epost.
Proof.
  rewrite fmap_app, fmap_cons. intros (Hpre & Hpost & _)%NoDup_middle. split.
  - unfold find_key. assert (list_find (fun e' => entry_key e' = entry_key e) (epre ++ e :: epost) =
      Some (length epre, e)) as ->; [|done].
    apply list_find_Some. rewrite list_lookup_middle by done. split_and!; [done..|].
    intros j y Hy Hj Hk. rewrite lookup_app_l in Hy by done. apply Hpre. rewrite <- Hk.
    apply list_elem_of_fmap. exists y. split; [done|]. by eapply list_elem_of_lookup_2.
  - unfold remove_key. rewrite filter_app, filter_cons_False by (intros Hne; by apply Hne).
    rewrite !filter_id; [done|..]; intros y Hy Hk; rewrite <- Hk in *; [apply Hpost|apply Hpre];
      apply list_elem_of_fmap; eauto.
Qed.

Lemma find_key_None k es : (forall e, e ∈ es -> entry_key e <> k) -> find_key k es = None.
Proof.
  intros Hn. unfold find_key. destruct (list_find _ es) as [[i e]|] eqn:E; [|done].
  apply list_find_Some in E as (Hi & Hk & _). apply list_elem_of_lookup_2 in Hi. by apply Hn in Hi.
Qed.

(** ** Lemmas: finding *)

Lemma rep_list_split h ls es l : rep_list h ls es -> l ∈ ls ->
  exists pre post epre epost n, ls = pre ++ l :: post /\ es = epre ++ entry_of n :: epost /\
    h !! l = Some n /\ node_ok n /\ length pre = length epre.
Proof.
  intros (_ & _ & H2) Hl. apply list_elem_of_split in Hl as (pre & post & ->).
  apply Forall2_app_inv_l in H2 as (epre & es' & Hpre & H2 & ->).
  apply Forall2_cons_inv_l in H2 as (e & epost & (n & Hn & <- & Hok) & _ & ->).
  exists pre, post, epre, epost, n. split_and!; try done. by eapply Forall2_length.
Qed.

Lemma rep_list_entry h ls es e : rep_list h ls es -> e ∈ es -> exists l n, h !! l = Some n /\ entry_of n = e.
Proof.
  intros (_ & _ & H2) He. apply list_elem_of_lookup_1 in He as [i Hi].
  destruct (Forall2_lookup_r _ _ _ _ _ H2 Hi) as (l & _ & n & Hn & Ee & _). eauto.
Qed.

Section refine.
Context {F : Type} `{FilterLaws F}.
Implicit Types (c : cache F) (s : lru).

Lemma bucket_find_spec c ls es name qtype :
  rep_list (c_heap c) ls es -> (forall b, bucket_ok (c_heap c) (c_buckets c !! b) b) ->
  exists r, bucket_find (dns_key_hash name qtype) name qtype c = Ok r /\
  match r with
  | Some l => exists pre post epre epost n, ls = pre ++ l :: post /\ es = epre ++ entry_of n :: epost /\
      c_heap c !! l = Some n /\ node_ok n /\ length pre = length epre /\ entry_key (entry_of n) = key_of name qtype
  | None => find_key (key_of name qtype) es = None
  end.
Proof.
  intros Hrep Hb. set (b := bucket_of (dns_key_hash name qtype)). destruct (Hb b) as (ch & Hc & Hnd & Hin).
  destruct (find_loop_spec (chain_fuel c) name qtype (c_buckets c !! b) c ch Hc) as (r & Hr & Hm).
  { unfold chain_fuel. apply le_n_S, nodup_length_size; [done|]. intros l Hl. by eapply hchain_elem. }
  exists r. split; [exact Hr|]. destruct r as [l|].
  - destruct Hm as (Hl & n & Hn & Hk). apply node_matches_key in Hk.
    assert (l ∈ ls) as Hls by (apply Hrep; by eexists).
    destruct (rep_list_split _ _ _ _ Hrep Hls) as (pre & post & epre & epost & n' & -> & -> & Hn' & Hok & Hlen).
    assert (n' = n) as -> by congruence. by eauto 12.
  - apply find_key_None. intros e He Hk. destruct (rep_list_entry _ _ _ _ Hrep He) as (l & n & Hn & <-).
    assert (node_bucket n = b) as Hbn by (unfold node_bucket, node_hash, b; f_equal; by apply key_of_hash).
    assert (l ∈ ch) as Hl by (apply Hin; eauto). specialize (Hm l n Hl Hn).
    apply node_matches_key in Hk. congruence.
Qed.

(** ** Lemmas: destroying a node *)

(** [bucket_unlink] takes a node out of its chain. *)
Lemma bucket_unlink_spec c l n :
  c_heap c !! l = Some n -> (forall b, bucket_ok (c_heap c) (c_buckets c !! b) b) ->
  exists h bk, bucket_unlink l c = Ok (with_heap h (with_buckets bk c)) /\
    unhash <$> h = unhash <$> c_heap c /\
    forall b, exists ch, hchain h (bk !! b) ch /\ NoDup ch /\
      forall x, x ∈ ch <-> x <> l /\ exists n, c_heap c !! x = Some n /\ node_bucket n = b.
Proof.
  intros Hn Hb. unfold bucket_unlink. rewrite (load_Ok _ _ _ Hn), Ok_bind. fold (node_bucket n).
  destruct (Hb (node_bucket n)) as (ch & Hc & Hnd & Hin).
  assert (l ∈ ch) as Hl by (apply Hin; eauto).
  destruct (unlink_loop_spec (chain_fuel c) l (BucketHead (node_bucket n)) c (c_buckets c !! node_bucket n) ch)
    as (h & bk & Hrun & Hun & (p' & Hp' & Hc') & Hfr & Hbk); try done.
  { unfold chain_fuel. apply le_n_S, nodup_length_size; [done|]. intros x Hx. by eapply hchain_elem. }
  exists h, bk. split; [done|]. split; [done|]. intros b. destruct (decide (b = node_bucket n)) as [->|Hne].
  - exists (filter (fun x => x <> l) ch). cbn in Hp'. injection Hp' as ->. split_and!; [done|by apply NoDup_filter|].
    intros x. rewrite list_elem_of_filter, Hin. done.
  - destruct (Hb b) as (chb & Hcb & Hndb & Hinb). exists chb. rewrite Hbk by congruence. split_and!; [|done|].
    + eapply hchain_frame; [|done]. intros x nx Hx Hnx. rewrite Hfr; [eauto| |done].
      intros Hxc. apply Hin in Hxc as (nx' & Hnx' & Eb). apply Hinb in Hx as (nx'' & Hnx'' & Eb'). congruence.
    + intros x. rewrite Hinb. split; [|by intros [_ ?]]. intros (nx & Hnx & Eb). split; [|eauto].
      intros ->. congruence.
Qed.

Lemma Forall2_middle {A B} (R : A -> B -> Prop) pre l post epre e epost :
  length pre = length epre -> Forall2 R (pre ++ l :: post) (epre ++ e :: epost) ->
  Forall2 R (pre ++ post) (epre ++ epost).
Proof.
  intros Hlen H2. apply Forall2_app_inv in H2 as [H1 H2]; [|done]. apply Forall2_cons_1 in H2 as [_ H2].
  by apply Forall2_app.
Qed.

Lemma rep_list_delete h h' pre l post epre e epost :
  payload <$> h' = payload <$> h -> length pre = length epre ->
  rep_list h (pre ++ l :: post) (epre ++ e :: epost) ->
  rep_list (delete l h') (pre ++ post) (epre ++ epost).
Proof.
  intros E Hlen Hrep%(rep_list_payload _ _ _ _ E). destruct Hrep as (Hnd & Hin & H2).
  destruct (NoDup_middle _ _ _ Hnd) as (Hpre & Hpost & Hnd'). split_and!; [done| |].
  - intros x. destruct (decide (x = l)) as [->|Hne].
    + rewrite lookup_delete_eq. split; [set_solver|by intros [? ?]].
    + rewrite lookup_delete_ne by done. rewrite <- Hin. set_solver.
  - apply Forall2_middle in H2; [|done]. apply Forall2_same_length_lookup in H2 as [Hl H2].
    apply Forall2_same_length_lookup. split; [done|]. intros i x y Hx Hy.
    destruct (H2 i x y Hx Hy) as (nx & Hnx & ?). exists nx. rewrite lookup_delete_ne; [done|].
    intros ->. apply list_elem_of_lookup_2 in Hx. set_solver.
Qed.

(** The buckets after a node was taken out of its chain, out of the list, and
    freed. *)
Lemma buckets_delete h h1 h2 (bk : gmap Z loc) l :
  payload <$> h1 = payload <$> h -> erase <$> h2 = erase <$> h1 ->
  (forall b, exists ch, hchain h1 (bk !! b) ch /\ NoDup ch /\
      forall x, x ∈ ch <-> x <> l /\ exists n, h !! x = Some n /\ node_bucket n = b) ->
  forall b, bucket_ok (delete l h2) (bk !! b) b.
Proof.
  intros E1 E2 Hb b. destruct (Hb b) as (ch & Hc & Hnd & Hin). exists ch. split_and!; [|done|].
  - eapply hchain_frame; [|done]. intros x n Hx Hn. apply Hin in Hx as [Hne _].
    rewrite lookup_delete_ne by done. destruct (fmap_lookup_rel erase h1 h2 x n E2 Hn) as (n' & Hn' & En).
    exists n'. split; [done|by apply erase_hnext].
  - assert (payload <$> h2 = payload <$> h) as E by (rewrite <- E1; by apply payload_erase).
    intros x. rewrite Hin. split.
    + intros (Hne & n & Hn & Eb). destruct (fmap_lookup_rel payload h h2 x n E Hn) as (n' & Hn' & En).
      exists n'. rewrite lookup_delete_ne by done. split; [done|]. by rewrite (payload_bucket _ _ En).
    + intros (n & Hn & Eb). apply lookup_delete_Some in Hn as [Hne Hn]. split; [done|].
      destruct (fmap_lookup_rel payload h2 h x n (eq_sym E) Hn) as (n' & Hn' & En).
      exists n'. split; [done|]. by rewrite (payload_bucket _ _ En).
Qed.

Lemma covers_middle f epre e epost : covers f (entry_hash <$> epre ++ e :: epost) ->
  covers f (entry_hash e :: (entry_hash <$> epre ++ epost)).
Proof.
  intros Hc. eapply covers_perm; [|exact Hc]. rewrite !fmap_app, fmap_cons. apply Permutation_middle.
Qed.

(** [node_destroy] removes the node's entry. *)
Lemma node_destroy_rep t c s pre l post epre n epost :
  rep_at c s (pre ++ l :: post) -> l_entries s = epre ++ entry_of n :: epost ->
  c_heap c !! l = Some n -> length pre = length epre ->
  exists c', node_destroy t l c = Ok c' /\ rep_at c' (with_entries (epre ++ epost) s) (pre ++ post) /\
    c_filter c' = f_del t (node_hash n) (c_filter c).
Proof.
  intros (Hrep & (Hd & Hh & Ht) & Hb & Hk & Hf & Hcap & Hcnt & Hst) Hes Hn Hlen. rewrite Hes in *.
  unfold node_destroy. rewrite (load_Ok _ _ _ Hn), Ok_bind.
  destruct (bucket_unlink_spec (with_filter (f_del t (node_hash n) (c_filter c)) c) l n) as (h1 & bk & -> & Hun & Hb1); [done..|].
  rewrite Ok_bind. cbn in Hun, Hb1.
  destruct (lru_unlink_spec (with_heap h1 (with_buckets bk (with_filter (f_del t (node_hash n) (c_filter c)) c))) pre l post)
    as (h2 & p & q & -> & Her & Hd2 & Hh2 & Ht2).
  { apply Hrep. }
  { split_and!; [by eapply dll_unhash|done..]. }
  rewrite Ok_bind. cbn in Her, Hd2, Hh2, Ht2.
  assert (payload <$> h2 = payload <$> c_heap c) as Hpay.
  { transitivity (payload <$> h1); [by apply payload_erase|by apply payload_unhash]. }
  destruct (fmap_lookup_rel payload (c_heap c) h2 l n Hpay Hn) as (n2 & Hn2 & _).
  unfold free. erewrite load_Ok by exact Hn2. rewrite !Ok_bind. eexists. split; [done|]. split; [|done].
  destruct (NoDup_middle _ _ _ (proj1 Hrep)) as (Hl1 & Hl2 & _).
  split_and!; cbn.
  - by eapply rep_list_delete.
  - split_and!; cbn; [|done..]. apply dll_delete; [set_solver|done].
  - eapply buckets_delete; [by apply payload_unhash|done|done].
  - rewrite fmap_app, fmap_cons in Hk. apply NoDup_middle in Hk as (_ & _ & Hk). by rewrite fmap_app.
  - apply covers_del. by apply (covers_middle _ epre (entry_of n)).
  - zl.
  - rewrite Hcnt. unfold CACHE_CAPACITY, u64 in *. rewrite Z.mod_small; zl.
  - apply Hst.
  - apply Hst.
  - apply Hst.
  - apply Hst.
Qed.

(** ** Lemmas: moving a node to the front *)

Lemma rep_list_front h pre l post epre e epost : length pre = length epre ->
  rep_list h (pre ++ l :: post) (epre ++ e :: epost) -> rep_list h (l :: pre ++ post) (e :: epre ++ epost).
Proof.
  intros Hlen (Hnd & Hin & H2). split_and!.
  - by rewrite Permutation_middle.
  - intros x. rewrite <- Hin. set_solver.
  - constructor; [|by eapply Forall2_middle]. apply Forall2_app_inv in H2 as [_ H2]; [|done].
    by apply Forall2_cons_1 in H2 as [? _].
Qed.

Lemma unlink_detached c s pre l post epre e epost :
  rep_at c s (pre ++ l :: post) -> l_entries s = epre ++ e :: epost -> length pre = length epre ->
  exists c', lru_unlink l c = Ok c' /\
    rep_on c' (with_entries (e :: epre ++ epost) s) (l :: pre ++ post) (pre ++ post) /\ c_filter c' = c_filter c.
Proof.
  intros (Hrep & Hlk & Hb & Hk & Hf & Hcap & Hcnt & Hst) Hes Hlen. rewrite Hes in *.
  destruct (lru_unlink_spec c pre l post (proj1 Hrep) Hlk) as (h & p & q & -> & Her & Hlk').
  eexists. split; [done|]. split; [|done]. split_and!; cbn; try apply Hst.
  - eapply rep_list_payload; [by apply payload_erase|]. by apply rep_list_front.
  - done.
  - intros b. by eapply bucket_ok_erase.
  - rewrite fmap_app, fmap_cons in Hk. rewrite fmap_app. by rewrite Permutation_middle.
  - by apply covers_middle.
  - zl.
  - rewrite Hcnt. zl.
Qed.

Lemma push_attach c s l ls : rep_on c s (l :: ls) ls ->
  exists c', lru_push_front l c = Ok c' /\ rep_at c' s (l :: ls) /\ c_filter c' = c_filter c.
Proof.
  intros (Hrep & Hlk & Hb & Hk & Hf & Hcap & Hcnt & Hst). pose proof Hrep as (Hnd & Hin & _).
  apply NoDup_cons in Hnd as [Hl Hnd].
  destruct (lru_push_front_spec c ls l Hnd Hl) as (h & p & q & -> & Her & Hlk'); [apply Hin; set_solver|done|].
  eexists. split; [done|]. split; [|done]. split_and!; cbn; try done; try apply Hst.
  - eapply rep_list_payload; [by apply payload_erase|done].
  - intros b. by eapply bucket_ok_erase.
Qed.

(** ** Lemmas: new contents *)

Lemma hchain_alter_data ans n rc ex l h p ch :
  hchain h p ch -> hchain (alter (set_data ans n rc ex) l h) p ch.
Proof.
  apply hchain_frame. intros x nx _ Hx. destruct (decide (x = l)) as [->|Hne].
  - rewrite lookup_alter_eq, Hx. cbn. eauto.
  - rewrite lookup_alter_ne by done. eauto.
Qed.

Lemma alter_data_bucket ans n rc ex l (h : gmap loc cache_node) x b :
  (exists nx, alter (set_data ans n rc ex) l h !! x = Some nx /\ node_bucket nx = b) <->
  (exists nx, h !! x = Some nx /\ node_bucket nx = b).
Proof.
  destruct (decide (x = l)) as [->|Hne]; [|by rewrite lookup_alter_ne].
  rewrite lookup_alter_eq. destruct (h !! l) as [nl|]; cbn; split; intros (nx & E & Hb); try done;
    injection E as <-; eauto.
Qed.

Lemma dll_alter_data ans n rc ex l h ls : dll h ls -> dll (alter (set_data ans n rc ex) l h) ls.
Proof.
  intros Hd pre x post E. destruct (Hd pre x post E) as (nx & Hx & ?). destruct (decide (x = l)) as [->|Hne].
  - rewrite lookup_alter_eq, Hx. cbn. eauto.
  - rewrite lookup_alter_ne by done. eauto.
Qed.

Lemma set_data_detached c s l ls lk e0 es ans n rc ex :
  rep_on c s (l :: ls) lk -> l_entries s = e0 :: es ->
  zlen ans = DNS_MAX_ANSWERS -> 0 <= n <= DNS_MAX_ANSWERS ->
  exists c', modify (set_data ans n rc ex) l c = Ok c' /\
    rep_on c' (with_entries (Entry (e_name e0) (e_qtype e0) (ztake n ans) rc ex :: es) s) (l :: ls) lk /\ c_filter c' = c_filter c.
Proof.
  intros (Hrep & (Hd & Hh & Ht) & Hb & Hk & Hf & Hcap & Hcnt & Hst) Hes Hans Hn. rewrite Hes in *.
  destruct Hrep as (Hnd & Hin & H2). apply Forall2_cons_1 in H2 as [(nl & Hnl & <- & Hok) H2].
  rewrite modify_Ok by by eexists. eexists. split; [done|]. split; [|done]. split_and!; cbn; try done; try apply Hst.
  - split_and!; [done| |].
    + intros x. by rewrite lookup_alter_is_Some.
    + constructor.
      * exists (set_data ans n rc ex nl). rewrite lookup_alter_eq, Hnl. split_and!; [done..|].
        destruct Hok as (Hnm & _). done.
      * apply Forall2_same_length_lookup in H2 as [Hl H2].
        apply Forall2_same_length_lookup. split; [done|]. intros i x y Hx Hy.
        destruct (H2 i x y Hx Hy) as (nx & Hnx & ?). exists nx. rewrite lookup_alter_ne; [done|].
        intros ->. apply list_elem_of_lookup_2 in Hx. apply NoDup_cons in Hnd as [Hnd _]. done.
  - split_and!; cbn; [by apply dll_alter_data|done..].
  - intros b. destruct (Hb b) as (ch & Hc & Hndc & Hinc). exists ch. split_and!; [by apply hchain_alter_data|done|].
    intros x. by rewrite alter_data_bucket.
Qed.

Lemma rep_list_insert (h : gmap loc cache_node) l n ls es : h !! l = None -> node_ok n -> rep_list h ls es ->
  rep_list (<[l := n]> h) (l :: ls) (entry_of n :: es).
Proof.
  intros Hl Hok (Hnd & Hin & H2). assert (l ∉ ls) as Hls.
  { intros [x Hx]%Hin. congruence. }
  split_and!.
  - by constructor.
  - intros x. rewrite elem_of_cons, Hin. destruct (decide (x = l)) as [->|Hne].
    + rewrite lookup_insert_eq. split; [by eexists|by left].
    + rewrite lookup_insert_ne by done. naive_solver.
  - constructor; [exists n; by rewrite lookup_insert_eq|].
    apply Forall2_same_length_lookup in H2 as [Hlen H2].
    apply Forall2_same_length_lookup. split; [done|]. intros i x y Hx Hy.
    destruct (H2 i x y Hx Hy) as (nx & Hnx & ?). exists nx. rewrite lookup_insert_ne; [done|].
    intros ->. apply list_elem_of_lookup_2 in Hx. done.
Qed.

(** A new node at the head of its bucket's chain. *)
Lemma bucket_ok_insert (h : gmap loc cache_node) (bk : gmap Z loc) l n b0 : h !! l = None -> node_bucket n = b0 -> n_hnext n = bk !! b0 ->
  (forall b, bucket_ok h (bk !! b) b) -> forall b, bucket_ok (<[l := n]> h) (<[b0 := l]> bk !! b) b.
Proof.
  intros Hl Hb0 Hnx Hb b. destruct (Hb b) as (ch & Hc & Hnd & Hin).
  assert (l ∉ ch) as Hlc. { intros (x & Hx & _)%Hin. congruence. }
  assert (hchain (<[l := n]> h) (bk !! b) ch) as Hc'.
  { eapply hchain_frame; [|done]. intros x nx Hx Hnx'. rewrite lookup_insert_ne by (intros ->; done). eauto. }
  destruct (decide (b = b0)) as [->|Hne].
  - exists (l :: ch). rewrite lookup_insert_eq. split_and!.
    + split; [done|]. exists n. rewrite lookup_insert_eq. split; [done|]. by rewrite Hnx.
    + by constructor.
    + intros x. rewrite elem_of_cons, Hin. destruct (decide (x = l)) as [->|Hx].
      * rewrite lookup_insert_eq. split; [eauto|by left].
      * rewrite lookup_insert_ne by done. naive_solver.
  - exists ch. rewrite lookup_insert_ne by done. split_and!; [done..|].
    intros x. rewrite Hin. destruct (decide (x = l)) as [->|Hx].
    + rewrite lookup_insert_eq, Hl. split; [by intros (? & ? & _)|]. intros (nx & [= <-] & E). congruence.
    + by rewrite lookup_insert_ne.
Qed.

Lemma dll_insert (h : gmap loc cache_node) l n ls : l ∉ ls -> dll h ls -> dll (<[l := n]> h) ls.
Proof.
  intros Hl Hd pre x post E. destruct (Hd pre x post E) as (nx & Hx & ?). exists nx.
  rewrite lookup_insert_ne; [done|]. intros ->. subst. set_solver.
Qed.

Lemma new_node_ok name qtype v : strlen name <= DNS_MAX_NAME -> node_ok (set_hnext v (new_node (cstr name) qtype)).
Proof.
  intros Hs. unfold node_ok. cbn. split_and!; [|done|lia|unfold DNS_MAX_ANSWERS; lia].
  unfold strlen in *. by rewrite cstr_cstr.
Qed.

Lemma insert_detached t c s ls l name qtype :
  rep_at c s ls -> c_heap c !! l = None -> find_key (key_of name qtype) (l_entries s) = None ->
  strlen name <= DNS_MAX_NAME -> zlen (l_entries s) < CACHE_CAPACITY ->
  exists c', insert_node t l (dns_key_hash name qtype) name qtype c = Ok c' /\
    rep_on c' (with_entries (Entry (cstr name) qtype [] 0 0 :: l_entries s) s) (l :: ls) ls /\
    c_filter c' = f_add t (dns_key_hash name qtype) (c_filter c).
Proof.
  intros (Hrep & (Hd & Hh & Ht) & Hb & Hk & Hf & Hcap & Hcnt & Hst) Hl Hfind Hs Hroom. unfold insert_node.
  unfold NAME_CAP. rewrite snprintf_s_fits by lia. unfold modify. cbn. unfold load. cbn.
  rewrite lookup_insert_eq, Ok_bind. cbn. rewrite insert_insert_eq. eexists. split; [done|]. split; [|done].
  set (b0 := bucket_of (dns_key_hash name qtype)). set (n := set_hnext (c_buckets c !! b0) (new_node (cstr name) qtype)).
  assert (l ∉ ls) as Hls. { intros [x Hx]%(proj1 (proj2 Hrep)). congruence. }
  assert (node_hash n = dns_key_hash name qtype) as Hhash.
  { apply key_hash_fold. apply fold_case_cstr. }
  split_and!; cbn; try apply Hst.
  - change (Entry (cstr name) qtype [] 0 0) with (entry_of n). apply rep_list_insert; [done|by apply new_node_ok|done].
  - split_and!; cbn; [by apply dll_insert|done..].
  - apply bucket_ok_insert; [done|unfold node_bucket, b0; by rewrite Hhash|done|done].
  - constructor; [|done]. intros (e & He & Hin)%list_elem_of_fmap.
    assert (entry_key e = key_of name qtype) as Hke.
    { rewrite <- He. unfold entry_key, key_of. cbn [e_name e_qtype]. by rewrite fold_case_cstr. }
    apply list_elem_of_split in Hin as (e1 & e2 & E). rewrite E in Hfind, Hk.
    destruct (find_key_split e1 e e2 Hk) as [Hfk _]. rewrite Hke in Hfk. congruence.
  - assert (entry_hash (Entry (cstr name) qtype [] 0 0) = dns_key_hash name qtype) as -> by exact Hhash.
    by apply covers_add.
  - rewrite zlen_cons. lia.
  - rewrite Hcnt, zlen_cons. pose proof (zlen_nonneg (l_entries s)). unfold CACHE_CAPACITY, u64 in *.
    rewrite Z.mod_small; lia.
Qed.

(** ** Lemmas: eviction *)

(** The scan over the last [k] nodes of [pre]. *)
Lemma scan_loop_spec k now v c ls es pre post epre :
  rep_list (c_heap c) ls es -> dll (c_heap c) ls -> ls = pre ++ post -> epre = take (length pre) es ->
  exists r, scan_loop k now (last pre) v c = Ok r /\
  match list_find (fun e => e_expires e <= now) (take k (reverse epre)) with
  | Some (_, e) => exists l, r = Some l /\ l ∈ ls /\ exists n, c_heap c !! l = Some n /\ entry_of n = e
  | None => r = v
  end.
Proof.
  intros Hrep Hd. revert pre post epre. induction k as [|k IH]; intros pre post epre Els Ees; cbn [scan_loop].
  { exists v. by destruct (last pre). }
  destruct (last pre) as [l|] eqn:El; cycle 1.
  { apply last_None in El as ->. subst epre. cbn. by exists v. }
  apply last_Some in El as [pre0 ->]. rewrite <- app_assoc in Els. cbn in Els.
  destruct (Hd pre0 l post Els) as (n & Hn & Hp & _). rewrite (load_Ok _ _ _ Hn), Ok_bind.
  assert (epre = take (length pre0) es ++ [entry_of n]) as ->.
  { destruct Hrep as (_ & _ & H2). rewrite Els in H2. apply Forall2_app_inv_l in H2 as (e1 & e2 & H1 & H2 & ->).
    apply Forall2_cons_inv_l in H2 as (e & e3 & (n' & Hn' & <- & _) & _ & ->). apply Forall2_length in H1.
    assert (n' = n) as -> by congruence. subst epre. rewrite length_app. cbn.
    rewrite H1, take_app_length, take_app_add. done. }
  rewrite reverse_snoc. cbn [firstn list_find]. change (e_expires (entry_of n)) with (n_expires n).
  destruct (Z.leb_spec (n_expires n) now) as [Hx|Hx].
  - rewrite decide_True by done. eexists. split; [done|]. exists l. split_and!; [done| |eauto]. subst. set_solver.
  - rewrite decide_False by lia. rewrite Hp.
    destruct (IH pre0 (l :: post) (take (length pre0) es) Els eq_refl) as (r & -> & Hr). exists r. split; [done|].
    destruct (list_find (fun e => e_expires e <= now) (take k (reverse (take (length pre0) es)))) as [[i e]|]; exact Hr.
Qed.

(** [evict_one] removes the victim. *)
Lemma evict_one_rep t now c s ls : rep_at c s ls -> l_entries s <> [] ->
  exists c' ls' e, evict_one t now c = Ok c' /\ victim now (l_entries s) = Some e /\ e ∈ l_entries s /\
    rep_at c' (Lru (remove_key (entry_key e) (l_entries s)) (l_hits s) (l_misses s)
                (u64 (l_evictions s + 1)) (l_expirations s)) ls' /\
    c_filter c' = f_del t (entry_hash e) (c_filter c).
Proof.
  intros Hrep Hne. pose proof Hrep as (Hl & (Hd & Hh & Ht) & _ & Hk & _). unfold evict_one. rewrite Ht.
  assert (length (l_entries s) = length ls) as Hlen by (symmetry; eapply Forall2_length, Hl).
  destruct (scan_loop_spec 8 now (last ls) c ls (l_entries s) ls [] (l_entries s)) as (r & -> & Hr); [done|done|by rewrite app_nil_r|by rewrite <- Hlen, firstn_all|].
  rewrite Ok_bind.
  assert (exists l n, r = Some l /\ l ∈ ls /\ c_heap c !! l = Some n /\ victim now (l_entries s) = Some (entry_of n)) as (l & n & -> & Hin & Hn & Hv).
  { unfold victim. destruct (list_find _ _) as [[i e]|].
    - destruct Hr as (l & -> & Hin & n & Hn & <-). cbn. eauto 10.
    - subst r. cbn. destruct (last (l_entries s)) as [e|] eqn:Ee; [|by apply last_None in Ee].
      apply last_Some in Ee as [es' Ees]. destruct Hl as (_ & _ & H2). rewrite Ees in H2.
      apply Forall2_app_inv_r in H2 as (l1 & l2 & _ & H2 & Els).
      apply Forall2_cons_inv_r in H2 as (l & l3 & (n & Hn & <- & _) & H3 & ->). apply Forall2_nil_inv_r in H3 as ->.
      exists l, n. rewrite Els, last_snoc. split_and!; [done|set_solver|done|done]. }
  destruct (rep_list_split _ _ _ _ Hl Hin) as (pre & post & epre & epost & n' & Els & Ees & Hn' & _ & Hlen').
  assert (n' = n) as -> by congruence. subst ls.
  destruct (node_destroy_rep t c s pre l post epre n epost Hrep Ees Hn Hlen') as (c' & -> & Hrep' & Hcalls).
  rewrite Ok_bind. exists (evicted c'), (pre ++ post), (entry_of n). split_and!; [done|done|rewrite Ees; set_solver| |exact Hcalls].
  destruct (find_key_split epre (entry_of n) epost) as [_ Hrm]; [by rewrite <- Ees|]. rewrite Ees, Hrm.
  destruct Hrep' as (R1 & R2 & R3 & R4 & R5 & R6 & R7 & R8 & R9 & R10 & R11).
  split_and!; try done. cbn in *. by rewrite R10.
Qed.

Lemma zlen_remove_key e es : e ∈ es -> zlen (remove_key (entry_key e) es) < zlen es.
Proof.
  intros (e1 & e2 & ->)%list_elem_of_split. unfold remove_key.
  rewrite filter_app, filter_cons_False by (intros Hne; by apply Hne). unfold zlen. rewrite !length_app. cbn.
  pose proof (length_filter (fun e' => entry_key e' <> entry_key e) e1).
  pose proof (length_filter (fun e' => entry_key e' <> entry_key e) e2). lia.
Qed.

Lemma size_heap h ls es : rep_list h ls es -> size h = length es.
Proof.
  intros (Hnd & Hin & H2). rewrite <- (Forall2_length _ _ _ H2), <- size_dom, <- (size_list_to_set (C := gset loc) ls) by done.
  apply set_size_proper. intros l. rewrite elem_of_dom, elem_of_list_to_set. by rewrite Hin.
Qed.

(** One eviction is enough, and the loop ends. *)
Lemma evict_loop_rep t now c s ls : rep_at c s ls ->
  exists c' ls', evict_loop (chain_fuel c) t now c = Ok c' /\ rep_at c' (lru_make_room now s) ls' /\
    zlen (l_entries (lru_make_room now s)) < CACHE_CAPACITY /\ c_filter c' = room_calls t now s (c_filter c).
Proof.
  intros Hrep. pose proof Hrep as (Hl & _ & _ & _ & _ & Hcap & Hcnt & _). unfold lru_make_room, room_calls, chain_fuel.
  rewrite (size_heap _ _ _ Hl). cbn [evict_loop]. rewrite Hcnt. destruct (Z.leb_spec CACHE_CAPACITY (zlen (l_entries s))) as [Hge|Hlt].
  - assert (l_entries s <> []) as Hne by (intros E; rewrite E in Hge; done).
    destruct (evict_one_rep t now c s ls Hrep Hne) as (c' & ls' & e & -> & -> & Hin & Hrep' & Hcalls).
    rewrite Ok_bind. exists c', ls'. cbn [l_entries]. pose proof (zlen_remove_key e _ Hin).
    split_and!; [|done|lia|done]. destruct (length (l_entries s)) eqn:E; [by destruct (l_entries s)|].
    cbn [evict_loop]. destruct Hrep' as (_ & _ & _ & _ & _ & _ & Hcnt' & _). rewrite Hcnt'. cbn [l_entries].
    by rewrite (proj2 (Z.leb_gt _ _)) by lia.
  - exists c, ls. by split_and!.
Qed.

(** ** Lemmas: the public operations *)

(** Counters and the filter's own state are no part of the links. *)
Lemma rep_on_counters c s ls lk f h m v x :
  rep_on c s ls lk -> covers f (entry_hash <$> l_entries s) ->
  rep_on (Cache (c_heap c) (c_buckets c) (c_lru_head c) (c_lru_tail c) (c_entry_count c) h m v x f)
    (Lru (l_entries s) h m v x) ls lk.
Proof. intros (R1 & R2 & R3 & R4 & R5 & R6 & R7 & _) Hf. by split_and!. Qed.

Lemma take_min {A} (ans : list A) nans cap : 0 <= cap -> 0 <= nans ->
  ztake (if nans <? cap then nans else cap) ans = ztake cap (ztake nans ans).
Proof.
  intros Hc Hn. unfold ztake. rewrite take_take. f_equal. case_test; lia.
Qed.

Lemma get_hit_rep c s ls l n pre post epre epost :
  rep_at c s ls -> ls = pre ++ l :: post -> l_entries s = epre ++ entry_of n :: epost ->
  c_heap c !! l = Some n -> length pre = length epre ->
  exists c', (c1 ← lru_unlink l c; c2 ← lru_push_front l c1; Ok (hit c2)) = Ok c' /\
    rep_at c' (Lru (entry_of n :: epre ++ epost) (u64 (l_hits s + 1)) (l_misses s) (l_evictions s) (l_expirations s))
      (l :: pre ++ post) /\ c_filter c' = c_filter c.
Proof.
  intros Hrep -> Hes Hn Hlen.
  destruct (unlink_detached c s pre l post epre (entry_of n) epost Hrep Hes Hlen) as (c1 & -> & H1 & F1). rewrite Ok_bind.
  destruct (push_attach _ _ _ _ H1) as (c2 & -> & H2 & F2). rewrite Ok_bind. eexists. split; [done|]. split; [|cbn; congruence].
  pose proof H2 as (R1 & R2 & R3 & R4 & R5 & R6 & R7 & R8 & R9 & R10 & R11). cbn in *.
  split_and!; try done. cbn. by rewrite R8.
Qed.

(** The filter's answer does not change what the cache represents. *)
Lemma rep_at_filter c s ls f : rep_at c s ls -> covers f (entry_hash <$> l_entries s) -> rep_at (with_filter f c) s ls.
Proof. intros (R1 & R2 & R3 & R4 & R5 & R6 & R7 & R8 & R9 & R10 & R11) Hf. by split_and!. Qed.

Lemma rep_at_miss c s ls : rep_at c s ls ->
  rep_at (miss c) (Lru (l_entries s) (l_hits s) (u64 (l_misses s + 1)) (l_evictions s) (l_expirations s)) ls.
Proof.
  intros (R1 & R2 & R3 & R4 & R5 & R6 & R7 & R8 & R9 & R10 & R11). split_and!; try done. cbn. by rewrite R9.
Qed.

Lemma find_key_elem k es e : find_key k es = Some e -> e ∈ es /\ entry_key e = k.
Proof.
  unfold find_key. destruct (list_find _ es) as [[i e']|] eqn:E; cbn; [|done]. intros [= ->].
  apply list_find_Some in E as (Hi & Hk & _). split; [by eapply list_elem_of_lookup_2|done].
Qed.

Lemma get_rep_calls t now name qtype cap c s : rep c s -> 0 <= cap ->
  exists c', dns_cache_get t now name qtype cap c = Ok (c', (lru_get now name qtype cap s).2) /\
    rep c' (lru_get now name qtype cap s).1 /\
    c_filter c' = get_calls t now name qtype s (f_maybe t (dns_key_hash name qtype) (c_filter c)).1.
Proof.
  rewrite rep_rep_at. intros [ls Hrep] Hcap. unfold dns_cache_get, get_calls.
  pose proof Hrep as (_ & _ & _ & Hk & Hf & _).
  destruct (f_maybe t (dns_key_hash name qtype) (c_filter c)) as [f maybe] eqn:Em.
  assert (rep_at (with_filter f c) s ls) as Hrep0.
  { apply rep_at_filter; [done|]. pose proof (covers_maybe _ t (dns_key_hash name qtype) _ Hf) as Hm. by rewrite Em in Hm. }
  destruct s as [es h m v x]. cbn [l_entries] in *. unfold lru_get. destruct maybe; cbn [negb]; cycle 1.
  { destruct (find_key (key_of name qtype) es) as [e|] eqn:Ef.
    - exfalso. apply find_key_elem in Ef as [Hin Hke].
      pose proof (maybe_no_false_negative _ t (dns_key_hash name qtype) _ Hf) as Hn. rewrite Em in Hn.
      cbn in Hn. assert (false = true); [|done]. apply Hn. apply list_elem_of_fmap. exists e. split; [|done].
      symmetry. by apply key_of_hash.
    - eexists. split; [done|]. split; [|done]. apply rep_rep_at. exists ls. by apply rep_at_miss in Hrep0. }
  pose proof Hrep0 as (Hl & _ & Hb & _).
  destruct (bucket_find_spec (with_filter f c) ls es name qtype Hl Hb) as (r & -> & Hr). rewrite Ok_bind.
  destruct r as [l|]; cycle 1.
  { rewrite Hr. eexists. split; [done|]. split; [|done]. apply rep_rep_at. exists ls. by apply rep_at_miss in Hrep0. }
  destruct Hr as (pre & post & epre & epost & n & -> & -> & Hn & Hok & Hlen & Hkey).
  destruct (find_key_split epre (entry_of n) epost Hk) as [Hfind Hrem]. rewrite Hkey in Hfind, Hrem.
  rewrite Hfind, Hrem, (load_Ok _ _ _ Hn), Ok_bind. change (e_expires (entry_of n)) with (n_expires n).
  destruct (n_expires n <=? now).
  - destruct (node_destroy_rep t _ _ pre l post epre n epost Hrep0 eq_refl Hn Hlen) as (c' & -> & Hrep' & Hcalls).
    rewrite Ok_bind. eexists. split; [done|]. split; [|exact Hcalls]. apply rep_rep_at. exists (pre ++ post).
    pose proof Hrep' as (R1 & R2 & R3 & R4 & R5 & R6 & R7 & R8 & R9 & R10 & R11). cbn in *.
    split_and!; try done; cbn; congruence.
  - destruct (get_hit_rep _ _ _ l n pre post epre epost Hrep0 eq_refl eq_refl Hn Hlen) as (c' & Hrun & Hrep' & Hcalls).
    exists c'. cbn [fst snd]. split; [|split; [apply rep_rep_at; by exists (l :: pre ++ post)|exact Hcalls]].
    apply bind_Ok in Hrun as (c1 & -> & Hrun). apply bind_Ok in Hrun as (c2 & Hp & [= <-]). rewrite Ok_bind, Hp, Ok_bind.
    unfold with_ttl. cbn. by rewrite take_min by (done || apply Hok).
Qed.

Lemma put_attach l ls c1 s1 e0 es ans n rcode ex : rep_on c1 s1 (l :: ls) ls -> l_entries s1 = e0 :: es ->
  0 <= n <= DNS_MAX_ANSWERS -> n <= zlen ans ->
  exists c', (old ← load c1 l;
    c2 ← modify (set_data (ztake n ans ++ zdrop n (n_ans old)) n rcode ex) l c1;
    lru_push_front l c2) = Ok c' /\
  rep_at c' (with_entries (Entry (e_name e0) (e_qtype e0) (ztake n ans) rcode ex :: es) s1) (l :: ls) /\ c_filter c' = c_filter c1.
Proof.
  intros Hrep Hes Hn Hans. pose proof Hrep as ((_ & _ & H2) & _). rewrite Hes in H2.
  apply Forall2_cons_1 in H2 as [(nl & Hnl & _ & Hok) _]. rewrite (load_Ok _ _ _ Hnl), Ok_bind.
  destruct Hok as (_ & Hlen & _). assert (zlen (ztake n ans) = n) as Htk by (apply zlen_ztake; lia).
  destruct (set_data_detached c1 s1 l ls ls e0 es (ztake n ans ++ zdrop n (n_ans nl)) n rcode ex) as (c2 & -> & H2 & F2); try done.
  { rewrite zlen_app, Htk, zlen_zdrop; lia. }
  rewrite Ok_bind, ztake_app_eq in * by done. rewrite <- F2. by apply push_attach.
Qed.

Lemma find_key_make_room now s k : find_key k (l_entries s) = None -> find_key k (l_entries (lru_make_room now s)) = None.
Proof.
  unfold lru_make_room. intros Hf. case_test; [|done]. destruct (victim now (l_entries s)) as [e|]; [|done]. cbn.
  apply find_key_None. intros e' He'. unfold remove_key in He'. apply list_elem_of_filter in He' as [_ He']. intros Hk.
  unfold find_key in Hf. destruct (list_find _ (l_entries s)) as [|] eqn:E; [done|].
  apply list_find_None in E. rewrite Forall_forall in E. by apply (E e').
Qed.

Lemma put_rep_calls calloc t now name qtype ans n rcode c s :
  rep c s -> strlen name <= DNS_MAX_NAME -> 0 <= n -> Z.min n DNS_MAX_ANSWERS <= zlen ans ->
  (forall X l, calloc X = Some l -> l ∉ X) ->
  exists c' mem, dns_cache_put calloc t now name qtype ans n rcode c = Ok c' /\
    rep c' (lru_put mem now name qtype (ztake n ans) rcode s) /\
    (mem = false -> exists X, calloc X = None) /\
    c_filter c' = put_calls mem t now name qtype s (c_filter c).
Proof.
  rewrite rep_rep_at. intros [ls Hrep] Hname Hn Hans Hcalloc. unfold dns_cache_put, lru_put, put_calls.
  set (k := if DNS_MAX_ANSWERS <? n then DNS_MAX_ANSWERS else n).
  assert (0 <= k <= DNS_MAX_ANSWERS /\ k <= zlen ans) as [Hk Hka].
  { unfold k, DNS_MAX_ANSWERS in *. case_test; lia. }
  assert (ztake DNS_MAX_ANSWERS (ztake n ans) = ztake k ans) as ->.
  { unfold ztake, k, DNS_MAX_ANSWERS in *. rewrite take_take. f_equal. case_test; lia. }
  rewrite (proj2 (Z.ltb_ge _ _)) by lia. pose proof Hrep as (Hl & _ & Hb & Hkeys & _).
  destruct (bucket_find_spec c ls (l_entries s) name qtype Hl Hb) as (r & -> & Hr). rewrite Ok_bind.
  destruct r as [l|].
  - destruct Hr as (pre & post & epre & epost & nl & -> & Hes & Hnl & Hok & Hlen & Hkey).
    rewrite Hes in Hkeys. destruct (find_key_split _ _ _ Hkeys) as [Hfind Hrem]. rewrite Hkey in Hfind, Hrem.
    rewrite Hes, Hfind, Hrem.
    destruct (unlink_detached c s pre l post epre (entry_of nl) epost Hrep Hes Hlen) as (c1 & -> & H1 & F1). rewrite !Ok_bind.
    destruct (put_attach l _ c1 _ _ _ ans k rcode (now + put_ttl (ztake k ans)) H1 eq_refl) as (c' & -> & H2 & F2); [lia..|].
    exists c', true. split_and!; [done| |done|congruence]. apply rep_rep_at. by exists (l :: pre ++ post).
  - rewrite Hr. destruct (evict_loop_rep t now c s ls Hrep) as (c1 & ls1 & -> & Hrep1 & Hroom & F1). rewrite Ok_bind.
    destruct (calloc (dom (c_heap c1))) as [l|] eqn:Ec; cycle 1.
    { exists c1, false. split_and!; [done|apply rep_rep_at; by exists ls1|by eauto|done]. }
    apply Hcalloc, not_elem_of_dom in Ec.
    destruct (insert_detached t c1 (lru_make_room now s) ls1 l name qtype Hrep1 Ec) as (c2 & -> & H2 & F2);
      [by apply find_key_make_room|done|done|]. rewrite !Ok_bind.
    destruct (put_attach l _ c2 _ _ _ ans k rcode (now + put_ttl (ztake k ans)) H2 eq_refl) as (c' & -> & H3 & F3); [lia..|].
    exists c', true. split_and!; [done| |done|congruence]. apply rep_rep_at. by exists (l :: ls1).
Qed.

Lemma get_rep t now name qtype cap c s : rep c s -> 0 <= cap ->
  exists c', dns_cache_get t now name qtype cap c = Ok (c', (lru_get now name qtype cap s).2) /\
    rep c' (lru_get now name qtype cap s).1.
Proof. intros Hrep Hcap. destruct (get_rep_calls t now name qtype cap c s Hrep Hcap) as (c' & ? & ? & _). eauto. Qed.

Lemma put_rep_mem calloc t now name qtype ans n rcode c s :
  rep c s -> strlen name <= DNS_MAX_NAME -> 0 <= n -> Z.min n DNS_MAX_ANSWERS <= zlen ans ->
  (forall X l, calloc X = Some l -> l ∉ X) ->
  exists c' mem, dns_cache_put calloc t now name qtype ans n rcode c = Ok c' /\
    rep c' (lru_put mem now name qtype (ztake n ans) rcode s) /\ (mem = false -> exists X, calloc X = None).
Proof.
  intros Hrep Hname Hn Hans Hc.
  destruct (put_rep_calls calloc t now name qtype ans n rcode c s Hrep Hname Hn Hans Hc) as (c' & mem & ? & ? & ? & _). eauto 10.
Qed.

Lemma mem_true (calloc : gset loc -> option loc) mem :
  (mem = false -> exists X, calloc X = None) -> (forall X, is_Some (calloc X)) -> mem = true.
Proof. intros Hn Hall. destruct mem; [done|]. destruct (Hn eq_refl) as [X HX]. destruct (Hall X). congruence. Qed.

Lemma put_rep calloc t now name qtype ans n rcode c s :
  rep c s -> strlen name <= DNS_MAX_NAME -> 0 <= n -> Z.min n DNS_MAX_ANSWERS <= zlen ans ->
  (forall X l, calloc X = Some l -> l ∉ X) ->
  exists c' mem, dns_cache_put calloc t now name qtype ans n rcode c = Ok c' /\
    rep c' (lru_put mem now name qtype (ztake n ans) rcode s) /\
    ((forall X, is_Some (calloc X)) -> mem = true).
Proof.
  intros Hrep Hname Hn Hans Hc.
  destruct (put_rep_mem calloc t now name qtype ans n rcode c s Hrep Hname Hn Hans Hc) as (c' & mem & ? & ? & ?).
  eauto 10 using mem_true.
Qed.

Lemma init_rep c : c_heap c = ∅ -> rep (dns_cache_init c) (Lru [] 0 0 0 0).
Proof.
  intros Hh. exists []. split_and!; try done; unfold dns_cache_init; cbn; rewrite ?Hh.
  - split_and!; [constructor| |constructor]. intros l. rewrite lookup_empty.
    split; [by intros ?%elem_of_nil|by intros [? ?]].
  - intros [|] ? ? ?; done.
  - intros b. exists []. rewrite lookup_empty. split_and!; [done|constructor|].
    intros l. rewrite lookup_empty. split; [by intros ?%elem_of_nil|by intros (? & ? & _)].
  - constructor.
  - apply covers_reset.
Qed.

(** The walk of [dns_cache_fini] frees every node once. *)
Lemma free_loop_spec fuel c ls : NoDup ls -> (length ls < fuel)%nat ->
  (forall pre l post, ls = pre ++ l :: post -> exists n, c_heap c !! l = Some n /\ n_next n = head post) ->
  (forall l, l ∈ ls <-> is_Some (c_heap c !! l)) ->
  free_loop fuel (head ls) c = Ok (with_heap ∅ c).
Proof.
  revert fuel c. induction ls as [|l ls IH]; intros [|fuel] c Hnd Hf Hd Hin; cbn [length] in Hf; try lia; cbn [free_loop head].
  - assert (c_heap c = ∅) as E.
    { apply map_empty. intros l. apply eq_None_not_Some. rewrite <- Hin. apply not_elem_of_nil. }
    rewrite <- E. by destruct c.
  - destruct (Hd [] l ls eq_refl) as (n & Hn & Hx). unfold free. rewrite (load_Ok _ _ _ Hn), !Ok_bind, Hx.
    apply NoDup_cons in Hnd as [Hl Hnd]. rewrite IH; [done|done|lia| |].
    + intros pre x post E. destruct (Hd (l :: pre) x post) as (nx & Hnx & ?); [by rewrite E|]. exists nx. cbn.
      rewrite lookup_delete_ne; [done|]. intros ->. subst. set_solver.
    + intros x. cbn. destruct (decide (x = l)) as [->|Hne].
      * rewrite lookup_delete_eq. split; [done|by intros [? ?]].
      * rewrite lookup_delete_ne by done. rewrite <- Hin. set_solver.
Qed.

Lemma fini_rep c s : rep c s ->
  exists c', dns_cache_fini c = Ok c' /\ c_heap c' = ∅ /\
    rep c' (Lru [] (l_hits s) (l_misses s) (l_evictions s) (l_expirations s)).
Proof.
  intros (ls & (Hnd & Hin & H2) & Hd & Hh & Ht & _ & _ & _ & _ & _ & Hst). unfold dns_cache_fini. rewrite Hh.
  rewrite (free_loop_spec _ c ls Hnd); cycle 1.
  - unfold chain_fuel. apply le_n_S, nodup_length_size; [done|]. intros l. by rewrite Hin.
  - intros pre l post E. destruct (Hd pre l post E) as (n & ? & _ & ?). eauto.
  - done.
  - rewrite Ok_bind. eexists. split_and!; [done|done|]. cbn.
    destruct (init_rep (with_heap ∅ c) eq_refl) as (ls' & R1 & R2 & R3 & R4 & R5 & R6 & R7 & R8 & R9 & _).
    exists ls'. cbn in *. split_and!; try done; apply Hst.
Qed.
End refine.
