(* ===== verification/CacheStrip.v ===== *)
(** * The cache without its filter (src/dns_cache.c, DNS_BLOOM_DISABLED)

    [strip] forgets the filter. Every function of the cache commutes with it:
    the filter decides only whether a lookup takes the lock, and a lookup it
    turns away would have found nothing. So the two builds run in step, node
    for node, on one allocator. *)

From stdpp Require Import prelude list gmap.
From Stdlib Require Import ZArith Lia.
From S2P Require Import Prelude DnsName DnsParse DnsBuild DnsBloom DnsCache CacheLinks CacheRefine.

Local Open Scope Z_scope.

Definition strip {F} (c : cache F) : cache no_bloom :=
  Cache (c_heap c) (c_buckets c) (c_lru_head c) (c_lru_tail c) (c_entry_count c) (c_hits c) (c_misses c)
    (c_evictions c) (c_expirations c) NoBloom.

(** The result of the other build. *)
Definition stripped {F} (m : res (cache F)) : res (cache no_bloom) := c ← m; Ok (strip c).

Section strip.
Context {F : Type} `{Filter F}.
Implicit Types (c : cache F).

Lemma stripped_Ok c : stripped (Ok c) = Ok (strip c).
Proof. done. Qed.

(** Steps that commute compose. *)
Lemma stripped_bind m (m' : res (cache no_bloom)) (f : cache F -> res (cache F)) g :
  m' = stripped m -> (forall c, g (strip c) = stripped (f c)) -> (m' ≫= g) = stripped (m ≫= f).
Proof. intros -> Hg. destruct m; cbn; [apply Hg|done..]. Qed.

(** A part that only reads. *)
Lemma read_bind {A} (m : res A) (f : A -> res (cache F)) (g : A -> res (cache no_bloom)) :
  (forall a, g a = stripped (f a)) -> (m ≫= g) = stripped (m ≫= f).
Proof. intros Hg. destruct m; cbn; [apply Hg|done..]. Qed.

Lemma load_strip c l : load (strip c) l = load c l.
Proof. done. Qed.

Lemma modify_strip f l c : modify f l (strip c) = stripped (modify f l c).
Proof. unfold modify. apply (read_bind (load c l)). done. Qed.

Lemma free_strip l c : free l (strip c) = stripped (free l c).
Proof. unfold free. apply (read_bind (load c l)). done. Qed.

Lemma lru_unlink_strip l c : lru_unlink l (strip c) = stripped (lru_unlink l c).
Proof.
  unfold lru_unlink. apply (read_bind (load c l)). intros n. apply stripped_bind; [destruct (n_prev n); [apply modify_strip|done]|].
  intros c1. apply (read_bind (load c1 l)). intros n1.
  apply stripped_bind; [destruct (n_next n1); [apply modify_strip|done]|]. intros c2.
  apply stripped_bind; [apply modify_strip|]. intros c3. apply modify_strip.
Qed.

Lemma lru_push_front_strip l c : lru_push_front l (strip c) = stripped (lru_push_front l c).
Proof.
  unfold lru_push_front. apply stripped_bind; [apply modify_strip|]. intros c1.
  apply stripped_bind; [apply (modify_strip _ _ c1)|]. intros c2.
  apply stripped_bind; [change (c_lru_head (strip c2)) with (c_lru_head c2); destruct (c_lru_head c2); [apply modify_strip|done]|].
  intros c3. cbn. by destruct (c_lru_tail c3).
Qed.

Lemma write_link_strip pp v c : write_link pp v (strip c) = stripped (write_link pp v c).
Proof. destruct pp; [done|apply modify_strip]. Qed.

Lemma unlink_loop_strip fuel l pp c : unlink_loop fuel l pp (strip c) = stripped (unlink_loop fuel l pp c).
Proof.
  revert pp. induction fuel as [|fuel IH]; intros pp; cbn [unlink_loop]; [done|].
  replace (read_link pp (strip c)) with (read_link pp c) by (by destruct pp).
  apply read_bind. intros [l'|]; [|done]. case_bool_decide; [|apply IH].
  apply (read_bind (load c l)). intros n. apply stripped_bind; [apply write_link_strip|]. intros c1. apply modify_strip.
Qed.

Lemma bucket_unlink_strip l c : bucket_unlink l (strip c) = stripped (bucket_unlink l c).
Proof. unfold bucket_unlink. apply (read_bind (load c l)). intros n. apply unlink_loop_strip. Qed.

Lemma node_destroy_strip t l c : node_destroy t l (strip c) = stripped (node_destroy t l c).
Proof.
  unfold node_destroy. apply (read_bind (load c l)). intros n.
  apply stripped_bind; [apply (bucket_unlink_strip l (with_filter _ c))|]. intros c1.
  apply stripped_bind; [apply lru_unlink_strip|]. intros c2. apply stripped_bind; [apply free_strip|]. done.
Qed.

Lemma find_loop_strip fuel name qtype p c : find_loop fuel name qtype p (strip c) = find_loop fuel name qtype p c.
Proof.
  revert p. induction fuel as [|fuel IH]; intros [l|]; cbn [find_loop]; try done. rewrite load_strip.
  destruct (load c l) as [n| | |]; [|done..]. rewrite !Ok_bind. by case_test.
Qed.

Lemma scan_loop_strip left now p v c : scan_loop left now p v (strip c) = scan_loop left now p v c.
Proof.
  revert p. induction left as [|left IH]; intros [l|]; cbn [scan_loop]; try done. rewrite load_strip.
  destruct (load c l) as [n| | |]; [|done..]. rewrite !Ok_bind. by case_test.
Qed.

Lemma evict_one_strip t now c : evict_one t now (strip c) = stripped (evict_one t now c).
Proof.
  unfold evict_one. rewrite scan_loop_strip. apply (read_bind (scan_loop 8 now (c_lru_tail c) (c_lru_tail c) c)).
  intros [l|]; [|done]. by apply stripped_bind; [apply node_destroy_strip|].
Qed.

Lemma evict_loop_strip fuel t now c : evict_loop fuel t now (strip c) = stripped (evict_loop fuel t now c).
Proof.
  revert c. induction fuel as [|fuel IH]; intros c; cbn [evict_loop]; [done|].
  change (c_entry_count (strip c)) with (c_entry_count c). case_test; [|done].
  apply stripped_bind; [apply evict_one_strip|]. done.
Qed.

Lemma insert_node_strip t l h name qtype c : insert_node t l h name qtype (strip c) = stripped (insert_node t l h name qtype c).
Proof.
  unfold insert_node. apply stripped_bind; [apply (modify_strip _ _ (with_heap _ c))|]. done.
Qed.

Lemma put_strip calloc t now name qtype ans n rcode c :
  dns_cache_put calloc t now name qtype ans n rcode (strip c) = stripped (dns_cache_put calloc t now name qtype ans n rcode c).
Proof.
  unfold dns_cache_put, bucket_find. case_match; [done|]. rewrite find_loop_strip.
  apply (read_bind (find_loop (chain_fuel c) name qtype (c_buckets c !! bucket_of (dns_key_hash name qtype)) c)). intros [l|].
  - rewrite lru_unlink_strip. destruct (lru_unlink l c) as [c1| | |]; cbn [stripped]; [|done..]. rewrite stripped_Ok, !Ok_bind.
    apply (read_bind (load c1 l)). intros old. apply stripped_bind; [apply modify_strip|]. intros c2. apply lru_push_front_strip.
  - change (chain_fuel (strip c)) with (chain_fuel c). rewrite evict_loop_strip.
    destruct (evict_loop (chain_fuel c) t now c) as [c1| | |]; [|done..]. rewrite stripped_Ok, !Ok_bind.
    change (c_heap (strip c1)) with (c_heap c1). destruct (calloc (dom (c_heap c1))) as [l|]; [|done].
    rewrite insert_node_strip. destruct (insert_node t l _ name qtype c1) as [c2| | |]; [|done..]. rewrite stripped_Ok, !Ok_bind.
    apply (read_bind (load c2 l)). intros old. apply stripped_bind; [apply modify_strip|]. intros c3. apply lru_push_front_strip.
Qed.

End strip.

(** A lookup, with its result. *)
Lemma get_strip {F} `{FilterLaws F} t now name qtype cap (c c' : cache F) s r : rep c s ->
  dns_cache_get t now name qtype cap c = Ok (c', r) ->
  dns_cache_get t now name qtype cap (strip c) = Ok (strip c', r).
Proof.
  rewrite rep_rep_at. intros [ls Hrep]. unfold dns_cache_get at 1. pose proof Hrep as (Hl & _ & Hb & _ & Hf & _).
  destruct (f_maybe t (dns_key_hash name qtype) (c_filter c)) as [f maybe] eqn:Em. unfold dns_cache_get.
  cbn [f_maybe disabled_filter negb]. unfold bucket_find. change (with_filter _ (strip c)) with (strip (with_filter f c)).
  rewrite find_loop_strip. change (c_buckets (strip (with_filter f c))) with (c_buckets c).
  change (chain_fuel (strip (with_filter f c))) with (chain_fuel (with_filter f c)).
  destruct maybe; cbn [negb].
  - change (c_buckets (with_filter f c)) with (c_buckets c).
    destruct (find_loop _ name qtype _ _) as [[l|]| | |]; [|by intros [= <- <-]|done..]. rewrite !Ok_bind, load_strip.
    destruct (load (with_filter f c) l) as [n| | |]; [|done..]. rewrite !Ok_bind. case_test.
    + rewrite node_destroy_strip. destruct (node_destroy t l (with_filter f c)) as [c1| | |]; [|done..].
      rewrite stripped_Ok, !Ok_bind. by intros [= <- <-].
    + rewrite lru_unlink_strip. destruct (lru_unlink l (with_filter f c)) as [c1| | |]; [|done..]. rewrite stripped_Ok, !Ok_bind.
      rewrite lru_push_front_strip. destruct (lru_push_front l c1) as [c2| | |]; [|done..]. rewrite stripped_Ok, !Ok_bind.
      by intros [= <- <-].
  - intros [= <- <-].
    destruct (bucket_find_spec (with_filter f c) ls (l_entries s) name qtype Hl Hb) as (p & Hp & Hr). unfold bucket_find in Hp.
    change (c_buckets (with_filter f c)) with (c_buckets c) in Hp. rewrite Hp, Ok_bind.
    destruct p as [l|]; [exfalso|done]. destruct Hr as (pre & post & epre & epost & n & _ & Hes & _ & _ & _ & Hkey).
    pose proof (maybe_no_false_negative _ t (dns_key_hash name qtype) _ Hf) as Hn. rewrite Em in Hn. cbn in Hn.
    assert (false = true); [|done]. apply Hn. rewrite Hes. apply list_elem_of_fmap. exists (entry_of n).
    split; [symmetry; by apply key_of_hash|set_solver].
Qed.
