(* ===== verification/CacheTheorems.v ===== *)
(** * What the cache promises (src/dns_cache.c)

    Sequences of operations on the pointer-level cache and on the abstract
    LRU map, and the consequences for its clients. *)

From stdpp Require Import prelude list gmap.
From Stdlib Require Import ZArith Lia.
From S2P Require Import Prelude DnsName DnsParse DnsBuild DnsBloom DnsCache CacheLinks CacheRefine CacheStrip.

Local Open Scope Z_scope.

(** One call of the cache, with its thread, time and arguments. *)
Inductive cache_op :=
| OpGet (t : nat) (now : Z) (name : list Z) (qtype cap : Z)
| OpPut (t : nat) (now : Z) (name : list Z) (qtype : Z) (ans : list dns_answer) (n rcode : Z).

(** Names fit their array, as the names the decoder produces do, and the answer
    array has the answers it is said to have. *)
Definition op_ok (o : cache_op) : Prop :=
  match o with
  | OpGet _ _ _ _ cap => 0 <= cap
  | OpPut _ _ name _ ans n _ =>
      strlen name <= DNS_MAX_NAME /\ 0 <= n /\ Z.min n DNS_MAX_ANSWERS <= zlen ans
  end.

(** The result of a lookup. *)
Definition lookup_result : Type := option (list dns_answer * Z).

Section runs.
Context {F : Type} `{Filter F} (calloc : gset loc -> option loc).

(** The cache after a sequence of calls, and the results of the lookups. *)
Fixpoint run_cache (ops : list cache_op) (c : cache F) : res (cache F * list lookup_result) :=
  match ops with
  | [] => Ok (c, [])
  | OpGet t now name qtype cap :: ops' =>
      '(c1, r) ← dns_cache_get t now name qtype cap c;
      '(c2, rs) ← run_cache ops' c1;
      Ok (c2, r :: rs)
  | OpPut t now name qtype ans n rcode :: ops' =>
      c1 ← dns_cache_put calloc t now name qtype ans n rcode c;
      run_cache ops' c1
  end.
End runs.

(** The same calls on the abstract map; [mems] says of each insertion in turn
    whether there is memory for a new entry (when it is used up, there is). *)
Fixpoint run_lru (mems : list bool) (ops : list cache_op) (s : lru) : lru * list lookup_result :=
  match ops with
  | [] => (s, [])
  | OpGet t now name qtype cap :: ops' =>
      let '(s1, r) := lru_get now name qtype cap s in
      let '(s2, rs) := run_lru mems ops' s1 in (s2, r :: rs)
  | OpPut t now name qtype ans n rcode :: ops' =>
      run_lru (tail mems) ops' (lru_put (default true (head mems)) now name qtype (ztake n ans) rcode s)
  end.

(** Zeroed static storage, with a filter in any state. *)
Definition cache_zero {F} (f : F) : cache F := Cache ∅ ∅ None None 0 0 0 0 0 f.

Definition lru_empty : lru := Lru [] 0 0 0 0.

(** An allocator that never fails. *)
Definition fresh_loc (X : gset loc) : option loc := Some (fresh X).

(** An allocator with memory for one node. *)
Definition scarce_loc (X : gset loc) : option loc := if decide (X = ∅) then Some 1%positive else None.

(** An insertion, a hit in other letter case, a negative entry, a hit. *)
Definition sample_ops : list cache_op :=
  [OpPut 0 100 [97] 1 sample_answers 2 0; OpGet 1 110 [65] 1 8; OpPut 0 120 [98] 1 [] 0 3; OpGet 1 130 [97] 1 1].

(** The cache after the sample operations. *)
Definition sample_cache : cache bloom :=
  match run_cache fresh_loc sample_ops (dns_cache_init (cache_zero bloom_zero)) with
  | Ok (c, _) => c
  | _ => cache_zero bloom_zero
  end.

(** ** Lemmas *)

Lemma run_refines {F} `{FilterLaws F} calloc ops (c : cache F) s :
  (forall X l, calloc X = Some l -> l ∉ X) -> Forall op_ok ops -> rep c s ->
  exists c' mems, run_cache calloc ops c = Ok (c', (run_lru mems ops s).2) /\ rep c' (run_lru mems ops s).1 /\
    (false ∈ mems -> exists X, calloc X = None).
Proof.
  intros Hfresh Hops. revert c s. induction Hops as [|o ops Ho _ IH]; intros c s Hrep; cbn [run_cache].
  { exists c, []. split_and!; [done..|]. by intros ?%elem_of_nil. }
  destruct o as [t now name qtype cap|t now name qtype ans n rcode].
  - destruct (get_rep t now name qtype cap c s Hrep Ho) as (c1 & -> & H1). rewrite Ok_bind. cbn [run_lru].
    destruct (lru_get now name qtype cap s) as [s1 r]. cbn [fst snd] in *.
    destruct (IH c1 s1 H1) as (c2 & mems & -> & H2 & Hm). rewrite Ok_bind. exists c2, mems.
    destruct (run_lru mems ops s1) as [s2 rs]. done.
  - destruct Ho as (Hn & Hn0 & Ha).
    destruct (put_rep_mem calloc t now name qtype ans n rcode c s Hrep Hn Hn0 Ha Hfresh) as (c1 & mem & -> & H1 & Hm).
    rewrite Ok_bind. destruct (IH c1 _ H1) as (c2 & mems & -> & H2 & Hms). exists c2, (mem :: mems). split_and!; [done..|].
    intros [E|?]%elem_of_cons; auto.
Qed.

(** With an allocator that never fails, no insertion is lost. *)
Lemma run_lru_memory mems ops s : ~ false ∈ mems -> run_lru mems ops s = run_lru [] ops s.
Proof.
  revert mems s. induction ops as [|[t now name qtype cap|t now name qtype ans n rcode] ops IH]; intros mems s Hm; cbn [run_lru]; [done| |].
  - destruct (lru_get now name qtype cap s) as [s1 r]. by rewrite IH.
  - destruct mems as [|[|] mems]; [done| |set_solver]. cbn [tail head default]. rewrite IH; [done|set_solver].
Qed.

Lemma run_refines_memory {F} `{FilterLaws F} calloc ops (c : cache F) s :
  (forall X l, calloc X = Some l -> l ∉ X) -> (forall X, is_Some (calloc X)) -> Forall op_ok ops -> rep c s ->
  exists c', run_cache calloc ops c = Ok (c', (run_lru [] ops s).2) /\ rep c' (run_lru [] ops s).1.
Proof.
  intros Hfresh Hmem Hops Hrep. destruct (run_refines calloc ops c s Hfresh Hops Hrep) as (c' & mems & Hr & Hrep' & Hm).
  assert (~ false ∈ mems) as Hno by (intros [X HX]%Hm; destruct (Hmem X); congruence).
  rewrite run_lru_memory in Hr, Hrep' by done. by exists c'.
Qed.

(** The two builds in step. *)
Lemma run_strip {F} `{FilterLaws F} calloc ops (c : cache F) s :
  (forall X l, calloc X = Some l -> l ∉ X) -> Forall op_ok ops -> rep c s ->
  exists c' rs, run_cache calloc ops c = Ok (c', rs) /\ run_cache calloc ops (strip c) = Ok (strip c', rs).
Proof.
  intros Hfresh Hops. revert c s. induction Hops as [|o ops Ho _ IH]; intros c s Hrep; cbn [run_cache].
  { by exists c, []. }
  destruct o as [t now name qtype cap|t now name qtype ans n rcode].
  - destruct (get_rep t now name qtype cap c s Hrep Ho) as (c1 & Hg & H1). rewrite (get_strip _ _ _ _ _ _ _ _ _ Hrep Hg), Hg, !Ok_bind.
    destruct (IH _ _ H1) as (c2 & rs & -> & ->). by eexists _, _.
  - destruct Ho as (Hn & Hn0 & Ha).
    destruct (put_rep_mem calloc t now name qtype ans n rcode c s Hrep Hn Hn0 Ha Hfresh) as (c1 & mem & Hp & H1 & _).
    rewrite put_strip, Hp, stripped_Ok, !Ok_bind. by apply (IH _ _ H1).
Qed.

Lemma fresh_loc_fresh X l : fresh_loc X = Some l -> l ∉ X.
Proof. intros [= <-]. apply is_fresh. Qed.

Lemma min_ttl_fold ans t : (forall a, a ∈ ans -> fold_left (fun t a => if a_ttl a <? t then a_ttl a else t) ans t <= a_ttl a) /\
  fold_left (fun t a => if a_ttl a <? t then a_ttl a else t) ans t <= t /\
  (fold_left (fun t a => if a_ttl a <? t then a_ttl a else t) ans t = t \/
   exists a, a ∈ ans /\ fold_left (fun t a => if a_ttl a <? t then a_ttl a else t) ans t = a_ttl a).
Proof.
  revert t. induction ans as [|b ans IH]; intros t; cbn [fold_left].
  { split_and!; [by intros ? ?%elem_of_nil|lia|by left]. }
  specialize (IH (if a_ttl b <? t then a_ttl b else t)). destruct IH as (H1 & H2 & H3).
  set (r := fold_left _ ans _) in *. split_and!.
  - intros a [->|Ha]%elem_of_cons; [|auto]. destruct (Z.ltb_spec (a_ttl b) t); lia.
  - destruct (Z.ltb_spec (a_ttl b) t); lia.
  - destruct H3 as [H3|(a & Ha & H3)]; [|right; exists a; split; [set_solver|done]].
    destruct (Z.ltb_spec (a_ttl b) t); [right; exists b; split; [set_solver|done]|by left].
Qed.

Lemma put_ttl_bounds ans : CACHE_MIN_TTL <= put_ttl ans <= CACHE_MAX_TTL.
Proof.
  unfold put_ttl, clamp_ttl, CACHE_NEG_TTL, CACHE_MIN_TTL, CACHE_MAX_TTL. case_test; [lia|]. repeat case_test; lia.
Qed.

Lemma find_after_push e k s : entry_key e = k -> find_key k (l_entries (lru_push e s)) = Some e.
Proof. intros <-. unfold find_key. cbn. by rewrite decide_True. Qed.

Lemma lru_put_front mem now name qtype ans rcode s : mem = true ->
  exists e es, l_entries (lru_put mem now name qtype ans rcode s) = e :: es /\
    entry_key e = key_of name qtype /\ e_ans e = ztake DNS_MAX_ANSWERS ans /\ e_rcode e = rcode /\
    e_expires e = now + put_ttl (ztake DNS_MAX_ANSWERS ans).
Proof.
  intros ->. unfold lru_put. destruct (find_key (key_of name qtype) (l_entries s)) as [e|] eqn:E.
  - apply find_key_elem in E as [_ Hk]. do 2 eexists. split; [done|]. done.
  - do 2 eexists. split; [done|]. split_and!; try done. unfold entry_key, key_of. cbn [e_name e_qtype].
    by rewrite fold_case_cstr.
Qed.

Lemma lru_get_front now name qtype cap e es h m v x : entry_key e = key_of name qtype ->
  (lru_get now name qtype cap (Lru (e :: es) h m v x)).2 =
  if e_expires e <=? now then None
  else Some (with_ttl (u32 (e_expires e - now)) (ztake cap (e_ans e)), e_rcode e).
Proof.
  intros Hk. unfold lru_get, find_key. cbn [list_find]. rewrite decide_True by done. cbn. by case_test.
Qed.

(** The properties of the victim. *)
Lemma victim_old now es e : victim now es = Some e ->
  e ∈ take 8 (reverse es) /\
  (now < e_expires e -> last es = Some e /\ Forall (fun e' => now < e_expires e') (take 8 (reverse es))).
Proof.
  unfold victim. destruct (list_find _ _) as [[i e']|] eqn:E; cbn [fmap option_fmap option_map snd].
  - intros [= ->]. apply list_find_Some in E as (Hi & Hx & _). split; [by eapply list_elem_of_lookup_2|lia].
  - intros Hl. apply list_find_None in E. split.
    + apply last_Some in Hl as [es' ->]. rewrite reverse_snoc. cbn. set_solver.
    + intros Hx. split; [done|]. eapply Forall_impl; [done|]. cbn. lia.
Qed.

(** ** Theorems *)

(** C6: The cache is an LRU map. Any sequence of lookups and insertions on a
    freshly initialised cache, whatever its filter and whether or not the
    allocator fails, runs without a memory fault and terminates (chains, list
    and eviction loop included); every lookup returns what the abstract LRU
    list returns; and the heap keeps representing that list: the list's links,
    every bucket's chain, the filter and [entry_count] agree, and there are at
    most 4096 entries. An insertion for which there is no memory makes room in
    a full cache and adds nothing; only then does the cache lose one. *)
Theorem cache_refines_lru {F} `{FilterLaws F} (f : F) calloc ops :
  (forall X l, calloc X = Some l -> l ∉ X) -> Forall op_ok ops ->
  exists c mems, run_cache calloc ops (dns_cache_init (cache_zero f)) = Ok (c, (run_lru mems ops lru_empty).2) /\
    rep c (run_lru mems ops lru_empty).1 /\ (false ∈ mems -> exists X, calloc X = None).
Proof. intros H1 H2. apply run_refines; [done..|]. by apply init_rep. Qed.

Lemma sample_ops_ok : Forall op_ok sample_ops.
Proof. repeat constructor; vm_compute; congruence. Qed.

Lemma sample_cache_rep : rep sample_cache (run_lru [] sample_ops lru_empty).1.
Proof.
  destruct (run_refines_memory fresh_loc sample_ops (dns_cache_init (cache_zero bloom_zero)) lru_empty) as (c & E & Hc);
    [exact fresh_loc_fresh|intros X; by eexists|exact sample_ops_ok|by apply init_rep|].
  unfold sample_cache. by rewrite E.
Qed.

Lemma scarce_loc_fresh X l : scarce_loc X = Some l -> l ∉ X.
Proof. unfold scarce_loc. case_decide; [|done]. intros [= <-]. subst. apply not_elem_of_empty. Qed.

Lemma cache_refines_lru_witness :
  exists c mems, run_cache scarce_loc sample_ops (dns_cache_init (cache_zero bloom_zero)) =
      Ok (c, (run_lru mems sample_ops lru_empty).2) /\
    rep c (run_lru mems sample_ops lru_empty).1 /\ (false ∈ mems -> exists X, scarce_loc X = None).
Proof.
  apply (cache_refines_lru bloom_zero scarce_loc sample_ops).
  - exact scarce_loc_fresh.
  - exact sample_ops_ok.
Defined.

(** C31: The Bloom filter is invisible: the build with it and the build without
    it ([DNS_BLOOM_DISABLED]) return the same results for every sequence of
    calls, and end with the same nodes, links, statistics and number of
    entries, whether or not the allocator, which is the same for both, fails. *)
Theorem bloom_transparent (b : bloom) calloc ops :
  (forall X l, calloc X = Some l -> l ∉ X) -> Forall op_ok ops ->
  exists c rs, run_cache calloc ops (dns_cache_init (cache_zero b)) = Ok (c, rs) /\
    run_cache calloc ops (dns_cache_init (cache_zero NoBloom)) = Ok (strip c, rs) /\
    dns_cache_stats c = dns_cache_stats (strip c).
Proof.
  intros H1 H2.
  destruct (run_strip calloc ops (dns_cache_init (cache_zero b)) lru_empty) as (c & rs & Hr & Hs); [done..|by apply init_rep|].
  exists c, rs. done.
Qed.

Lemma bloom_transparent_witness :
  exists c rs, run_cache scarce_loc sample_ops (dns_cache_init (cache_zero bloom_zero)) = Ok (c, rs) /\
    run_cache scarce_loc sample_ops (dns_cache_init (cache_zero NoBloom)) = Ok (strip c, rs) /\
    dns_cache_stats c = dns_cache_stats (strip c).
Proof.
  apply (bloom_transparent bloom_zero scarce_loc sample_ops).
  - exact scarce_loc_fresh.
  - exact sample_ops_ok.
Defined.

(** What was put is what is got: as long as the record set lives, a lookup
    of the same name (in any letter case) and type right after the insertion
    hits, with the answers stored (eight at most), the stored rcode, and the
    remaining time as the TTL of every answer: between 1 and the set's TTL,
    which lies between 5 and 86400 seconds. Afterwards it misses. *)
Theorem cache_put_get {F} `{FilterLaws F} (c : cache F) s calloc t t' now now' name name' qtype ans n rcode cap :
  rep c s -> (forall X l, calloc X = Some l -> l ∉ X) -> (forall X, is_Some (calloc X)) ->
  op_ok (OpPut t now name qtype ans n rcode) -> 0 <= cap -> dns_name_equal name name' = true -> now <= now' ->
  let stored := ztake DNS_MAX_ANSWERS (ztake n ans) in
  let left := now + put_ttl stored - now' in
  exists c1 c2 r, dns_cache_put calloc t now name qtype ans n rcode c = Ok c1 /\
    dns_cache_get t' now' name' qtype cap c1 = Ok (c2, r) /\
    r = (if left <=? 0 then None else Some (with_ttl left (ztake cap stored), rcode)) /\
    CACHE_MIN_TTL <= put_ttl stored <= CACHE_MAX_TTL /\ left <= put_ttl stored.
Proof.
  intros Hrep Hfresh Hmem (Hn & Hn0 & Ha) Hcap Heq Hnow stored left.
  destruct (put_rep calloc t now name qtype ans n rcode c s Hrep Hn Hn0 Ha Hfresh) as (c1 & mem & Hput & Hrep1 & Hm).
  specialize (Hm Hmem). pose proof (put_ttl_bounds stored) as Hb.
  destruct (lru_put_front mem now name qtype (ztake n ans) rcode s Hm) as (e & es & Hes & Hk & Hans & Hrc & Hex).
  destruct (get_rep t' now' name' qtype cap c1 _ Hrep1 Hcap) as (c2 & Hget & _).
  exists c1, c2. eexists. split_and!; [done|exact Hget| |lia..|unfold left; lia].
  destruct (lru_put mem now name qtype (ztake n ans) rcode s) as [es' h m v x]. cbn in Hes. subst es'.
  rewrite lru_get_front; cycle 1.
  { rewrite Hk. unfold key_of. f_equal. by apply dns_name_equal_iff. }
  rewrite Hex, Hans, Hrc. fold stored. unfold CACHE_MIN_TTL, CACHE_MAX_TTL in *.
  destruct (Z.leb_spec (now + put_ttl stored) now'), (Z.leb_spec left 0); unfold left in *; try lia; [done|].
  assert (u32 (now + put_ttl stored - now') = now + put_ttl stored - now') as -> by (apply Z.mod_small; lia). done.
Qed.

Lemma cache_put_get_witness :
  let stored := ztake DNS_MAX_ANSWERS (ztake 2 sample_answers) in
  let left := 100 + put_ttl stored - 110 in
  exists c1 c2 r, dns_cache_put fresh_loc 0 100 [97] 1 sample_answers 2 0 (dns_cache_init (cache_zero bloom_zero)) = Ok c1 /\
    dns_cache_get 1 110 [65] 1 8 c1 = Ok (c2, r) /\
    r = (if left <=? 0 then None else Some (with_ttl left (ztake 8 stored), 0)) /\
    CACHE_MIN_TTL <= put_ttl stored <= CACHE_MAX_TTL /\ left <= put_ttl stored.
Proof.
  apply (cache_put_get (dns_cache_init (cache_zero bloom_zero)) lru_empty fresh_loc 0 1 100 110 [97] [65] 1 sample_answers 2 0 8).
  - apply init_rep. reflexivity.
  - exact fresh_loc_fresh.
  - intros X. by eexists.
  - split_and!; vm_compute; congruence.
  - lia.
  - reflexivity.
  - lia.
Defined.

(** A record set dies when its shortest lived member does: the set's TTL is
    the least TTL of its answers, clamped to 5 .. 86400 seconds, and 60
    seconds for a negative entry. *)
Theorem put_ttl_minimum ans :
  put_ttl [] = CACHE_NEG_TTL /\
  (forall a, a ∈ ans -> put_ttl ans <= Z.max CACHE_MIN_TTL (a_ttl a)) /\
  (ans <> [] -> put_ttl ans = CACHE_MIN_TTL \/ put_ttl ans = CACHE_MAX_TTL \/ exists a, a ∈ ans /\ put_ttl ans = a_ttl a).
Proof.
  split; [done|]. destruct (min_ttl_fold ans CACHE_MAX_TTL) as (H1 & H2 & H3).
  fold (min_ttl ans) in H1, H2, H3. unfold put_ttl, clamp_ttl, CACHE_MIN_TTL, CACHE_MAX_TTL in *. split.
  - intros a Ha. specialize (H1 a Ha). rewrite bool_decide_eq_false_2 by (intros ->; by apply elem_of_nil in Ha).
    repeat case_test; lia.
  - intros Hne. rewrite bool_decide_eq_false_2 by done. case_test; [by left|]. case_test; [lia|].
    destruct H3 as [H3|(a & Ha & H3)]; [by right; left|]. right; right. eauto.
Qed.

(** A full cache loses one of its eight least recently used entries:
    [evict_one] removes exactly one entry, the oldest expired one of the eight
    if there is one, else the least recently used entry; a live entry is
    evicted only when none of the eight has expired. *)
Theorem evicts_an_old_entry {F} `{FilterLaws F} (c : cache F) s t now : rep c s -> l_entries s <> [] ->
  exists c' e, evict_one t now c = Ok c' /\
    rep c' (Lru (remove_key (entry_key e) (l_entries s)) (l_hits s) (l_misses s) (u64 (l_evictions s + 1)) (l_expirations s)) /\
    e ∈ take 8 (reverse (l_entries s)) /\
    (now < e_expires e -> last (l_entries s) = Some e /\ Forall (fun e' => now < e_expires e') (take 8 (reverse (l_entries s)))).
Proof.
  intros [ls Hrep]%rep_rep_at Hne. destruct (evict_one_rep t now c s ls Hrep Hne) as (c' & ls' & e & H1 & H2 & _ & H3 & _).
  exists c', e. destruct (victim_old _ _ _ H2). split_and!; [done|apply rep_rep_at; by exists ls'|done..].
Qed.

Lemma evicts_an_old_entry_witness :
  let s := (run_lru [] sample_ops lru_empty).1 in
  exists c' e, evict_one 0 10 sample_cache = Ok c' /\
    rep c' (Lru (remove_key (entry_key e) (l_entries s)) (l_hits s) (l_misses s) (u64 (l_evictions s + 1)) (l_expirations s)) /\
    e ∈ take 8 (reverse (l_entries s)) /\
    (10 < e_expires e -> last (l_entries s) = Some e /\ Forall (fun e' => 10 < e_expires e') (take 8 (reverse (l_entries s)))).
Proof.
  apply (evicts_an_old_entry sample_cache (run_lru [] sample_ops lru_empty).1 0 10); [exact sample_cache_rep|vm_compute; congruence].
Defined.

(** [dns_cache_fini] frees every node exactly once and leaves an empty,
    usable cache: no node is left in the heap, none is freed twice, and the
    filter is reset with it. *)
Theorem cache_fini_frees {F} `{FilterLaws F} (c : cache F) s : rep c s ->
  exists c', dns_cache_fini c = Ok c' /\ c_heap c' = ∅ /\
    rep c' (Lru [] (l_hits s) (l_misses s) (l_evictions s) (l_expirations s)).
Proof. apply fini_rep. Qed.

Lemma cache_fini_frees_witness :
  exists c', dns_cache_fini (dns_cache_init (cache_zero bloom_zero)) = Ok c' /\ c_heap c' = ∅ /\
    rep c' (Lru [] 0 0 0 0).
Proof. apply (cache_fini_frees (dns_cache_init (cache_zero bloom_zero)) lru_empty). apply init_rep. reflexivity. Defined.
