(* ===== verification/CacheThreads.v ===== *)
(** * The cache under concurrent calls (src/dns_cache.c, src/dns_bloom.c)

    Several threads call [dns_cache_get] and [dns_cache_put] at once. A lookup
    first loads the filter's counters one by one without the mutex, and answers
    "absent" at the first counter that is 0. Everything else happens inside of
    the mutex, where the holder updates the filter counter by counter while
    other threads keep loading. The map, the list and the counters other than
    [misses] are touched by the holder only, so the model gives them their new
    value when the mutex is taken; [misses] is an atomic counter that the fast
    path adds to on its own. Loads and stores of one counter are atomic and
    every load sees the last store.

    The cache inside of the mutex is the one of [DnsCache] over a filter that
    records the calls made to it; the machine plays the recorded calls on the
    counters. The specification is an object whose operations are those of the
    abstract LRU map, each taking effect at one point between its call and its
    return, except that an insertion into a full cache evicts first and inserts
    at a later point. *)

From stdpp Require Import prelude list gmap.
From Stdlib Require Import ZArith Lia.
From S2P Require Import Prelude DnsName DnsParse DnsBuild DnsBloom DnsCache CacheLinks CacheRefine CacheTheorems.

Local Open Scope Z_scope.

(** ** A filter that records the calls made to it *)

Inductive fop := FAdd (t : nat) (h : Z) | FDel (h : Z).

Abbreviation flog := (list fop).

(** Lookups inside of the mutex do not ask the filter. *)
#[global] Instance flog_filter : Filter flog := {
  f_reset := fun _ => [];
  f_maybe := fun _ _ f => (f, true);
  f_add := fun t h f => f ++ [FAdd t h];
  f_del := fun _ h f => f ++ [FDel h]
}.

(** One iteration of the loop of [dns_bloom_add] or [dns_bloom_del]. *)
Inductive slot_update := Inc (t : nat) (i : Z) | Dec (i : Z).

Definition updates_of (o : fop) : list slot_update :=
  match o with
  | FAdd t h => Inc t <$> bloom_slots h
  | FDel h => Dec <$> bloom_slots h
  end.

Definition apply_update (b : bloom) (u : slot_update) : bloom :=
  match u with
  | Inc t i => add_slot t b i
  | Dec i => del_slot b i
  end.

(** The counter updates a critical section makes that takes the cache from [c]
    to [c']. *)
Definition new_updates (c c' : cache flog) : list slot_update :=
  concat (updates_of <$> drop (length (c_filter c)) (c_filter c')).

(** ** The threads *)

Definition op_thread (o : cache_op) : nat :=
  match o with OpGet t _ _ _ _ | OpPut t _ _ _ _ _ _ => t end.

(** Where a thread is: outside of the cache; at the start of a call; in the
    loop of [dns_bloom_maybe], with its statistics shard and the counters it
    has not loaded; answered "absent" by the filter, before it counts the miss;
    at [pthread_mutex_lock]; inside, with its result and the counter updates
    left to make; past [pthread_mutex_unlock]. *)
Inductive tstate :=
| TIdle
| TStart (o : cache_op)
| TLook (o : cache_op) (st : Z) (todo : list Z)
| TRejected
| TLock (o : cache_op)
| TInside (o : cache_op) (r : lookup_result) (todo : list slot_update)
| TReturn (r : lookup_result).

Record mach := Mach {
  m_cache : cache flog;
  m_bloom : bloom;
  m_owner : option nat;
  m_threads : list tstate
}.

Inductive event := ECall (o : cache_op) | ERet (t : nat) (r : lookup_result).

(** An idle thread calls an operation, or a thread takes its next step. *)
Inductive action := Call (o : cache_op) | Run (t : nat).

Definition set_thread (t : nat) (x : tstate) (m : mach) : mach :=
  Mach (m_cache m) (m_bloom m) (m_owner m) (<[t := x]> (m_threads m)).
Definition set_bloom (b : bloom) (m : mach) : mach :=
  Mach (m_cache m) b (m_owner m) (m_threads m).

Section machine.
Context (calloc : gset loc -> option loc).

(** What a call does between lock and unlock, the filter aside. *)
Definition critical (o : cache_op) (c : cache flog) : res (cache flog * lookup_result) :=
  match o with
  | OpGet t now name qtype cap => dns_cache_get t now name qtype cap c
  | OpPut t now name qtype ans n rcode =>
      c' ← dns_cache_put calloc t now name qtype ans n rcode c;
      Ok (c', None)
  end.

(** The next step of thread [t]; a thread that waits for the mutex stays where
    it is. *)
Definition thread_step (t : nat) (x : tstate) (m : mach) : res (mach * list event) :=
  match x with
  | TIdle => Ok (m, [])
  | TStart (OpGet _ _ name qtype _ as o) =>
      let '(b, st) := shard t (m_bloom m) in
      let todo := bloom_slots (dns_key_hash name qtype) in
      Ok (set_bloom (bump st inc_queries b) (set_thread t (TLook o st todo) m), [])
  | TStart (OpPut _ _ _ _ _ _ _ as o) => Ok (set_thread t (TLock o) m, [])
  | TLook o st (i :: todo) =>
      if slot (m_bloom m) i =? 0
      then Ok (set_bloom (bump st inc_rejected (m_bloom m)) (set_thread t TRejected m), [])
      else Ok (set_thread t (TLook o st todo) m, [])
  | TLook o st [] => Ok (set_thread t (TLock o) m, [])
  | TRejected =>
      Ok (Mach (miss (m_cache m)) (m_bloom m) (m_owner m) (<[t := TReturn None]> (m_threads m)), [])
  | TLock o =>
      match m_owner m with
      | Some _ => Ok (m, [])
      | None =>
          '(c, r) ← critical o (m_cache m);
          Ok (Mach c (m_bloom m) (Some t) (<[t := TInside o r (new_updates (m_cache m) c)]> (m_threads m)), [])
      end
  | TInside o r (u :: todo) =>
      Ok (set_bloom (apply_update (m_bloom m) u) (set_thread t (TInside o r todo) m), [])
  | TInside o r [] =>
      Ok (Mach (m_cache m) (m_bloom m) None (<[t := TReturn r]> (m_threads m)), [])
  | TReturn r => Ok (set_thread t TIdle m, [ERet t r])
  end.

Definition mstep (a : action) (m : mach) : res (mach * list event) :=
  match a with
  | Call o =>
      match m_threads m !! op_thread o with
      | Some TIdle => Ok (set_thread (op_thread o) (TStart o) m, [ECall o])
      | _ => Ok (m, [])
      end
  | Run t =>
      match m_threads m !! t with
      | Some x => thread_step t x m
      | None => Ok (m, [])
      end
  end.

(** The machine under a schedule, with the history of calls and returns. *)
Fixpoint mrun (acts : list action) (m : mach) : res (mach * list event) :=
  match acts with
  | [] => Ok (m, [])
  | a :: acts' =>
      '(m1, e1) ← mstep a m;
      '(m2, e2) ← mrun acts' m1;
      Ok (m2, e1 ++ e2)
  end.
End machine.

(** [n] threads after [dns_cache_init]. *)
Definition minit (n : nat) : mach :=
  Mach (dns_cache_init (cache_zero [])) (dns_bloom_reset bloom_zero) None (replicate n TIdle).

(** ** The specification *)

Inductive athread :=
| AIdle
| APending (o : cache_op)
| AEvicted (o : cache_op)
| ADone (r : lookup_result).

Record amach := AMach { a_lru : lru; a_threads : list athread }.

(** An insertion that evicts nothing. *)
Definition has_room (name : list Z) (qtype : Z) (s : lru) : Prop :=
  find_key (key_of name qtype) (l_entries s) <> None \/ zlen (l_entries s) < CACHE_CAPACITY.

(** [mem]: the allocator has memory for a new entry, always if it never fails. *)
Inductive astep (calloc : gset loc -> option loc) : amach -> list event -> amach -> Prop :=
| a_call s ts o :
    ts !! op_thread o = Some AIdle ->
    astep calloc (AMach s ts) [ECall o] (AMach s (<[op_thread o := APending o]> ts))
| a_get s ts t t' now name qtype cap :
    ts !! t = Some (APending (OpGet t' now name qtype cap)) ->
    astep calloc (AMach s ts) []
      (AMach (lru_get now name qtype cap s).1 (<[t := ADone (lru_get now name qtype cap s).2]> ts))
| a_evict s ts t t' now name qtype ans n rcode :
    ts !! t = Some (APending (OpPut t' now name qtype ans n rcode)) ->
    ~ has_room name qtype s ->
    astep calloc (AMach s ts) []
      (AMach (lru_make_room now s) (<[t := AEvicted (OpPut t' now name qtype ans n rcode)]> ts))
| a_put s ts t a t' now name qtype ans n rcode mem :
    ts !! t = Some a ->
    a = APending (OpPut t' now name qtype ans n rcode) \/ a = AEvicted (OpPut t' now name qtype ans n rcode) ->
    has_room name qtype s -> ((forall X, is_Some (calloc X)) -> mem = true) ->
    astep calloc (AMach s ts) []
      (AMach (lru_put mem now name qtype (ztake n ans) rcode s) (<[t := ADone None]> ts))
| a_ret s ts t r :
    ts !! t = Some (ADone r) ->
    astep calloc (AMach s ts) [ERet t r] (AMach s (<[t := AIdle]> ts)).

Inductive arun (calloc : gset loc -> option loc) : amach -> list event -> amach -> Prop :=
| arun_refl a : arun calloc a [] a
| arun_step a1 e1 a2 e2 a3 : astep calloc a1 e1 a2 -> arun calloc a2 e2 a3 -> arun calloc a1 (e1 ++ e2) a3.

Definition ainit (n : nat) : amach := AMach lru_empty (replicate n AIdle).

(** ** The simulation *)

(** What the recorded calls leave in slot [i]. *)
Definition fop_net (i : Z) (o : fop) : Z :=
  match o with
  | FAdd _ h => if decide (i ∈ bloom_slots h) then 1 else 0
  | FDel h => if decide (i ∈ bloom_slots h) then -1 else 0
  end.

Fixpoint log_net (i : Z) (f : flog) : Z :=
  match f with
  | [] => 0
  | o :: f' => fop_net i o + log_net i f'
  end.

(** How often the updates [todo] count slot [i] up and down. *)
Fixpoint incs (i : Z) (todo : list slot_update) : Z :=
  match todo with
  | [] => 0
  | Inc _ j :: todo' => (if decide (i = j) then 1 else 0) + incs i todo'
  | Dec _ :: todo' => incs i todo'
  end.

Fixpoint decs (i : Z) (todo : list slot_update) : Z :=
  match todo with
  | [] => 0
  | Dec j :: todo' => (if decide (i = j) then 1 else 0) + decs i todo'
  | Inc _ _ :: todo' => decs i todo'
  end.

(** The operation inside of the mutex, and the updates it has left. *)
Definition held (m : mach) : option (cache_op * list slot_update) :=
  match m_owner m with
  | Some t => match m_threads m !! t with Some (TInside o _ todo) => Some (o, todo) | _ => None end
  | None => None
  end.

Definition left_todo (m : mach) : list slot_update :=
  match held m with Some (_, todo) => todo | None => [] end.

Definition outside (x : tstate) : Prop := match x with TInside _ _ _ => False | _ => True end.

(** How many threads were told "absent" and have not counted the miss. *)
Fixpoint rejected (ts : list tstate) : Z :=
  match ts with
  | [] => 0
  | x :: ts' => match x with TRejected => 1 | _ => 0 end + rejected ts'
  end.

Definition set_misses (k : Z) (c : cache flog) : cache flog :=
  Cache (c_heap c) (c_buckets c) (c_lru_head c) (c_lru_tail c) (c_entry_count c) (c_hits c) k
    (c_evictions c) (c_expirations c) (c_filter c).
Definition with_misses (k : Z) (s : lru) : lru :=
  Lru (l_entries s) (l_hits s) k (l_evictions s) (l_expirations s).

(** A thread and its abstract state: a lookup takes effect when the filter
    rejects it or when it takes the mutex, an insertion when it releases it. *)
Definition trel (t : nat) (x : tstate) (a : athread) : Prop :=
  match x with
  | TIdle => a = AIdle
  | TStart o | TLock o => a = APending o /\ op_ok o /\ op_thread o = t
  | TLook o _ todo =>
      a = APending o /\ op_ok o /\ op_thread o = t /\
      exists now name qtype cap, o = OpGet t now name qtype cap /\ todo ⊆ bloom_slots (dns_key_hash name qtype)
  | TRejected => a = ADone None
  | TInside (OpGet _ _ _ _ _) r _ => a = ADone r
  | TInside (OpPut _ _ _ _ _ _ _ as o) r _ => r = None /\ (a = APending o \/ a = AEvicted o)
  | TReturn r => a = ADone r
  end.

Lemma log_net_app i f g : log_net i (f ++ g) = log_net i f + log_net i g.
Proof. induction f as [|o f IH]; cbn; [done|]. rewrite IH. lia. Qed.

(** The recorded calls cover the keys when the slots add up. *)
#[global] Instance flog_laws : FilterLaws flog.
Proof.
  refine {| covers := fun f l => forall i, log_net i f = users i l |}.
  - intros f l k E. by setoid_rewrite (fun i => users_perm i l k E).
  - done.
  - done.
  - intros f t h l Hc i. change (log_net i (f ++ [FAdd t h]) = users i (h :: l)).
    rewrite log_net_app, Hc, users_cons. cbn. case_decide; lia.
  - intros f t h l Hc i. change (log_net i (f ++ [FDel h]) = users i l).
    rewrite log_net_app, Hc, users_cons. cbn. case_decide; lia.
  - done.
Defined.

(** What the heap represents: the abstract map, with the insertion under way. *)
Definition represents (calloc : gset loc -> option loc) (c : cache flog) (o : option cache_op) (s : lru) : Prop :=
  match o with
  | Some (OpPut _ now name qtype ans n rcode) =>
      has_room name qtype s /\
      exists mem, rep c (lru_put mem now name qtype (ztake n ans) rcode s) /\
        ((forall X, is_Some (calloc X)) -> mem = true)
  | _ => rep c s
  end.

Record sim (calloc : gset loc -> option loc) (m : mach) (a : amach) : Prop := Sim {
  sim_threads : forall t x, m_threads m !! t = Some x -> exists y, a_threads a !! t = Some y /\ trel t x y;
  sim_owner : forall t x, m_threads m !! t = Some x -> ~ outside x -> m_owner m = Some t;
  sim_slots : forall i, 0 <= slot (m_bloom m) i <= BLOOM_MAX /\
    (slot (m_bloom m) i = BLOOM_MAX \/
     slot (m_bloom m) i = log_net i (c_filter (m_cache m)) - incs i (left_todo m) + decs i (left_todo m));
  sim_live : forall i, users i (entry_hash <$> l_entries (a_lru a)) + incs i (left_todo m) <= log_net i (c_filter (m_cache m));
  sim_rep : represents calloc (m_cache m) (fst <$> held m) (with_misses (c_misses (m_cache m)) (a_lru a));
  sim_misses : l_misses (a_lru a) = u64 (c_misses (m_cache m) + rejected (m_threads m));
  sim_range : u64 (c_misses (m_cache m)) = c_misses (m_cache m)
}.

(** ** Lemmas: counting *)

Lemma decs_nonneg i todo : 0 <= decs i todo.
Proof. induction todo as [|[t j|j] todo IH]; cbn; [done|done|]. case_decide; lia. Qed.

Lemma incs_nonneg i todo : 0 <= incs i todo.
Proof. induction todo as [|[t j|j] todo IH]; cbn; [done| |done]. case_decide; lia. Qed.

Lemma incs_app i l k : incs i (l ++ k) = incs i l + incs i k.
Proof. induction l as [|[t j|j] l IH]; cbn; [done| |done]. case_decide; lia. Qed.

Lemma decs_app i l k : decs i (l ++ k) = decs i l + decs i k.
Proof. induction l as [|[t j|j] l IH]; cbn; [done|done|]. case_decide; lia. Qed.

Lemma incs_slots i t l : NoDup l -> incs i (Inc t <$> l) = if decide (i ∈ l) then 1 else 0.
Proof.
  induction 1 as [|j l Hj _ IH]; cbn; [done|]. rewrite IH. destruct (decide (i = j)) as [->|E].
  - rewrite decide_False, decide_True by (done || set_solver). done.
  - rewrite Z.add_0_l. apply decide_ext. set_solver.
Qed.

Lemma decs_slots i l : NoDup l -> decs i (Dec <$> l) = if decide (i ∈ l) then 1 else 0.
Proof.
  induction 1 as [|j l Hj _ IH]; cbn; [done|]. rewrite IH. destruct (decide (i = j)) as [->|E].
  - rewrite decide_False, decide_True by (done || set_solver). done.
  - rewrite Z.add_0_l. apply decide_ext. set_solver.
Qed.

Lemma incs_Dec i l : incs i (Dec <$> l) = 0.
Proof. by induction l. Qed.

Lemma decs_Inc i t l : decs i (Inc t <$> l) = 0.
Proof. by induction l. Qed.

Lemma incs_updates i o : incs i (updates_of o) = match o with FAdd _ _ => fop_net i o | FDel _ => 0 end.
Proof. destruct o; cbn; [apply incs_slots, bloom_slots_nodup|apply incs_Dec]. Qed.

(** The updates do to the counters what the recorded calls say. *)
Lemma updates_net i f : incs i (concat (updates_of <$> f)) - decs i (concat (updates_of <$> f)) = log_net i f.
Proof.
  induction f as [|o f IH]; cbn; [done|]. rewrite incs_app, decs_app.
  enough (incs i (updates_of o) - decs i (updates_of o) = fop_net i o) by lia. rewrite incs_updates.
  destruct o as [t h|h]; cbn; [rewrite decs_Inc; lia|]. rewrite decs_slots by apply bloom_slots_nodup. case_decide; lia.
Qed.

(** Played to the end, they are the loops of the filter. *)
Lemma updates_add t h b : fold_left apply_update (updates_of (FAdd t h)) b = dns_bloom_add t h b.
Proof. unfold dns_bloom_add. cbn. generalize (bloom_slots h) as l. intros l. revert b. induction l as [|i l IH]; intros b; cbn; auto. Qed.

Lemma updates_del h b : fold_left apply_update (updates_of (FDel h)) b = dns_bloom_del h b.
Proof. unfold dns_bloom_del. cbn. generalize (bloom_slots h) as l. intros l. revert b. induction l as [|i l IH]; intros b; cbn; auto. Qed.

Lemma rejected_nonneg ts : 0 <= rejected ts.
Proof. induction ts as [|x ts IH]; cbn; [done|]. destruct x; lia. Qed.

Definition is_rejected (x : tstate) : Z := match x with TRejected => 1 | _ => 0 end.

Lemma rejected_insert ts t x y : ts !! t = Some x -> rejected (<[t := y]> ts) = rejected ts - is_rejected x + is_rejected y.
Proof.
  revert t. induction ts as [|z ts IH]; intros [|t] Hl; [done|done| |].
  - injection Hl as ->. destruct x, y; cbn; lia.
  - change (<[S t := y]> (z :: ts)) with (z :: <[t := y]> ts). cbn [rejected]. rewrite (IH t Hl). destruct z; lia.
Qed.

(** ** Lemmas: the state inside of the mutex *)

Lemma held_set m c b t x y : m_threads m !! t = Some x -> outside x -> outside y ->
  held (Mach c b (m_owner m) (<[t := y]> (m_threads m))) = held m.
Proof.
  intros Hx Ox Oy. unfold held. cbn. destruct (m_owner m) as [t'|]; [|done].
  destruct (decide (t' = t)) as [->|Hne].
  - rewrite list_lookup_insert_eq by (by eapply lookup_lt_Some). rewrite Hx. by destruct x, y.
  - by rewrite list_lookup_insert_ne.
Qed.

Lemma left_todo_set m c b t x y : m_threads m !! t = Some x -> outside x -> outside y ->
  left_todo (Mach c b (m_owner m) (<[t := y]> (m_threads m))) = left_todo m.
Proof. intros. unfold left_todo. by erewrite held_set. Qed.

Lemma held_inside c b t o r todo ts : (t < length ts)%nat ->
  held (Mach c b (Some t) (<[t := TInside o r todo]> ts)) = Some (o, todo).
Proof. intros Hl. unfold held. cbn. by rewrite list_lookup_insert_eq. Qed.

(** ** Lemmas: the miss counter on its own *)

Lemma rep_misses k (c : cache flog) s : rep c s -> rep (set_misses k c) (with_misses k s).
Proof. intros (ls & R1 & R2 & R3 & R4 & R5 & R6 & R7 & R8 & R9 & R10 & R11 & R12 & R13). exists ls. by split_and!. Qed.

Lemma rep_own_misses (c : cache flog) s : rep c s -> with_misses (c_misses c) s = s.
Proof. intros (ls & _ & _ & _ & _ & _ & _ & _ & _ & _ & _ & Hm & _). rewrite Hm. by destruct s. Qed.

Lemma make_room_misses now k s : lru_make_room now (with_misses k s) = with_misses k (lru_make_room now s).
Proof.
  unfold lru_make_room. change (l_entries (with_misses k s)) with (l_entries s).
  destruct (CACHE_CAPACITY <=? _); [|done]. by destruct (victim now (l_entries s)).
Qed.

Lemma put_misses mem now name qtype ans rcode k s :
  lru_put mem now name qtype ans rcode (with_misses k s) = with_misses k (lru_put mem now name qtype ans rcode s).
Proof.
  unfold lru_put. change (l_entries (with_misses k s)) with (l_entries s).
  destruct (find_key _ _); [done|]. cbv zeta. rewrite make_room_misses. by destruct mem.
Qed.

Lemma get_misses now name qtype cap k s :
  (lru_get now name qtype cap (with_misses k s)).2 = (lru_get now name qtype cap s).2 /\
  l_entries (lru_get now name qtype cap (with_misses k s)).1 = l_entries (lru_get now name qtype cap s).1 /\
  (forall j, with_misses j (lru_get now name qtype cap (with_misses k s)).1 = with_misses j (lru_get now name qtype cap s).1) /\
  (forall r, l_misses s = u64 (k + r) ->
    l_misses (lru_get now name qtype cap s).1 = u64 (l_misses (lru_get now name qtype cap (with_misses k s)).1 + r)) /\
  (u64 k = k -> u64 (l_misses (lru_get now name qtype cap (with_misses k s)).1) = l_misses (lru_get now name qtype cap (with_misses k s)).1).
Proof.
  destruct s as [es h m v x]. unfold lru_get, with_misses. cbn [l_entries l_hits l_misses l_evictions l_expirations].
  destruct (find_key _ _) as [e|]; [destruct (e_expires e <=? now)|];
    (split_and!; [done..| |intros; cbn; by rewrite ?u64_u64]); cbn; intros r ->; unfold u64; rewrite ?Zplus_mod_idemp_l; f_equal; lia.
Qed.

Lemma represents_misses calloc k (c : cache flog) o s :
  represents calloc c o s -> represents calloc (set_misses k c) o (with_misses k s).
Proof.
  destruct o as [[|]|]; cbn; try apply rep_misses. intros (Hr & mem & Hrep & Hm). split; [done|].
  exists mem. rewrite put_misses. split; [by apply rep_misses|done].
Qed.

(** ** Lemmas: steps outside of the mutex *)

Section simulation.
Context (calloc : gset loc -> option loc).

(** A thread moves from one place outside of the mutex to another. *)
Lemma sim_move m a t x y ay b k k' : sim calloc m a -> m_threads m !! t = Some x -> outside x -> outside y -> trel t y ay ->
  (forall i, slot b i = slot (m_bloom m) i) -> k' = u64 (k + rejected (<[t := y]> (m_threads m))) -> u64 k = k ->
  sim calloc (Mach (set_misses k (m_cache m)) b (m_owner m) (<[t := y]> (m_threads m)))
    (AMach (with_misses k' (a_lru a)) (<[t := ay]> (a_threads a))).
Proof.
  intros [S1 S2 S3 S4 S5 S6 S7] Hx Ox Oy Hrel Hb Hk Hrange. pose proof (lookup_lt_Some _ _ _ Hx) as Hlt.
  destruct (S1 t x Hx) as (ax & Hax & _). pose proof (lookup_lt_Some _ _ _ Hax) as Hlta.
  assert (forall c b, held (Mach c b (m_owner m) (<[t := y]> (m_threads m))) = held m) as Eh by (intros; by eapply held_set).
  assert (forall c b, left_todo (Mach c b (m_owner m) (<[t := y]> (m_threads m))) = left_todo m) as El by (intros; by eapply left_todo_set).
  split; rewrite ?Eh, ?El; cbn [m_threads m_owner m_bloom m_cache a_lru a_threads c_filter set_misses with_misses l_entries c_misses l_misses].
  - intros t' x'. destruct (decide (t' = t)) as [->|Hne].
    + rewrite !list_lookup_insert_eq by done. intros [= <-]. eauto.
    + rewrite !list_lookup_insert_ne by done. apply S1.
  - intros t' x'. destruct (decide (t' = t)) as [->|Hne].
    + rewrite list_lookup_insert_eq by done. by intros [= <-].
    + rewrite list_lookup_insert_ne by done. apply S2.
  - intros i. rewrite Hb. apply S3.
  - apply S4.
  - apply (represents_misses calloc k) in S5. exact S5.
  - done.
  - done.
Qed.

Lemma set_own_misses (c : cache flog) : set_misses (c_misses c) c = c.
Proof. by destruct c. Qed.

Lemma with_own_misses s : with_misses (l_misses s) s = s.
Proof. by destruct s. Qed.

(** A move that counts nothing. *)
Lemma sim_local m a t x y ay b : sim calloc m a -> m_threads m !! t = Some x -> outside x -> outside y -> trel t y ay ->
  (forall i, slot b i = slot (m_bloom m) i) -> is_rejected x = is_rejected y ->
  sim calloc (Mach (m_cache m) b (m_owner m) (<[t := y]> (m_threads m))) (AMach (a_lru a) (<[t := ay]> (a_threads a))).
Proof.
  intros Hs Hx Ox Oy Hrel Hb Hr.
  rewrite <- (set_own_misses (m_cache m)), <- (with_own_misses (a_lru a)) at 1. apply sim_move with x; try done; [|apply Hs].
  rewrite (rejected_insert _ _ x y Hx), Hr, (sim_misses _ _ _ Hs). f_equal. lia.
Qed.

(** A counter that is 0 is a counter of no key in the map. *)
Lemma sim_zero m a i name qtype : sim calloc m a -> slot (m_bloom m) i = 0 -> i ∈ bloom_slots (dns_key_hash name qtype) ->
  find_key (key_of name qtype) (l_entries (a_lru a)) = None.
Proof.
  intros Hs Hz Hi. destruct (find_key _ _) as [e|] eqn:E; [exfalso|done]. apply find_key_elem in E as [Hin Hk].
  pose proof (users_elem i (entry_hash e) (entry_hash <$> l_entries (a_lru a))) as Hu.
  assert (entry_hash e = dns_key_hash name qtype) as Eh by (by apply key_of_hash).
  rewrite Eh in Hu. specialize (Hu ltac:(apply list_elem_of_fmap; by exists e) Hi).
  destruct (sim_slots _ _ _ Hs i) as [_ [Hm|Hm]]; rewrite Hz in Hm; [done|].
  pose proof (sim_live _ _ _ Hs i). pose proof (decs_nonneg i (left_todo m)). lia.
Qed.

(** ** Lemmas: steps inside of the mutex *)

Lemma sim_held m a t o r todo : sim calloc m a -> m_threads m !! t = Some (TInside o r todo) ->
  m_owner m = Some t /\ held m = Some (o, todo) /\ left_todo m = todo.
Proof.
  intros Hs Hx. pose proof (sim_owner _ _ _ Hs t _ Hx ltac:(cbn; auto)) as Ho.
  assert (held m = Some (o, todo)) as Hh by (unfold held; by rewrite Ho, Hx).
  split_and!; [done..|]. unfold left_todo. by rewrite Hh.
Qed.

(** The counters after one update, in terms of those before. *)
Lemma slot_apply b u i live net todo : (forall j, 0 <= slot b j <= BLOOM_MAX) -> 0 <= live ->
  live + incs i (u :: todo) <= net ->
  slot b i = BLOOM_MAX \/ slot b i = net - incs i (u :: todo) + decs i (u :: todo) ->
  0 <= slot (apply_update b u) i <= BLOOM_MAX /\
  (slot (apply_update b u) i = BLOOM_MAX \/ slot (apply_update b u) i = net - incs i todo + decs i todo).
Proof.
  intros Hb Hl Hn Hs. pose proof (Hb i). pose proof (incs_nonneg i todo). pose proof (decs_nonneg i todo).
  destruct u as [t j|j]; cbn [apply_update incs decs] in *.
  - rewrite slot_add_slot by done. destruct (decide (i = j)) as [->|Hne]; unfold BLOOM_MAX in *.
    + rewrite decide_True by done. lia.
    + rewrite decide_False by done. lia.
  - rewrite slot_del_slot by done. destruct (decide (i = j)) as [->|Hne]; unfold BLOOM_MAX in *.
    + rewrite decide_True by done. case_test; lia.
    + rewrite decide_False by done. lia.
Qed.

Lemma sim_update m a t o r u todo : sim calloc m a -> m_threads m !! t = Some (TInside o r (u :: todo)) ->
  sim calloc (set_bloom (apply_update (m_bloom m) u) (set_thread t (TInside o r todo) m)) a.
Proof.
  intros Hs Hx. destruct (sim_held _ _ _ _ _ _ Hs Hx) as (Ho & Hh & Hl). pose proof (lookup_lt_Some _ _ _ Hx) as Hlt.
  destruct Hs as [S1 S2 S3 S4 S5 S6 S7]. rewrite Hh in S5. rewrite Hl in S3, S4. unfold set_bloom, set_thread. cbn.
  rewrite Ho. assert (forall c b, held (Mach c b (Some t) (<[t := TInside o r todo]> (m_threads m))) = Some (o, todo)) as Eh
    by (intros; by apply held_inside).
  split; unfold left_todo; rewrite ?Eh; cbn [m_threads m_owner m_bloom m_cache].
  - intros t' x'. destruct (decide (t' = t)) as [->|Hne].
    + rewrite list_lookup_insert_eq by done. intros [= <-]. by apply S1 in Hx.
    + rewrite list_lookup_insert_ne by done. apply S1.
  - intros t' x'. destruct (decide (t' = t)) as [->|Hne]; [done|].
    rewrite list_lookup_insert_ne by done. intros Hx' Hout. rewrite <- Ho. by eapply S2.
  - intros i. eapply slot_apply; [intros; apply S3|apply users_nonneg|apply S4|apply S3].
  - intros i. specialize (S4 i). destruct u as [t' j|j]; cbn [incs] in S4; [|done]. destruct (decide (i = j)); lia.
  - exact S5.
  - rewrite (rejected_insert _ _ _ _ Hx). cbn. rewrite S6. f_equal. lia.
  - done.
Qed.

(** The mutex is released: what was under way has happened. *)
Lemma sim_leave m a t o r s ay : sim calloc m a -> m_threads m !! t = Some (TInside o r []) ->
  represents calloc (m_cache m) None (with_misses (c_misses (m_cache m)) s) -> l_misses s = l_misses (a_lru a) ->
  ay = ADone r ->
  sim calloc (Mach (m_cache m) (m_bloom m) None (<[t := TReturn r]> (m_threads m))) (AMach s (<[t := ay]> (a_threads a))).
Proof.
  intros Hs Hx Hrep Hm ->. destruct (sim_held _ _ _ _ _ _ Hs Hx) as (Ho & Hh & Hl). pose proof (lookup_lt_Some _ _ _ Hx) as Hlt.
  destruct Hs as [S1 S2 S3 S4 S5 S6 S7]. destruct (S1 t _ Hx) as (ax & Hax & _). pose proof (lookup_lt_Some _ _ _ Hax) as Hlta.
  rewrite Hl in S3. split; unfold left_todo, held; cbn [m_threads m_owner m_bloom m_cache a_lru a_threads].
  - intros t' x'. destruct (decide (t' = t)) as [->|Hne].
    + rewrite !list_lookup_insert_eq by done. intros [= <-]. by exists (ADone r).
    + rewrite !list_lookup_insert_ne by done. apply S1.
  - intros t' x'. destruct (decide (t' = t)) as [->|Hne].
    + rewrite list_lookup_insert_eq by done. intros [= <-] Hout. by destruct Hout.
    + rewrite list_lookup_insert_ne by done. intros Hx' Hout. pose proof (S2 _ _ Hx' Hout) as Ho'. congruence.
  - exact S3.
  - intros i. destruct Hrep as (ls & _ & _ & _ & _ & _ & _ & Hc & _). rewrite (Hc i). cbn. lia.
  - exact Hrep.
  - rewrite Hm, S6, (rejected_insert _ _ _ _ Hx). cbn. f_equal. lia.
  - done.
Qed.

(** The mutex is taken. *)
Lemma sim_enter m a t o r c s ay new : sim calloc m a -> m_owner m = None -> m_threads m !! t = Some (TLock o) ->
  c_filter c = c_filter (m_cache m) ++ new -> trel t (TInside o r (concat (updates_of <$> new))) ay ->
  (forall i, users i (entry_hash <$> l_entries s) + incs i (concat (updates_of <$> new)) <= log_net i (c_filter c)) ->
  represents calloc c (Some o) (with_misses (c_misses c) s) ->
  l_misses s = u64 (c_misses c + rejected (m_threads m)) -> u64 (c_misses c) = c_misses c ->
  sim calloc (Mach c (m_bloom m) (Some t) (<[t := TInside o r (new_updates (m_cache m) c)]> (m_threads m)))
    (AMach s (<[t := ay]> (a_threads a))).
Proof.
  intros [S1 S2 S3 S4 S5 S6 S7] Ho Hx Hnew Hrel Hlive Hrep Hm Hrange. pose proof (lookup_lt_Some _ _ _ Hx) as Hlt.
  destruct (S1 t _ Hx) as (ax & Hax & _). pose proof (lookup_lt_Some _ _ _ Hax) as Hlta.
  assert (new_updates (m_cache m) c = concat (updates_of <$> new)) as -> by (unfold new_updates; by rewrite Hnew, drop_app_length).
  assert (left_todo m = []) as Hl by (unfold left_todo, held; by rewrite Ho). rewrite Hl in S3.
  split; unfold left_todo; rewrite ?held_inside by done; cbn [m_threads m_owner m_bloom m_cache a_lru a_threads fmap option_fmap option_map fst].
  - intros t' x'. destruct (decide (t' = t)) as [->|Hne].
    + rewrite !list_lookup_insert_eq by done. intros [= <-]. by exists ay.
    + rewrite !list_lookup_insert_ne by done. apply S1.
  - intros t' x'. destruct (decide (t' = t)) as [->|Hne]; [done|].
    rewrite list_lookup_insert_ne by done. intros Hx' Hout. pose proof (S2 _ _ Hx' Hout). congruence.
  - intros i. destruct (S3 i) as [Hr Hs]. split; [done|]. destruct Hs as [Hs|Hs]; [by left|right].
    rewrite Hs, Hnew, log_net_app. cbn [incs decs]. pose proof (updates_net i new). lia.
  - done.
  - done.
  - rewrite (rejected_insert _ _ _ _ Hx). cbn. rewrite Hm. f_equal. lia.
  - done.
Qed.

(** ** Lemmas: what a critical section records *)

Lemma get_calls_log t now name qtype s (f : flog) :
  exists new, get_calls t now name qtype s f = f ++ new /\ forall i, incs i (concat (updates_of <$> new)) = 0.
Proof.
  unfold get_calls. destruct (find_key _ _) as [e|]; [destruct (e_expires e <=? now)|].
  - exists [FDel (entry_hash e)]. split; [done|]. intros i. cbn [fmap list_fmap concat]. rewrite app_nil_r. apply incs_Dec.
  - exists []. by rewrite app_nil_r.
  - exists []. by rewrite app_nil_r.
Qed.

Definition new_key_slots (i : Z) (mem : bool) (name : list Z) (qtype : Z) (s : lru) : Z :=
  match find_key (key_of name qtype) (l_entries s) with
  | Some _ => 0
  | None => if mem then if decide (i ∈ bloom_slots (dns_key_hash name qtype)) then 1 else 0 else 0
  end.

Lemma put_calls_log mem t now name qtype s (f : flog) :
  exists new, put_calls mem t now name qtype s f = f ++ new /\
    forall i, incs i (concat (updates_of <$> new)) = new_key_slots i mem name qtype s.
Proof.
  unfold put_calls, new_key_slots. destruct (find_key _ _) as [e|]; [exists []; by rewrite app_nil_r|].
  assert (exists dels, room_calls t now s f = f ++ dels /\ forall i, incs i (concat (updates_of <$> dels)) = 0) as (dels & -> & Hd).
  { unfold room_calls. destruct (CACHE_CAPACITY <=? _), (victim now (l_entries s)) as [e|];
      try (exists []; by rewrite app_nil_r).
    exists [FDel (entry_hash e)]. split; [done|]. intros i. cbn [fmap list_fmap concat]. rewrite app_nil_r. apply incs_Dec. }
  destruct mem; [|by exists dels]. exists (dels ++ [FAdd t (dns_key_hash name qtype)]). split; [by rewrite app_assoc|].
  intros i. rewrite fmap_app, concat_app, incs_app, Hd. cbn [fmap list_fmap concat]. rewrite app_nil_r, Z.add_0_l.
  apply incs_slots, bloom_slots_nodup.
Qed.

(** ** Lemmas: the abstract insertion *)

Lemma remove_key_perm e es : NoDup (entry_key <$> es) -> e ∈ es -> es ≡ₚ e :: remove_key (entry_key e) es.
Proof.
  intros Hn (e1 & e2 & ->)%list_elem_of_split. rewrite (proj2 (find_key_split e1 e e2 Hn)).
  symmetry. apply Permutation_middle.
Qed.

Lemma make_room_room now s : zlen (l_entries s) <= CACHE_CAPACITY -> zlen (l_entries (lru_make_room now s)) < CACHE_CAPACITY.
Proof.
  intros Hc. unfold lru_make_room. destruct (Z.leb_spec CACHE_CAPACITY (zlen (l_entries s))) as [Hge|]; [|done].
  assert (exists e, victim now (l_entries s) = Some e /\ e ∈ l_entries s) as (e & -> & Hin).
  { destruct (victim now (l_entries s)) as [e|] eqn:E.
    - exists e. split; [done|]. apply victim_old in E as [Hin _].
      apply elem_of_take in Hin as (i & Hi & _). apply list_elem_of_lookup_2 in Hi. by rewrite elem_of_reverse in Hi.
    - exfalso. unfold victim in E. destruct (snd <$> _); [done|]. apply last_None in E. by rewrite E in Hge. }
  cbn [l_entries]. pose proof (zlen_remove_key e _ Hin). lia.
Qed.

(** Eviction may come first. *)
Lemma put_after_room mem now name qtype ans rcode s :
  find_key (key_of name qtype) (l_entries s) = None -> zlen (l_entries s) <= CACHE_CAPACITY ->
  lru_put mem now name qtype ans rcode (lru_make_room now s) = lru_put mem now name qtype ans rcode s.
Proof.
  intros Hf Hc. unfold lru_put. rewrite Hf, find_key_make_room by done. cbv zeta.
  enough (lru_make_room now (lru_make_room now s) = lru_make_room now s) as -> by done.
  pose proof (make_room_room now s Hc). unfold lru_make_room at 1. by rewrite (proj2 (Z.leb_gt _ _)).
Qed.

(** Which counters an insertion without eviction adds to. *)
Lemma put_users i mem now name qtype ans rcode s : NoDup (entry_key <$> l_entries s) -> has_room name qtype s ->
  users i (entry_hash <$> l_entries (lru_put mem now name qtype ans rcode s)) =
  users i (entry_hash <$> l_entries s) + new_key_slots i mem name qtype s.
Proof.
  intros Hn Hr. unfold lru_put, new_key_slots. destruct (find_key _ _) as [e|] eqn:E.
  - apply find_key_elem in E as [Hin Hk]. cbn [lru_push l_entries]. rewrite (users_perm i (entry_hash <$> l_entries s)
      (entry_hash <$> e :: remove_key (entry_key e) (l_entries s))) by (f_equiv; by apply remove_key_perm).
    rewrite Hk, !fmap_cons, !users_cons. by rewrite Z.add_0_r.
  - destruct Hr as [Hr|Hr]; [done|].
    unfold lru_make_room. rewrite (proj2 (Z.leb_gt _ _)) by done. destruct mem; cbn [lru_push l_entries]; [|lia].
    rewrite fmap_cons, users_cons. match goal with |- context [entry_hash ?e] => assert (entry_hash e = dns_key_hash name qtype) as -> end.
    { apply key_hash_fold, fold_case_cstr. }
    lia.
Qed.

(** ** Lemmas: taking the mutex *)

Lemma rep_facts (c : cache flog) s : rep c s ->
  NoDup (entry_key <$> l_entries s) /\ (forall i, log_net i (c_filter c) = users i (entry_hash <$> l_entries s)) /\
  zlen (l_entries s) <= CACHE_CAPACITY /\ c_misses c = l_misses s.
Proof. intros (ls & _ & _ & _ & _ & _ & ? & ? & ? & _ & _ & ? & _). done. Qed.

Lemma acquire_get m a t now name qtype cap : sim calloc m a -> m_owner m = None ->
  m_threads m !! t = Some (TLock (OpGet t now name qtype cap)) ->
  exists m' a', thread_step calloc t (TLock (OpGet t now name qtype cap)) m = Ok (m', []) /\
    astep calloc a [] a' /\ sim calloc m' a'.
Proof.
  intros Hs Ho Hx. destruct a as [s ats]. destruct (sim_threads _ _ _ Hs t _ Hx) as (ax & Hax & -> & Hok & _).
  pose proof (sim_rep _ _ _ Hs) as Hrep. unfold held in Hrep. rewrite Ho in Hrep. cbn [represents fmap option_fmap option_map] in Hrep.
  cbn [a_lru] in Hrep. set (k := c_misses (m_cache m)) in *.
  destruct (get_rep_calls t now name qtype cap _ _ Hrep Hok) as (c & Hget & Hrep' & Hf).
  destruct (get_misses now name qtype cap k s) as (G1 & G2 & G3 & G4 & G5).
  destruct (get_calls_log t now name qtype (with_misses k s) (c_filter (m_cache m))) as (new & Hnew & Hinc).
  cbn [f_maybe flog_filter fst] in Hf. rewrite Hnew in Hf. destruct (rep_facts _ _ Hrep') as (_ & Hc & _ & Hm).
  cbn [thread_step critical]. rewrite Ho, Hget, Ok_bind. do 2 eexists. split; [done|]. split; [by eapply (a_get calloc s ats)|].
  apply (sim_enter m (AMach s ats)) with new; try done; cbn [a_lru a_threads represents] in *.
  - cbn [trel]. by rewrite G1.
  - intros i. rewrite Hinc, Hc, G2. lia.
  - rewrite <- G3, (rep_own_misses _ _ Hrep'). done.
  - rewrite Hm. by apply G4, (sim_misses _ _ _ Hs).
  - rewrite Hm. apply G5, (sim_range _ _ _ Hs).
Qed.

(** What an insertion finds once there is room. *)
Lemma room_first mem now name qtype ans rcode s : zlen (l_entries s) <= CACHE_CAPACITY -> NoDup (entry_key <$> l_entries s) ->
  ~ has_room name qtype s ->
  has_room name qtype (lru_make_room now s) /\ NoDup (entry_key <$> l_entries (lru_make_room now s)) /\
  (forall i, new_key_slots i mem name qtype (lru_make_room now s) = new_key_slots i mem name qtype s) /\
  lru_put mem now name qtype ans rcode (lru_make_room now s) = lru_put mem now name qtype ans rcode s.
Proof.
  intros Hc Hn Hr. destruct (find_key (key_of name qtype) (l_entries s)) eqn:E; [destruct Hr; left; congruence|].
  split_and!.
  - right. by apply make_room_room.
  - unfold lru_make_room. destruct (CACHE_CAPACITY <=? _); [|done]. destruct (victim now (l_entries s)); [|done].
    cbn [l_entries]. eapply sublist_NoDup; [exact Hn|]. apply fmap_sublist, sublist_filter.
  - intros i. unfold new_key_slots. by rewrite E, find_key_make_room.
  - by apply put_after_room.
Qed.

Lemma has_room_dec name qtype s : has_room name qtype s \/ ~ has_room name qtype s.
Proof. unfold has_room. destruct (find_key _ _); [left; by left|]. destruct (Z.lt_ge_cases (zlen (l_entries s)) CACHE_CAPACITY); [left; by right|right]. intros [?|?]; [done|lia]. Qed.

Lemma arun_one a e a' : astep calloc a e a' -> arun calloc a e a'.
Proof. intros H. rewrite <- (app_nil_r e). eapply arun_step; [exact H|apply arun_refl]. Qed.

(** A section that inserts, on the map [s] with room: the cache already holds
    the new entry, the abstract map gets it when the mutex is released. *)
Lemma enter_put m s0 ats t now name qtype ans n rcode c mem s ay :
  let o := OpPut t now name qtype ans n rcode in
  sim calloc m (AMach s0 ats) -> m_owner m = None -> m_threads m !! t = Some (TLock o) ->
  rep c (with_misses (c_misses (m_cache m)) (lru_put mem now name qtype (ztake n ans) rcode s)) ->
  ((forall X, is_Some (calloc X)) -> mem = true) ->
  (exists new, c_filter c = c_filter (m_cache m) ++ new /\
    forall i, incs i (concat (updates_of <$> new)) = new_key_slots i mem name qtype s) ->
  has_room name qtype s -> NoDup (entry_key <$> l_entries s) -> l_misses s = l_misses s0 ->
  ay = APending o \/ ay = AEvicted o ->
  sim calloc (Mach c (m_bloom m) (Some t) (<[t := TInside o None (new_updates (m_cache m) c)]> (m_threads m)))
    (AMach s (<[t := ay]> ats)).
Proof.
  intros o Hs Ho Hx Hrep Hmem (new & Hnew & Hinc) Hr Hn Hms Hay. destruct (rep_facts _ _ Hrep) as (_ & Hc & _ & Hm).
  apply (sim_enter m (AMach s0 ats)) with new; try done; cbn [a_lru a_threads represents trel o with_misses l_misses l_entries] in *.
  - intros i. rewrite Hinc, Hc, put_users by done. lia.
  - split; [done|]. exists mem. split; [|done]. by rewrite Hm, put_misses.
  - pose proof (sim_misses _ _ _ Hs) as Hsm. cbn [a_lru] in Hsm. by rewrite Hms, Hm.
  - rewrite Hm. apply (sim_range _ _ _ Hs).
Qed.

Lemma acquire_put m a t now name qtype ans n rcode :
  (forall X l, calloc X = Some l -> l ∉ X) -> sim calloc m a -> m_owner m = None ->
  m_threads m !! t = Some (TLock (OpPut t now name qtype ans n rcode)) ->
  exists m' a', thread_step calloc t (TLock (OpPut t now name qtype ans n rcode)) m = Ok (m', []) /\
    arun calloc a [] a' /\ sim calloc m' a'.
Proof.
  intros Hfresh Hs Ho Hx. destruct a as [s ats].
  destruct (sim_threads _ _ _ Hs t _ Hx) as (ax & Hax & -> & (Hname & Hn0 & Hans) & _).
  pose proof (sim_rep _ _ _ Hs) as Hrep. unfold held in Hrep. rewrite Ho in Hrep.
  cbn [represents fmap option_fmap option_map a_lru a_threads] in *. set (k := c_misses (m_cache m)) in *.
  destruct (rep_facts _ _ Hrep) as (Hn & _ & Hcap & _). cbn [with_misses l_entries] in Hn, Hcap.
  destruct (put_rep_calls calloc t now name qtype ans n rcode _ _ Hrep Hname Hn0 Hans Hfresh) as (c & mem & Hput & Hrep' & Hmem & Hf).
  pose proof (mem_true _ _ Hmem) as Hall. clear Hmem. rename Hall into Hmem.
  destruct (put_calls_log mem t now name qtype (with_misses k s) (c_filter (m_cache m))) as (new & Hnew & Hinc).
  rewrite put_misses in Hrep'. rewrite Hnew in Hf. cbn [thread_step critical]. rewrite Ho, Hput, !Ok_bind.
  destruct (has_room_dec name qtype s) as [Hr|Hr].
  - do 2 eexists. split; [done|]. split; [apply arun_refl|].
    rewrite <- (list_insert_id ats t _ Hax). by eapply enter_put; eauto.
  - destruct (room_first mem now name qtype (ztake n ans) rcode s Hcap Hn Hr) as (R1 & R2 & R3 & R4).
    do 2 eexists. split; [done|]. split.
    + apply arun_one. by eapply (a_evict calloc s ats).
    + eapply (enter_put m s ats t now name qtype ans n rcode c mem); try done.
      * by rewrite R4.
      * exists new. split; [done|]. intros i. by rewrite R3, Hinc.
      * unfold lru_make_room. destruct (CACHE_CAPACITY <=? _); [|done]. by destruct (victim now (l_entries s)).
      * by right.
Qed.

Lemma release m a t o r : sim calloc m a -> m_threads m !! t = Some (TInside o r []) ->
  exists m' a', thread_step calloc t (TInside o r []) m = Ok (m', []) /\ arun calloc a [] a' /\ sim calloc m' a'.
Proof.
  intros Hs Hx. destruct a as [s ats]. destruct (sim_threads _ _ _ Hs t _ Hx) as (ax & Hax & Hrel).
  destruct (sim_held _ _ _ _ _ _ Hs Hx) as (Ho & Hh & _). pose proof (sim_rep _ _ _ Hs) as Hrep. rewrite Hh in Hrep.
  cbn [thread_step]. destruct o as [t' now name qtype cap|t' now name qtype ans n rcode]; cbn [trel] in Hrel.
  - subst ax. do 2 eexists. split; [done|]. split; [apply arun_refl|]. cbn [a_threads] in Hax.
    rewrite <- (list_insert_id ats t _ Hax). by eapply (sim_leave _ (AMach s ats)).
  - destruct Hrel as [-> Hax']. destruct Hrep as (Hr & mem & Hrep & Hm). do 2 eexists. split; [done|]. split.
    + apply arun_one. eapply (a_put calloc s ats); [exact Hax|exact Hax'|exact Hr|exact Hm].
    + eapply (sim_leave _ (AMach s ats)); [exact Hs|exact Hx| |cbn|done].
      * cbn [represents]. rewrite <- put_misses. exact Hrep.
      * unfold lru_put, lru_make_room. destruct (find_key _ _); [done|]. destruct (CACHE_CAPACITY <=? _), (victim now (l_entries s)), mem; done.
Qed.

(** ** Lemmas: every step *)

Lemma reject m a t o st i todo : sim calloc m a -> m_threads m !! t = Some (TLook o st (i :: todo)) -> slot (m_bloom m) i = 0 ->
  exists a', astep calloc a [] a' /\
    sim calloc (set_bloom (bump st inc_rejected (m_bloom m)) (set_thread t TRejected m)) a'.
Proof.
  intros Hs Hx Hz. destruct a as [s ats].
  destruct (sim_threads _ _ _ Hs t _ Hx) as (ax & Hax & -> & Hok & _ & now & name & qtype & cap & -> & Hsub).
  assert (find_key (key_of name qtype) (l_entries s) = None) as Hf by (eapply (sim_zero m (AMach s ats)); [done|done|set_solver]).
  assert (lru_get now name qtype cap s = (with_misses (u64 (l_misses s + 1)) s, None)) as Eg.
  { destruct s as [es h mi v x]. unfold lru_get. cbn [l_entries] in Hf. by rewrite Hf. }
  pose proof (a_get calloc s ats t t now name qtype cap Hax) as Hstep. rewrite Eg in Hstep. eexists. split; [exact Hstep|].
  unfold set_bloom, set_thread. cbn [m_cache m_bloom m_owner m_threads fst snd]. rewrite <- (set_own_misses (m_cache m)).
  eapply (sim_move m (AMach s ats)); [done|exact Hx|done..| |apply Hs]. pose proof (sim_misses _ _ _ Hs) as Hsm. cbn [a_lru] in Hsm.
  rewrite (rejected_insert _ _ _ _ Hx), Hsm. cbn. unfold u64. rewrite Zplus_mod_idemp_l. f_equal. lia.
Qed.

(** A move that the specification does not see. *)
Lemma sim_stay m a t x y b : sim calloc m a -> m_threads m !! t = Some x -> outside x -> outside y ->
  (forall ax, trel t x ax -> trel t y ax) -> (forall i, slot b i = slot (m_bloom m) i) -> is_rejected x = is_rejected y ->
  sim calloc (Mach (m_cache m) b (m_owner m) (<[t := y]> (m_threads m))) a.
Proof.
  intros Hs Hx Ox Oy Hrel Hb Hr. destruct a as [s ats]. destruct (sim_threads _ _ _ Hs t _ Hx) as (ax & Hax & Hax').
  rewrite <- (list_insert_id ats t _ Hax). eapply (sim_local m (AMach s ats)); eauto.
Qed.

Lemma count_rejection m a t : sim calloc m a -> m_threads m !! t = Some TRejected ->
  sim calloc (Mach (miss (m_cache m)) (m_bloom m) (m_owner m) (<[t := TReturn None]> (m_threads m))) a.
Proof.
  intros Hs Hx. destruct a as [s ats]. destruct (sim_threads _ _ _ Hs t _ Hx) as (ax & Hax & ->).
  rewrite <- (list_insert_id ats t _ Hax), <- (with_own_misses s).
  change (miss (m_cache m)) with (set_misses (u64 (c_misses (m_cache m) + 1)) (m_cache m)).
  apply (sim_move m (AMach s ats)) with TRejected; try done; [|by apply u64_u64].
  pose proof (sim_misses _ _ _ Hs) as Hsm. cbn [a_lru] in Hsm. rewrite (rejected_insert _ _ _ _ Hx), Hsm. cbn. unfold u64.
  rewrite Zplus_mod_idemp_l. f_equal. lia.
Qed.

(** A step that keeps the abstract state. *)
Ltac silent tac := do 3 eexists; split_and!; [done|apply arun_refl|];
  unfold set_bloom, set_thread; cbn [m_cache m_bloom m_owner m_threads]; tac.

Lemma sim_thread_step m a t x : (forall X l, calloc X = Some l -> l ∉ X) -> sim calloc m a -> m_threads m !! t = Some x ->
  exists m' evs a', thread_step calloc t x m = Ok (m', evs) /\ arun calloc a evs a' /\ sim calloc m' a'.
Proof.
  intros Hfresh Hs Hx. destruct x as [|o|o st [|i todo]| |o|o r [|u todo]|r].
  - exists m, [], a. split_and!; [done|apply arun_refl|done].
  - destruct o as [t' now name qtype cap|t' now name qtype ans n rcode]; cbn [thread_step].
    + pose proof (slot_shard t (m_bloom m)) as Hsl. destruct (shard t (m_bloom m)) as [b st]. cbn [fst] in Hsl.
      silent ltac:(eapply (sim_stay m)); try done.
      intros ax (-> & Hok & <-). cbn [op_thread trel]. split_and!; [done..|]. by exists now, name, qtype, cap.
    + silent ltac:(by eapply (sim_stay m)).
  - silent ltac:(eapply (sim_stay m)); try done. cbn. tauto.
  - cbn [thread_step]. destruct (Z.eqb_spec (slot (m_bloom m) i) 0) as [Hz|Hz].
    + destruct (reject m a t o st i todo Hs Hx Hz) as (a' & Ha & Hs'). do 3 eexists. split_and!; [done|by apply arun_one|done].
    + silent ltac:(eapply (sim_stay m)); try done.
      intros ax (-> & Hok & Ht & now & name & qtype & cap & -> & Hsub). split_and!; [done..|].
      exists now, name, qtype, cap. split; [done|set_solver].
  - do 3 eexists. split_and!; [done|apply arun_refl|by apply count_rejection].
  - destruct (m_owner m) as [t'|] eqn:Ho; cbn [thread_step].
    { rewrite Ho. do 3 eexists. split_and!; [done|apply arun_refl|done]. }
    destruct (sim_threads _ _ _ Hs t _ Hx) as (ax & _ & _ & _ & Ht).
    destruct o as [t' now name qtype cap|t' now name qtype ans n rcode]; cbn in Ht; subst t'.
    + destruct (acquire_get m a t now name qtype cap Hs Ho Hx) as (m' & a' & Hm & Ha & Hs').
      exists m', [], a'. split_and!; [done|by apply arun_one|done].
    + destruct (acquire_put m a t now name qtype ans n rcode Hfresh Hs Ho Hx) as (m' & a' & Hm & Ha & Hs'). eauto 10.
  - destruct (release m a t o r Hs Hx) as (m' & a' & Hm & Ha & Hs'). eauto 10.
  - do 3 eexists. split_and!; [done|apply arun_refl|by apply sim_update].
  - destruct a as [s ats]. destruct (sim_threads _ _ _ Hs t _ Hx) as (ax & Hax & ->). do 3 eexists. split_and!; [done| |].
    + apply arun_one. by eapply (a_ret calloc s ats).
    + by eapply (sim_local m (AMach s ats)).
Qed.

(** The calls have the arguments the cache expects. *)
Definition action_ok (act : action) : Prop := match act with Call o => op_ok o | Run _ => True end.

Lemma sim_mstep m a act : (forall X l, calloc X = Some l -> l ∉ X) -> action_ok act -> sim calloc m a ->
  exists m' evs a', mstep calloc act m = Ok (m', evs) /\ arun calloc a evs a' /\ sim calloc m' a'.
Proof.
  intros Hfresh Hok Hs. assert (exists m' evs a', Ok (m, []) = Ok (m', evs) /\ arun calloc a evs a' /\ sim calloc m' a') as Hno.
  { exists m, [], a. split_and!; [done|apply arun_refl|done]. }
  destruct act as [o|t]; cbn [mstep].
  - destruct (m_threads m !! op_thread o) as [x|] eqn:Hx; [|done]. destruct x; try done.
    destruct a as [s ats]. destruct (sim_threads _ _ _ Hs _ _ Hx) as (ax & Hax & ->). do 3 eexists. split_and!; [done| |].
    + apply arun_one. by apply (a_call calloc s ats).
    + by eapply (sim_local m (AMach s ats)).
  - destruct (m_threads m !! t) as [x|] eqn:Hx; [|done]. by apply sim_thread_step.
Qed.

Lemma arun_app a1 e1 a2 e2 a3 : arun calloc a1 e1 a2 -> arun calloc a2 e2 a3 -> arun calloc a1 (e1 ++ e2) a3.
Proof. induction 1 as [a|a e a' e' a'' Hs _ IH]; [done|]. intros H2. rewrite <- app_assoc. eapply arun_step; [done|auto]. Qed.

Lemma sim_mrun acts m a : (forall X l, calloc X = Some l -> l ∉ X) -> Forall action_ok acts -> sim calloc m a ->
  exists m' evs a', mrun calloc acts m = Ok (m', evs) /\ arun calloc a evs a' /\ sim calloc m' a'.
Proof.
  intros Hfresh Hok. revert m a. induction Hok as [|act acts Ha _ IH]; intros m a Hs; cbn [mrun].
  { exists m, [], a. split_and!; [done|apply arun_refl|done]. }
  destruct (sim_mstep m a act Hfresh Ha Hs) as (m1 & e1 & a1 & -> & Ha1 & Hs1). rewrite Ok_bind.
  destruct (IH m1 a1 Hs1) as (m2 & e2 & a2 & -> & Ha2 & Hs2). rewrite Ok_bind.
  exists m2, (e1 ++ e2), a2. split_and!; [done|by eapply arun_app|done].
Qed.

Lemma sim_init n : sim calloc (minit n) (ainit n).
Proof.
  split; unfold minit, ainit; cbn [m_threads m_owner m_bloom m_cache a_lru a_threads].
  - intros t x [-> Ht]%lookup_replicate. exists AIdle. split; [|done]. by apply lookup_replicate.
  - intros t x [-> _]%lookup_replicate Hout. by destruct Hout.
  - intros i. unfold slot. cbn. rewrite lookup_empty. cbn. unfold BLOOM_MAX. lia.
  - done.
  - cbn. by apply (init_rep (cache_zero [])).
  - cbn. assert (rejected (replicate n TIdle) = 0) as -> by (induction n; cbn; auto). done.
  - done.
Qed.

(** ** Lemmas: every call can return *)

(** The owner of the mutex is inside. *)
Definition owned (m : mach) : Prop :=
  forall t, m_owner m = Some t -> exists o r todo, m_threads m !! t = Some (TInside o r todo).

(** Steps to the mutex, and steps from it. *)
Definition pre_steps (x : tstate) : Z :=
  match x with
  | TStart _ => 3 + BLOOM_HASHES
  | TLook _ _ todo => 2 + zlen todo
  | TLock _ => 1
  | _ => 0
  end.
Definition post_steps (x : tstate) : Z :=
  match x with
  | TInside _ _ todo => 2 + zlen todo
  | TRejected => 2
  | TReturn _ => 1
  | _ => 0
  end.

(** A thread that is not idle, and can have the mutex if it asks for it, comes
    closer to its return. *)
Lemma thread_step_closer t x m m' evs : thread_step calloc t x m = Ok (m', evs) -> x <> TIdle ->
  (forall o, x = TLock o -> m_owner m = None) ->
  exists y, m_threads m' = <[t := y]> (m_threads m) /\
    (pre_steps y < pre_steps x \/ pre_steps y = pre_steps x /\ post_steps y < post_steps x) /\
    (m_owner m' = m_owner m \/ m_owner m' = None \/ m_owner m' = Some t) /\
    (m_owner m' = Some t -> outside x -> m_owner m = Some t \/ ~ outside y) /\
    (m_owner m' = Some t -> ~ outside x -> ~ outside y).
Proof.
  intros Hstep Hx Ho. destruct x as [|o|o st todo| |o|o r todo|r]; cbn [thread_step] in Hstep; [done|..].
  - destruct o as [? ? name qtype ?|]; [destruct (shard t (m_bloom m)) as [b st]|]; injection Hstep as <- <-; eexists;
      (split; [reflexivity|]); cbn [pre_steps post_steps outside m_owner set_bloom set_thread]; (split; [left|]; [|tauto]); [|done].
    unfold bloom_slots. rewrite zlen_fmap. done.
  - destruct todo as [|i todo]; [injection Hstep as <- <-|case_match; injection Hstep as <- <-]; eexists;
      (split; [reflexivity|]); cbn [pre_steps post_steps outside m_owner set_bloom set_thread]; (split; [left|tauto]); zl.
  - injection Hstep as <- <-. eexists. split; [reflexivity|]. cbn. split; [right; lia|tauto].
  - rewrite (Ho o eq_refl) in Hstep. destruct (critical calloc o (m_cache m)) as [[c r]| | |]; [|done..].
    rewrite Ok_bind in Hstep. injection Hstep as <- <-. eexists. split; [reflexivity|]. cbn. split; [left; lia|tauto].
  - destruct todo as [|u todo]; injection Hstep as <- <-; eexists; (split; [reflexivity|]); cbn [pre_steps post_steps outside m_owner set_bloom set_thread].
    + split; [right; split; [done|zl]|]. split_and!; [tauto|done|done].
    + split; [right; split; [done|zl]|]. tauto.
  - injection Hstep as <- <-. eexists. split; [reflexivity|]. cbn. split; [right; lia|tauto].
Qed.

Lemma not_outside x : ~ outside x -> exists o r todo, x = TInside o r todo.
Proof. destruct x; cbn; naive_solver. Qed.

Lemma owned_run t x m m' evs : m_threads m !! t = Some x -> thread_step calloc t x m = Ok (m', evs) -> x <> TIdle ->
  (forall o, x = TLock o -> m_owner m = None) -> owned m -> owned m'.
Proof.
  intros Hx Hstep Hne Ho Hw. destruct (thread_step_closer t x m m' evs Hstep Hne Ho) as (y & Hth & _ & Hown & H1 & H2).
  assert (m_owner m' = Some t -> ~ outside y) as Hy.
  { intros Ht. destruct x as [| | | | |o r todo|]; try (destruct (H1 Ht I) as [Hm|?]; [|done]; destruct (Hw t Hm) as (? & ? & ? & ?); congruence).
    apply H2; [done|]. cbn. auto. }
  intros k Hk. rewrite Hth. destruct (decide (k = t)) as [->|Hkt].
  - destruct (not_outside y (Hy Hk)) as (o & r & todo & ->). exists o, r, todo. apply list_lookup_insert_eq. by eapply lookup_lt_Some.
  - rewrite list_lookup_insert_ne by done. apply Hw. destruct Hown as [E|[E|E]]; congruence.
Qed.

Lemma owned_mstep act m m' evs : mstep calloc act m = Ok (m', evs) -> owned m -> owned m'.
Proof.
  destruct act as [o|t]; cbn [mstep].
  - destruct (m_threads m !! op_thread o) as [x|] eqn:Hx; [destruct x|]; intros [= <- <-] Hw; try done.
    intros k Hk. destruct (Hw k Hk) as (o' & r & todo & E). exists o', r, todo. cbn [set_thread m_threads].
    rewrite list_lookup_insert_ne; [done|]. intros <-. congruence.
  - destruct (m_threads m !! t) as [x|] eqn:Hx; [|by intros [= <- <-]]. intros Hs Hw.
    assert (x = TIdle \/ (exists o k, x = TLock o /\ m_owner m = Some k) \/ x <> TIdle /\ forall o, x = TLock o -> m_owner m = None) as Hcases.
    { destruct x; try (by left); try (right; right; split; [done|]; by intros ? [=]). destruct (m_owner m) eqn:Eo; [|by do 2 right].
      right. left. by do 2 eexists. }
    destruct Hcases as [->|[(o & k & -> & Ho)|[Hne Ho]]]; [by injection Hs as <- <-| |by eapply owned_run].
    cbn [thread_step] in Hs. rewrite Ho in Hs. by injection Hs as <- <-.
Qed.

Lemma owned_mrun acts : forall m m' evs, mrun calloc acts m = Ok (m', evs) -> owned m -> owned m'.
Proof.
  induction acts as [|act acts IH]; intros m m' evs; cbn [mrun]; [by intros [= <- <-]|].
  destruct (mstep calloc act m) as [[m1 e1]| | |] eqn:E1; [|done..]. rewrite Ok_bind.
  destruct (mrun calloc acts m1) as [[m2 e2]| | |] eqn:E2; [|done..]. rewrite Ok_bind. intros [= <- _] Hw.
  eapply IH; [done|]. by eapply owned_mstep.
Qed.

Lemma idle_or_not ts : Forall (eq TIdle) ts \/ exists t x, ts !! t = Some x /\ x <> TIdle.
Proof.
  induction ts as [|x ts [IH|(t & y & Hy & Hne)]]; [by left|..].
  - destruct x; [left; by constructor|..]; right; by exists 0%nat; eexists.
  - right. by exists (S t), y.
Qed.

(** In every state some thread can take a step that brings it closer. *)
Lemma some_closer m a : (forall X l, calloc X = Some l -> l ∉ X) -> sim calloc m a -> owned m -> ~ Forall (eq TIdle) (m_threads m) ->
  exists t m' evs a', mstep calloc (Run t) m = Ok (m', evs) /\ sim calloc m' a' /\ owned m' /\
    (sum_over pre_steps (m_threads m') < sum_over pre_steps (m_threads m) \/
     sum_over pre_steps (m_threads m') = sum_over pre_steps (m_threads m) /\
     sum_over post_steps (m_threads m') < sum_over post_steps (m_threads m)).
Proof.
  intros Hfresh Hs Hw Hidle.
  assert (exists t x, m_threads m !! t = Some x /\ x <> TIdle /\ forall o, x = TLock o -> m_owner m = None) as (t & x & Hx & Hne & Ho).
  { destruct (m_owner m) as [t|] eqn:Eo.
    - destruct (Hw t Eo) as (o & r & todo & Hx). exists t, (TInside o r todo). by split_and!.
    - destruct (idle_or_not (m_threads m)) as [?|(t & x & Hx & Hne)]; [done|]. by exists t, x. }
  destruct (sim_mstep m a (Run t) Hfresh I Hs) as (m' & evs & a' & Hstep & _ & Hs').
  exists t, m', evs, a'. split_and!; [done|done|by eapply owned_mstep|].
  cbn [mstep] in Hstep. rewrite Hx in Hstep. destruct (thread_step_closer t x m m' evs Hstep Hne Ho) as (y & -> & Hlt & _).
  rewrite !(sum_insert _ _ _ _ _ Hx). lia.
Qed.

Lemma steps_nonneg ts : 0 <= sum_over pre_steps ts /\ 0 <= sum_over post_steps ts.
Proof.
  induction ts as [|x ts IH]; cbn [sum_over]; [done|].
  assert (0 <= pre_steps x /\ 0 <= post_steps x) by (destruct x; cbn [pre_steps post_steps]; unfold BLOOM_HASHES; zl). lia.
Qed.

(** All calls can return from [m]. *)
Definition can_finish (m : mach) : Prop :=
  exists ts m' evs, mrun calloc (Run <$> ts) m = Ok (m', evs) /\ Forall (eq TIdle) (m_threads m').

Lemma can_finish_step t m m1 e1 : mstep calloc (Run t) m = Ok (m1, e1) -> can_finish m1 -> can_finish m.
Proof.
  intros Hstep (ts & m' & evs & Hrun & Hi). exists (t :: ts), m', (e1 ++ evs). split; [|done].
  cbn [fmap list_fmap mrun]. by rewrite Hstep, Ok_bind, Hrun, Ok_bind.
Qed.

Lemma calls_return m a : (forall X l, calloc X = Some l -> l ∉ X) -> sim calloc m a -> owned m -> can_finish m.
Proof.
  intros Hfresh. remember (Z.to_nat (sum_over pre_steps (m_threads m))) as k1 eqn:E1.
  remember (Z.to_nat (sum_over post_steps (m_threads m))) as k2 eqn:E2. revert k2 m a E1 E2.
  induction k1 as [k1 IH1] using lt_wf_ind. induction k2 as [k2 IH2] using lt_wf_ind. intros m a E1 E2 Hs Hw.
  destruct (idle_or_not (m_threads m)) as [Hi|(t0 & x0 & Hx0 & Hne)]; [by exists [], m, []|].
  destruct (some_closer m a Hfresh Hs Hw) as (t & m1 & e1 & a1 & Hstep & Hs1 & Hw1 & Hlt).
  { intros Hi. apply Hne. symmetry. by apply (proj1 (Forall_lookup _ _) Hi t0). }
  pose proof (steps_nonneg (m_threads m1)). apply (can_finish_step t m m1 e1 Hstep). destruct Hlt as [Hlt|[Heq Hlt]].
  - eapply IH1; [|reflexivity|reflexivity|done|done]. lia.
  - eapply IH2; [|congruence|reflexivity|done|done]. lia.
Qed.
End simulation.

(** Thread 0 puts "a" while thread 1 looks "A" up: the lookup loads its first
    counter before the insertion reaches it and answers absent; asked again
    after the insertion has returned, it finds the entry. *)
Definition sample_schedule : list action :=
  [Call (OpPut 0 100 [97] 1 sample_answers 2 0); Call (OpGet 1 110 [65] 1 8); Run 1; Run 0; Run 0; Run 1; Run 1; Run 1] ++
  replicate 6 (Run 0) ++ Call (OpGet 1 111 [65] 1 8) :: replicate 9 (Run 1).

(** ** Theorems *)

(** The updates of a recorded call, played to the end, are the filter's own
    loops. *)
Theorem recorded_calls_are_the_loops t h b :
  fold_left apply_update (updates_of (FAdd t h)) b = dns_bloom_add t h b /\
  fold_left apply_update (updates_of (FDel h)) b = dns_bloom_del h b.
Proof. split; [apply updates_add|apply updates_del]. Qed.

(** C7: The cache is linearisable. Whatever the schedule of any number of
    threads that look up and insert at the same time, with lookups reading the
    filter's counters one by one outside of the mutex while another thread
    updates them one by one inside of it: no call touches freed memory or
    loops, and the history of calls and results is a history of the atomic LRU
    map, in which a lookup takes effect at one point between its call and its
    return, and so does an insertion, except that making room in a full cache
    is a point of its own before it. Wherever the schedule stops, the calls under
    way can all be run to their return, so no thread waits for the mutex
    forever. When all threads are out of the cache the heap represents that map
    and the filter's counters count exactly its keys. *)
Theorem cache_linearizable calloc n acts :
  (forall X l, calloc X = Some l -> l ∉ X) -> Forall action_ok acts ->
  exists m evs a, mrun calloc acts (minit n) = Ok (m, evs) /\ arun calloc (ainit n) evs a /\ can_finish calloc m /\
    (Forall (eq TIdle) (m_threads m) ->
      rep (m_cache m) (a_lru a) /\ slots_cover (m_bloom m) (entry_hash <$> l_entries (a_lru a))).
Proof.
  intros Hfresh Hok. destruct (sim_mrun calloc acts (minit n) (ainit n) Hfresh Hok (sim_init calloc n)) as (m & evs & a & Hm & Ha & Hs).
  exists m, evs, a. split_and!; [done..| |].
  { apply (calls_return calloc m a Hfresh Hs). by apply (owned_mrun calloc _ _ _ _ Hm). }
  intros Hidle. assert (held m = None) as Hh.
  { unfold held. destruct (m_owner m) as [t|]; [|done]. destruct (m_threads m !! t) as [x|] eqn:Hx; [|done].
    by rewrite <- (proj1 (Forall_lookup _ _) Hidle t x Hx). }
  assert (rejected (m_threads m) = 0) as Hr.
  { clear -Hidle. induction Hidle as [|x ts <- _ IH]; [done|]. cbn. by rewrite IH. }
  pose proof (sim_rep _ _ _ Hs) as Hrep. rewrite Hh in Hrep. cbn [represents fmap option_fmap option_map] in Hrep.
  assert (with_misses (c_misses (m_cache m)) (a_lru a) = a_lru a) as E.
  { pose proof (sim_misses _ _ _ Hs) as Hsm. rewrite Hr, Z.add_0_r, (sim_range _ _ _ Hs) in Hsm. rewrite <- Hsm. apply with_own_misses. }
  rewrite E in Hrep. split; [done|]. intros i. pose proof (sim_slots _ _ _ Hs i) as Hi.
  unfold left_todo in Hi. rewrite Hh, (proj1 (proj2 (rep_facts _ _ Hrep))) in Hi. cbn in Hi. split; [apply Hi|]. destruct Hi as [_ [?|Hi]]; [by left|right; lia].
Qed.

Lemma sample_schedule_ok : Forall action_ok sample_schedule.
Proof. repeat constructor; vm_compute; congruence. Qed.

Lemma cache_linearizable_witness :
  exists m evs a, mrun fresh_loc sample_schedule (minit 2) = Ok (m, evs) /\ arun fresh_loc (ainit 2) evs a /\ can_finish fresh_loc m /\
    (Forall (eq TIdle) (m_threads m) ->
      rep (m_cache m) (a_lru a) /\ slots_cover (m_bloom m) (entry_hash <$> l_entries (a_lru a))).
Proof. apply (cache_linearizable fresh_loc 2 sample_schedule); [exact fresh_loc_fresh|exact sample_schedule_ok]. Defined.

Lemma sample_history : exists m, mrun fresh_loc sample_schedule (minit 2) =
  Ok (m, [ECall (OpPut 0 100 [97] 1 sample_answers 2 0); ECall (OpGet 1 110 [65] 1 8); ERet 1 None; ERet 0 None;
          ECall (OpGet 1 111 [65] 1 8);
          ERet 1 (Some (with_ttl 19 (ztake 8 (ztake 2 sample_answers)), 0))]).
Proof. eexists. vm_compute. reflexivity. Qed.
