(* ===== verification/CacheFresh.v ===== *)
(** * What a lookup may return (src/dns_cache.c)

    The histories of the concurrent cache of CacheThreads.v, read by a client:
    a hit is the answer of an insertion that was called before, for the same
    name and type, and has not outlived its time. *)

From stdpp Require Import prelude list gmap.
From Stdlib Require Import ZArith Lia.
From S2P Require Import Prelude DnsName DnsParse DnsBuild DnsBloom DnsCache CacheLinks CacheRefine CacheTheorems CacheThreads.

Local Open Scope Z_scope.

(** ** Histories *)

(** The call thread [t] is in, after the history [h]. *)
Definition last_call (h : list event) (t : nat) (o : cache_op) : Prop :=
  op_thread o = t /\ exists h1 h2, h = h1 ++ ECall o :: h2 /\ forall o', ECall o' ∈ h2 -> op_thread o' <> t.

(** The answer of an insertion [pnow pname pans pn] as a lookup at time [now]
    may give it: at most eight records, not expired, each with the time left
    as its TTL. Unless the insertion's clock is ahead of the lookup's, that is
    a number of seconds from 1 to a day, and no record is given more time than
    it came with (or five seconds, if it came with less). *)
Definition served (now cap pnow : Z) (pans : list dns_answer) (pn : Z) (ans : list dns_answer) : Prop :=
  let stored := ztake DNS_MAX_ANSWERS (ztake pn pans) in
  let left := pnow + put_ttl stored - now in
  0 < left /\ ans = with_ttl (u32 left) (ztake cap stored) /\
  (pnow <= now -> ans = with_ttl left (ztake cap stored) /\ left <= CACHE_MAX_TTL /\
     forall a, a ∈ stored -> left <= Z.max CACHE_MIN_TTL (a_ttl a)).

(** A hit of thread [t] after the history [h]: the thread is in a lookup, and an
    insertion for an equal name and the same type and rcode was called before
    whose answer this is. *)
Definition hit_ok (h : list event) (t : nat) (ans : list dns_answer) (rcode : Z) : Prop :=
  exists now name qtype cap, last_call h t (OpGet t now name qtype cap) /\
  exists tp pnow pname pans pn, ECall (OpPut tp pnow pname qtype pans pn rcode) ∈ h /\
    dns_name_equal pname name = true /\ served now cap pnow pans pn ans.

(** Every hit of a history, with what came before it. *)
Definition hits_ok (h evs : list event) : Prop :=
  forall e1 t ans rcode e2, evs = e1 ++ ERet t (Some (ans, rcode)) :: e2 -> hit_ok (h ++ e1) t ans rcode.

(** ** The invariant *)

(** An entry is what an insertion of the history left. *)
Definition from_put (h : list event) (e : entry) : Prop :=
  exists tp pnow pname pans pn, ECall (OpPut tp pnow pname (e_qtype e) pans pn (e_rcode e)) ∈ h /\
    fold_case pname = fold_case (e_name e) /\
    e_ans e = ztake DNS_MAX_ANSWERS (ztake pn pans) /\ e_expires e = pnow + put_ttl (e_ans e).

Definition thread_ok (h : list event) (t : nat) (x : athread) : Prop :=
  match x with
  | AIdle | ADone None => True
  | APending o | AEvicted o => last_call h t o
  | ADone (Some (ans, rcode)) => hit_ok h t ans rcode
  end.

Definition history_inv (h : list event) (a : amach) : Prop :=
  (forall e, e ∈ l_entries (a_lru a) -> from_put h e) /\
  (forall t x, a_threads a !! t = Some x -> thread_ok h t x).

(** ** Lemmas: growing histories *)

Lemma from_put_app h ev e : from_put h e -> from_put (h ++ ev) e.
Proof.
  intros (tp & pnow & pname & pans & pn & Hin & Hr). exists tp, pnow, pname, pans, pn. split; [|done].
  apply elem_of_app. by left.
Qed.

Lemma last_call_app h ev t o : (forall o', ECall o' ∈ ev -> op_thread o' <> t) -> last_call h t o -> last_call (h ++ ev) t o.
Proof.
  intros Hev (Ht & h1 & h2 & -> & Hh2). split; [done|]. exists h1, (h2 ++ ev). split; [by rewrite <- app_assoc|].
  intros o' [Ho|Ho]%elem_of_app; eauto.
Qed.

Lemma thread_ok_app h ev t x : (forall o', ECall o' ∈ ev -> op_thread o' <> t) -> thread_ok h t x -> thread_ok (h ++ ev) t x.
Proof.
  intros Hev. destruct x as [|o|o|[[ans rcode]|]]; cbn; try done; try by apply last_call_app.
  intros (now & name & qtype & cap & Hl & tp & pnow & pname & pans & pn & Hin & Hr). exists now, name, qtype, cap.
  split; [by apply last_call_app|]. exists tp, pnow, pname, pans, pn. split; [|done]. apply elem_of_app. by left.
Qed.

Lemma last_call_elem h t o : last_call h t o -> ECall o ∈ h /\ op_thread o = t.
Proof. intros (Ht & h1 & h2 & -> & _). split; [|done]. apply elem_of_app. right. by left. Qed.

(** ** Lemmas: the abstract map *)

Lemma remove_key_elem k es e : e ∈ remove_key k es -> e ∈ es.
Proof. unfold remove_key. by intros [_ ?]%list_elem_of_filter. Qed.

Lemma get_entries now name qtype cap s e : e ∈ l_entries (lru_get now name qtype cap s).1 -> e ∈ l_entries s.
Proof.
  destruct s as [es h m v x]. unfold lru_get. destruct (find_key _ es) as [e'|] eqn:E; [case_test|]; cbn [fst l_entries]; [| |done].
  - apply remove_key_elem.
  - intros [->|?%remove_key_elem]%elem_of_cons; [by apply find_key_elem in E as []|done].
Qed.

Lemma room_entries now s e : e ∈ l_entries (lru_make_room now s) -> e ∈ l_entries s.
Proof.
  unfold lru_make_room. case_test; [|done]. destruct (victim now (l_entries s)); [|done]. apply remove_key_elem.
Qed.

Lemma put_entries mem now name qtype ans rcode s e : e ∈ l_entries (lru_put mem now name qtype ans rcode s) ->
  e ∈ l_entries s \/ entry_key e = key_of name qtype /\ e_rcode e = rcode /\
    e_ans e = ztake DNS_MAX_ANSWERS ans /\ e_expires e = now + put_ttl (e_ans e).
Proof.
  unfold lru_put. destruct (find_key _ _) as [e'|] eqn:E.
  - cbn. intros [->|?%remove_key_elem]%elem_of_cons; [right|by left]. apply find_key_elem in E as [_ Hk]. done.
  - destruct mem; [|by intros ?%room_entries; left]. cbn. intros [->|?%room_entries]%elem_of_cons; [right|by left].
    split_and!; try done. unfold entry_key, key_of. cbn [e_name e_qtype]. by rewrite fold_case_cstr.
Qed.

(** The TTL of a record set is at most that of each of its records, or the
    minimum. *)
Lemma put_ttl_each ans a : a ∈ ans -> put_ttl ans <= Z.max CACHE_MIN_TTL (a_ttl a).
Proof.
  intros Ha. destruct (min_ttl_fold ans CACHE_MAX_TTL) as (H1 & _). specialize (H1 a Ha). fold (min_ttl ans) in H1.
  unfold put_ttl, clamp_ttl, CACHE_MIN_TTL, CACHE_MAX_TTL in *.
  rewrite bool_decide_eq_false_2 by (intros ->; by apply elem_of_nil in Ha). repeat case_test; lia.
Qed.

Lemma get_served h now name qtype cap s ans rcode : (forall e, e ∈ l_entries s -> from_put h e) ->
  (lru_get now name qtype cap s).2 = Some (ans, rcode) ->
  exists tp pnow pname pans pn, ECall (OpPut tp pnow pname qtype pans pn rcode) ∈ h /\
    dns_name_equal pname name = true /\ served now cap pnow pans pn ans.
Proof.
  destruct s as [es hh m v x]. intros Hes. unfold lru_get. destruct (find_key _ es) as [e|] eqn:E; [|done].
  case_test; [done|]. cbn [snd]. intros [= <- <-]. apply find_key_elem in E as [Hin Hk].
  destruct (Hes e Hin) as (tp & pnow & pname & pans & pn & Hc & Hn & Ha & Hx). unfold entry_key, key_of in Hk. injection Hk as Hf Hq.
  exists tp, pnow, pname, pans, pn. rewrite <- Hq. split; [done|]. split; [apply dns_name_equal_iff; congruence|].
  rewrite Hx, Ha in *. set (stored := ztake DNS_MAX_ANSWERS (ztake pn pans)) in *. pose proof (put_ttl_bounds stored) as Hb.
  unfold served. fold stored. unfold CACHE_MIN_TTL, CACHE_MAX_TTL in Hb. split_and!; [lia|done|]. intros Hle.
  split_and!; [|unfold CACHE_MAX_TTL; lia|].
  - do 2 f_equal. apply Z.mod_small. lia.
  - intros a Hin'. pose proof (put_ttl_each stored a Hin'). lia.
Qed.

(** ** Lemmas: runs *)

Lemma history_step calloc a ev a' h : astep calloc a ev a' -> history_inv h a ->
  history_inv (h ++ ev) a' /\ hits_ok h ev.
Proof.
  intros Hs [He Ht].
  assert (forall ts t x, a_threads a = ts -> (forall o', ECall o' ∈ ev -> op_thread o' = t) -> thread_ok (h ++ ev) t x ->
    forall t' x', <[t := x]> ts !! t' = Some x' -> thread_ok (h ++ ev) t' x') as Hins.
  { intros ts t x <- Hev Hx t' x' Hl. apply list_lookup_insert_Some in Hl as [(-> & -> & _)|[Hne Hl]]; [done|].
    apply thread_ok_app; [|by apply Ht]. intros o' Ho E. apply Hne. by rewrite <- (Hev _ Ho). }
  destruct Hs as [s ts o Hi|s ts t t' now name qtype cap Hi|s ts t t' now name qtype ans n rcode Hi|s ts t b t' now name qtype ans n rcode mem Hi Hb|s ts t r Hi];
    cbn [a_lru a_threads] in *; pose proof (Ht _ _ Hi) as Hok.
  - split; [split; cbn|].
    + intros e Hin. by apply from_put_app, He.
    + apply Hins; [done|by intros o' [= ->]%list_elem_of_singleton|]. split; [done|]. exists h, []. split; [done|]. by intros ? ?%elem_of_nil.
    + intros e1 t ans rcode e2 E. by destruct e1 as [|? []].
  - rewrite app_nil_r in *. split; [split; cbn|].
    + intros e Hin%get_entries. auto.
    + apply Hins; [done|by intros ? ?%elem_of_nil|]. cbn in Hok. apply last_call_elem in Hok as Hl. cbn in Hl. destruct Hl as [_ ->].
      cbn. destruct (lru_get now name qtype cap s).2 as [[ans rcode]|] eqn:E; [|done]. exists now, name, qtype, cap. split; [done|].
      by eapply get_served.
    + intros e1 ? ? ? ? E. by destruct e1.
  - rewrite app_nil_r in *. split; [split; cbn|].
    + intros e Hin%room_entries. auto.
    + by apply Hins; [|intros ? ?%elem_of_nil|].
    + intros e1 ? ? ? ? E. by destruct e1.
  - rewrite app_nil_r in *. assert (ECall (OpPut t' now name qtype ans n rcode) ∈ h) as Hcall.
    { destruct Hb as [->| ->]; by apply last_call_elem in Hok as []. }
    split; [split; cbn|].
    + intros e [Hin|(Hk & <- & Ha & Hx)]%put_entries; [auto|]. unfold entry_key, key_of in Hk. injection Hk as Hf <-.
      by exists t', now, name, ans, n.
    + by apply Hins; [|intros ? ?%elem_of_nil|].
    + intros e1 ? ? ? ? E. by destruct e1.
  - split; [split; cbn|].
    + intros e Hin. by apply from_put_app, He.
    + by apply Hins; [|intros ? ?%list_elem_of_singleton|].
    + intros e1 t1 ans rcode e2 E. destruct e1 as [|? []]; [|done..]. injection E as -> -> _. rewrite app_nil_r. exact Hok.
Qed.

Lemma hits_ok_app h e1 e2 : hits_ok h e1 -> hits_ok (h ++ e1) e2 -> hits_ok h (e1 ++ e2).
Proof.
  intros H1 H2 k1 t ans rcode k2 E. apply app_eq_inv in E as [(k & -> & E)|(k & -> & E)].
  - destruct k as [|x k]; [|injection E as <- ->; by apply (H1 k1 t ans rcode k)].
    specialize (H2 [] t ans rcode k2 (eq_sym E)). by rewrite !app_nil_r in *.
  - rewrite app_assoc. by apply (H2 k t ans rcode k2).
Qed.

Lemma history_run calloc a evs a' : arun calloc a evs a' -> forall h, history_inv h a -> history_inv (h ++ evs) a' /\ hits_ok h evs.
Proof.
  induction 1 as [a|a1 e1 a2 e2 a3 Hs _ IH]; intros h Hinv.
  { rewrite app_nil_r. split; [done|]. intros e1 ? ? ? ? E. by destruct e1. }
  destruct (history_step _ _ _ _ _ Hs Hinv) as [Hinv1 Hh1]. destruct (IH _ Hinv1) as [Hinv2 Hh2].
  rewrite app_assoc. split; [done|by apply hits_ok_app].
Qed.

(** ** Theorems *)


