(* ===== verification/Dissect.v ===== *)
(** * Taking an upstream response apart (src/resolver.c, dissect)

    The answer, authority and additional sections of a response from a server
    for some zone: which records are accepted, and the referral they make up.
    IPv4 addresses are kept as text, as the C code does ([inet_ntop]). *)

From stdpp Require Import prelude list.
From Stdlib Require Import ZArith Lia.
From S2P Require Import Prelude DnsName DnsParse DnsBuild.

Local Open Scope Z_scope.

Definition MAX_CNAME_HOPS : Z := 8.
Definition MAX_NS_CANDIDATES : Z := 8.
Definition INET_ADDRSTRLEN : Z := 16.

(** The decimal digits of a byte. *)
Definition dec_byte (b : Z) : list Z :=
  if b <? 10 then [48 + b]
  else if b <? 100 then [48 + b / 10; 48 + b mod 10]
  else [48 + b / 100; 48 + b / 10 mod 10; 48 + b mod 10].

(** [inet_ntop(AF_INET, ...)] of four bytes. *)
Definition inet_ntop (bs : list Z) : list Z := join_dots (dec_byte <$> bs).

(** ** The answer section *)

(** The chain array, the answers, and [cname_out]. *)
Record pass_state := PassState {
  p_chain : list (list Z);
  p_ans : list dns_answer;
  p_cname : list Z
}.

(** [if ( *nans < ans_cap) ans[( *nans)++] = a] *)
Definition add_answer (ans_cap : Z) (a : dns_answer) (ans : list dns_answer) : list dns_answer :=
  if zlen ans <? ans_cap then ans ++ [a] else ans.

(** [chain[nchain++] = target], unless it is there or the array is full. *)
Definition grow_chain (target : list Z) (chain : list (list Z)) : list (list Z) :=
  if existsb (dns_name_equal target) chain then chain
  else if zlen chain <=? MAX_CNAME_HOPS then chain ++ [snprintf_s NAME_CAP target]
  else chain.

(** One record of the answer section, after it was parsed. *)
Definition accept_rr (msg qname zone : list Z) (ans_cap : Z) (rr : dns_rr) (st : pass_state) : res pass_state :=
  if negb (rr_rclass rr =? DNS_CLASS_IN) then Ok st else
  if negb (dns_name_in_bailiwick (rr_name rr) zone) then Ok st else
  if negb (existsb (dns_name_equal (rr_name rr)) (p_chain st)) then Ok st else
  let owner := snprintf_s NAME_CAP (rr_name rr) in
  if (rr_type rr =? DNS_TYPE_A) && (rr_rdlength rr =? 4) then
    bs ← get_slice msg (rr_rdata rr) 4;
    Ok (PassState (p_chain st) (add_answer ans_cap (DnsAnswer DNS_TYPE_A (rr_ttl rr) bs owner) (p_ans st)) (p_cname st))
  else if (rr_type rr =? DNS_TYPE_AAAA) && (rr_rdlength rr =? 16) then
    bs ← get_slice msg (rr_rdata rr) 16;
    Ok (PassState (p_chain st) (add_answer ans_cap (DnsAnswer DNS_TYPE_AAAA (rr_ttl rr) bs owner) (p_ans st)) (p_cname st))
  else if rr_type rr =? DNS_TYPE_CNAME then
    match dns_name_decode msg (rr_rdata rr) NAME_CAP with
    | Ok (target, _) =>
        Ok (PassState (grow_chain target (p_chain st))
              (add_answer ans_cap (DnsAnswer DNS_TYPE_CNAME (rr_ttl rr) (snprintf_s NAME_CAP target) owner) (p_ans st))
              (if dns_name_equal (rr_name rr) qname then snprintf_s NAME_CAP target else p_cname st))
    | Fail => Ok st
    | Fault => Fault
    | Diverge => Diverge
    end
  else Ok st.

(** The loop over [n] records of the answer section. *)
Fixpoint answer_loop (n : nat) (msg qname zone : list Z) (ans_cap off : Z) (st : pass_state) : res pass_state :=
  match n with
  | O => Ok st
  | S n' =>
      '(rr, next) ← dns_parse_rr msg off;
      st' ← accept_rr msg qname zone ans_cap rr st;
      answer_loop n' msg qname zone ans_cap next st'
  end.

(** The passes over the answer section, until the chain stops growing. *)
Fixpoint answer_passes (passes : nat) (ancount : nat) (msg qname zone : list Z) (ans_cap start : Z)
    (st : pass_state) : res pass_state :=
  match passes with
  | O => Ok st
  | S passes' =>
      st' ← answer_loop ancount msg qname zone ans_cap start (PassState (p_chain st) [] []);
      if zlen (p_chain st') =? zlen (p_chain st) then Ok st'
      else answer_passes passes' ancount msg qname zone ans_cap start st'
  end.

(** Stepping over [n] questions and [n] records. *)
Fixpoint skip_questions (n : nat) (msg : list Z) (off : Z) : res Z :=
  match n with
  | O => Ok off
  | S n' => next ← dns_skip_question msg off; skip_questions n' msg next
  end.

Fixpoint skip_rrs (n : nat) (msg : list Z) (off : Z) : res Z :=
  match n with
  | O => Ok off
  | S n' => '(_, next) ← dns_parse_rr msg off; skip_rrs n' msg next
  end.

(** ** The authority section *)

(** [ref_ns]: the name servers' names, with the address where there is one. *)
Record referral := Referral {
  ref_zone : list Z;
  ref_ns : list (list Z * option (list Z))
}.

(** One record of the authority section, after it was parsed. *)
Definition accept_ns (msg qname zone : list Z) (rr : dns_rr) (ref : referral) : res referral :=
  if negb (rr_type rr =? DNS_TYPE_NS) || (MAX_NS_CANDIDATES <=? zlen (ref_ns ref)) then Ok ref else
  if negb (dns_name_in_bailiwick (rr_name rr) zone) then Ok ref else
  if negb (chr zone =? 0) && dns_name_equal (rr_name rr) zone then Ok ref else
  if negb (dns_name_in_bailiwick qname (rr_name rr)) then Ok ref else
  if negb (chr (ref_zone ref) =? 0) && negb (dns_name_equal (rr_name rr) (ref_zone ref)) then Ok ref else
  let rzone := if negb (chr (ref_zone ref) =? 0) then ref_zone ref else snprintf_s NAME_CAP (rr_name rr) in
  match dns_name_decode msg (rr_rdata rr) NAME_CAP with
  | Ok (nsname, _) => Ok (Referral rzone (ref_ns ref ++ [(snprintf_s NAME_CAP nsname, None)]))
  | Fail => Ok (Referral rzone (ref_ns ref))
  | Fault => Fault
  | Diverge => Diverge
  end.

Fixpoint authority_loop (n : nat) (msg qname zone : list Z) (off : Z) (ref : referral) : res (referral * Z) :=
  match n with
  | O => Ok (ref, off)
  | S n' =>
      '(rr, next) ← dns_parse_rr msg off;
      ref' ← accept_ns msg qname zone rr ref;
      authority_loop n' msg qname zone next ref'
  end.

(** ** The additional section *)

(** The first server of that name that has no address yet gets [addr]. *)
Fixpoint set_glue (name addr : list Z) (ns : list (list Z * option (list Z))) : list (list Z * option (list Z)) :=
  match ns with
  | [] => []
  | (nm, Some a) :: ns' => (nm, Some a) :: set_glue name addr ns'
  | (nm, None) :: ns' =>
      if dns_name_equal nm name then (nm, Some addr) :: ns'
      else (nm, None) :: set_glue name addr ns'
  end.

Definition accept_glue (msg zone : list Z) (rr : dns_rr) (ref : referral) : res referral :=
  if negb (rr_type rr =? DNS_TYPE_A) || negb (rr_rdlength rr =? 4) then Ok ref else
  if negb (dns_name_in_bailiwick (rr_name rr) zone) then Ok ref else
  bs ← get_slice msg (rr_rdata rr) 4;
  Ok (Referral (ref_zone ref) (set_glue (rr_name rr) (inet_ntop bs) (ref_ns ref))).

(** A record that does not parse ends the loop without an error. *)
Fixpoint additional_loop (n : nat) (msg zone : list Z) (off : Z) (ref : referral) : res referral :=
  match n with
  | O => Ok ref
  | S n' =>
      match dns_parse_rr msg off with
      | Ok (rr, next) =>
          ref' ← accept_glue msg zone rr ref;
          additional_loop n' msg zone next ref'
      | Fail => Ok ref
      | Fault => Fault
      | Diverge => Diverge
      end
  end.

(** ** The whole response *)

Record dissection := Dissection {
  dis_ans : list dns_answer;
  dis_cname : list Z;
  dis_ref : referral;
  dis_rcode : Z
}.

Definition dissect (msg qname zone : list Z) (ans_cap : Z) : res dissection :=
  h ← dns_parse_header msg;
  let rcode := Z.land (h_flags h) DNS_RCODE_MASK in
  if has_flag (h_flags h) DNS_FLAG_TC then Fail else
  ans_start ← skip_questions (Z.to_nat (h_qdcount h)) msg DNS_HDR_LEN;
  st ← answer_passes (Z.to_nat (MAX_CNAME_HOPS + 1)) (Z.to_nat (h_ancount h)) msg qname zone ans_cap ans_start
         (PassState [snprintf_s NAME_CAP qname] [] []);
  off ← skip_rrs (Z.to_nat (h_ancount h)) msg ans_start;
  '(ref, off') ← authority_loop (Z.to_nat (h_nscount h)) msg qname zone off (Referral [] []);
  ref' ← additional_loop (Z.to_nat (h_arcount h)) msg zone off' ref;
  Ok (Dissection (p_ans st) (p_cname st) ref' rcode).

(** ** Reference definitions *)

(** Where the sections of a message begin: answers, authority, additional. *)
Definition sections (msg : list Z) (h : dns_header) (answers authority additional : Z) : Prop :=
  dns_parse_header msg = Ok h /\ skip_questions (Z.to_nat (h_qdcount h)) msg DNS_HDR_LEN = Ok answers /\
  skip_rrs (Z.to_nat (h_ancount h)) msg answers = Ok authority /\
  skip_rrs (Z.to_nat (h_nscount h)) msg authority = Ok additional.

(** [in_rrs msg off n rr]: [rr] is one of the [n] records from [off] on. *)
Inductive in_rrs (msg : list Z) : Z -> nat -> dns_rr -> Prop :=
| in_rrs_here off n rr next :
    dns_parse_rr msg off = Ok (rr, next) -> in_rrs msg off (S n) rr
| in_rrs_later off n rr rr' next :
    dns_parse_rr msg off = Ok (rr', next) -> in_rrs msg next n rr -> in_rrs msg off (S n) rr.

(** A CNAME record of the zone, from [owner] to [target]. *)
Definition cname_rr (msg : list Z) (rrs : dns_rr -> Prop) (zone owner target : list Z) : Prop :=
  exists rr next, rrs rr /\ rr_type rr = DNS_TYPE_CNAME /\ rr_rclass rr = DNS_CLASS_IN /\
    dns_name_in_bailiwick (rr_name rr) zone = true /\ dns_name_equal (rr_name rr) owner = true /\
    dns_name_decode msg (rr_rdata rr) NAME_CAP = Ok (target, next).

(** [chained rrs qname zone x]: [x] is the name asked for, or the target of a
    CNAME record whose owner is such a name and lies in the zone. *)
Inductive chained (msg : list Z) (rrs : dns_rr -> Prop) (qname zone : list Z) : list Z -> Prop :=
| chained_start : chained msg rrs qname zone (snprintf_s NAME_CAP qname)
| chained_cname x target :
    chained msg rrs qname zone x -> cname_rr msg rrs zone x target ->
    chained msg rrs qname zone (snprintf_s NAME_CAP target).

(** The data of a record that is taken as an answer: an address of the
    type's length, or the target of a CNAME. *)
Definition rdata_of (msg : list Z) (rr : dns_rr) (d : list Z) : Prop :=
  (rr_type rr = DNS_TYPE_A /\ rr_rdlength rr = 4 /\ get_slice msg (rr_rdata rr) 4 = Ok d) \/
  (rr_type rr = DNS_TYPE_AAAA /\ rr_rdlength rr = 16 /\ get_slice msg (rr_rdata rr) 16 = Ok d) \/
  (rr_type rr = DNS_TYPE_CNAME /\ exists target next,
     dns_name_decode msg (rr_rdata rr) NAME_CAP = Ok (target, next) /\ d = snprintf_s NAME_CAP target).

(** An answer the resolver may keep: well formed, owned by a name in the zone
    that is on the chain, and a copy of a record of class IN of the answer
    section [rrs]. *)
Definition answer_from (msg : list Z) (rrs : dns_rr -> Prop) (qname zone : list Z) (a : dns_answer) : Prop :=
  answer_ok a /\ strlen (a_owner a) <= DNS_MAX_NAME /\
  dns_name_in_bailiwick (a_owner a) zone = true /\
  (exists x, chained msg rrs qname zone x /\ dns_name_equal (a_owner a) x = true) /\
  exists rr, rrs rr /\ rr_rclass rr = DNS_CLASS_IN /\ a_type a = rr_type rr /\ a_ttl a = rr_ttl rr /\
    dns_name_equal (a_owner a) (rr_name rr) = true /\ rdata_of msg rr (a_rdata a).

(** A server of a referral to [rzone] is named by an NS record of the authority
    section [auth] whose owner lies in the server's zone, and is not that
    zone unless it is the root, and above the name asked for. The owner is the
    referral's zone; only the root as owner, which a server for another zone
    cannot use, escapes this. *)
Definition ns_from (msg : list Z) (auth : dns_rr -> Prop) (qname zone rzone nm : list Z) : Prop :=
  exists rr target next, auth rr /\ rr_type rr = DNS_TYPE_NS /\
    dns_name_in_bailiwick (rr_name rr) zone = true /\ dns_name_in_bailiwick qname (rr_name rr) = true /\
    (fold_case zone <> [] -> dns_name_equal (rr_name rr) zone = false) /\
    (fold_case zone <> [] \/ fold_case (rr_name rr) <> [] -> dns_name_equal (rr_name rr) rzone = true) /\
    dns_name_decode msg (rr_rdata rr) NAME_CAP = Ok (target, next) /\ nm = snprintf_s NAME_CAP target.

(** Its address is that of an A record of the additional section [add] with
    the server's name, which lies in the zone. *)
Definition glue_from (msg : list Z) (add : dns_rr -> Prop) (zone nm a : list Z) : Prop :=
  exists rr bs, add rr /\ rr_type rr = DNS_TYPE_A /\ rr_rdlength rr = 4 /\
    dns_name_in_bailiwick (rr_name rr) zone = true /\ dns_name_equal nm (rr_name rr) = true /\
    get_slice msg (rr_rdata rr) 4 = Ok bs /\ a = inet_ntop bs.

(** A referral that stays on the path: below the server's zone, strictly unless
    that is the root, and above the name asked for; with servers and
    addresses from the records for them. *)
Definition referral_ok (msg : list Z) (auth add : dns_rr -> Prop) (qname zone : list Z) (ref : referral) : Prop :=
  strlen (ref_zone ref) <= DNS_MAX_NAME /\ bytes (ref_zone ref) /\
  zlen (ref_ns ref) <= MAX_NS_CANDIDATES /\
  (ref_ns ref <> [] ->
     dns_name_in_bailiwick (ref_zone ref) zone = true /\
     dns_name_in_bailiwick qname (ref_zone ref) = true /\
     (fold_case zone <> [] -> dns_name_equal (ref_zone ref) zone = false)) /\
  Forall (fun '(nm, addr) => strlen nm <= DNS_MAX_NAME /\ bytes nm /\
     ns_from msg auth qname zone (ref_zone ref) nm /\
     forall a, addr = Some a -> glue_from msg add zone nm a) (ref_ns ref).

(** What [dissect] promises about a response it accepts. *)
Definition dissection_ok (msg qname zone : list Z) (ans_cap : Z) (d : dissection) : Prop :=
  exists h s1 s2 s3, sections msg h s1 s2 s3 /\
  let rrs := in_rrs msg s1 (Z.to_nat (h_ancount h)) in
  let auth := in_rrs msg s2 (Z.to_nat (h_nscount h)) in
  let add := in_rrs msg s3 (Z.to_nat (h_arcount h)) in
  Forall (answer_from msg rrs qname zone) (dis_ans d) /\ zlen (dis_ans d) <= ans_cap /\
  strlen (dis_cname d) <= DNS_MAX_NAME /\ bytes (dis_cname d) /\
  (dis_cname d = [] \/ exists target, cname_rr msg rrs zone qname target /\ dis_cname d = snprintf_s NAME_CAP target) /\
  referral_ok msg auth add qname zone (dis_ref d) /\ dis_rcode d = h_flags h mod 16.

(** A response of a server for [com] to a query for x.com: a referral to the
    servers a.com and b.org of x.com, an NS record for the other zone y.com,
    and addresses for both servers. *)
Definition com_referral : list Z :=
  [0; 7; 128; 0; 0; 0; 0; 0; 0; 3; 0; 2] ++
  [1; 120; 3; 99; 111; 109; 0; 0; 2; 0; 1; 0; 0; 0; 9; 0; 4; 1; 97; 192; 14] ++
  [1; 121; 192; 14; 0; 2; 0; 1; 0; 0; 0; 9; 0; 4; 1; 99; 192; 14] ++
  [192; 12; 0; 2; 0; 1; 0; 0; 0; 9; 0; 7; 1; 98; 3; 111; 114; 103; 0] ++
  [1; 97; 192; 14; 0; 1; 0; 1; 0; 0; 0; 9; 0; 4; 10; 0; 0; 1] ++
  [1; 98; 3; 111; 114; 103; 0; 0; 1; 0; 1; 0; 0; 0; 9; 0; 4; 10; 0; 0; 2].

(** A response with two NS records, one for the root and one for [com]. *)
Definition mixed_referral : list Z :=
  [0; 7; 128; 0; 0; 0; 0; 0; 0; 2; 0; 0] ++
  [0; 0; 2; 0; 1; 0; 0; 0; 9; 0; 3; 1; 97; 0] ++
  [3; 99; 111; 109; 0; 0; 2; 0; 1; 0; 0; 0; 9; 0; 3; 1; 98; 0].

(** A loop that steps over records and works on them: it fails where the
    stepping does, and otherwise returns. *)
Definition follows {A B} (m : res A) (m' : res B) (Q : A -> B -> Prop) : Prop :=
  match m with
  | Ok a => returns m' (Q a)
  | _ => m' = Fail
  end.

Lemma follows_mono {A B} (m : res A) (m' : res B) (P Q : A -> B -> Prop) :
  follows m m' P -> (forall a b, P a b -> Q a b) -> follows m m' Q.
Proof. intros H HPQ. destruct m; cbn in *; [|done..]. eapply returns_mono; eauto. Qed.

(** One record of such a loop. *)
Lemma follows_rr {A B} (msg : list Z) off (f : dns_rr * Z -> res A) (g : dns_rr * Z -> res B) Q : bytes msg -> 0 <= off ->
  (forall rr next, dns_parse_rr msg off = Ok (rr, next) -> rr_ok msg rr next -> 0 <= next -> follows (f (rr, next)) (g (rr, next)) Q) ->
  follows (r ← dns_parse_rr msg off; f r) (r ← dns_parse_rr msg off; g r) Q.
Proof.
  intros Hb Ho H. pose proof (ensures_parse_rr msg off Hb Ho) as Hp.
  destruct (dns_parse_rr msg off) as [[rr next]| | |]; cbn in Hp; [|done..]. destruct Hp as [Hrr Hlt].
  rewrite !Ok_bind. apply H; [done..|]. destruct Hrr as (_ & _ & _ & _ & _ & ? & _ & ? & _). lia.
Qed.

Lemma follows_bind {A B C} (m : res A) (n : res C) (f : C -> res B) P Q :
  returns n P -> (forall c, P c -> follows m (f c) Q) -> follows m (n ≫= f) Q.
Proof. intros Hn Hf. destruct n as [c| | |]; cbn in Hn; [|done..]. rewrite Ok_bind. by apply Hf. Qed.

(** ** Lemmas: the answer section *)

Section answers.
Context (msg qname zone : list Z) (ans_cap : Z) (rrs : dns_rr -> Prop).
Context (Hmsg : bytes msg) (Hcap : 0 <= ans_cap).

Definition cname_ok (c : list Z) : Prop :=
  strlen c <= DNS_MAX_NAME /\ bytes c /\
  (c = [] \/ exists target, cname_rr msg rrs zone qname target /\ c = snprintf_s NAME_CAP target).

(** What every pass keeps. *)
Definition pass_ok (st : pass_state) : Prop :=
  Forall (answer_from msg rrs qname zone) (p_ans st) /\ zlen (p_ans st) <= ans_cap /\
  Forall (chained msg rrs qname zone) (p_chain st) /\ zlen (p_chain st) <= MAX_CNAME_HOPS + 1 /\
  cname_ok (p_cname st).

Lemma add_answer_ok a ans : answer_from msg rrs qname zone a ->
  Forall (answer_from msg rrs qname zone) ans -> zlen ans <= ans_cap ->
  Forall (answer_from msg rrs qname zone) (add_answer ans_cap a ans) /\ zlen (add_answer ans_cap a ans) <= ans_cap.
Proof.
  intros Ha Hans Hl. unfold add_answer. case_test; [|done]. split; [|zl].
  apply Forall_app. split; [done|by constructor].
Qed.

Lemma grow_chain_ok target chain : chained msg rrs qname zone (snprintf_s NAME_CAP target) ->
  Forall (chained msg rrs qname zone) chain -> zlen chain <= MAX_CNAME_HOPS + 1 ->
  Forall (chained msg rrs qname zone) (grow_chain target chain) /\
  zlen (grow_chain target chain) <= MAX_CNAME_HOPS + 1.
Proof.
  intros Ht Hc Hl. unfold grow_chain. case_test; [split_and!; (done || lia)|]. case_test; [|split_and!; (done || lia)].
  split_and!; [|zl..]. apply Forall_app. split; [done|by constructor].
Qed.

(** The record's owner is on the chain and in the zone. *)
Lemma answer_from_rr rr next chain t d :
  rr_ok msg rr next -> rrs rr -> rr_rclass rr = DNS_CLASS_IN -> dns_name_in_bailiwick (rr_name rr) zone = true ->
  existsb (dns_name_equal (rr_name rr)) chain = true -> Forall (chained msg rrs qname zone) chain ->
  rr_type rr = t -> bytes d -> (t = DNS_TYPE_A -> 4 <= zlen d) -> (t = DNS_TYPE_AAAA -> 16 <= zlen d) -> rdata_of msg rr d ->
  answer_from msg rrs qname zone (DnsAnswer t (rr_ttl rr) d (snprintf_s NAME_CAP (rr_name rr))).
Proof.
  intros (Hn & Hnb & Ht & _ & Httl & _) Hrr Hcl Hz (x & Hx & Heq)%existsb_exists Hch <- Hd HA HAAAA Hrd.
  destruct (copy_name_ok (rr_name rr) Hn Hnb) as [Hs Hsb]. pose proof (copy_name_fold (rr_name rr) Hn) as Hf.
  split_and!; cbn; try done.
  - rewrite <- Hz. by apply in_bailiwick_fold.
  - exists x. split; [|rewrite <- Heq; by apply dns_name_equal_fold].
    rewrite Forall_forall in Hch. apply Hch. by apply list_elem_of_In.
  - exists rr. split_and!; try done. rewrite <- (dns_name_equal_refl (rr_name rr)). by apply dns_name_equal_fold.
Qed.

(** An address of [n] bytes. *)
Lemma address_rr rr next st t n : rr_ok msg rr next -> rrs rr -> pass_ok st ->
  rr_rclass rr = DNS_CLASS_IN -> dns_name_in_bailiwick (rr_name rr) zone = true ->
  existsb (dns_name_equal (rr_name rr)) (p_chain st) = true -> rr_type rr = t -> rr_rdlength rr = n ->
  (t = DNS_TYPE_A /\ n = 4 \/ t = DNS_TYPE_AAAA /\ n = 16) ->
  returns (bs ← get_slice msg (rr_rdata rr) n;
    Ok (PassState (p_chain st) (add_answer ans_cap (DnsAnswer t (rr_ttl rr) bs (snprintf_s NAME_CAP (rr_name rr))) (p_ans st)) (p_cname st)))
    pass_ok.
Proof.
  intros Hrr Hin (H1 & H2 & H3 & H4 & H5) Hcl Hz Hch Ht Hn Htn. pose proof Hrr as (_ & _ & _ & _ & _ & _ & Hoff & Hnext & Hend).
  rewrite get_slice_in_range by lia. rewrite Ok_bind. cbn.
  destruct (add_answer_ok (DnsAnswer t (rr_ttl rr) (ztake n (zdrop (rr_rdata rr) msg)) (snprintf_s NAME_CAP (rr_name rr))) (p_ans st)) as [Ha Hl]; [|done..|].
  - eapply answer_from_rr; try done; [auto with fizz|..].
    1,2: unfold DNS_TYPE_A, DNS_TYPE_AAAA in *; intros; rewrite zlen_slice; lia.
    destruct Htn as [[-> ->]|[-> ->]]; [left|right; left]; rewrite get_slice_in_range by lia; done.
  - by split_and!.
Qed.

Lemma returns_accept_rr rr next st : rr_ok msg rr next -> rrs rr -> pass_ok st ->
  returns (accept_rr msg qname zone ans_cap rr st) pass_ok.
Proof.
  intros Hrr Hin Hst. pose proof Hrr as (Hn & Hnb & _ & _ & _ & _ & Hoff & _).
  pose proof Hst as (H1 & H2 & H3 & H4 & H5). unfold accept_rr.
  do 3 (case_test; [done|]). case_test; [|case_test; [|case_test; [|done]]].
  - eapply address_rr; try done. by left.
  - eapply address_rr; try done. by right.
  - pose proof (ensures_decode_name_cap msg (rr_rdata rr) Hmsg ltac:(lia)) as Hdec.
    destruct (dns_name_decode msg (rr_rdata rr) NAME_CAP) as [[target nx]| | |] eqn:Ed; cbn in Hdec; [|done..].
    destruct Hdec as (Htl & _ & Htb). destruct (copy_name_ok target Htl Htb) as [Hts Htsb]. cbn.
    destruct (add_answer_ok (DnsAnswer DNS_TYPE_CNAME (rr_ttl rr) (snprintf_s NAME_CAP target) (snprintf_s NAME_CAP (rr_name rr))) (p_ans st)) as [Ha Hl]; [|done..|].
    { eapply answer_from_rr; try done. right. right. eauto. }
    destruct (grow_chain_ok target (p_chain st)) as (Hc & Hcl); [|done..|].
    { pose proof Etest1 as (x & Hx & Heq)%existsb_exists. apply (chained_cname _ _ _ _ x).
      - rewrite Forall_forall in H3. apply H3. by apply list_elem_of_In.
      - exists rr, nx. by split_and!. }
    split_and!; try done. cbn. case_test; [|done]. split_and!; try done. right. exists target. split; [|done]. exists rr, nx. by split_and!.
Qed.

Lemma answer_loop_follows n off st : 0 <= off -> (forall rr, in_rrs msg off n rr -> rrs rr) -> pass_ok st ->
  follows (skip_rrs n msg off) (answer_loop n msg qname zone ans_cap off st) (fun _ st' => pass_ok st').
Proof.
  revert off st. induction n as [|n IH]; intros off st Ho Hrrs Hst; cbn [answer_loop skip_rrs]; [done|].
  apply follows_rr; [done..|]. intros rr next Hp Hrr Hnx. cbv beta iota.
  eapply follows_bind; [eapply returns_accept_rr; [done| |done]|].
  { apply Hrrs. by eapply in_rrs_here. }
  intros st' Hst'. apply IH; [done| |done]. intros r Hr. apply Hrrs. by eapply in_rrs_later.
Qed.

Lemma answer_passes_follows passes n start st : 0 <= start ->
  (forall rr, in_rrs msg start n rr -> rrs rr) -> pass_ok st ->
  follows (skip_rrs n msg start) (answer_passes (S passes) n msg qname zone ans_cap start st) (fun _ st' => pass_ok st').
Proof.
  intros Ho Hrrs. revert st. induction passes as [|passes IH]; intros st Hst.
  all: assert (pass_ok (PassState (p_chain st) [] [])) as Hst0 by
    (destruct Hst as (_ & _ & H3 & H4 & _); split_and!; cbn; try done; split_and!; [done|constructor|by left]).
  all: pose proof (answer_loop_follows n start _ Ho Hrrs Hst0) as Hl; cbn [answer_passes].
  - destruct (skip_rrs n msg start) as [x| | |]; cbn [follows] in *; [|by rewrite Hl..].
    eapply returns_bind_intro; [exact Hl|]. intros st' Hst'. by case_test.
  - destruct (skip_rrs n msg start) as [x| | |]; cbn [follows] in *; [|by rewrite Hl..].
    eapply returns_bind_intro; [exact Hl|]. intros st' Hst'. case_test; [done|]. by apply IH.
Qed.
End answers.

(** ** Lemmas: skipping *)

Lemma ensures_skip_questions n msg off : bytes msg -> 0 <= off ->
  ensures (skip_questions n msg off) (fun next => 0 <= next).
Proof.
  intros Hb. revert off. induction n as [|n IH]; intros off Ho; cbn [skip_questions]; [done|].
  eapply ensures_bind_intro; [by apply ensures_skip_question|]. intros next [Hn _]. apply IH. lia.
Qed.

Lemma ensures_skip_rrs n msg off : bytes msg -> 0 <= off -> ensures (skip_rrs n msg off) (fun next => 0 <= next).
Proof.
  intros Hb. revert off. induction n as [|n IH]; intros off Ho; cbn [skip_rrs]; [done|].
  eapply ensures_bind_intro; [by apply ensures_parse_rr|]. intros [rr next] (Hrr & Hlt).
  destruct Hrr as (_ & _ & _ & _ & _ & Hrl & _ & Hnx & _). apply IH. lia.
Qed.

(** ** Lemmas: the referral *)

Section referrals.
Context (msg qname zone : list Z) (auth add : dns_rr -> Prop) (Hmsg : bytes msg).

(** The bailiwick facts of the referral's zone, as soon as it is fixed. *)
Definition zone_ok (z : list Z) : Prop :=
  dns_name_in_bailiwick z zone = true /\ dns_name_in_bailiwick qname z = true /\
  (fold_case zone <> [] -> dns_name_equal z zone = false).

Definition ref_inv (ref : referral) : Prop :=
  referral_ok msg auth add qname zone ref /\ (fold_case (ref_zone ref) <> [] -> zone_ok (ref_zone ref)).

Lemma zone_ok_fold z z' : fold_case z = fold_case z' -> zone_ok z -> zone_ok z'.
Proof.
  intros E (H1 & H2 & H3). split_and!.
  - rewrite <- H1. by apply in_bailiwick_fold.
  - rewrite <- H2. by apply in_bailiwick_fold.
  - intros Hz. rewrite <- (H3 Hz). by apply dns_name_equal_fold.
Qed.

(** A zone other than the root has no record owned by the root. *)
Lemma in_bailiwick_nonroot z : dns_name_in_bailiwick z zone = true -> fold_case zone <> [] -> fold_case z <> [].
Proof.
  intros [?|[E|(pre & Hp & E)]]%in_bailiwick_iff Hz E0; [done|congruence|].
  rewrite E0 in E. by destruct pre.
Qed.

(** Fixing the zone, once, keeps what is known of the servers so far. *)
Lemma ns_from_fixed z z' nm : (fold_case z <> [] -> z' = z) ->
  ns_from msg auth qname zone z nm -> ns_from msg auth qname zone z' nm.
Proof.
  intros Hz (rr & target & next & H1 & H2 & H3 & H4 & H5 & H6 & H7 & H8). exists rr, target, next. split_and!; try done.
  intros Ho. specialize (H6 Ho). destruct (decide (fold_case z = [])) as [E|]; [|by rewrite Hz].
  apply dns_name_equal_iff in H6. rewrite E in H6. exfalso.
  destruct Ho as [Ho|Ho]; [|done]. by apply (in_bailiwick_nonroot (rr_name rr)) in Ho.
Qed.

Lemma returns_accept_ns rr next ref : rr_ok msg rr next -> auth rr -> ref_inv ref ->
  returns (accept_ns msg qname zone rr ref) ref_inv.
Proof.
  intros (Hn & Hnb & _ & _ & _ & _ & Hoff & _) Hauth Hinv. unfold accept_ns.
  destruct (negb (rr_type rr =? DNS_TYPE_NS) || (MAX_NS_CANDIDATES <=? zlen (ref_ns ref))) eqn:E1; [done|]. zbool.
  destruct (negb (dns_name_in_bailiwick (rr_name rr) zone)) eqn:E2; [done|]. zbool.
  destruct (negb (chr zone =? 0) && dns_name_equal (rr_name rr) zone) eqn:E3; [done|].
  destruct (negb (dns_name_in_bailiwick qname (rr_name rr))) eqn:E4; [done|]. zbool.
  destruct (negb (chr (ref_zone ref) =? 0) && negb (dns_name_equal (rr_name rr) (ref_zone ref))) eqn:E5; [done|].
  set (rzone := if negb (chr (ref_zone ref) =? 0) then ref_zone ref else snprintf_s NAME_CAP (rr_name rr)).
  assert (zone_ok (rr_name rr)) as Hzr.
  { split_and!; [done..|]. intros Hz. apply andb_false_iff in E3 as [E3|]; [|done]. zbool.
    exfalso. apply Hz, fold_case_nil_iff. done. }
  destruct Hinv as [(R1 & R2 & R3 & R4 & R5) Hzi].
  assert (dns_name_equal (rr_name rr) rzone = true /\ (fold_case (ref_zone ref) <> [] -> rzone = ref_zone ref)) as [Hrz Hkeep].
  { subst rzone. rewrite fold_case_nil_iff. destruct (Z.eqb_spec (chr (ref_zone ref)) 0); cbn [negb andb] in *.
    - split; [|done]. rewrite <- (dns_name_equal_refl (rr_name rr)). apply dns_name_equal_fold; [done|]. by apply copy_name_fold.
    - by apply negb_false_iff in E5. }
  assert (zone_ok rzone /\ strlen rzone <= DNS_MAX_NAME /\ bytes rzone) as (Hzo & Hzs & Hzb).
  { split; [eapply zone_ok_fold; [|done]; by apply dns_name_equal_iff|]. subst rzone. case_test; [done|by apply copy_name_ok]. }
  assert (Forall (fun '(nm, addr) => strlen nm <= DNS_MAX_NAME /\ bytes nm /\
     ns_from msg auth qname zone rzone nm /\ forall a, addr = Some a -> glue_from msg add zone nm a) (ref_ns ref)) as R5'.
  { eapply Forall_impl; [exact R5|]. intros [nm a] (? & ? & Hf & ?). split_and!; try done. by eapply ns_from_fixed. }
  pose proof (ensures_decode_name_cap msg (rr_rdata rr) Hmsg ltac:(lia)) as Hdec.
  destruct (dns_name_decode msg (rr_rdata rr) NAME_CAP) as [[nsname nx]| | |] eqn:Ed; cbn in Hdec; cbn -[zlen]; [| |done..].
  - destruct Hdec as (Hl & _ & Hb). destruct (copy_name_ok nsname Hl Hb) as [Hs Hsb].
    split; [|done]. split_and!; cbn; try done; [zl|]. apply Forall_app. split; [done|]. constructor; [|done]. split_and!; try done.
    exists rr, nsname, nx. split_and!; try done. apply Hzr.
  - split; [|done]. by split_and!.
Qed.

Lemma authority_loop_follows n off ref : 0 <= off -> (forall rr, in_rrs msg off n rr -> auth rr) -> ref_inv ref ->
  follows (skip_rrs n msg off) (authority_loop n msg qname zone off ref) (fun next '(ref', off') => ref_inv ref' /\ off' = next).
Proof.
  revert off ref. induction n as [|n IH]; intros off ref Ho Hin Hinv; cbn [authority_loop skip_rrs]; [done|].
  apply follows_rr; [done..|]. intros rr next Hp Hrr Hnx. cbv beta iota.
  eapply follows_bind; [eapply returns_accept_ns; [done| |done]|].
  { apply Hin. by eapply in_rrs_here. }
  intros ref' Hinv'. apply IH; [done| |done]. intros r Hr. apply Hin. by eapply in_rrs_later.
Qed.

(** What is known of a server that may have an address. *)
Definition ns_ok (rzone : list Z) (p : list Z * option (list Z)) : Prop :=
  let '(nm, addr) := p in
  strlen nm <= DNS_MAX_NAME /\ bytes nm /\ ns_from msg auth qname zone rzone nm /\
  forall a, addr = Some a -> glue_from msg add zone nm a.

Lemma set_glue_ok rzone name addr ns : (forall nm, dns_name_equal nm name = true -> glue_from msg add zone nm addr) ->
  Forall (ns_ok rzone) ns -> Forall (ns_ok rzone) (set_glue name addr ns) /\ zlen (set_glue name addr ns) = zlen ns.
Proof.
  intros Hg H. induction H as [|[nm [a|]] ns Hp Hns IH]; cbn [set_glue]; [done| |].
  - destruct IH. split; [by constructor|by rewrite !zlen_cons; lia].
  - case_test.
    + split; [|done]. constructor; [|done]. destruct Hp as (Hs & Hbn & Hf & _). split_and!; [done..|].
      intros a [= <-]. by apply Hg.
    + destruct IH. split; [by constructor|by rewrite !zlen_cons; lia].
Qed.

Lemma returns_accept_glue rr next ref : rr_ok msg rr next -> add rr -> ref_inv ref ->
  returns (accept_glue msg zone rr ref) ref_inv.
Proof.
  intros Hrr Hadd Hinv. pose proof Hrr as (_ & _ & _ & _ & _ & _ & Hoff & Hnext & Hend). unfold accept_glue.
  destruct (negb (rr_type rr =? DNS_TYPE_A) || negb (rr_rdlength rr =? 4)) eqn:E1; [done|]. zbool.
  case_test; [done|]. rewrite get_slice_in_range by lia. rewrite Ok_bind. cbn.
  destruct Hinv as [(R1 & R2 & R3 & R4 & R5) Hzi].
  destruct (set_glue_ok (ref_zone ref) (rr_name rr) (inet_ntop (ztake 4 (zdrop (rr_rdata rr) msg))) (ref_ns ref)) as [Hns Hlen]; try done.
  { intros nm Hnm. exists rr, (ztake 4 (zdrop (rr_rdata rr) msg)). split_and!; try done. apply get_slice_in_range; lia. }
  split; [|done]. split_and!; cbn; try done; [lia|]. intros Hne. apply R4. intros E. rewrite E in Hne. done.
Qed.

Lemma returns_additional_loop n off ref : 0 <= off -> (forall rr, in_rrs msg off n rr -> add rr) -> ref_inv ref ->
  returns (additional_loop n msg zone off ref) ref_inv.
Proof.
  revert off ref. induction n as [|n IH]; intros off ref Ho Hin Hinv; cbn [additional_loop]; [done|].
  pose proof (ensures_parse_rr msg off Hmsg Ho) as Hp.
  destruct (dns_parse_rr msg off) as [[rr next]| | |] eqn:E; cbn in Hp; [|done..]. destruct Hp as [Hrr Hlt].
  eapply returns_bind_intro; [eapply returns_accept_glue; [done| |done]|].
  { apply Hin. by eapply in_rrs_here. }
  intros ref' Hinv'. destruct Hrr as (_ & _ & _ & _ & _ & Hrl & _ & Hnx & _). apply IH; [lia| |done].
  intros r Hr. apply Hin. by eapply in_rrs_later.
Qed.
End referrals.

(** The responses that are taken apart. *)
Definition dissectable (msg : list Z) : Prop :=
  exists h s1 s2 s3, sections msg h s1 s2 s3 /\ has_flag (h_flags h) DNS_FLAG_TC = false.

Lemma pass_start msg qname zone ans_cap rrs : 0 <= ans_cap ->
  pass_ok msg qname zone ans_cap rrs (PassState [snprintf_s NAME_CAP qname] [] []).
Proof.
  intros. unfold pass_ok, cname_ok. split_and!; cbn; try done; [by repeat constructor|constructor|by left].
Qed.

(** The passes over the answer section, from the start. *)
Lemma first_passes msg qname zone ans_cap n start : bytes msg -> 0 <= ans_cap -> 0 <= start ->
  follows (skip_rrs n msg start)
    (answer_passes (Z.to_nat (MAX_CNAME_HOPS + 1)) n msg qname zone ans_cap start (PassState [snprintf_s NAME_CAP qname] [] []))
    (fun _ st => pass_ok msg qname zone ans_cap (in_rrs msg start n) st).
Proof. intros. by apply (answer_passes_follows msg qname zone ans_cap (in_rrs msg start n)), pass_start. Qed.

Lemma first_authority msg qname zone n off add : bytes msg -> 0 <= off ->
  follows (skip_rrs n msg off) (authority_loop n msg qname zone off (Referral [] []))
    (fun next '(ref, off') => ref_inv msg qname zone (in_rrs msg off n) add ref /\ off' = next).
Proof.
  intros. apply authority_loop_follows; try done. split; [|done]. split_and!; cbn; try done; constructor.
Qed.

(** A message whose sections do not parse. *)
Ltac no_sections :=
  split; [done|split; [|done]]; intros _ (h' & s1' & s2' & s3' & (E1 & E2 & E3 & E4) & E5); congruence.

Lemma ensures_dissect_iff msg qname zone ans_cap : bytes msg -> 0 <= ans_cap ->
  ensures (dissect msg qname zone ans_cap) (dissection_ok msg qname zone ans_cap) /\
  (dissect msg qname zone ans_cap = Fail <-> ~ dissectable msg).
Proof.
  intros Hb Hcap. unfold dissect, dissectable, sections. pose proof (ensures_parse_header msg Hb) as Hh.
  destruct (dns_parse_header msg) as [h| | |] eqn:Eh; cbn in Hh; [|no_sections|done..].
  rewrite Ok_bind. destruct (has_flag (h_flags h) DNS_FLAG_TC) eqn:HTC; [no_sections|].
  pose proof (ensures_skip_questions (Z.to_nat (h_qdcount h)) msg DNS_HDR_LEN Hb ltac:(done)) as Hs1.
  destruct (skip_questions (Z.to_nat (h_qdcount h)) msg DNS_HDR_LEN) as [s1| | |] eqn:Eq; cbn in Hs1;
    [|no_sections|done..]. rewrite Ok_bind.
  pose proof (ensures_skip_rrs (Z.to_nat (h_ancount h)) msg s1 Hb Hs1) as Hs2.
  pose proof (first_passes msg qname zone ans_cap (Z.to_nat (h_ancount h)) s1 Hb Hcap Hs1) as Hp.
  destruct (skip_rrs (Z.to_nat (h_ancount h)) msg s1) as [s2| | |] eqn:Ea; cbn in Hs2, Hp;
    [|rewrite Hp; no_sections|done..].
  apply returns_Ok in Hp as (st & -> & H1 & H2 & _ & _ & H5 & H6 & H7). rewrite !Ok_bind.
  pose proof (ensures_skip_rrs (Z.to_nat (h_nscount h)) msg s2 Hb Hs2) as Hs3.
  assert (forall s3, follows _ _ _) as Hau by exact (fun s3 =>
    first_authority msg qname zone (Z.to_nat (h_nscount h)) s2 (in_rrs msg s3 (Z.to_nat (h_arcount h))) Hb Hs2).
  destruct (skip_rrs (Z.to_nat (h_nscount h)) msg s2) as [s3| | |] eqn:En; cbn in Hs3, Hau;
    [|rewrite (Hau 0); no_sections|done..].
  specialize (Hau s3). apply returns_Ok in Hau as ([ref off'] & -> & Hinv & ->). rewrite Ok_bind.
  pose proof (returns_additional_loop msg qname zone (in_rrs msg s2 (Z.to_nat (h_nscount h)))
    (in_rrs msg s3 (Z.to_nat (h_arcount h))) Hb (Z.to_nat (h_arcount h)) s3 ref Hs3 ltac:(done) Hinv) as Had.
  apply returns_Ok in Had as (ref' & -> & Hr & _). rewrite Ok_bind. split; [|split; [done|intros []; exists h, s1, s2, s3; done]].
  exists h, s1, s2, s3. split; [done|]. cbv zeta. split_and!; cbn -[zlen Z.land]; try done.
  change DNS_RCODE_MASK with (Z.ones 4). by rewrite Z.land_ones.
Qed.

(** ** Theorems *)



(** Asked as the root, a server can answer with a referral to the root
    itself, and the NS records of one referral need not share one zone: an NS
    record of the root is accepted, leaves the referral's zone empty, and the
    next record's zone is taken for both. *)
Theorem root_referral_mixes_zones :
  dissect mixed_referral [120; 46; 99; 111; 109] [] 8 =
  Ok (Dissection [] [] (Referral [99; 111; 109] [([97], None); ([98], None)]) 0).
Proof. reflexivity. Qed.
