(* ===== verification/Resolver.v ===== *)
(** * The iterative resolver (src/resolver.c)

    Transaction ids, one UDP round trip, the referral loop with its nested
    resolutions, and the entry point with its cache. The kernel is a
    parameter: [w_random] is what each [getrandom] call returns and [w_net]
    what each round trip's system calls return, which may depend on the
    server's address and on the query sent. What a socket receives is an
    endless stream of [recv] results; the loop over it has fuel and diverges
    when that is used up, so that its end is a theorem, not a given. *)

From stdpp Require Import prelude list gmap.
From Stdlib Require Import ZArith Lia String Ascii.
From S2P Require Import Prelude DnsName DnsParse DnsBuild DnsBloom DnsCache CacheRefine Dissect.

Local Open Scope Z_scope.

Definition MAX_REFERRALS : Z := 16.
Definition MAX_NS_DEPTH : Z := 3.
Definition MSG_BUF : Z := 1500.
Definition TXID_POOL : Z := 64.

(** The bytes of a string literal. *)
Definition str (s : string) : list Z :=
  (fun c => Z.of_nat (nat_of_ascii c)) <$> String.list_ascii_of_string s.

Definition root_hints : list (list Z) :=
  [str "198.41.0.4"; str "170.247.170.2"; str "192.33.4.12"; str "199.7.91.13"; str "192.203.230.10";
   str "192.5.5.241"; str "192.112.36.4"; str "198.97.190.53"; str "192.36.148.17"; str "192.58.128.30";
   str "193.0.14.129"; str "199.7.83.42"; str "202.12.27.33"].

(** ** [dns_resolver_init] *)

(** The tokens [strtok(buf, ",")] returns one after the other. *)
Fixpoint strtok_comma (s tok : list Z) : list (list Z) :=
  match s with
  | [] => match tok with [] => [] | _ => [tok] end
  | c :: s' =>
      if c =? 44 then match tok with [] => strtok_comma s' [] | _ => tok :: strtok_comma s' [] end
      else strtok_comma s' (tok ++ [c])
  end.

(** [while ( *tok == ' ') tok++] *)
Fixpoint skip_spaces (s : list Z) : list Z :=
  match s with
  | 32 :: s' => skip_spaces s'
  | _ => s
  end.

(** The root servers for a value of DNS_ROOT_HINTS. *)
Definition dns_resolver_init (env : option (list Z)) (roots : list (list Z)) : list (list Z) :=
  match env with
  | None => roots
  | Some v =>
      if chr v =? 0 then roots else
      let toks := ztake MAX_NS_CANDIDATES (strtok_comma (snprintf_s 512 v) []) in
      let active := (fun tok => snprintf_s INET_ADDRSTRLEN (skip_spaces tok)) <$> toks in
      match active with [] => roots | _ => active end
  end.

(** ** Addresses *)

Fixpoint octet_loop (s : list Z) (acc : Z) (saw : bool) : option Z :=
  match s with
  | [] => if saw then Some acc else None
  | c :: s' =>
      if (48 <=? c) && (c <=? 57) then
        if saw && (acc =? 0) then None else
        let v := acc * 10 + (c - 48) in
        if 255 <? v then None else octet_loop s' v true
      else None
  end.

(** [inet_pton(AF_INET, s, ...)] *)
Definition inet_pton (s : list Z) : option (list Z) :=
  match split_dots (cstr s) with
  | [a; b; c; d] =>
      match octet_loop a 0 false, octet_loop b 0 false, octet_loop c 0 false, octet_loop d 0 false with
      | Some a', Some b', Some c', Some d' => Some [a'; b'; c'; d']
      | _, _, _, _ => None
      end
  | _ => None
  end.

(** ** The kernel *)

Inductive recv_event :=
| RecvData (bs : list Z)
| RecvIntr
| RecvAgain
| RecvError.

(** What the system calls of one round trip return. *)
Record exchange := Exchange {
  x_socket : bool;
  x_connect : bool;
  x_send : bool;
  x_recv : nat -> recv_event
}.

(** [w_patience] is the fuel of the receive loop: how many [recv] calls of one
    round trip are followed. *)
Record world := World {
  w_random : nat -> option (list Z);
  w_net : nat -> list Z -> list Z -> exchange;
  w_patience : nat
}.

(** The thread's id pool, the numbers of [getrandom] calls and of round trips
    so far, and the statistics. *)
Record rstate := RState {
  r_pool : list Z;
  r_left : Z;
  r_draws : nat;
  r_trips : nat;
  r_queries : Z;
  r_timeouts : Z
}.

Definition rstate_zero : rstate := RState (replicate 64 0) 0 0 0 0 0.

Definition bump_queries (st : rstate) : rstate :=
  RState (r_pool st) (r_left st) (r_draws st) (r_trips st) (u64 (r_queries st + 1)) (r_timeouts st).
Definition bump_timeouts (st : rstate) : rstate :=
  RState (r_pool st) (r_left st) (r_draws st) (r_trips st) (r_queries st) (u64 (r_timeouts st + 1)).
Definition next_trip (st : rstate) : rstate :=
  RState (r_pool st) (r_left st) (r_draws st) (S (r_trips st)) (r_queries st) (r_timeouts st).

(** [None] is the error return. *)
Definition next_txid (w : world) (st : rstate) : res (rstate * option Z) :=
  if r_left st =? 0 then
    match w_random w (r_draws st) with
    | Some pool =>
        if zlen pool =? TXID_POOL then
          id ← get8 pool (TXID_POOL - 1);
          Ok (RState pool (TXID_POOL - 1) (S (r_draws st)) (r_trips st) (r_queries st) (r_timeouts st), Some id)
        else Ok (RState (pool ++ zdrop (zlen pool) (r_pool st)) 0 (S (r_draws st)) (r_trips st)
                   (r_queries st) (r_timeouts st), None)
    | None => Ok (RState (r_pool st) 0 (S (r_draws st)) (r_trips st) (r_queries st) (r_timeouts st), None)
    end
  else
    id ← get8 (r_pool st) (r_left st - 1);
    Ok (RState (r_pool st) (r_left st - 1) (r_draws st) (r_trips st) (r_queries st) (r_timeouts st), Some id).

(** ** One UDP round trip *)

(** Whether a datagram with header [h] is the answer to the query. *)
Definition reply_matches (resp : list Z) (h : dns_header) (txid : Z) (name : list Z) (qtype : Z) : res bool :=
  if negb (h_id h =? txid) || negb (has_flag (h_flags h) DNS_FLAG_QR) then Ok false else
  if negb (h_qdcount h =? 1) then Ok false else
  match dns_name_decode resp DNS_HDR_LEN NAME_CAP with
  | Ok (rname, qoff) =>
      if zlen resp <? qoff + 4 then Ok false else
      t ← rd16 resp qoff;
      if negb (t =? qtype) then Ok false else
      c ← rd16 resp (qoff + 2);
      if negb (c =? DNS_CLASS_IN) then Ok false else
      Ok (dns_name_equal rname name)
  | Fail => Ok false
  | Fault => Fault
  | Diverge => Diverge
  end.

(** The [for (;;)] loop over [recv]; [evs i] is the result of the next call. *)
Fixpoint recv_loop (fuel : nat) (evs : nat -> recv_event) (i : nat) (txid : Z) (name : list Z) (qtype : Z) (st : rstate)
    : res (rstate * option (list Z)) :=
  match fuel with
  | O => Diverge
  | S fuel' =>
      match evs i with
      | RecvIntr => recv_loop fuel' evs (S i) txid name qtype st
      | RecvAgain => Ok (bump_timeouts st, None)
      | RecvError => Ok (st, None)
      | RecvData bs =>
          let resp := ztake MSG_BUF bs in
          match dns_parse_header resp with
          | Ok h =>
              ok ← reply_matches resp h txid name qtype;
              if (ok : bool) then Ok (st, Some resp) else recv_loop fuel' evs (S i) txid name qtype st
          | Fail => Ok (st, None)
          | Fault => Fault
          | Diverge => Diverge
          end
      end
  end.

(** [Some resp] is a reply of [ret] bytes, [None] is [-1]. *)
Definition query_server (w : world) (server_ip name : list Z) (qtype : Z) (st : rstate)
    : res (rstate * option (list Z)) :=
  '(st1, txid32) ← next_txid w st;
  match txid32 with
  | None => Ok (st1, None)
  | Some txid =>
      match dns_build_query txid name qtype false DNS_EDNS_OUR_UDP_PAYLOAD (replicate (Z.to_nat MSG_BUF) 0) with
      | Ok (qbuf, qlen) =>
          let x := w_net w (r_trips st1) server_ip (ztake qlen qbuf) in
          let st2 := next_trip st1 in
          if negb (x_socket x) then Ok (st2, None) else
          match inet_pton server_ip with
          | None => Ok (st2, None)
          | Some _ =>
              if negb (x_connect x) then Ok (st2, None) else
              let st3 := bump_queries st2 in
              if negb (x_send x) then Ok (st3, None) else
              recv_loop (w_patience w) (x_recv x) 0 txid name qtype st3
          end
      | Fail => Ok (st1, None)
      | Fault => Fault
      | Diverge => Diverge
      end
  end.

(** ** The referral loop *)

(** The answers and rcode of a completed resolution; [None] is [-1]. *)
Definition outcome : Type := option (list dns_answer * Z).

(** Tries each server until one answers. *)
Fixpoint try_servers (w : world) (servers : list (list Z)) (name : list Z) (qtype : Z) (zone : list Z)
    (ans_cap : Z) (st : rstate) : res (rstate * option dissection) :=
  match servers with
  | [] => Ok (st, None)
  | s :: servers' =>
      '(st1, r) ← query_server w s name qtype st;
      match r with
      | None => try_servers w servers' name qtype zone ans_cap st1
      | Some resp =>
          match dissect resp name zone ans_cap with
          | Ok d => Ok (st1, Some d)
          | Fail => try_servers w servers' name qtype zone ans_cap st1
          | Fault => Fault
          | Diverge => Diverge
          end
      end
  end.

(** The addresses of the servers that have glue. *)
Definition glue_addrs (ref : referral) : list (list Z) :=
  ztake MAX_NS_CANDIDATES (omap (fun '(_, a) => snprintf_s INET_ADDRSTRLEN <$> a) (ref_ns ref)).

Section resolution.
Context (w : world) (roots : list (list Z)).

(** The recursive calls of [resolve_from]: name, type, capacity, [ns_depth],
    [cname_hops]. *)
Context (rec : list Z -> Z -> Z -> Z -> Z -> rstate -> res (rstate * outcome)).

(** [Some addr] is success. *)
Definition resolve_ns_addr (ns_name : list Z) (ns_depth : Z) (st : rstate) : res (rstate * option (list Z)) :=
  if MAX_NS_DEPTH <=? ns_depth then Ok (st, None) else
  '(st1, r) ← rec ns_name DNS_TYPE_A DNS_MAX_ANSWERS (ns_depth + 1) 0 st;
  match r with
  | None => Ok (st1, None)
  | Some (ans, _) =>
      match list_find (fun a => a_type a = DNS_TYPE_A) ans with
      | Some (_, a) => bs ← get_slice (a_rdata a) 0 4; Ok (st1, Some (inet_ntop bs))
      | None => Ok (st1, None)
      end
  end.

(** The loop over the servers without glue. *)
Fixpoint resolve_first_ns (ns : list (list Z * option (list Z))) (ns_depth : Z) (st : rstate)
    : res (rstate * option (list Z)) :=
  match ns with
  | [] => Ok (st, None)
  | (nm, _) :: ns' =>
      '(st1, r) ← resolve_ns_addr nm ns_depth st;
      match r with
      | Some addr => Ok (st1, Some (snprintf_s INET_ADDRSTRLEN addr))
      | None => resolve_first_ns ns' ns_depth st1
      end
  end.

(** The servers of the next level. *)
Definition next_servers (ref : referral) (ns_depth : Z) (st : rstate) : res (rstate * list (list Z)) :=
  match glue_addrs ref with
  | [] =>
      '(st1, r) ← resolve_first_ns (ref_ns ref) ns_depth st;
      Ok (st1, match r with Some addr => [addr] | None => [] end)
  | addrs => Ok (st, addrs)
  end.

(** The loop over [levels] levels of delegation. *)
Fixpoint level_loop (levels : nat) (name : list Z) (qtype : Z) (current : list (list Z)) (zone : list Z)
    (ans_cap ns_depth cname_hops : Z) (st : rstate) : res (rstate * outcome) :=
  match levels with
  | O => Ok (st, None)
  | S levels' =>
      '(st1, r) ← try_servers w current name qtype zone ans_cap st;
      match r with
      | None => Ok (st1, None)
      | Some d =>
          if dis_rcode d =? DNS_RCODE_NXDOMAIN then Ok (st1, Some (dis_ans d, dis_rcode d)) else
          if existsb (fun a => (a_type a =? qtype) && dns_name_equal (a_owner a) name) (dis_ans d)
          then Ok (st1, Some (dis_ans d, DNS_RCODE_NOERROR))
          else if negb (chr (dis_cname d) =? 0) && (cname_hops <? MAX_CNAME_HOPS) then
            '(st2, sub) ← rec (dis_cname d) qtype DNS_MAX_ANSWERS ns_depth (cname_hops + 1) st1;
            match sub with
            | None => Ok (st2, None)
            | Some (tail, sub_rcode) =>
                Ok (st2, Some (dis_ans d ++ ztake (ans_cap - zlen (dis_ans d)) tail, sub_rcode))
            end
          else
            match ref_ns (dis_ref d) with
            | [] =>
                if dis_rcode d =? DNS_RCODE_NOERROR then Ok (st1, Some (dis_ans d, dis_rcode d))
                else Ok (st1, None)
            | _ =>
                '(st2, servers) ← next_servers (dis_ref d) ns_depth st1;
                match servers with
                | [] => Ok (st2, None)
                | _ => level_loop levels' name qtype servers (snprintf_s NAME_CAP (ref_zone (dis_ref d)))
                         ans_cap ns_depth cname_hops st2
                end
            end
      end
  end.

(** [resolve_from] with its recursive calls. *)
Definition resolve_body (name : list Z) (qtype : Z) (servers : list (list Z)) (ans_cap ns_depth cname_hops : Z)
    (st : rstate) : res (rstate * outcome) :=
  let current := snprintf_s INET_ADDRSTRLEN <$> ztake MAX_NS_CANDIDATES servers in
  level_loop (Z.to_nat MAX_REFERRALS) name qtype current [] ans_cap ns_depth cname_hops st.
End resolution.

(** The recursive calls all start at the root servers. *)
Fixpoint resolve_from (fuel : nat) (w : world) (roots : list (list Z)) (name : list Z)
    (qtype ans_cap ns_depth cname_hops : Z) (st : rstate) : res (rstate * outcome) :=
  match fuel with
  | O => Diverge
  | S fuel' => resolve_body w (resolve_from fuel' w roots) name qtype roots ans_cap ns_depth cname_hops st
  end.

(** A nested call has a larger [ns_depth] (at most 3), or the same and a larger
    [cname_hops] (at most 8). *)
Definition resolve_fuel (ns_depth cname_hops : Z) : nat :=
  Z.to_nat ((MAX_NS_DEPTH - ns_depth) * (MAX_CNAME_HOPS + 1) + (MAX_CNAME_HOPS - cname_hops) + 1).

(** ** The entry point *)

Section entry.
Context {F : Type} `{Filter F} (calloc : gset loc -> option loc) (w : world) (roots : list (list Z)).

(** [now] and [now'] are the times of the lookup and of the insertion. [None]
    is [-1]; the answers are then none and the rcode is SERVFAIL. *)
Definition dns_resolve (t : nat) (now now' : Z) (name : list Z) (qtype cap : Z) (c : cache F) (st : rstate)
    : res (cache F * rstate * outcome) :=
  if negb (qtype =? DNS_TYPE_A) && negb (qtype =? DNS_TYPE_AAAA)
  then Ok (c, st, Some ([], DNS_RCODE_NOTIMP)) else
  '(c1, hit) ← dns_cache_get t now name qtype cap c;
  match hit with
  | Some r => Ok (c1, st, Some r)
  | None =>
      '(st1, r) ← resolve_from (resolve_fuel 0 0) w roots name qtype cap 0 0 st;
      match r with
      | None => Ok (c1, st1, None)
      | Some (ans, rcode) =>
          c2 ← (if (rcode =? DNS_RCODE_NOERROR) && (0 <? zlen ans)
                then dns_cache_put calloc t now' name qtype ans (zlen ans) rcode c1
                else if rcode =? DNS_RCODE_NXDOMAIN
                then dns_cache_put calloc t now' name qtype [] 0 rcode c1
                else Ok c1);
          Ok (c2, st1, Some (ans, rcode))
      end
  end.
End entry.

(** queries, timeouts *)
Definition dns_resolver_stats (st : rstate) : Z * Z := (r_queries st, r_timeouts st).

(** ** Reference definitions *)

(** The network falls silent: in every round trip, one of the first
    [w_patience] calls of [recv] times out or fails. UDP_TIMEOUT_SEC bounds
    each single call only, so this is an assumption on the network. *)
Definition falls_silent (w : world) : Prop :=
  forall k a q, exists i, (i < w_patience w)%nat /\
    (x_recv (w_net w k a q) i = RecvAgain \/ x_recv (w_net w k a q) i = RecvError).

(** The kernel hands out 16-bit random numbers and bytes, and the network falls
    silent. *)
Definition world_ok (w : world) : Prop :=
  (forall k pool, w_random w k = Some pool -> zlen pool <= TXID_POOL /\ Forall (fun id => 0 <= id < 65536) pool) /\
  (forall k a q i bs, x_recv (w_net w k a q) i = RecvData bs -> bytes bs) /\ falls_silent w.

Definition rstate_ok (st : rstate) : Prop :=
  zlen (r_pool st) = TXID_POOL /\ 0 <= r_left st <= TXID_POOL /\ Forall (fun id => 0 <= id < 65536) (r_pool st).

(** A datagram that answers the question. *)
Definition is_reply (resp : list Z) (txid : Z) (name : list Z) (qtype : Z) : Prop :=
  exists h rname qoff, dns_parse_header resp = Ok h /\ h_id h = txid /\
    has_flag (h_flags h) DNS_FLAG_QR = true /\ h_qdcount h = 1 /\
    dns_name_decode resp DNS_HDR_LEN NAME_CAP = Ok (rname, qoff) /\
    rd16 resp qoff = Ok qtype /\ rd16 resp (qoff + 2) = Ok DNS_CLASS_IN /\ dns_name_equal rname name = true.

(** A name the resolver can be asked for. *)
Definition name_ok (name : list Z) : Prop := strlen name <= DNS_MAX_NAME /\ bytes name.

(** An answer [dns_build_response] and the cache can take. *)
Definition kept_answer (a : dns_answer) : Prop := answer_ok a /\ strlen (a_owner a) <= DNS_MAX_NAME.

Definition outcome_ok (cap : Z) (r : outcome) : Prop :=
  forall ans rcode, r = Some (ans, rcode) -> Forall kept_answer ans /\ zlen ans <= cap /\ 0 <= rcode < 16.

(** The recursive calls at a greater depth. *)
Definition rec_ok (rec : list Z -> Z -> Z -> Z -> Z -> rstate -> res (rstate * outcome)) (d0 h0 : Z) : Prop :=
  forall name qtype cap d h st, name_ok name -> 0 <= cap -> 0 <= d <= MAX_NS_DEPTH -> 0 <= h <= MAX_CNAME_HOPS ->
  d0 < d \/ (d = d0 /\ h0 < h) -> rstate_ok st ->
  returns (rec name qtype cap d h st) (fun '(st', r) => rstate_ok st' /\ outcome_ok cap r).

(** The abstract cache after [dns_resolve] of a supported type that missed. *)
Definition cache_after (mem : bool) (now' : Z) (name : list Z) (qtype : Z) (r : outcome) (s : lru) : lru :=
  match r with
  | Some (ans, rcode) =>
      if (rcode =? DNS_RCODE_NOERROR) && (0 <? zlen ans) then lru_put mem now' name qtype ans rcode s
      else if rcode =? DNS_RCODE_NXDOMAIN then lru_put mem now' name qtype [] rcode s
      else s
  | None => s
  end.

(** ** A small network for examples *)

(** The ids of the first [getrandom] call. *)
Definition w_pool : list Z := seqZ 1000 64.

(** The root refers [b] to 10.0.0.1; any other server answers [a.b] with
    10.0.0.7. The query's id and question are echoed. *)
Definition fake_reply (ip q : list Z) : list Z :=
  if bool_decide (ip = str "10.0.0.1") then
    ztake 2 q ++ [132; 0; 0; 1; 0; 1; 0; 0; 0; 0] ++ ztake 9 (zdrop 12 q) ++
    [192; 12; 0; 1; 0; 1; 0; 0; 1; 44; 0; 4; 10; 0; 0; 7]
  else
    ztake 2 q ++ [128; 0; 0; 1; 0; 0; 0; 1; 0; 1] ++ ztake 9 (zdrop 12 q) ++
    [1; 98; 0; 0; 2; 0; 1; 0; 0; 1; 44; 0; 5; 2; 110; 115; 192; 21] ++
    [192; 34; 0; 1; 0; 1; 0; 0; 1; 44; 0; 4; 10; 0; 0; 1].

Definition fake_world : world :=
  World (fun _ => Some w_pool)
    (fun _ ip q => Exchange true true true (fun i =>
       match i with 0%nat => RecvIntr | 1%nat => RecvData (u8 <$> fake_reply ip q) | _ => RecvAgain end)) 3.

(** ** Lemmas: addresses *)

Lemma octet_dec_byte b : byte b -> octet_loop (dec_byte b) 0 false = Some b.
Proof.
  intros Hb. apply (byte_forallb (fun b => bool_decide (octet_loop (dec_byte b) 0 false = Some b)) b) in Hb; [|by vm_compute].
  by apply bool_decide_eq_true in Hb.
Qed.

Lemma dec_byte_digits b : byte b -> Forall (fun c => c <> 46 /\ c <> 0) (dec_byte b).
Proof.
  intros Hb. apply (byte_forallb (fun b => forallb (fun c => negb (c =? 46) && negb (c =? 0)) (dec_byte b)) b) in Hb; [|by vm_compute].
  rewrite forallb_forall in Hb. apply Forall_forall. intros c Hc%list_elem_of_In. specialize (Hb c Hc). zbool. lia.
Qed.

Lemma octet_loop_byte s acc saw v : 0 <= acc <= 255 -> octet_loop s acc saw = Some v -> byte v.
Proof.
  revert acc saw. induction s as [|c s IH]; intros acc saw Ha H; cbn [octet_loop] in H.
  - case_test_in H; [|done]. injection H as <-. unfold byte. lia.
  - case_test_in H; [|done]. case_test_in H; [done|]. case_test_in H; [done|]. eapply IH, H. lia.
Qed.

Lemma inet_pton_ok s bs : inet_pton s = Some bs -> zlen bs = 4 /\ bytes bs.
Proof.
  unfold inet_pton. destruct (split_dots (cstr s)) as [|a [|b [|c [|d [|]]]]]; try done.
  destruct (octet_loop a 0 false) eqn:Ea, (octet_loop b 0 false) eqn:Eb,
    (octet_loop c 0 false) eqn:Ec, (octet_loop d 0 false) eqn:Ed; intros [= <-].
  apply octet_loop_byte in Ea, Eb, Ec, Ed; [|lia..]. split; [done|]. by repeat (apply Forall_cons; split).
Qed.

Lemma inet_pton_ntop_lemma bs : zlen bs = 4 -> bytes bs -> inet_pton (inet_ntop bs) = Some bs.
Proof.
  intros Hl Hb. destruct bs as [|a [|b [|c [|d [|]]]]]; try (unfold zlen in Hl; cbn in Hl; lia).
  repeat (apply Forall_cons in Hb as [? Hb]). unfold inet_ntop, inet_pton. cbn [fmap list_fmap].
  assert (Forall clean_label [dec_byte a; dec_byte b; dec_byte c; dec_byte d]) as Hc.
  { assert (forall x, byte x -> clean_label (dec_byte x)) as Hx.
    { intros x Hx. split; [|by apply dec_byte_digits]. unfold dec_byte. repeat case_test; zl. }
    repeat constructor; by apply Hx. }
  rewrite cstr_no_nul by by apply join_dots_nul_free. rewrite split_join_dots by done.
  by rewrite !octet_dec_byte.
Qed.

Lemma inet_ntop_length bs : zlen bs = 4 -> bytes bs -> zlen (inet_ntop bs) <= 15.
Proof.
  intros Hl Hb. destruct bs as [|a [|b [|c [|d [|]]]]]; try (unfold zlen in Hl; cbn in Hl; lia).
  repeat (apply Forall_cons in Hb as [? Hb]).
  assert (forall x, byte x -> zlen (dec_byte x) <= 3) as Hx.
  { intros x Hx. unfold dec_byte. repeat case_test; zl. }
  unfold inet_ntop. cbn [fmap list_fmap join_dots]. autorewrite with zlen.
  pose proof (Hx a ltac:(done)). pose proof (Hx b ltac:(done)). pose proof (Hx c ltac:(done)). pose proof (Hx d ltac:(done)). lia.
Qed.

(** ** Lemmas: the round trip *)

Lemma returns_next_txid w st : world_ok w -> rstate_ok st ->
  returns (next_txid w st) (fun '(st', r) => rstate_ok st' /\ forall id, r = Some id -> 0 <= id < 65536).
Proof.
  intros [Hw _] (Hp & Hl & Hr). unfold next_txid. case_test.
  - destruct (w_random w (r_draws st)) as [pool|] eqn:E; [|cbn; unfold rstate_ok; cbn; split; [|done]; split_and!; (done || lia)].
    destruct (Hw _ _ E) as [Hpl Hpr]. case_test.
    + rewrite returns_bind. apply returns_get8; [unfold TXID_POOL in *; lia|]. intros id [_ Hid]%get8_Ok. cbn.
      split; [split_and!; cbn; (done || unfold TXID_POOL; lia)|]. intros ? [= <-]. by eapply Forall_lookup_1 in Hpr.
    + cbn. split; [|done]. split_and!; cbn; [|lia|unfold TXID_POOL; lia|].
      * rewrite zlen_app, zlen_zdrop by (pose proof (zlen_nonneg pool); lia). lia.
      * apply Forall_app. split; [done|by apply Forall_drop].
  - rewrite returns_bind. apply returns_get8; [lia|]. intros id [_ Hid]%get8_Ok. cbn.
    split; [split_and!; cbn; (done || lia)|]. intros ? [= <-]. by eapply Forall_lookup_1 in Hr.
Qed.

Lemma returns_reply_matches resp h txid name qtype : bytes resp -> dns_parse_header resp = Ok h ->
  returns (reply_matches resp h txid name qtype) (fun b => b = true -> is_reply resp txid name qtype).
Proof.
  intros Hb Hh. unfold reply_matches. destruct (_ || _) eqn:E1; [done|]. zbool. case_test; [done|].
  pose proof (ensures_decode_name_cap resp DNS_HDR_LEN Hb ltac:(done)) as Hd.
  destruct (dns_name_decode resp DNS_HDR_LEN NAME_CAP) as [[rname qoff]| | |] eqn:Ed; cbn in Hd; [|done..].
  unfold DNS_HDR_LEN in Hd. case_test; [done|]. ret_read. case_test; [done|]. ret_read. case_test; [done|].
  cbn. intros Heq. exists h, rname, qoff. subst. by split_and!.
Qed.

Lemma returns_recv_loop fuel evs i k txid name qtype st :
  (forall j bs, evs j = RecvData bs -> bytes bs) -> rstate_ok st ->
  (i <= k < i + fuel)%nat -> evs k = RecvAgain \/ evs k = RecvError ->
  returns (recv_loop fuel evs i txid name qtype st) (fun '(st', r) => rstate_ok st' /\
    forall resp, r = Some resp -> bytes resp /\ is_reply resp txid name qtype /\
      exists j bs, evs j = RecvData bs /\ resp = ztake MSG_BUF bs).
Proof.
  intros Hevs Hst Hk Hend. revert i Hk. induction fuel as [|fuel IH]; intros i Hk; [lia|]. cbn [recv_loop].
  assert (evs i <> RecvAgain -> evs i <> RecvError -> (S i <= k < S i + fuel)%nat) as Hnext.
  { intros H1 H2. destruct (decide (i = k)) as [->|]; [by destruct Hend|lia]. }
  destruct (evs i) as [bs| | |] eqn:E; [|by apply IH, Hnext|done..].
  assert (bytes (ztake MSG_BUF bs)) as Hb by (by eapply bytes_ztake, Hevs).
  pose proof (ensures_parse_header _ Hb) as Hp.
  destruct (dns_parse_header (ztake MSG_BUF bs)) as [h| | |] eqn:Eh; cbn in Hp; [|done..].
  eapply returns_bind_intro; [by apply returns_reply_matches|]. intros ok Hok. destruct ok; [|by apply IH, Hnext].
  cbn. split; [done|]. intros resp [= <-]. split_and!; [done|auto|]. by exists i, bs.
Qed.

(** [query_server] returns a reply to the query it sent, or nothing. *)
Lemma returns_query_server w server_ip name qtype st : world_ok w -> rstate_ok st ->
  returns (query_server w server_ip name qtype st) (fun '(st', r) => rstate_ok st' /\
    forall resp, r = Some resp -> bytes resp /\ exists st1 txid m,
      next_txid w st = Ok (st1, Some txid) /\ is_reply resp txid name qtype /\
      query_bytes txid name qtype false DNS_EDNS_OUR_UDP_PAYLOAD = Some m /\
      exists i bs, x_recv (w_net w (r_trips st1) server_ip m) i = RecvData bs /\ resp = ztake MSG_BUF bs).
Proof.
  intros Hw Hst. unfold query_server.
  eapply returns_bind_intro; [apply returns_and_Ok; by apply returns_next_txid|].
  intros [st1 [txid|]] (Hn & Hst1 & Hid); [|done].
  rewrite build_query_spec by (by vm_compute).
  destruct (query_bytes txid name qtype false DNS_EDNS_OUR_UDP_PAYLOAD) as [m|] eqn:Em; [|done].
  destruct (zlen m <=? zlen (replicate (Z.to_nat MSG_BUF) 0)) eqn:El; [|done]. apply Z.leb_le in El.
  destruct (put_bytes_append m (replicate (Z.to_nat MSG_BUF) 0) 0 []) as (qbuf & -> & _ & Hpre & _); [done..|].
  rewrite Ok_bind. rewrite Z.add_0_l in Hpre. cbn [app] in Hpre. rewrite Hpre.
  set (x := w_net w (r_trips st1) server_ip m). case_test; [done|]. destruct (inet_pton server_ip); [|done].
  case_test; [done|]. case_test; [done|].
  destruct Hw as (_ & Hw & Hsil). destruct (Hsil (r_trips st1) server_ip m) as (k & Hk & Hend).
  eapply returns_mono; [apply (returns_recv_loop _ _ 0 k); [|done|lia|done]|].
  - intros j bs Hbs. by eapply Hw.
  - intros [st' r] [Hst' Hr]. split; [done|]. intros resp E. destruct (Hr resp E) as (Hb & Hrep & Hin).
    split; [done|]. exists st1, txid, m. done.
Qed.

(** ** Lemmas: the referral loop *)

Lemma returns_try_servers w servers name qtype zone cap st : world_ok w -> rstate_ok st -> 0 <= cap ->
  returns (try_servers w servers name qtype zone cap st) (fun '(st', r) => rstate_ok st' /\
    forall d, r = Some d -> exists resp, dissection_ok resp name zone cap d).
Proof.
  intros Hw. revert st. induction servers as [|s servers IH]; intros st Hst Hcap; cbn [try_servers]; [done|].
  eapply returns_bind_intro; [by apply returns_query_server|]. intros [st1 [resp|]] [Hst1 Hr]; [|by apply IH].
  destruct (Hr resp eq_refl) as [Hb _]. destruct (ensures_dissect_iff resp name zone cap Hb Hcap) as [Hd _].
  destruct (dissect resp name zone cap) as [d| | |]; cbn in Hd; [|by apply IH|done..].
  cbn. split; [done|]. intros d' [= <-]. eauto.
Qed.

Lemma answer_from_kept msg rrs qname zone ans : Forall (answer_from msg rrs qname zone) ans -> Forall kept_answer ans.
Proof. intros H. eapply Forall_impl; [done|]. intros a (H1 & H2 & _). done. Qed.

Lemma dissection_kept resp name zone cap d : dissection_ok resp name zone cap d ->
  Forall kept_answer (dis_ans d) /\ zlen (dis_ans d) <= cap /\ 0 <= dis_rcode d < 16.
Proof.
  intros (h & s1 & s2 & s3 & _ & Hf & Hl & _ & _ & _ & _ & ->). split_and!; [by eapply answer_from_kept|done|apply Z.mod_pos_bound; lia..].
Qed.

Section loops.
Context (w : world) (rec : list Z -> Z -> Z -> Z -> Z -> rstate -> res (rstate * outcome)).
Context (d0 h0 : Z) (Hrec : rec_ok rec d0 h0) (Hw : world_ok w).
Context (Hd0 : 0 <= d0 <= MAX_NS_DEPTH) (Hh0 : 0 <= h0 <= MAX_CNAME_HOPS).

Lemma returns_resolve_ns_addr nm st : name_ok nm -> rstate_ok st ->
  returns (resolve_ns_addr rec nm d0 st) (fun '(st', _) => rstate_ok st').
Proof.
  intros Hn Hst. unfold resolve_ns_addr. case_test; [done|].
  eapply returns_bind_intro; [apply Hrec; try done; unfold MAX_CNAME_HOPS, DNS_MAX_ANSWERS; lia|].
  intros [st1 r] [Hst1 Ho]. destruct r as [[ans rc]|]; [|done]. destruct (Ho ans rc eq_refl) as (Hk & _).
  destruct (list_find _ ans) as [[i a]|] eqn:E; [|done]. apply list_find_Some in E as (Hi & Ha & _).
  eapply Forall_lookup_1 in Hk; [|done]. destruct Hk as [(_ & _ & _ & _ & HA & _) _].
  specialize (HA Ha). rewrite get_slice_in_range by lia. done.
Qed.

Lemma returns_resolve_first_ns ns st : Forall (fun p : list Z * option (list Z) => name_ok p.1) ns -> rstate_ok st ->
  returns (resolve_first_ns rec ns d0 st) (fun '(st', _) => rstate_ok st').
Proof.
  intros H. revert st. induction H as [|[nm a] ns Hn _ IH]; intros st Hst; cbn [resolve_first_ns]; [done|].
  eapply returns_bind_intro; [by apply returns_resolve_ns_addr|]. intros [st1 [addr|]] Hst1; [done|]. by apply IH.
Qed.

Lemma returns_next_servers msg auth add qname zone ref st : referral_ok msg auth add qname zone ref -> rstate_ok st ->
  returns (next_servers rec ref d0 st) (fun '(st', _) => rstate_ok st').
Proof.
  intros (_ & _ & _ & _ & Hns) Hst. unfold next_servers. destruct (glue_addrs ref); [|done].
  eapply returns_bind_intro; [apply returns_resolve_first_ns; [|done]|].
  - eapply Forall_impl; [exact Hns|]. intros [nm a] (Hs & Hb & _). done.
  - intros [st1 r] Hst1. done.
Qed.

Lemma returns_level_loop levels name qtype current zone cap st :
  name_ok name -> 0 <= cap -> rstate_ok st ->
  returns (level_loop w rec levels name qtype current zone cap d0 h0 st)
    (fun '(st', r) => rstate_ok st' /\ outcome_ok cap r).
Proof.
  intros Hn Hcap. revert current zone st. induction levels as [|levels IH]; intros current zone st Hst; cbn [level_loop]; [done|].
  eapply returns_bind_intro; [by apply returns_try_servers|]. intros [st1 [d|]] [Hst1 Hd]; [|done].
  destruct (Hd d eq_refl) as [resp Hdis]. destruct (dissection_kept _ _ _ _ _ Hdis) as (Hk & Hl & Hrc).
  case_test; [cbn; split; [done|]; by intros ? ? [= <- <-]|].
  case_test; [cbn; split; [done|]; intros ? ? [= <- <-]; split_and!; done|].
  destruct (negb (chr (dis_cname d) =? 0) && (h0 <? MAX_CNAME_HOPS)) eqn:Ec; zbool.
  - destruct Hdis as (h & s1 & s2 & s3 & _ & _ & _ & Hcs & Hcb & _).
    eapply returns_bind_intro; [apply (Hrec (dis_cname d) qtype DNS_MAX_ANSWERS d0 (h0 + 1)); try done; [lia|by right; split; [|lia]]|].
    intros [st2 [[tail sub]|]] [Hst2 Ho]; [|done]. destruct (Ho tail sub eq_refl) as (Hkt & _ & Hsub).
    cbn. split; [done|]. intros ? ? [= <- <-]. split_and!; [|rewrite zlen_app, zlen_ztake_min; lia|apply Hsub..].
    apply Forall_app. split; [done|by apply Forall_take].
  - destruct (ref_ns (dis_ref d)) eqn:En.
    + case_test; [|done]. cbn. split; [done|]. by intros ? ? [= <- <-].
    + destruct Hdis as (h & s1 & s2 & s3 & _ & _ & _ & _ & _ & _ & Href & _).
      eapply returns_bind_intro; [by eapply returns_next_servers|]. intros [st2 servers] Hst2.
      destruct servers; [done|]. by apply IH.
Qed.
End loops.

(** The nested calls never run out of the fuel their depth gives them. *)
Lemma returns_resolve_from fuel w roots name qtype cap d h st :
  world_ok w -> name_ok name -> 0 <= cap -> 0 <= d <= MAX_NS_DEPTH -> 0 <= h <= MAX_CNAME_HOPS -> rstate_ok st ->
  (resolve_fuel d h <= fuel)%nat ->
  returns (resolve_from fuel w roots name qtype cap d h st) (fun '(st', r) => rstate_ok st' /\ outcome_ok cap r).
Proof.
  intros Hw. revert name qtype cap d h st.
  induction fuel as [|fuel IH]; intros name qtype cap d h st Hn Hcap Hd Hh Hst Hf;
    unfold resolve_fuel, MAX_NS_DEPTH, MAX_CNAME_HOPS in *; [lia|].
  cbn [resolve_from]. unfold resolve_body. apply (returns_level_loop w _ d h); try done.
  intros name' qtype' cap' d' h' st' Hn' Hcap' Hd' Hh' Hlt Hst'. unfold MAX_NS_DEPTH, MAX_CNAME_HOPS in *.
  apply IH; try done. lia.
Qed.

Lemma fake_world_ok : world_ok fake_world.
Proof.
  split.
  - intros k pool [= <-]. split; [vm_compute; congruence|]. unfold w_pool. apply Forall_forall.
    intros x Hx%elem_of_seqZ. lia.
  - split; [|by exists 2%nat; split; [cbn; lia|left]].
    intros k a q [|[|i]] bs Hin; cbn in Hin; [done| |done]. injection Hin as <-.
    apply Forall_fmap, Forall_true. intros x. apply Z.mod_pos_bound. lia.
Qed.

Lemma rstate_zero_ok : rstate_ok rstate_zero.
Proof. split_and!; try done. apply Forall_replicate. lia. Qed.

(** ** Lemmas: the entry point *)

Lemma resolve_spec {F} `{FilterLaws F} calloc w roots t now now' name qtype cap (c : cache F) s st :
  rep c s -> (forall X l, calloc X = Some l -> l ∉ X) -> world_ok w -> rstate_ok st -> name_ok name -> 0 <= cap ->
  qtype = DNS_TYPE_A \/ qtype = DNS_TYPE_AAAA ->
  exists c' st' r, dns_resolve calloc w roots t now now' name qtype cap c st = Ok (c', st', r) /\
  match (lru_get now name qtype cap s).2 with
  | Some hit => r = Some hit /\ st' = st /\ rep c' (lru_get now name qtype cap s).1
  | None =>
      resolve_from (resolve_fuel 0 0) w roots name qtype cap 0 0 st = Ok (st', r) /\
      rstate_ok st' /\ outcome_ok cap r /\
      exists mem, rep c' (cache_after mem now' name qtype r (lru_get now name qtype cap s).1) /\
        ((forall X, is_Some (calloc X)) -> mem = true)
  end.
Proof.
  intros Hrep Hfresh Hw Hst Hn Hcap Hq. unfold dns_resolve.
  assert (negb (qtype =? DNS_TYPE_A) && negb (qtype =? DNS_TYPE_AAAA) = false) as -> by (destruct Hq as [->| ->]; done).
  destruct (get_rep t now name qtype cap c s Hrep Hcap) as (c1 & -> & Hrep1). rewrite Ok_bind.
  destruct (lru_get now name qtype cap s) as [s1 r1]. cbn [fst snd] in *. destruct r1 as [hit|].
  { by exists c1, st, (Some hit). }
  pose proof (returns_resolve_from (resolve_fuel 0 0) w roots name qtype cap 0 0 st Hw Hn Hcap ltac:(done) ltac:(done) Hst ltac:(lia)) as He.
  apply returns_Ok in He as ([st1 r] & Er & Hst1 & Ho). rewrite Er, Ok_bind. destruct r as [[ans rcode]|]; cycle 1.
  { exists c1, st1, None. split; [done|]. split_and!; [done..|]. by exists true. }
  destruct (Ho ans rcode eq_refl) as (_ & Hlen & _). destruct Hn as [Hname _].
  destruct ((rcode =? DNS_RCODE_NOERROR) && (0 <? zlen ans)) eqn:E1.
  - destruct (put_rep calloc t now' name qtype ans (zlen ans) rcode c1 s1 Hrep1 Hname) as (c2 & mem & -> & Hrep2 & Hm);
      [zl|lia|done|]. rewrite Ok_bind. rewrite ztake_all in Hrep2 by lia. exists c2, st1, (Some (ans, rcode)). split; [done|].
    split_and!; [done..|]. exists mem. cbn. by rewrite E1.
  - destruct (rcode =? DNS_RCODE_NXDOMAIN) eqn:E2.
    + destruct (put_rep calloc t now' name qtype [] 0 rcode c1 s1 Hrep1 Hname) as (c2 & mem & -> & Hrep2 & Hm); [done..|].
      rewrite Ok_bind. exists c2, st1, (Some (ans, rcode)). split; [done|]. split_and!; [done..|].
      exists mem. cbn. by rewrite E1, E2.
    + rewrite Ok_bind. exists c1, st1, (Some (ans, rcode)). split; [done|]. split_and!; [done..|].
      exists true. cbn. by rewrite E1, E2.
Qed.

(** ** Theorems *)

(** C9: Resolution ends, provided the network falls silent for the length of the
    timeout at some time in each round trip: whatever it sends until then
    (forged, malformed or self-referential responses included),
    [resolve_from] returns after finitely many nested calls (at most 36 deep:
    three levels of missing glue with nine CNAME hops each) without a memory
    fault, and what it returns is at most [cap] well-formed answers with an
    rcode of 4 bits. *)
Theorem resolution_terminates w roots name qtype cap st :
  world_ok w -> name_ok name -> 0 <= cap -> rstate_ok st ->
  returns (resolve_from (resolve_fuel 0 0) w roots name qtype cap 0 0 st)
    (fun '(st', r) => rstate_ok st' /\ outcome_ok cap r).
Proof. intros Hw Hn Hcap Hst. by apply returns_resolve_from. Qed.

Lemma resolution_terminates_witness :
  returns (resolve_from (resolve_fuel 0 0) fake_world root_hints (str "a") 1 8 0 0 rstate_zero)
    (fun '(st', r) => rstate_ok st' /\ outcome_ok 8 r).
Proof.
  apply resolution_terminates.
  - exact fake_world_ok.
  - split; [vm_compute; congruence|]. repeat constructor; lia.
  - lia.
  - exact rstate_zero_ok.
Defined.

(** C10: Without that assumption it need not end: while datagrams keep coming
    that have a header but not the id of the query, the receive loop of
    [query_server] goes on reading, for however long it is followed; the
    timeout of the socket restarts with each of them. *)
Theorem recv_flood_never_ends fuel evs i txid name qtype st :
  (forall j, exists bs h, evs j = RecvData bs /\ dns_parse_header (ztake MSG_BUF bs) = Ok h /\ h_id h <> txid) ->
  recv_loop fuel evs i txid name qtype st = Diverge.
Proof.
  intros Hev. revert i. induction fuel as [|fuel IH]; intros i; cbn [recv_loop]; [done|].
  destruct (Hev i) as (bs & h & -> & -> & Hid). unfold reply_matches.
  rewrite (proj2 (Z.eqb_neq _ _)) by done. cbn [negb orb]. by rewrite Ok_bind.
Qed.

Lemma recv_flood_never_ends_witness :
  recv_loop 1000 (fun _ => RecvData (replicate 12 0)) 0 7 (str "a") 1 rstate_zero = Diverge.
Proof.
  apply recv_flood_never_ends. intros j. exists (replicate 12 0), (DnsHeader 0 0 0 0 0 0). split_and!; [reflexivity|reflexivity|].
  cbn. lia.
Defined.

(** C30: A datagram is accepted only as the reply to the query just sent: it has
    that query's transaction id (drawn from the kernel's random numbers), is a
    response with exactly one question, and that question is the name (in any
    letter case), type and class asked for. With a network that falls silent,
    [query_server] returns. *)
Theorem reply_is_authentic w server_ip name qtype st :
  world_ok w -> rstate_ok st ->
  returns (query_server w server_ip name qtype st) (fun '(st', r) => rstate_ok st' /\
    forall resp, r = Some resp -> bytes resp /\ exists st1 txid m,
      next_txid w st = Ok (st1, Some txid) /\ is_reply resp txid name qtype /\
      query_bytes txid name qtype false DNS_EDNS_OUR_UDP_PAYLOAD = Some m /\
      exists i bs, x_recv (w_net w (r_trips st1) server_ip m) i = RecvData bs /\ resp = ztake MSG_BUF bs).
Proof. apply returns_query_server. Qed.

Lemma reply_is_authentic_witness :
  returns (query_server fake_world (str "198.41.0.4") (str "a") 1 rstate_zero) (fun '(st', r) => rstate_ok st' /\
    forall resp, r = Some resp -> bytes resp /\ exists st1 txid m,
      next_txid fake_world rstate_zero = Ok (st1, Some txid) /\ is_reply resp txid (str "a") 1 /\
      query_bytes txid (str "a") 1 false DNS_EDNS_OUR_UDP_PAYLOAD = Some m /\
      exists i bs, x_recv (w_net fake_world (r_trips st1) (str "198.41.0.4") m) i = RecvData bs /\ resp = ztake MSG_BUF bs).
Proof. apply reply_is_authentic; [exact fake_world_ok|exact rstate_zero_ok]. Defined.

(** C11: What [dns_resolve] does for an A or AAAA query: a cache hit is returned
    as it is, with no upstream query; on a miss the outcome is that of the
    iterative resolution, and the cache takes in exactly the NOERROR answers
    that are not empty and NXDOMAIN (as a negative entry). Failures (SERVFAIL)
    and NODATA are never cached. The cache keeps representing its abstract
    state throughout. (The network is one that falls silent, as above.) *)
Theorem resolve_caches_facts_only {F} `{FilterLaws F} calloc w roots t now now' name qtype cap (c : cache F) s st :
  rep c s -> (forall X l, calloc X = Some l -> l ∉ X) -> world_ok w -> rstate_ok st -> name_ok name -> 0 <= cap ->
  qtype = DNS_TYPE_A \/ qtype = DNS_TYPE_AAAA ->
  exists c' st' r, dns_resolve calloc w roots t now now' name qtype cap c st = Ok (c', st', r) /\
  match (lru_get now name qtype cap s).2 with
  | Some hit => r = Some hit /\ st' = st /\ rep c' (lru_get now name qtype cap s).1
  | None =>
      resolve_from (resolve_fuel 0 0) w roots name qtype cap 0 0 st = Ok (st', r) /\
      rstate_ok st' /\ outcome_ok cap r /\
      exists mem, rep c' (cache_after mem now' name qtype r (lru_get now name qtype cap s).1) /\
        ((forall X, is_Some (calloc X)) -> mem = true)
  end.
Proof. apply resolve_spec. Qed.

Lemma resolve_caches_facts_only_witness :
  exists c' st' r, dns_resolve (fun X => Some (fresh X)) fake_world root_hints 0 5 6 (str "a") 1 8
      (dns_cache_init (Cache ∅ ∅ None None 0 0 0 0 0 NoBloom)) rstate_zero = Ok (c', st', r) /\
  match (lru_get 5 (str "a") 1 8 (Lru [] 0 0 0 0)).2 with
  | Some hit => r = Some hit /\ st' = rstate_zero /\ rep c' (lru_get 5 (str "a") 1 8 (Lru [] 0 0 0 0)).1
  | None =>
      resolve_from (resolve_fuel 0 0) fake_world root_hints (str "a") 1 8 0 0 rstate_zero = Ok (st', r) /\
      rstate_ok st' /\ outcome_ok 8 r /\
      exists mem, rep c' (cache_after mem 6 (str "a") 1 r (lru_get 5 (str "a") 1 8 (Lru [] 0 0 0 0)).1) /\
        ((forall X : gset loc, is_Some (Some (fresh X))) -> mem = true)
  end.
Proof.
  apply (resolve_caches_facts_only (fun X => Some (fresh X)) fake_world root_hints 0 5 6 (str "a") 1 8
    (dns_cache_init (Cache ∅ ∅ None None 0 0 0 0 0 NoBloom)) (Lru [] 0 0 0 0) rstate_zero).
  - by apply init_rep.
  - intros X l [= <-]. apply is_fresh.
  - exact fake_world_ok.
  - exact rstate_zero_ok.
  - split; [vm_compute; congruence|]. repeat constructor; lia.
  - lia.
  - left. reflexivity.
Defined.

(** An address printed by [inet_ntop] (as glue and nested resolutions are
    kept) is read back by [inet_pton] as the same four bytes, and fits the
    16-byte address arrays. *)
Theorem inet_roundtrip bs : zlen bs = 4 -> bytes bs ->
  inet_pton (snprintf_s INET_ADDRSTRLEN (inet_ntop bs)) = Some bs.
Proof.
  intros Hl Hb. assert (snprintf_s INET_ADDRSTRLEN (inet_ntop bs) = cstr (inet_ntop bs)) as ->.
  { apply snprintf_s_fits. pose proof (strlen_le (inet_ntop bs)). pose proof (inet_ntop_length bs Hl Hb).
    unfold INET_ADDRSTRLEN. lia. }
  unfold inet_pton. rewrite cstr_cstr. by apply inet_pton_ntop_lemma.
Qed.

Lemma inet_roundtrip_witness : inet_pton (snprintf_s INET_ADDRSTRLEN (inet_ntop [198; 41; 0; 4])) = Some [198; 41; 0; 4].
Proof. apply inet_roundtrip; [reflexivity|repeat constructor; lia]. Defined.

(** A two-level hierarchy, end to end: the root refers [a.b] to a server for
    [b] with glue, that server answers, and the resolver returns its address
    after two queries. *)
Theorem resolves_through_referral :
  resolve_from (resolve_fuel 0 0) fake_world root_hints (str "a.b") 1 8 0 0 rstate_zero =
  Ok (RState (w_pool) 62 1 2 2 0, Some ([DnsAnswer 1 300 [10; 0; 0; 7] (str "a.b")], 0)).
Proof. vm_compute. reflexivity. Qed.
