(* ===== verification/Backend.v ===== *)
(** * The backend behind the transports (src/dns_iface.h, src/dns_backend.c)

    [Backend] is the contract of dns_iface.h that the UDP, TCP and AF_XDP
    transports are written against: one entry point that turns a query into a
    response. The instance here is the caching resolver; resolver_stub.c is
    another one. *)

From stdpp Require Import prelude list gmap.
From Stdlib Require Import ZArith Lia.
From S2P Require Import Prelude DnsName DnsParse DnsBuild DnsBloom DnsCache CacheRefine Dissect Resolver.

Local Open Scope Z_scope.

(** The message is a response to the query: it has the query's transaction id
    and the QR bit. *)
Definition response_to (query R : list Z) : Prop :=
  exists h h', dns_parse_header query = Ok h /\ dns_parse_header R = Ok h' /\
    h_id h' = h_id h /\ has_flag (h_flags h') DNS_FLAG_QR = true.

(** ** The contract *)

(** [b_query e st query resp is_udp]: the call in the circumstances [e] (thread
    and time) on the backend's state; [Some (resp', n)] is [DNS_OK] with
    [*resp_len = n], [None] is [DNS_DROP]. *)
Class Backend (E B : Type) := {
  b_query : E -> B -> list Z -> list Z -> bool -> res (B * option (list Z * Z))
}.

Class BackendLaws (E B : Type) `{Backend E B} := {
  b_env_ok : E -> Prop;
  b_ok : B -> Prop;
  (** A response stays inside of its buffer, is never empty, and answers the
      query; no input makes the backend fault. *)
  b_query_ok : forall e st query resp is_udp,
    b_env_ok e -> b_ok st -> bytes query -> 512 <= zlen resp < 2 ^ 64 ->
    returns (b_query e st query resp is_udp) (fun '(st', r) => b_ok st' /\
      forall resp' n, r = Some (resp', n) ->
        zlen resp' = zlen resp /\ DNS_HDR_LEN <= n <= zlen resp /\ response_to query (ztake n resp'))
}.

(** ** The caching resolver *)

(** One call's thread, times of lookup and insertion, and allocator. *)
Record call_env := CallEnv {
  ce_thread : nat;
  ce_now : Z;
  ce_now' : Z;
  ce_calloc : gset loc -> option loc
}.

(** The static data of the cache and of the resolver. *)
Record backend (F : Type) := BackendState {
  be_cache : cache F;
  be_res : rstate;
  be_roots : list (list Z)
}.
Arguments BackendState {F}.
Arguments be_cache {F}.
Arguments be_res {F}.
Arguments be_roots {F}.

Section backend_ops.
Context {F : Type} `{Filter F} (w : world).

(** [env]: the value of DNS_ROOT_HINTS. *)
Definition dns_backend_init (env : option (list Z)) (st : backend F) : backend F :=
  BackendState (dns_cache_init (be_cache st)) (be_res st) (dns_resolver_init env (be_roots st)).

Definition dns_resolve_query (e : call_env) (st : backend F) (query resp : list Z) (is_udp : bool)
    : res (backend F * option (list Z * Z)) :=
  match dns_parse_query query with
  | Ok q =>
      '(st1, ans, rcode) ←
        (if negb (q_qclass (qi_q q) =? DNS_CLASS_IN) then Ok (st, [], DNS_RCODE_NOTIMP)
         else
           '(c, rs, r) ← dns_resolve (ce_calloc e) w (be_roots st) (ce_thread e) (ce_now e) (ce_now' e)
                           (q_name (qi_q q)) (q_qtype (qi_q q)) DNS_MAX_ANSWERS (be_cache st) (be_res st);
           let st1 := BackendState c rs (be_roots st) in
           match r with
           | Some (ans, rcode) => Ok (st1, ans, rcode)
           | None => Ok (st1, [], DNS_RCODE_SERVFAIL)
           end);
      match dns_build_response query q ans rcode is_udp resp with
      | Ok (resp', n) => Ok (st1, Some (resp', n))
      | Fail => Ok (st1, None)
      | Fault => Fault
      | Diverge => Diverge
      end
  | Fail => Ok (st, None)
  | Fault => Fault
  | Diverge => Diverge
  end.

(** The statistics that are printed, and the backend afterwards. *)
Definition dns_backend_fini (st : backend F) : res (backend F * (Z * Z * Z * Z * Z) * (Z * Z)) :=
  let cs := dns_cache_stats (be_cache st) in
  let us := dns_resolver_stats (be_res st) in
  c ← dns_cache_fini (be_cache st);
  Ok (BackendState c (be_res st) (be_roots st), cs, us).
End backend_ops.

#[global] Instance resolver_backend {F} `{Filter F} (w : world) : Backend call_env (backend F) := {
  b_query := dns_resolve_query w
}.

(** ** What the cache may hold *)

Definition entry_ok (e : entry) : Prop := Forall kept_answer (e_ans e) /\ 0 <= e_rcode e < 16.
Definition lru_ok (s : lru) : Prop := Forall entry_ok (l_entries s).

Definition call_env_ok (e : call_env) : Prop := forall X l, ce_calloc e X = Some l -> l ∉ X.

(** The cache's heap is a cache of well-formed answers. *)
Definition backend_ok {F} `{FilterLaws F} (st : backend F) : Prop :=
  (exists s, rep (be_cache st) s /\ lru_ok s) /\ rstate_ok (be_res st).

(** A call and a fresh backend, for examples. *)
Definition sample_env : call_env := CallEnv 0 5 6 (fun X => Some (fresh X)).

Definition sample_backend : backend bloom :=
  dns_backend_init None (BackendState (Cache ∅ ∅ None None 0 0 0 0 0 bloom_zero) rstate_zero root_hints).

(** ** Lemmas *)

Lemma kept_with_ttl ttl ans : 0 <= ttl < 2 ^ 32 -> Forall kept_answer ans -> Forall kept_answer (with_ttl ttl ans).
Proof.
  intros Ht H. apply Forall_fmap. eapply Forall_impl; [done|].
  intros a ((H1 & H2 & H3 & H4 & H5 & H6) & H7). unfold kept_answer, answer_ok. cbn in *. tauto.
Qed.

Lemma lru_ok_remove k s : lru_ok s -> Forall entry_ok (remove_key k (l_entries s)).
Proof.
  intros H. apply Forall_forall. intros e [_ He]%list_elem_of_filter. unfold lru_ok in H. rewrite Forall_forall in H. auto.
Qed.

Lemma lru_get_ok now name qtype cap s : lru_ok s -> 0 <= cap ->
  lru_ok (lru_get now name qtype cap s).1 /\
  forall ans rcode, (lru_get now name qtype cap s).2 = Some (ans, rcode) ->
    Forall kept_answer ans /\ zlen ans <= cap /\ 0 <= rcode < 16.
Proof.
  intros H Hcap. destruct s as [es h m v x]. unfold lru_get.
  destruct (find_key (key_of name qtype) es) as [e|] eqn:Ef; [|done].
  pose proof (lru_ok_remove (key_of name qtype) (Lru es h m v x) H) as Hrem. cbn in Hrem.
  case_test; [done|]. apply find_key_elem in Ef as [Hin _]. unfold lru_ok in H. cbn in H.
  rewrite Forall_forall in H. destruct (H e Hin) as [Hans Hrc].
  split; [constructor; [|done]; split; done|]. intros ? ? [= <- <-]. split_and!; [| |apply Hrc..].
  - apply kept_with_ttl; [apply Z.mod_pos_bound; lia|by apply Forall_take].
  - unfold with_ttl. rewrite zlen_fmap, zlen_ztake_min by done. lia.
Qed.

Lemma lru_put_ok mem now name qtype ans rcode s : lru_ok s -> Forall kept_answer ans -> 0 <= rcode < 16 ->
  lru_ok (lru_put mem now name qtype ans rcode s).
Proof.
  intros H Ha Hr. unfold lru_put. assert (lru_ok (lru_make_room now s)) as Hroom.
  { unfold lru_make_room. case_test; [|done]. destruct (victim now (l_entries s)); [|done]. by apply lru_ok_remove. }
  destruct (find_key _ (l_entries s)) as [e|].
  - constructor; [split; [by apply Forall_take|done]|]. by apply lru_ok_remove.
  - destruct mem; [|done]. constructor; [split; [by apply Forall_take|done]|done].
Qed.

Lemma cache_after_ok mem now name qtype r s cap : lru_ok s -> outcome_ok cap r ->
  lru_ok (cache_after mem now name qtype r s).
Proof.
  intros H Ho. unfold cache_after. destruct r as [[ans rcode]|]; [|done]. destruct (Ho ans rcode eq_refl) as (Ha & _ & Hr).
  case_test; [by apply lru_put_ok|]. case_test; [by apply lru_put_ok|done].
Qed.

(** [dns_resolve] keeps the backend well formed and returns answers the builder
    can take. *)
Lemma returns_resolve {F} `{FilterLaws F} calloc w roots t now now' name qtype (c : cache F) s st :
  rep c s -> lru_ok s -> (forall X l, calloc X = Some l -> l ∉ X) -> world_ok w -> rstate_ok st -> name_ok name ->
  returns (dns_resolve calloc w roots t now now' name qtype DNS_MAX_ANSWERS c st) (fun '(c', st', r) =>
    (exists s', rep c' s' /\ lru_ok s') /\ rstate_ok st' /\ outcome_ok DNS_MAX_ANSWERS r).
Proof.
  intros Hrep Hok Hfresh Hw Hst Hn.
  destruct (negb (qtype =? DNS_TYPE_A) && negb (qtype =? DNS_TYPE_AAAA)) eqn:Eq.
  { unfold dns_resolve. rewrite Eq. cbn. split_and!; [by exists s|done|]. by intros ? ? [= <- <-]. }
  destruct (resolve_spec calloc w roots t now now' name qtype DNS_MAX_ANSWERS c s st Hrep Hfresh Hw Hst Hn)
    as (c' & st' & r & -> & Hres); [done| |].
  { apply andb_false_iff in Eq as [Eq|Eq]; zbool; auto. }
  cbn. destruct (lru_get_ok now name qtype DNS_MAX_ANSWERS s Hok ltac:(done)) as [Hok1 Hhit].
  destruct (lru_get now name qtype DNS_MAX_ANSWERS s) as [s1 hit]. cbn [fst snd] in *. destruct hit as [[ans rc]|].
  - destruct Hres as (-> & -> & Hrep'). split_and!; [by exists s1|done|]. intros ? ? [= <- <-]. by apply Hhit.
  - destruct Hres as (_ & Hst' & Ho & mem & Hrep' & _). split_and!; [|done..].
    eexists. split; [exact Hrep'|]. by eapply cache_after_ok.
Qed.

Lemma kept_answers_ok ans : Forall kept_answer ans -> Forall answer_ok ans.
Proof. intros H. eapply Forall_impl; [done|]. by intros a [? _]. Qed.

(** The response's header. *)
Lemma response_bytes_to query q ans rcode is_udp cap : bytes query -> dns_parse_query query = Ok q ->
  Forall answer_ok ans -> response_to query (response_bytes query q ans rcode is_udp cap).
Proof.
  intros Hb Hq Ha. pose proof (ensures_parse_query query Hb) as Hok. rewrite Hq in Hok. cbn in Hok.
  destruct Hok as [[Hid _] _].
  destruct (response_rrs q ans rcode is_udp cap) as [rrs tc] eqn:Er.
  pose proof (parse_response_header query q ans rcode is_udp cap rrs tc Er (response_bytes_bytes _ _ _ _ _ _ Hb Ha) Hid) as Hp.
  destruct (response_flags_bits q rcode tc) as (_ & HQR & _).
  unfold dns_parse_query in Hq. apply bind_Ok in Hq as (h & Hh & Hq). do 3 (case_test_in Hq; [done|]).
  apply bind_Ok in Hq as ([name after] & _ & Hq). case_test_in Hq; [done|].
  apply bind_Ok in Hq as (? & _ & Hq). apply bind_Ok in Hq as (? & _ & Hq). apply bind_Ok in Hq as ([[[? ?] ?] ?] & _ & Hq).
  injection Hq as <-. eexists _, _. split_and!; [done|exact Hp|done|exact HQR].
Qed.

Lemma zlen_response_bytes_ge query q ans rcode is_udp cap : 12 <= zlen (response_bytes query q ans rcode is_udp cap).
Proof. unfold response_bytes. destruct (response_rrs _ _ _ _ _). autorewrite with zlen. zl. Qed.

Lemma returns_resolve_query {F} `{FilterLaws F} w e (st : backend F) query resp is_udp :
  world_ok w -> call_env_ok e -> backend_ok st -> bytes query -> 512 <= zlen resp < 2 ^ 64 ->
  returns (dns_resolve_query w e st query resp is_udp) (fun '(st', r) => backend_ok st' /\
    forall resp' n, r = Some (resp', n) ->
      zlen resp' = zlen resp /\ DNS_HDR_LEN <= n <= zlen resp /\ response_to query (ztake n resp')).
Proof.
  intros Hw He ((s & Hrep & Hlru) & Hst) Hb Hr. unfold dns_resolve_query.
  pose proof (ensures_parse_query query Hb) as Hq. destruct (dns_parse_query query) as [q| | |] eqn:Eq; cbn in Hq; [|by cbn; split; [split; [by exists s|done]|]|done..].
  eapply (returns_bind_intro _ _ (fun '(st1, ans, rcode) => backend_ok st1 /\ Forall answer_ok ans)).
  - case_test; [cbn; split; [split; [by exists s|done]|constructor]|].
    eapply returns_bind_intro; [eapply returns_resolve; try done|].
    { destruct Hq as (_ & _ & _ & _ & Hl & Hqb & _). split; [|done]. pose proof (strlen_le (q_name (qi_q q))). lia. }
    intros [[c' rs'] r] (Hc & Hrs & Ho). destruct r as [[ans rc]|]; [|cbn; split; [done|constructor]].
    destruct (Ho ans rc eq_refl) as (Ha & _). cbn. split; [done|by apply kept_answers_ok].
  - intros [[st1 ans] rcode] [Hst1 Ha].
    destruct (respond_spec query q ans rcode is_udp resp Hb Eq Ha Hr) as (resp' & -> & Hlen & Hpre & Hfit).
    cbn -[zlen]. split; [done|]. intros ? ? [= <- <-]. pose proof (effective_cap_bound q is_udp (zlen resp) (zlen_nonneg resp)).
    rewrite Hpre. split_and!; [done|apply zlen_response_bytes_ge|lia|by apply response_bytes_to].
Qed.

(** The caching resolver keeps the contract, with either filter. *)
#[global] Instance resolver_backend_laws {F} `{FilterLaws F} w (Hw : world_ok w) :
  @BackendLaws call_env (backend F) (resolver_backend w).
Proof.
  refine (@Build_BackendLaws call_env (backend F) (resolver_backend w) call_env_ok backend_ok _).
  intros e st query resp is_udp. exact (returns_resolve_query w e st query resp is_udp Hw).
Defined.

Lemma init_backend_ok {F} `{FilterLaws F} env (st : backend F) :
  c_heap (be_cache st) = ∅ -> rstate_ok (be_res st) -> backend_ok (dns_backend_init env st).
Proof. intros Hh Hst. split; [|done]. exists (Lru [] 0 0 0 0). split; [by apply init_rep|constructor]. Qed.

(** ** Theorems *)

(** C1: The whole backend, from any datagram to a response: for every query, in
    a response buffer of at least 512 bytes and with a network that falls
    silent for a timeout at some time in each exchange, [dns_resolve_query]
    returns (resolution, cache and all) without a fault; when it returns [DNS_OK] the
    response lies inside of the buffer, has at least a header, and carries the
    query's transaction id with QR set; and the backend's state stays well
    formed, so that the next call has the same guarantees. *)
Theorem backend_serves {F} `{FilterLaws F} w e (st : backend F) query resp is_udp :
  world_ok w -> call_env_ok e -> backend_ok st -> bytes query -> 512 <= zlen resp < 2 ^ 64 ->
  returns (dns_resolve_query w e st query resp is_udp) (fun '(st', r) => backend_ok st' /\
    forall resp' n, r = Some (resp', n) ->
      zlen resp' = zlen resp /\ DNS_HDR_LEN <= n <= zlen resp /\ response_to query (ztake n resp')).
Proof. apply returns_resolve_query. Qed.

Lemma sample_env_ok : call_env_ok sample_env.
Proof. intros X l [= <-]. apply is_fresh. Qed.

Lemma sample_backend_ok : backend_ok sample_backend.
Proof. apply init_backend_ok; [done|]. split_and!; try done. apply Forall_replicate. lia. Qed.

Lemma backend_serves_witness :
  returns (dns_resolve_query fake_world sample_env sample_backend sample_query (replicate 512 0) true) (fun '(st', r) =>
    backend_ok st' /\ forall resp' n, r = Some (resp', n) ->
      zlen resp' = zlen (replicate 512 0) /\ DNS_HDR_LEN <= n <= zlen (replicate 512 0) /\
      response_to sample_query (ztake n resp')).
Proof.
  apply (backend_serves fake_world sample_env sample_backend sample_query (replicate 512 0) true).
  - exact fake_world_ok.
  - exact sample_env_ok.
  - exact sample_backend_ok.
  - repeat constructor; lia.
  - split; vm_compute; congruence.
Defined.

(** Queries of another class than IN, and types other than A and AAAA, are
    answered NOTIMP without touching the cache or the network. *)
Theorem backend_notimp {F} `{FilterLaws F} w e (st : backend F) query q resp is_udp :
  bytes query -> 512 <= zlen resp < 2 ^ 64 -> dns_parse_query query = Ok q ->
  q_qclass (qi_q q) <> DNS_CLASS_IN \/ (q_qtype (qi_q q) <> DNS_TYPE_A /\ q_qtype (qi_q q) <> DNS_TYPE_AAAA) ->
  exists resp', dns_resolve_query w e st query resp is_udp =
      Ok (st, Some (resp', zlen (response_bytes query q [] DNS_RCODE_NOTIMP is_udp (zlen resp)))) /\
    ztake (zlen (response_bytes query q [] DNS_RCODE_NOTIMP is_udp (zlen resp))) resp' =
      response_bytes query q [] DNS_RCODE_NOTIMP is_udp (zlen resp).
Proof.
  intros Hb Hr Hq Hor. unfold dns_resolve_query. rewrite Hq.
  assert (forall X, (X = Ok (st, [], DNS_RCODE_NOTIMP) :> res (backend F * list dns_answer * Z)) ->
    exists resp', (x ← X; let '(st1, ans, rcode) := x in
      match dns_build_response query q ans rcode is_udp resp with
      | Ok (resp', n) => Ok (st1, Some (resp', n)) | Fail => Ok (st1, None) | Fault => Fault | Diverge => Diverge end) =
      Ok (st, Some (resp', zlen (response_bytes query q [] DNS_RCODE_NOTIMP is_udp (zlen resp)))) /\
    ztake (zlen (response_bytes query q [] DNS_RCODE_NOTIMP is_udp (zlen resp))) resp' =
      response_bytes query q [] DNS_RCODE_NOTIMP is_udp (zlen resp)) as Hend.
  { intros X ->. rewrite Ok_bind.
    destruct (respond_spec query q [] DNS_RCODE_NOTIMP is_udp resp Hb Hq) as (resp' & -> & _ & Hpre & _); [constructor|done|].
    by exists resp'. }
  apply Hend. case_test; [done|]. destruct Hor as [|[Ha Haaaa]]; [done|]. unfold dns_resolve.
  rewrite (proj2 (Z.eqb_neq _ _) Ha), (proj2 (Z.eqb_neq _ _) Haaaa). cbn. by destruct st.
Qed.

Lemma backend_notimp_witness :
  let q := DnsQueryInfo (DnsHeader 7 256 1 0 0 0) (DnsQuestion [97] 16 1 12 7) true false 0 0 false in
  let query := [0; 7; 1; 0; 0; 1; 0; 0; 0; 0; 0; 0; 1; 97; 0; 0; 16; 0; 1] in
  exists resp', dns_resolve_query fake_world sample_env sample_backend query (replicate 512 0) true =
      Ok (sample_backend, Some (resp', zlen (response_bytes query q [] DNS_RCODE_NOTIMP true 512))) /\
    ztake (zlen (response_bytes query q [] DNS_RCODE_NOTIMP true 512)) resp' =
      response_bytes query q [] DNS_RCODE_NOTIMP true 512.
Proof.
  apply (backend_notimp fake_world sample_env sample_backend
    [0; 7; 1; 0; 0; 1; 0; 0; 0; 0; 0; 0; 1; 97; 0; 0; 16; 0; 1]
    (DnsQueryInfo (DnsHeader 7 256 1 0 0 0) (DnsQuestion [97] 16 1 12 7) true false 0 0 false) (replicate 512 0) true).
  - repeat constructor; lia.
  - split; vm_compute; congruence.
  - reflexivity.
  - right. split; discriminate.
Defined.
