(* ===== verification/ResolverStub.v ===== *)
(** * The stub backend (src/resolver_stub.c)

    A backend with no upstream I/O, used to measure the transports: every
    query whose question can be walked gets one A record with a fixed address.
    It is the second instance of [Backend]. *)

From Stdlib Require Import String.
From stdpp Require Import prelude list gmap.
From Stdlib Require Import ZArith Lia List.
From S2P Require Import Prelude DnsName DnsParse DnsBuild DnsBloom DnsCache CacheRefine Dissect Resolver Backend.

Local Open Scope Z_scope.

Definition STUB_TTL : Z := 300.

(** [stub_addr] in memory order, and the delay, which only takes time. *)
Record stub := Stub {
  stub_addr : list Z;
  stub_delay_us : Z
}.

(** [ip] is the value of STUB_ANSWER_IP, [delay] what [strtol] reads from
    STUB_DELAY_US (0 without it); [None] is the error return. *)
Definition dns_backend_init (ip : option (list Z)) (delay : Z) : option stub :=
  match inet_pton (default (str "10.0.0.1"%string) ip) with
  | Some addr => Some (Stub addr delay)
  | None => None
  end.

(** [while (off < len)] *)
Fixpoint question_loop (fuel : nat) (msg : list Z) (off : Z) : res Z :=
  match fuel with
  | O => Diverge
  | S fuel' =>
      if zlen msg <=? off then Ok 0 else
      l ← get8 msg off;
      if l =? 0 then
        if zlen msg <? off + 1 + 4 then Ok 0 else Ok (off + 1 + 4)
      else if negb (Z.land l 192 =? 0) then Ok 0
      else question_loop fuel' msg (off + (1 + l))
  end.

(** The length of header and question, 0 if malformed. Every iteration moves on
    by at least one byte. *)
Definition question_end (msg : list Z) : res Z :=
  question_loop (S (length msg)) msg DNS_HDR_LEN.

(** The flags of the response, from those of the query. *)
Definition stub_flags (f : Z) : Z :=
  let f1 := Z.lor (Z.lor f 32768) 128 in
  let f2 := Z.land f1 (u16 (Z.lnot 30720)) in
  Z.land f2 (u16 (Z.lnot 15)).

(** [None] is [DNS_DROP]. *)
Definition dns_resolve_query (st : stub) (query resp : list Z) : res (option (list Z * Z)) :=
  if zlen query <? DNS_HDR_LEN then Ok None else
  qend ← question_end query;
  if qend =? 0 then Ok None else
  let need := qend + 16 in
  if zlen resp <? need then Ok None else
  qs ← get_slice query 0 qend;
  resp1 ← put_bytes resp 0 qs;
  b2 ← get8 resp1 2;
  b3 ← get8 resp1 3;
  let flags := stub_flags (u16 (Z.lor (Z.shiftl b2 8) b3)) in
  resp2 ← put8 resp1 2 (u8 (Z.shiftr flags 8));
  resp3 ← put8 resp2 3 (u8 flags);
  resp4 ← put_bytes resp3 6 [0; 1];
  resp5 ← put_bytes resp4 8 [0; 0];
  resp6 ← put_bytes resp5 10 [0; 0];
  resp7 ← put_bytes resp6 qend
    [192; 12; 0; 1; 0; 1; u8 (Z.shiftr STUB_TTL 24); u8 (Z.shiftr STUB_TTL 16);
     u8 (Z.shiftr STUB_TTL 8); u8 STUB_TTL; 0; 4];
  resp8 ← put_bytes resp7 (qend + 12) (ztake 4 (stub_addr st));
  Ok (Some (resp8, need)).

Definition stub_ok (st : stub) : Prop := zlen (stub_addr st) = 4 /\ bytes (stub_addr st).

(** The header of the response to a query with header [h]. *)
Definition stub_header (h : dns_header) : dns_header :=
  DnsHeader (h_id h) (stub_flags (h_flags h)) (h_qdcount h) 1 0 0.

(** The whole response: the header, the query's question and the answer. *)
Definition stub_response (st : stub) (query : list Z) (h : dns_header) (qend : Z) : list Z :=
  (be16 (h_id h) ++ be16 (stub_flags (h_flags h)) ++ be16 (h_qdcount h) ++ be16 1 ++ be16 0 ++ be16 0) ++
  ztake (qend - 12) (zdrop 12 query) ++ rr_bytes [192; 12] DNS_TYPE_A DNS_CLASS_IN STUB_TTL (stub_addr st).

#[global] Instance stub_backend : Backend unit stub := {
  b_query := fun _ st query resp _ => r ← dns_resolve_query st query resp; Ok (st, r)
}.

(** ** Lemmas *)

Lemma returns_question_loop fuel msg off : bytes msg -> 12 <= off -> Z.max 0 (zlen msg - off) < Z.of_nat fuel ->
  returns (question_loop fuel msg off) (fun qend => qend = 0 \/ 17 <= qend <= zlen msg).
Proof.
  intros Hb. revert off. induction fuel as [|fuel IH]; intros off Ho Hf; cbn [question_loop]; [lia|].
  case_test; [by left|]. rewrite returns_bind. apply returns_get8; [lia|]. intros l Hl.
  apply (get8_byte _ _ _ Hb) in Hl. unfold byte in Hl.
  case_test; [case_test; [by left|right; lia]|]. case_test; [by left|]. apply IH; lia.
Qed.

Lemma returns_question_end msg : bytes msg ->
  returns (question_end msg) (fun qend => qend = 0 \/ 17 <= qend <= zlen msg).
Proof.
  intros Hb. apply returns_question_loop; [done|done|]. unfold zlen, DNS_HDR_LEN. lia.
Qed.

(** The flags' bits under a mask. *)
Lemma stub_flags_land f m : Z.land (stub_flags f) m =
  Z.lor (Z.lor (Z.land f (Z.land 34800 m)) (Z.land 32768 m)) (Z.land 128 m).
Proof.
  unfold stub_flags. change (u16 (Z.lnot 30720)) with 34815. change (u16 (Z.lnot 15)) with 65520.
  rewrite <- !Z.land_assoc, (Z.land_assoc 34815 65520 m). change (Z.land 34815 65520) with 34800.
  rewrite !Z.land_lor_distr_l, (Z.land_assoc 32768), (Z.land_assoc 128). done.
Qed.

Lemma stub_flags_bits f :
  0 <= stub_flags f < 65536 /\ has_flag (stub_flags f) DNS_FLAG_QR = true /\
  has_flag (stub_flags f) DNS_FLAG_RA = true /\ has_flag (stub_flags f) DNS_OPCODE_MASK = false /\
  Z.land (stub_flags f) DNS_RCODE_MASK = 0.
Proof.
  assert (stub_flags f = stub_flags f mod 2 ^ 16) as E.
  { rewrite <- Z.land_ones by lia. rewrite stub_flags_land.
    transitivity (Z.land (stub_flags f) (-1)); [by rewrite Z.land_m1_r|]. by rewrite stub_flags_land. }
  split; [rewrite E; apply Z.mod_pos_bound; lia|].
  unfold has_flag. rewrite !stub_flags_land. split_and!.
  - apply negb_true_iff, Z.eqb_neq. rewrite !Z.lor_eq_0_iff. vm_compute. naive_solver.
  - apply negb_true_iff, Z.eqb_neq. rewrite !Z.lor_eq_0_iff. vm_compute. naive_solver.
  - cbn. by rewrite Z.land_0_r.
  - cbn. by rewrite Z.land_0_r.
Qed.

(** What the stub writes into a buffer that is large enough. *)
Lemma stub_writes st a0 a1 a2 a3 a4 a5 a6 a7 a8 a9 a10 a11 r resp qend :
  let query := a0 :: a1 :: a2 :: a3 :: a4 :: a5 :: a6 :: a7 :: a8 :: a9 :: a10 :: a11 :: r in
  let flags := u16 (Z.lor (Z.shiftl a2 8) a3) in
  stub_ok st -> question_end query = Ok qend -> 17 <= qend <= zlen query -> qend + 16 <= zlen resp ->
  exists s, dns_resolve_query st query resp = Ok (Some (
    ([a0; a1; u8 (Z.shiftr (stub_flags flags) 8); u8 (stub_flags flags); a4; a5; 0; 1; 0; 0; 0; 0] ++ ztake (qend - 12) r) ++
    rr_bytes [192; 12] DNS_TYPE_A DNS_CLASS_IN STUB_TTL (stub_addr st) ++ s, qend + 16)) /\ zlen s = zlen resp - (qend + 16).
Proof.
  intros query flags [Ha _] Hq Hqe Hr. assert (zlen query = 12 + zlen r) as Hl by (unfold query, zlen; cbn; lia).
  unfold dns_resolve_query. rewrite (proj2 (Z.ltb_ge _ _)) by (unfold DNS_HDR_LEN; lia).
  rewrite Hq, Ok_bind, (proj2 (Z.eqb_neq _ _)), (proj2 (Z.ltb_ge _ _)) by lia.
  rewrite get_slice_in_range, Ok_bind by lia. rewrite zdrop_0.
  destruct (split_at resp 0 qend) as (e & x & s0 & -> & He & Hx); [lia..|].
  destruct e; [|rewrite zlen_cons in He; zl]. cbn [app] in *.
  destruct (split_at s0 0 12) as (e & y & s1 & -> & He' & Hy); [zl..|].
  destruct e; [|rewrite zlen_cons in He'; zl]. cbn [app] in *.
  destruct (split_at s1 0 4) as (e & z & s & -> & He'' & Hz); [zl..|].
  destruct e; [|rewrite zlen_cons in He''; zl]. cbn [app] in *.
  assert (ztake qend query = [a0; a1; a2; a3; a4; a5; a6; a7; a8; a9; a10; a11] ++ ztake (qend - 12) r) as ->.
  { replace qend with (zlen [a0; a1; a2; a3; a4; a5; a6; a7; a8; a9; a10; a11] + (qend - 12)) at 1 by (unfold zlen; cbn; lia).
    rewrite <- ztake_app_add by lia. done. }
  set (m := ztake (qend - 12) r). assert (zlen m = qend - 12) as Hm by (apply zlen_ztake; lia).
  pose proof (put_bytes_at [] x (y ++ z ++ s) ([a0; a1; a2; a3; a4; a5; a6; a7; a8; a9; a10; a11] ++ m) ltac:(zl)) as H1.
  cbn [app] in H1 |- *. change (zlen (@nil Z)) with 0 in H1. rewrite H1, !Ok_bind. clear H1.
  assert (forall t, get8 (a0 :: a1 :: a2 :: a3 :: t) 2 = Ok a2) as -> by done. rewrite Ok_bind.
  assert (forall t, get8 (a0 :: a1 :: a2 :: a3 :: t) 3 = Ok a3) as -> by done. rewrite Ok_bind. fold flags.
  set (f1 := u8 (Z.shiftr (stub_flags flags) 8)). set (f2 := u8 (stub_flags flags)).
  cbn [app]. rewrite <- ?app_assoc. set (tl := y ++ z ++ s).
  rewrite put8_put_bytes.
  rewrite (put_bytes_split _ [a0; a1] [a2] (a3 :: a4 :: a5 :: a6 :: a7 :: a8 :: a9 :: a10 :: a11 :: m ++ tl) 2), Ok_bind by done.
  rewrite put8_put_bytes.
  rewrite (put_bytes_split _ [a0; a1; f1] [a3] (a4 :: a5 :: a6 :: a7 :: a8 :: a9 :: a10 :: a11 :: m ++ tl) 3), Ok_bind by done.
  rewrite (put_bytes_split _ [a0; a1; f1; f2; a4; a5] [a6; a7] (a8 :: a9 :: a10 :: a11 :: m ++ tl) 6), Ok_bind by done.
  rewrite (put_bytes_split _ [a0; a1; f1; f2; a4; a5; 0; 1] [a8; a9] (a10 :: a11 :: m ++ tl) 8), Ok_bind by done.
  rewrite (put_bytes_split _ [a0; a1; f1; f2; a4; a5; 0; 1; 0; 0] [a10; a11] (m ++ tl) 10), Ok_bind by done.
  set (hd := [a0; a1; f1; f2; a4; a5; 0; 1; 0; 0; 0; 0] ++ m). assert (zlen hd = qend) as Hhd by (unfold hd; zl).
  rewrite (put_bytes_split _ hd y (z ++ s) qend), Ok_bind by (done || zl).
  rewrite (put_bytes_split _ (hd ++ [192; 12; 0; 1; 0; 1; 0; 0; 1; 44; 0; 4]) z s (qend + 12)), Ok_bind.
  - rewrite ztake_all by lia. exists s. split; [|subst tl; zl].
    do 3 f_equal. unfold rr_bytes. rewrite Ha. unfold hd. cbn [app]. by rewrite <- !app_assoc.
  - by rewrite <- !app_assoc.
  - zl.
  - rewrite ztake_all by lia. lia.
Qed.

(** What the stub does with every query. *)
Lemma stub_reply st query resp h qend : stub_ok st -> bytes query -> dns_parse_header query = Ok h ->
  question_end query = Ok qend -> 17 <= qend <= zlen query -> qend + 16 <= zlen resp ->
  exists s, dns_resolve_query st query resp = Ok (Some (stub_response st query h qend ++ s, qend + 16)) /\
    zlen s = zlen resp - (qend + 16) /\ zlen (stub_response st query h qend) = qend + 16.
Proof.
  intros Hst Hb Hh Hq Hqe Hr.
  destruct (split12 query) as (a0 & a1 & a2 & a3 & a4 & a5 & a6 & a7 & a8 & a9 & a10 & a11 & r & ->); [lia|].
  rewrite parse_header_12 in Hh by done. injection Hh as <-.
  destruct (stub_writes st a0 a1 a2 a3 a4 a5 a6 a7 a8 a9 a10 a11 r resp qend) as (s & -> & Hs); [done..|].
  unfold bytes in Hb. repeat (apply Forall_cons_iff in Hb as [? Hb]).
  assert (u16 (Z.lor (a2 ≪ 8) a3) = a2 * 256 + a3) as ->.
  { unfold byte, u16 in *. rewrite lor_shiftl_add by lia. change (2 ^ 8) with 256. apply Z.mod_small. lia. }
  exists s. unfold stub_response. split_and!; [|done|].
  - do 3 f_equal. cbn [h_id h_flags h_qdcount]. rewrite !be16_pair by done.
    change (zdrop 12 _) with r. rewrite <- !app_assoc. cbn [app]. unfold be16 at 1. cbn [app].
    unfold u8. change (2 ^ 8) with 256. by rewrite Z.shiftr_div_pow2.
  - change (zdrop 12 _) with r. destruct Hst as [Ha _]. assert (zlen r >= qend - 12) by (revert Hqe; zl).
    autorewrite with zlen. rewrite zlen_ztake by lia. change (zlen [192; 12]) with 2. lia.
Qed.

Lemma stub_header_ok h : header_ok h -> header_ok (stub_header h).
Proof.
  intros (H1 & H2 & H3 & _). destruct (stub_flags_bits (h_flags h)) as [H _].
  unfold header_ok, stub_header. cbn. lia.
Qed.

Lemma stub_response_bytes st query h qend : stub_ok st -> bytes query -> bytes (stub_response st query h qend).
Proof.
  intros [_ Ha] Hb. unfold stub_response. rewrite !bytes_app. split_and!; auto with fizz.
  apply rr_bytes_bytes; [|done]. repeat constructor; lia.
Qed.

Lemma stub_response_header st query h qend : stub_ok st -> bytes query -> header_ok h ->
  dns_parse_header (stub_response st query h qend) = Ok (stub_header h).
Proof.
  intros Hst Hb Hh. apply parse_header_app; [by apply stub_response_bytes|done|by apply stub_header_ok].
Qed.

(** The stub never faults, and keeps the contract of dns_iface.h. *)
Lemma returns_stub_query st query resp : stub_ok st -> bytes query ->
  returns (dns_resolve_query st query resp) (fun r => forall resp' n, r = Some (resp', n) ->
    zlen resp' = zlen resp /\ DNS_HDR_LEN <= n <= zlen resp /\ response_to query (ztake n resp')).
Proof.
  intros Hst Hb. destruct (Z.ltb_spec (zlen query) DNS_HDR_LEN) as [Hl|Hl].
  { unfold dns_resolve_query. by rewrite (proj2 (Z.ltb_lt _ _) Hl). }
  destruct (proj1 (returns_Ok _ _) (returns_question_end query Hb)) as (qend & Hq & Hqe).
  assert (qend = 0 \/ zlen resp < qend + 16 \/ (17 <= qend <= zlen query /\ qend + 16 <= zlen resp)) as [Hz|[Hz|[Hz Hr]]] by lia.
  1,2: unfold dns_resolve_query; rewrite (proj2 (Z.ltb_ge _ _) Hl), Hq, Ok_bind;
    case_test; [done|]; case_test; [done|lia].
  unfold DNS_HDR_LEN in Hl. destruct (split12 query) as (a0 & a1 & a2 & a3 & a4 & a5 & a6 & a7 & a8 & a9 & a10 & a11 & r & E); [lia|].
  assert (exists h, dns_parse_header query = Ok h) as [h Hh].
  { rewrite E in *. rewrite parse_header_12 by done. by eexists. }
  pose proof (ensures_parse_header query Hb) as Hok. rewrite Hh in Hok. destruct Hok as [Hok _].
  destruct (stub_reply st query resp h qend) as (s & -> & Hs & Hn); [done..|].
  cbn [returns]. intros resp' n E'%(inj Some). apply pair_equal_spec in E' as [<- <-]. split_and!; [zl|unfold DNS_HDR_LEN; lia|lia|].
  rewrite ztake_app_eq by done. exists h, (stub_header h).
  destruct (stub_flags_bits (h_flags h)) as (_ & HQR & _). split_and!; [done|by apply stub_response_header|done|done].
Qed.

#[global] Instance stub_backend_laws : BackendLaws unit stub.
Proof.
  refine (@Build_BackendLaws unit stub stub_backend (fun _ => True) stub_ok _).
  intros e st query resp is_udp _ Hst Hb _. cbn [b_query stub_backend]. rewrite returns_bind.
  eapply returns_mono; [by apply returns_stub_query|]. intros r Hr. by split.
Defined.

Lemma init_stub_ok ip delay st : dns_backend_init ip delay = Some st -> stub_ok st.
Proof.
  unfold dns_backend_init. destruct (inet_pton _) as [addr|] eqn:E; [|done]. intros [= <-]. by apply inet_pton_ok in E.
Qed.

(** The walk over an uncompressed name ends behind the question. *)
Lemma question_loop_name msg off ls next fuel : name_at msg off 0 ls next -> next + 4 <= zlen msg ->
  zlen ls < Z.of_nat fuel -> question_loop fuel msg off = Ok (next + 4).
Proof.
  intros H. remember 0%nat as j eqn:Hj. revert fuel.
  induction H as [off H|off j lab ls next H Hlab Hs Hna IH|]; intros fuel Hn Hf; [| |done];
    (destruct fuel; [zl|]); cbn [question_loop]; apply get8_bound in H as Hoff;
    rewrite (proj2 (Z.leb_gt _ _)) by lia; rewrite H, Ok_bind.
  - cbn [Z.eqb]. rewrite (proj2 (Z.ltb_ge _ _)) by lia. done.
  - rewrite (proj2 (Z.eqb_neq _ _)) by lia.
    rewrite byte_land_192_label by (unfold byte; lia). rewrite (proj2 (Z.leb_le _ _)) by lia. cbn [negb].
    rewrite Z.add_assoc. apply IH; [done|lia|zl].
Qed.

Lemma question_end_name msg ls next : name_at msg 12 0 ls next -> next + 4 <= zlen msg ->
  question_end msg = Ok (next + 4).
Proof.
  intros H Hn. eapply question_loop_name; [done|done|].
  pose proof (name_at_uncompressed _ _ _ _ H) as [Hs Hls]. apply get_slice_Ok in Hs as (_ & _ & Hb & Hs).
  assert (zlen ls <= zlen (wire_of ls)) as Hle.
  { unfold wire_of. rewrite zlen_app. clear -Hls. induction Hls as [|l ls Hl _ IH]; [zl|]. rewrite lab_bytes_cons. zl. }
  assert (zlen (wire_of ls) = next - 12).
  { rewrite Hs. apply zlen_slice; [lia| |lia]. apply name_at_next in H. lia. }
  unfold zlen in *. lia.
Qed.

(** ** Theorems *)

(** C38: The stub answers every query whose question is uncompressed, in a buffer
    with room for one more record, and what it sends back can be read: the
    query's id, question count and question, QR and RA set, opcode and rcode
    zero, and one A record that carries the queried name, TTL 300 and the
    configured address. *)
Theorem stub_answers st query h resp ls next :
  let n := next + 20 in
  stub_ok st -> bytes query -> dns_parse_header query = Ok h -> name_at query 12 0 ls next ->
  zlen (text_of ls) <= DNS_MAX_NAME -> next + 4 <= zlen query -> n <= zlen resp ->
  exists R s rr, dns_resolve_query st query resp = Ok (Some (R ++ s, n)) /\ zlen R = n /\
    dns_parse_header R = Ok (DnsHeader (h_id h) (stub_flags (h_flags h)) (h_qdcount h) 1 0 0) /\
    has_flag (stub_flags (h_flags h)) DNS_FLAG_QR = true /\
    has_flag (stub_flags (h_flags h)) DNS_OPCODE_MASK = false /\
    Z.land (stub_flags (h_flags h)) DNS_RCODE_MASK = 0 /\
    get_slice R 12 (next + 4 - 12) = get_slice query 12 (next + 4 - 12) /\
    dns_parse_rr R (next + 4) = Ok (rr, n) /\ rr_name rr = text_of ls /\ rr_type rr = DNS_TYPE_A /\
    rr_rclass rr = DNS_CLASS_IN /\ rr_ttl rr = STUB_TTL /\ get_slice R (rr_rdata rr) (rr_rdlength rr) = Ok (stub_addr st).
Proof.
  intros n Hst Hb Hh Hna Htext Hn Hr. pose proof (name_at_next _ _ _ _ _ Hna) as Hnx.
  pose proof (ensures_parse_header query Hb) as Hok. rewrite Hh in Hok. destruct Hok as [Hok _].
  destruct (stub_reply st query resp h (next + 4)) as (s & -> & _ & Hlen); [done..|by eapply question_end_name|lia|unfold n in *; lia|].
  set (R := stub_response st query h (next + 4)) in *. assert (bytes R) as HR by by apply stub_response_bytes.
  pose proof (name_at_uncompressed _ _ _ _ Hna) as [Hw Hls]. apply get_slice_Ok in Hw as (_ & _ & _ & Hw).
  set (q := ztake (next + 4 - 12) (zdrop 12 query)) in *.
  set (hd := be16 (h_id h) ++ be16 (stub_flags (h_flags h)) ++ be16 (h_qdcount h) ++ be16 1 ++ be16 0 ++ be16 0).
  set (rec := rr_bytes [192; 12] DNS_TYPE_A DNS_CLASS_IN STUB_TTL (stub_addr st)).
  assert (zlen hd = 12) as Hhd by (unfold hd; zl). assert (zlen q = next + 4 - 12) as Hq by (apply zlen_slice; lia).
  assert (R = (hd ++ q) ++ rec) as ER by (unfold R, stub_response; by rewrite app_assoc).
  assert (q = wire_of ls ++ zdrop (next - 12) q) as Eq.
  { rewrite Hw. unfold q. rewrite <- (ztake_zdrop (next - 12) (ztake _ _)) at 1. by rewrite ztake_ztake by lia. }
  assert (name_at R 12 0 ls (12 + zlen (wire_of ls))) as HnaR.
  { rewrite ER, Eq, <- !app_assoc, <- Hhd. by apply name_at_wire. }
  assert (dns_name_decode R (next + 4) NAME_CAP = Ok (text_of ls, next + 4 + zlen [192; 12])) as Hdec.
  { apply decode_grammar; [done|lia|done|]. exists 1%nat, ls. split_and!; [|done|done|unfold NAME_CAP, DNS_MAX_NAME in *; lia].
    replace (next + 4) with (zlen (hd ++ q) + 0) by zl. rewrite ER.
    apply (name_at_pointer _ _ 192 12 0 ls (12 + zlen (wire_of ls))); [by rewrite get8_app_r|lia| |zl|by rewrite <- ER].
    rewrite Z.add_0_r. by rewrite get8_app_r. }
  destruct Hst as [Ha Hab].
  assert (next + 4 = zlen (hd ++ q)) as Hp by zl.
  pose proof (parse_rr_bytes (hd ++ q) [192; 12] DNS_TYPE_A DNS_CLASS_IN STUB_TTL (stub_addr st) [] (text_of ls)) as Hrr.
  cbn zeta in Hrr. rewrite app_nil_r in Hrr. fold rec in Hrr. rewrite <- ER, <- Hp in Hrr.
  destruct (stub_flags_bits (h_flags h)) as (_ & HQR & _ & Hop & Hrc).
  eexists R, s, _. split_and!; [by replace n with (next + 4 + 16) by lia|unfold n; lia|by apply stub_response_header|done..| | | | | | |].
  - rewrite !get_slice_in_range by lia. f_equal. fold q. rewrite ER, <- app_assoc, zdrop_app_eq by done. by apply ztake_app_eq.
  - rewrite Hrr; try done; [|lia..]. f_equal. f_equal. unfold rec. rewrite zlen_rr_bytes, Ha. change (zlen [192; 12]) with 2. unfold n. lia.
  - done.
  - done.
  - done.
  - done.
  - cbn [rr_rdata rr_rdlength]. rewrite get_slice_in_range; [|zl..]. f_equal.
    replace R with (((hd ++ q) ++ [192; 12] ++ be16 DNS_TYPE_A ++ be16 DNS_CLASS_IN ++ be32 STUB_TTL ++ be16 (zlen (stub_addr st))) ++ stub_addr st).
    + rewrite zdrop_app_eq by zl. by apply ztake_all.
    + rewrite ER. unfold rec, rr_bytes. by rewrite <- !app_assoc.
Qed.

Lemma stub_answers_witness :
  let query := [0; 7; 1; 0; 0; 1; 0; 0; 0; 0; 0; 0; 1; 97; 0; 0; 1; 0; 1] in
  exists R s rr, dns_resolve_query (Stub [10; 0; 0; 1] 0) query (replicate 64 0) = Ok (Some (R ++ s, 35)) /\ zlen R = 35 /\
    dns_parse_header R = Ok (DnsHeader 7 (stub_flags 256) 1 1 0 0) /\
    has_flag (stub_flags 256) DNS_FLAG_QR = true /\ has_flag (stub_flags 256) DNS_OPCODE_MASK = false /\
    Z.land (stub_flags 256) DNS_RCODE_MASK = 0 /\
    get_slice R 12 (15 + 4 - 12) = get_slice query 12 (15 + 4 - 12) /\
    dns_parse_rr R (15 + 4) = Ok (rr, 35) /\ rr_name rr = text_of [[97]] /\ rr_type rr = DNS_TYPE_A /\
    rr_rclass rr = DNS_CLASS_IN /\ rr_ttl rr = STUB_TTL /\ get_slice R (rr_rdata rr) (rr_rdlength rr) = Ok [10; 0; 0; 1].
Proof.
  apply (stub_answers (Stub [10; 0; 0; 1] 0) [0; 7; 1; 0; 0; 1; 0; 0; 0; 0; 0; 0; 1; 97; 0; 0; 1; 0; 1]
    (DnsHeader 7 256 1 0 0 0) (replicate 64 0) [[97]] 15).
  - split; [reflexivity|]. repeat constructor; lia.
  - repeat constructor; lia.
  - reflexivity.
  - apply (name_at_label _ 12 0 [97] [] 15); [reflexivity|vm_compute; split; congruence|reflexivity|].
    apply (name_at_end _ 14). reflexivity.
  - vm_compute. congruence.
  - vm_compute. congruence.
  - vm_compute. congruence.
Defined.
