(* ===== verification/XdpKern.v ===== *)
(** * The XDP filter (src/af_xdp_kern.c)

    The program that runs in the kernel for every packet of the interface: it
    counts the packet, and redirects it to the AF_XDP socket of its receive
    queue if it is a DNS query over unfragmented IPv4 and UDP. The packet is
    the array between [data] and [data_end]; a load outside of it is a fault.
    [query_frame] is the set of packets that are to be redirected. *)

From stdpp Require Import prelude list.
From Stdlib Require Import ZArith Lia.
From S2P Require Import Prelude DnsName DnsParse DnsBuild.

Local Open Scope Z_scope.

(** ** Packet access

    The target is little-endian: a 16-bit field is loaded low byte first, and
    compared with constants in network byte order. *)

Definition ld16 (pkt : list Z) (off : Z) : res Z :=
  b0 ← get8 pkt off;
  b1 ← get8 pkt (off + 1);
  Ok (b0 + 256 * b1).

Definition htons (v : Z) : Z := u16 (Z.lor (Z.shiftl v 8) (Z.shiftr (u16 v) 8)).

Definition ETH_P_IP : Z := 2048.
Definition IPPROTO_UDP : Z := 17.
Definition DNS_PORT : Z := 53.
Definition MAX_IHL_BYTES : Z := 60.

(** Sizes of [struct ethhdr], [struct iphdr], [struct udphdr] and
    [struct dnshdr]. *)
Definition sizeof_ethhdr : Z := 14.
Definition sizeof_iphdr : Z := 20.
Definition sizeof_udphdr : Z := 8.
Definition sizeof_dnshdr : Z := 12.

Definition XDP_PASS : Z := 2.
Definition XDP_REDIRECT : Z := 4.

(** ** Counters *)

(** [enum xdp_dns_stat] *)
Inductive xdp_dns_stat :=
| STAT_TOTAL
| STAT_NOT_IPV4
| STAT_NOT_UDP
| STAT_NOT_DNS_PORT
| STAT_MALFORMED
| STAT_NOT_QUERY
| STAT_REDIRECTED.

#[global] Instance xdp_dns_stat_eq_dec : EqDecision xdp_dns_stat.
Proof. solve_decision. Defined.

Definition slot_of (s : xdp_dns_stat) : nat :=
  match s with
  | STAT_TOTAL => 0
  | STAT_NOT_IPV4 => 1
  | STAT_NOT_UDP => 2
  | STAT_NOT_DNS_PORT => 3
  | STAT_MALFORMED => 4
  | STAT_NOT_QUERY => 5
  | STAT_REDIRECTED => 6
  end.

(** This CPU's copy of the map [xdp_dns_stats]. A lookup outside of the map
    returns NULL. *)
Definition stat_bump (slot : xdp_dns_stat) (stats : list Z) : list Z :=
  match stats !! slot_of slot with
  | Some v => <[slot_of slot := u64 (v + 1)]> stats
  | None => stats
  end.

Definition stat_verdict (slot : xdp_dns_stat) (verdict : Z) (stats : list Z) : list Z * Z :=
  (stat_bump slot stats, verdict).

(** ** The program *)

(** [bpf_redirect_map] on [xsks_map], as a function of the key and the flags,
    is a helper of the kernel. *)
Definition xdp_dns_redirect (redirect_map : Z -> Z -> Z) (stats data : list Z) (qidx : Z)
    : res (list Z * Z) :=
  let data_end := zlen data in
  let stats := stat_bump STAT_TOTAL stats in
  let pass slot := Ok (stat_verdict slot XDP_PASS stats) in
  if data_end <? sizeof_ethhdr then pass STAT_MALFORMED else
  h_proto ← ld16 data 12;
  if negb (h_proto =? htons ETH_P_IP) then pass STAT_NOT_IPV4 else
  let ip := sizeof_ethhdr in
  if data_end <? ip + sizeof_iphdr then pass STAT_MALFORMED else
  b ← get8 data ip;
  let version := Z.shiftr b 4 in
  let ihl := Z.land b 15 in
  if negb (version =? 4) || (ihl <? 5) then pass STAT_MALFORMED else
  protocol ← get8 data (ip + 9);
  if negb (protocol =? IPPROTO_UDP) then pass STAT_NOT_UDP else
  frag_off ← ld16 data (ip + 6);
  if negb (Z.land frag_off (htons (Z.lor 8192 8191)) =? 0) then pass STAT_MALFORMED else
  let ihl_bytes := ihl * 4 in
  if (ihl_bytes <? sizeof_iphdr) || (MAX_IHL_BYTES <? ihl_bytes) then pass STAT_MALFORMED else
  let udp := ip + ihl_bytes in
  if data_end <? udp + sizeof_udphdr then pass STAT_MALFORMED else
  dest ← ld16 data (udp + 2);
  if negb (dest =? htons DNS_PORT) then pass STAT_NOT_DNS_PORT else
  let dns := udp + sizeof_udphdr in
  if data_end <? dns + sizeof_dnshdr then pass STAT_MALFORMED else
  flags ← ld16 data (dns + 2);
  if negb (Z.land flags (htons 32768) =? 0) then pass STAT_NOT_QUERY else
  qdcount ← ld16 data (dns + 4);
  if negb (qdcount =? htons 1) then pass STAT_NOT_QUERY else
  if data_end <? dns + sizeof_dnshdr + 1 then pass STAT_MALFORMED else
  let stats := stat_bump STAT_REDIRECTED stats in
  Ok (stats, redirect_map qidx XDP_PASS).

(** A sequence of packets on one CPU. *)
Fixpoint xdp_run (redirect_map : Z -> Z -> Z) (stats : list Z) (pkts : list (list Z * Z)) : res (list Z) :=
  match pkts with
  | [] => Ok stats
  | (data, qidx) :: pkts' =>
      '(stats', _) ← xdp_dns_redirect redirect_map stats data qidx;
      xdp_run redirect_map stats' pkts'
  end.

(** ** Reference definitions *)

(** The packet's layout: MAC addresses, EtherType, IPv4 header with [ihl]
    words, UDP header, DNS header and the rest. *)
Record query_layout := QueryLayout {
  ql_macs : list Z;
  ql_tos : list Z;        (* TOS, total length, identification *)
  ql_frag : Z;            (* flags and fragment offset *)
  ql_ttl : Z;
  ql_addrs : list Z;      (* header checksum and addresses *)
  ql_opts : list Z;
  ql_sport : list Z;
  ql_udp : list Z;        (* UDP length and checksum *)
  ql_id : list Z;
  ql_flags : Z;
  ql_rest : list Z        (* from ANCOUNT on *)
}.

Definition ihl_of (L : query_layout) : Z := 5 + zlen (ql_opts L) / 4.

Definition layout_bytes (L : query_layout) : list Z :=
  (ql_macs L ++ be16 ETH_P_IP) ++
  ([64 + ihl_of L] ++ ql_tos L ++ be16 (ql_frag L) ++ [ql_ttl L; IPPROTO_UDP] ++ ql_addrs L ++ ql_opts L) ++
  (ql_sport L ++ be16 DNS_PORT ++ ql_udp L) ++
  (ql_id L ++ be16 (ql_flags L) ++ be16 1 ++ ql_rest L).

Definition layout_ok (L : query_layout) : Prop :=
  zlen (ql_macs L) = 12 /\ zlen (ql_tos L) = 5 /\ zlen (ql_addrs L) = 10 /\
  zlen (ql_opts L) mod 4 = 0 /\ zlen (ql_opts L) <= 40 /\
  zlen (ql_sport L) = 2 /\ zlen (ql_udp L) = 4 /\ zlen (ql_id L) = 2 /\ 7 <= zlen (ql_rest L) /\
  (* only the reserved and the don't-fragment bit *)
  0 <= ql_frag L < 65536 /\ Z.land (ql_frag L) 16383 = 0 /\
  (* QR is clear *)
  0 <= ql_flags L < 32768.

(** The packets for the resolver. *)
Definition query_frame (data : list Z) : Prop :=
  exists L, layout_ok L /\ data = layout_bytes L.

Definition stats_ok (stats : list Z) : Prop :=
  length stats = 7%nat /\ Forall (fun v => 0 <= v < 2 ^ 64) stats.

(** The counter of all packets, and the sum of the others. *)
Definition total_of (stats : list Z) : Z := stats !!! 0%nat.
Definition others_of (stats : list Z) : Z := foldr Z.add 0 (drop 1 stats).

(** A query for the root name, with IP options, from port 4242. *)
Definition sample_frame : list Z :=
  [1; 2; 3; 4; 5; 6; 7; 8; 9; 10; 11; 12; 8; 0] ++
  [70; 0; 0; 49; 0; 0; 64; 0; 64; 17; 0; 0; 10; 0; 0; 2; 10; 0; 0; 1; 1; 1; 1; 0] ++
  [16; 146; 0; 53; 0; 25; 0; 0] ++ [0; 7; 1; 0; 0; 1; 0; 0; 0; 0; 0; 0; 0; 0; 1; 0; 1].

(** Fields of a packet by their offsets, in network byte order. *)
Definition byte_at (data : list Z) (i : Z) : Z := default 0 (data !! Z.to_nat i).
Definition net16 (data : list Z) (i : Z) : Z := byte_at data i * 256 + byte_at data (i + 1).

(** Where the UDP header begins: after [ihl] 32-bit words. *)
Definition udp_off (data : list Z) : Z := 14 + byte_at data 14 mod 16 * 4.

(** Complete headers, each with what makes the next one readable. *)
Definition ipv4_packet (data : list Z) : Prop :=
  34 <= zlen data /\ net16 data 12 = 2048 /\ byte_at data 14 / 16 = 4 /\ 5 <= byte_at data 14 mod 16.
Definition udp_packet (data : list Z) : Prop :=
  ipv4_packet data /\ byte_at data 23 = 17 /\ net16 data 20 mod 16384 = 0 /\ udp_off data + 8 <= zlen data.
Definition dns_packet (data : list Z) : Prop :=
  udp_packet data /\ net16 data (udp_off data + 2) = 53 /\ udp_off data + 20 <= zlen data.
Definition query_header (data : list Z) : Prop :=
  net16 data (udp_off data + 10) < 32768 /\ net16 data (udp_off data + 12) = 1.

(** The packets each counter counts (the comments of [enum xdp_dns_stat]): a
    packet is malformed when a header it announces is cut off, when its IPv4
    header is not one, or when it is a fragment. *)
Definition packet_class (data : list Z) (slot : xdp_dns_stat) : Prop :=
  match slot with
  | STAT_TOTAL => False
  | STAT_NOT_IPV4 => 14 <= zlen data /\ net16 data 12 <> 2048
  | STAT_NOT_UDP => ipv4_packet data /\ byte_at data 23 <> 17
  | STAT_NOT_DNS_PORT => udp_packet data /\ net16 data (udp_off data + 2) <> 53
  | STAT_MALFORMED =>
      zlen data < 14 \/
      (14 <= zlen data /\ net16 data 12 = 2048 /\ ~ ipv4_packet data) \/
      (ipv4_packet data /\ byte_at data 23 = 17 /\ ~ udp_packet data) \/
      (udp_packet data /\ net16 data (udp_off data + 2) = 53 /\ ~ dns_packet data) \/
      (dns_packet data /\ query_header data /\ zlen data = udp_off data + 20)
  | STAT_NOT_QUERY => dns_packet data /\ ~ query_header data
  | STAT_REDIRECTED => dns_packet data /\ query_header data /\ udp_off data + 21 <= zlen data
  end.

(** What the filter does with a packet: it counts it in the total and in the
    one class it belongs to, and passes it on unless that is the class of
    the redirected ones. *)
Definition filtered (redirect_map : Z -> Z -> Z) (stats data : list Z) (qidx : Z) (r : res (list Z * Z)) : Prop :=
  exists slot, packet_class data slot /\ (forall slot', packet_class data slot' -> slot' = slot) /\
    r = Ok (stat_bump slot (stat_bump STAT_TOTAL stats),
            if decide (slot = STAT_REDIRECTED) then redirect_map qidx XDP_PASS else XDP_PASS).

(** ** Lemmas *)

Lemma get8_at p x s i : i = zlen p -> get8 (p ++ x :: s) i = Ok x.
Proof. intros ->. rewrite <- (Z.add_0_r (zlen p)), get8_app_r by lia. apply get8_cons_0. Qed.

Lemma ld16_at p a b s i : i = zlen p -> ld16 (p ++ a :: b :: s) i = Ok (a + 256 * b).
Proof.
  intros ->. unfold ld16. rewrite (get8_at p a (b :: s) _ eq_refl), Ok_bind.
  replace (p ++ a :: b :: s) with ((p ++ [a]) ++ b :: s) by by rewrite <- app_assoc.
  rewrite (get8_at (p ++ [a]) b s) by zl. done.
Qed.

(** [htons] exchanges the bytes. *)
Lemma htons_swap v : 0 <= v < 65536 -> htons v = v / 256 + 256 * (v mod 256).
Proof.
  intros Hv. unfold htons, u16. rewrite (Z.mod_small v) by lia.
  assert (0 <= v / 256 < 256) as Hd by (Z.to_euclidean_division_equations; lia).
  assert (0 <= v mod 256 < 256) as Hm by (apply Z.mod_pos_bound; lia).
  rewrite Z.shiftr_div_pow2 by lia. change (2 ^ 8) with 256. change (2 ^ 16) with 65536.
  rewrite lor_shiftl_add by lia. change (2 ^ 8) with 256.
  assert (v = 256 * (v / 256) + v mod 256) as E by (apply Z.div_mod; lia).
  replace (v * 256 + v / 256) with (v / 256 + 256 * (v mod 256) + (v / 256) * 65536) by lia.
  rewrite Z.mod_add, Z.mod_small by lia. done.
Qed.

(** A field in network byte order equals a constant iff its bytes do. *)
Lemma field_eq a b v : byte a -> byte b -> 0 <= v < 65536 -> (a + 256 * b =? htons v) = bool_decide ([a; b] = be16 v).
Proof.
  unfold byte. intros Ha Hb Hv. rewrite htons_swap by done. unfold be16.
  assert (0 <= v / 256 < 256) as Hd by (Z.to_euclidean_division_equations; lia).
  assert (0 <= v mod 256 < 256) as Hm by (apply Z.mod_pos_bound; lia). rewrite (Z.mod_small (v / 256)) by lia.
  case_bool_decide as E.
  - injection E as -> ->. lia.
  - apply Z.eqb_neq. intros E'. apply E. f_equal; [lia|]. f_equal. lia.
Qed.

Lemma field_eq_num a b v : byte a -> byte b -> 0 <= v < 65536 -> (a + 256 * b =? htons v) = (a * 256 + b =? v).
Proof.
  unfold byte. intros Ha Hb Hv. rewrite htons_swap by done. pose proof (Z.div_mod v 256 ltac:(lia)) as E.
  assert (0 <= v / 256 < 256) as Hd by (Z.to_euclidean_division_equations; lia).
  assert (0 <= v mod 256 < 256) as Hm by (apply Z.mod_pos_bound; lia).
  destruct (Z.eqb_spec (a * 256 + b) v), (Z.eqb_spec (a + 256 * b) (v / 256 + 256 * (v mod 256))); lia.
Qed.

Lemma stat_bump_ok slot stats : stats_ok stats -> stats_ok (stat_bump slot stats).
Proof.
  intros [Hl Hs]. unfold stat_bump. destruct (stats !! slot_of slot); [|done].
  split; [by rewrite length_insert|]. apply Forall_insert; [done|]. apply Z.mod_pos_bound. lia.
Qed.

Lemma stat_bump_lookup slot i stats : stats_ok stats ->
  stat_bump slot stats !! i = (if decide (i = slot_of slot) then (fun v => u64 (v + 1)) <$> stats !! i else stats !! i).
Proof.
  intros [Hl _]. unfold stat_bump. destruct (lookup_lt_is_Some_2 stats (slot_of slot)) as [v Hv]; [destruct slot; cbn; lia|].
  rewrite Hv. case_decide as E; [subst; rewrite Hv, list_lookup_insert_eq; [done|by apply lookup_lt_Some in Hv]|].
  by rewrite list_lookup_insert_ne.
Qed.

Lemma stat_bump_inj s1 s2 stats : stats_ok stats -> stat_bump s1 stats = stat_bump s2 stats -> s1 = s2.
Proof.
  intros Hok E. destruct (decide (s1 = s2)) as [|Hne]; [done|]. exfalso.
  assert (slot_of s1 <> slot_of s2) as Hne' by (destruct s1, s2; done).
  apply (f_equal (fun l => l !! slot_of s1)) in E. rewrite !stat_bump_lookup in E by done.
  rewrite decide_True, decide_False in E by done. destruct Hok as [Hl Hs].
  destruct (lookup_lt_is_Some_2 stats (slot_of s1)) as [v Hv]; [destruct s1; cbn; lia|].
  rewrite Hv in E. cbn in E. injection E as E. eapply Forall_lookup_1 in Hs; [|done]. cbn in Hs.
  unfold u64 in E. destruct (decide (v + 1 = 2 ^ 64)) as [E'|]; [rewrite E', Z_mod_same_full in E; lia|].
  rewrite Z.mod_small in E; lia.
Qed.

(** Masks of a 16-bit field, byte by byte. *)
Lemma land_pair a b c d : byte a -> byte c -> 0 <= b -> 0 <= d ->
  Z.land (a + 256 * b) (c + 256 * d) = Z.land a c + 256 * Z.land b d.
Proof.
  unfold byte. intros Ha Hc Hb Hd.
  assert (forall x y, 0 <= x < 256 -> x + 256 * y = Z.lor (Z.shiftl y 8) x) as E.
  { intros x y Hx. rewrite lor_shiftl_add by lia. lia. }
  assert (0 <= Z.land a c < 256) as Hac.
  { split; [apply Z.land_nonneg; lia|]. change 256 with (2 ^ 8). rewrite <- (Z.mod_small a (2 ^ 8)) by lia.
    rewrite <- Z.land_ones, <- Z.land_assoc, (Z.land_comm (Z.ones 8)), Z.land_assoc, Z.land_ones by lia.
    apply Z.mod_pos_bound. lia. }
  rewrite !E by done. apply Z.bits_inj'. intros n Hn. rewrite Z.land_spec, !Z.lor_spec, Z.land_spec.
  destruct (Z.lt_ge_cases n 8).
  - by rewrite !Z.shiftl_spec_low.
  - rewrite !Z.shiftl_spec, Z.land_spec by lia.
    rewrite (Z.bits_above_log2 a), (Z.bits_above_log2 c), !orb_false_r; [done|lia| |lia|].
    all: match goal with |- Z.log2 ?x < _ => destruct (decide (x = 0)) as [->|]; [cbn; lia|] end;
      apply Z.log2_lt_pow2; [lia|]; apply Z.lt_le_trans with (2 ^ 8); [lia|]; apply Z.pow_le_mono_r; lia.
Qed.

Lemma frag_mask a b : byte a -> byte b ->
  (Z.land (a + 256 * b) (htons (Z.lor 8192 8191)) =? 0) = (Z.land (a * 256 + b) 16383 =? 0).
Proof.
  intros Ha Hb. change (htons (Z.lor 8192 8191)) with (63 + 256 * 255). change 16383 with (255 + 256 * 63).
  rewrite (Z.add_comm (a * 256)), (Z.mul_comm a). unfold byte in *. rewrite !land_pair by (unfold byte; lia).
  assert (0 <= Z.land a 63 /\ 0 <= Z.land b 255) as [? ?] by (rewrite !Z.land_nonneg; lia).
  destruct (Z.eqb_spec (Z.land a 63 + 256 * Z.land b 255) 0), (Z.eqb_spec (Z.land b 255 + 256 * Z.land a 63) 0); lia.
Qed.

Lemma qr_mask a b : byte a -> byte b -> (Z.land (a + 256 * b) (htons 32768) =? 0) = (a * 256 + b <? 32768).
Proof.
  intros Ha Hb. change (htons 32768) with (128 + 256 * 0). unfold byte in Hb. rewrite land_pair by (unfold byte; lia || done).
  rewrite Z.land_0_r, Z.mul_0_r, Z.add_0_r.
  assert ((Z.land a 128 =? 0) = (a <? 128)) as ->.
  { apply eqb_prop. apply (byte_forallb (fun a => Bool.eqb (Z.land a 128 =? 0) (a <? 128))); [by vm_compute|done]. }
  destruct (Z.ltb_spec a 128), (Z.ltb_spec (a * 256 + b) 32768); lia.
Qed.

Lemma ihl_version b : byte b -> Z.shiftr b 4 = 4 -> b = 64 + Z.land b 15 /\ 0 <= Z.land b 15 <= 15.
Proof.
  intros Hb. change 15 with (Z.ones 4). rewrite Z.shiftr_div_pow2, Z.land_ones by lia. change (2 ^ 4) with 16.
  change (Z.ones 4) with 15. Z.to_euclidean_division_equations. lia.
Qed.

(** ** Decompositions *)

Lemma split_byte (l : list Z) o : 0 <= o < zlen l -> exists p a s, l = p ++ a :: s /\ zlen p = o.
Proof.
  intros Ho. destruct (split_at l o 1) as (p & x & s & -> & Hp & Hx); [lia..|].
  destruct x as [|a [|]]; [done| |zl]. by exists p, a, s.
Qed.

Lemma split_pair (l : list Z) o : 0 <= o -> o + 2 <= zlen l -> exists p a b s, l = p ++ a :: b :: s /\ zlen p = o.
Proof.
  intros Ho Hl. destruct (split_byte l o) as (p & a & s & -> & Hp); [lia|].
  destruct s as [|b s]; [zl|]. by exists p, a, b, s.
Qed.


Lemma be16_read v : 0 <= v < 65536 -> exists a b, be16 v = [a; b] /\ byte a /\ byte b /\ v = a * 256 + b.
Proof.
  intros Hv. exists (v / 256 mod 256), (v mod 256). split_and!; [done|apply Z.mod_pos_bound; lia..|].
  Z.to_euclidean_division_equations. lia.
Qed.

Lemma redirects_query_frame redirect_map stats data qidx : query_frame data ->
  xdp_dns_redirect redirect_map stats data qidx =
  Ok (stat_bump STAT_REDIRECTED (stat_bump STAT_TOTAL stats), redirect_map qidx XDP_PASS).
Proof.
  intros (L & (Hm & Ht & Ha & Ho4 & Ho & Hs & Hu & Hi & Hr & Hf & Hfrag & Hfl) & ->).
  unfold layout_bytes. set (ihl := ihl_of L).
  assert (ihl * 4 = 20 + zlen (ql_opts L) /\ 5 <= ihl <= 15) as [Hihl Hihl'].
  { unfold ihl, ihl_of. pose proof (zlen_nonneg (ql_opts L)). Z.to_euclidean_division_equations. lia. }
  destruct L as [macs tos frag ttl addrs opts sport udp id flags rest]. cbn -[zlen app be16] in *.
  destruct (be16_read frag Hf) as (f0 & f1 & -> & Hf0 & Hf1 & ->).
  destruct (be16_read flags) as (g0 & g1 & -> & Hg0 & Hg1 & ->); [lia|].
  set (pkt := _ ++ _).
  assert (zlen pkt = 14 + 4 * ihl + 8 + 6 + zlen rest) as Hlen by (unfold pkt; zl).
  change (be16 ETH_P_IP) with [8; 0] in *. change (be16 DNS_PORT) with [0; 53] in *. change (be16 1) with [0; 1] in *.
  assert (forall p a b s i, pkt = p ++ a :: b :: s -> i = zlen p -> ld16 pkt i = Ok (a + 256 * b)) as Hld
    by (intros p a b s i -> ->; by apply ld16_at).
  assert (forall p a s i, pkt = p ++ a :: s -> i = zlen p -> get8 pkt i = Ok a) as Hget
    by (intros p a s i -> ->; by apply get8_at).
  pose (r1 := macs ++ [8; 0; 64 + ihl] ++ tos).
  pose (r2 := r1 ++ [f0; f1; ttl; 17] ++ addrs ++ opts ++ sport).
  pose (r3 := r2 ++ [0; 53] ++ udp ++ id).
  assert (ld16 pkt 12 = Ok 8) as L1 by (eapply (Hld macs 8 0); [by unfold pkt; rewrite <- !app_assoc|lia]).
  assert (get8 pkt 14 = Ok (64 + ihl)) as L2 by (eapply (Hget (macs ++ [8; 0])); [by unfold pkt; rewrite <- !app_assoc|zl]).
  assert (ld16 pkt 20 = Ok (f0 + 256 * f1)) as L3 by (eapply (Hld r1); [by unfold pkt, r1; rewrite <- !app_assoc|unfold r1; zl]).
  assert (get8 pkt 23 = Ok 17) as L4
    by (eapply (Hget (r1 ++ [f0; f1; ttl])); [by unfold pkt, r1; rewrite <- !app_assoc|unfold r1; zl]).
  assert (ld16 pkt (14 + ihl * 4 + 2) = Ok (0 + 256 * 53)) as L5
    by (eapply (Hld r2); [by unfold pkt, r2, r1; rewrite <- !app_assoc|unfold r2, r1; zl]).
  assert (ld16 pkt (14 + ihl * 4 + 8 + 2) = Ok (g0 + 256 * g1)) as L6
    by (eapply (Hld r3); [by unfold pkt, r3, r2, r1; rewrite <- !app_assoc|unfold r3, r2, r1; zl]).
  assert (ld16 pkt (14 + ihl * 4 + 8 + 4) = Ok (0 + 256 * 1)) as L7
    by (eapply (Hld (r3 ++ [g0; g1])); [by unfold pkt, r3, r2, r1; rewrite <- !app_assoc|unfold r3, r2, r1; zl]).
  clearbody pkt r3. unfold xdp_dns_redirect, sizeof_ethhdr, sizeof_iphdr, sizeof_udphdr, sizeof_dnshdr, MAX_IHL_BYTES.
  rewrite L1, Ok_bind, L2, Ok_bind, (L4 : get8 pkt (14 + 9) = _), Ok_bind, (L3 : ld16 pkt (14 + 6) = _), Ok_bind.
  assert (Z.shiftr (64 + ihl) 4 = 4 /\ Z.land (64 + ihl) 15 = ihl) as [-> ->].
  { change 15 with (Z.ones 4). rewrite Z.shiftr_div_pow2, Z.land_ones by lia. Z.to_euclidean_division_equations. lia. }
  rewrite L5, Ok_bind, L6, Ok_bind, L7, Ok_bind, frag_mask, qr_mask, Hfrag by done.
  rewrite (proj2 (Z.ltb_lt _ 32768)), !(proj2 (Z.ltb_ge _ _)) by lia. reflexivity.
Qed.

(** A packet with the bytes the program tests is a query frame. *)
Lemma query_frame_intro macs b tos f0 f1 ttl addrs opts sport udp id g0 g1 rest :
  zlen macs = 12 -> zlen tos = 5 -> zlen addrs = 10 -> zlen opts = 4 * Z.land b 15 - 20 ->
  zlen sport = 2 -> zlen udp = 4 -> zlen id = 2 -> 7 <= zlen rest ->
  byte b -> byte f0 -> byte f1 -> byte g0 -> byte g1 ->
  Z.shiftr b 4 = 4 -> Z.land (f0 * 256 + f1) 16383 = 0 -> g0 * 256 + g1 < 32768 ->
  query_frame (macs ++ 8 :: 0 :: b :: tos ++ f0 :: f1 :: ttl :: 17 :: addrs ++ opts ++ sport ++ 0 :: 53 :: udp ++
    id ++ g0 :: g1 :: 0 :: 1 :: rest).
Proof.
  intros Hm Ht Ha Ho Hs Hu Hi Hr Hb Hf0 Hf1 Hg0 Hg1 Hv Hf Hg.
  apply ihl_version in Hv as [Hv Hl]; [|done]. unfold byte in *. pose proof (zlen_nonneg opts).
  exists (QueryLayout macs tos (f0 * 256 + f1) ttl addrs opts sport udp id (g0 * 256 + g1) rest). split.
  - unfold layout_ok. cbn -[zlen]. rewrite Ho. split_and!; try lia. Z.to_euclidean_division_equations. lia.
  - unfold layout_bytes, ihl_of. cbn [ql_macs ql_tos ql_frag ql_ttl ql_addrs ql_opts ql_sport ql_udp ql_id ql_flags ql_rest].
    rewrite Ho. replace (64 + (5 + (4 * Z.land b 15 - 20) / 4)) with b by (Z.to_euclidean_division_equations; lia).
    assert (forall x y, byte x -> byte y -> be16 (x * 256 + y) = [x; y]) as Hbe.
    { unfold byte, be16. intros x y Hx Hy. f_equal; [|f_equal]; Z.to_euclidean_division_equations; lia. }
    rewrite !Hbe by done. change (be16 ETH_P_IP) with [8; 0]. change (be16 DNS_PORT) with [0; 53]. change (be16 1) with [0; 1].
    rewrite <- !app_assoc. done.
Qed.

Lemma get8_read data i : bytes data -> 0 <= i < zlen data ->
  exists a, byte a /\ get8 data i = Ok a /\ zdrop i data = a :: zdrop (i + 1) data.
Proof.
  intros Hb Hi. destruct (get8_in_range data i Hi) as [a Ha]. exists a. split_and!; [by eapply get8_byte|done|].
  apply get8_Ok in Ha as [? Ha]. by apply lookup_zdrop_0.
Qed.

Lemma ld16_read data i : bytes data -> 0 <= i -> i + 2 <= zlen data ->
  exists a b, byte a /\ byte b /\ ld16 data i = Ok (a + 256 * b) /\ zdrop i data = a :: b :: zdrop (i + 2) data.
Proof.
  intros Hb Hi Hl. destruct (get8_read data i) as (a & Ha & Ea & Da); [done|lia|].
  destruct (get8_read data (i + 1)) as (b & Hb' & Eb & Db); [done|lia|]. exists a, b. unfold ld16.
  rewrite Ea, Ok_bind, Eb, Ok_bind, Da, Db. split_and!; [done..|]. by rewrite <- Z.add_assoc.
Qed.

Lemma zdrop_slice {A} (l : list A) i n : 0 <= i -> 0 <= n -> i + n <= zlen l ->
  zdrop i l = ztake n (zdrop i l) ++ zdrop (i + n) l /\ zlen (ztake n (zdrop i l)) = n.
Proof.
  intros Hi Hn Hl. split; [|by apply zlen_slice]. by rewrite <- (zdrop_zdrop n i), ztake_zdrop by done.
Qed.

Lemma query_frame_of_reads data b f0 f1 g0 g1 :
  let udp := 14 + Z.land b 15 * 4 in
  bytes data -> udp + 8 + 12 + 1 <= zlen data -> byte b -> Z.shiftr b 4 = 4 -> 5 <= Z.land b 15 ->
  byte f0 -> byte f1 -> Z.land (f0 * 256 + f1) 16383 = 0 -> byte g0 -> byte g1 -> g0 * 256 + g1 < 32768 ->
  zdrop 12 data = 8 :: 0 :: zdrop 14 data -> zdrop 14 data = b :: zdrop 15 data ->
  zdrop 20 data = f0 :: f1 :: zdrop 22 data -> zdrop 23 data = IPPROTO_UDP :: zdrop 24 data ->
  zdrop (udp + 2) data = 0 :: 53 :: zdrop (udp + 4) data ->
  zdrop (udp + 8 + 2) data = g0 :: g1 :: zdrop (udp + 8 + 4) data ->
  zdrop (udp + 8 + 4) data = 0 :: 1 :: zdrop (udp + 8 + 6) data ->
  query_frame data.
Proof.
  intros udp Hb Hl Hbb Hv Hihl Hf0 Hf1 Hf Hg0 Hg1 Hg D12 D14 D20 D23 D2 D10 D11.
  pose proof (ihl_version b Hbb Hv) as [_ Hihl'].
  destruct (zdrop_slice data 0 12) as [D0 L0]; [lia..|]. destruct (zdrop_slice data 15 5) as [D15 L15]; [lia..|].
  destruct (get8_read data 22) as (ttl & _ & _ & D22); [done|lia..|]. destruct (zdrop_slice data 24 10) as [D24 L24]; [lia..|].
  destruct (zdrop_slice data 34 (4 * Z.land b 15 - 20)) as [D34 L34]; [lia..|].
  destruct (zdrop_slice data udp 2) as [D1 L1]; [lia..|]. destruct (zdrop_slice data (udp + 4) 4) as [D4 L4]; [lia..|].
  destruct (zdrop_slice data (udp + 8) 2) as [D8 L8]; [lia..|].
  rewrite (D0 : data = _). change (0 + 12) with 12. rewrite D12, D14, D15. change (15 + 5) with 20. rewrite D20, D22.
  change (22 + 1) with 23. rewrite D23, D24. change (24 + 10) with 34. rewrite D34.
  replace (34 + (4 * Z.land b 15 - 20)) with udp by lia. rewrite D1, D2, D4. replace (udp + 4 + 4) with (udp + 8) by lia.
  rewrite D8, D10, D11. apply query_frame_intro; try done. rewrite zlen_zdrop; lia.
Qed.

Lemma byte_at_get8 data i a : get8 data i = Ok a -> byte_at data i = a.
Proof. intros [_ H]%get8_Ok. unfold byte_at. by rewrite H. Qed.

Lemma net16_ld16 data i a b : bytes data -> ld16 data i = Ok (a + 256 * b) -> byte a -> byte b -> net16 data i = a * 256 + b.
Proof.
  intros Hd H Ha Hb. unfold ld16 in H. apply bind_Ok in H as (x & Hx & H). apply bind_Ok in H as (y & Hy & H).
  injection H as H. apply get8_byte in Hx as Bx; [|done]. apply get8_byte in Hy as By; [|done]. unfold byte in *.
  unfold net16. rewrite (byte_at_get8 _ _ _ Hx), (byte_at_get8 _ _ _ Hy). lia.
Qed.

(** The tests of the IPv4 header, on its fields. *)
Lemma version_ihl b : byte b -> Z.shiftr b 4 = b / 16 /\ Z.land b 15 = b mod 16.
Proof. intros Hb. change 15 with (Z.ones 4). by rewrite Z.shiftr_div_pow2, Z.land_ones by lia. Qed.

Lemma frag_mod v : (Z.land v 16383 =? 0) = (v mod 16384 =? 0).
Proof. change 16383 with (Z.ones 14). by rewrite Z.land_ones by lia. Qed.

(** The program's result, by the class of the packet. *)
Lemma filter_cases redirect_map stats data qidx : bytes data ->
  exists slot, packet_class data slot /\ xdp_dns_redirect redirect_map stats data qidx =
    Ok (stat_bump slot (stat_bump STAT_TOTAL stats),
        if decide (slot = STAT_REDIRECTED) then redirect_map qidx XDP_PASS else XDP_PASS).
Proof.
  intros Hb. unfold xdp_dns_redirect, stat_verdict, sizeof_ethhdr, sizeof_iphdr, sizeof_udphdr, sizeof_dnshdr, MAX_IHL_BYTES.
  case_test; [exists STAT_MALFORMED; cbn; auto with lia|].
  destruct (ld16_read data 12) as (p0 & p1 & Hp0 & Hp1 & E & _); [done|lia..|].
  pose proof (net16_ld16 _ _ _ _ Hb E Hp0 Hp1) as N12. rewrite E, Ok_bind. clear E.
  rewrite (field_eq_num p0 p1), <- N12 by done. destruct (Z.eqb_spec (net16 data 12) ETH_P_IP) as [Ep|Ep]; cbn [negb];
    [|exists STAT_NOT_IPV4; by cbn].
  case_test; [exists STAT_MALFORMED; cbn; unfold ipv4_packet; split; [right; left; split_and!; [lia|done|lia]|done]|].
  destruct (get8_read data 14) as (b & Hbb & E & _); [done|lia..|]. pose proof (byte_at_get8 _ _ _ E) as N14.
  rewrite E, Ok_bind. clear E. destruct (version_ihl b Hbb) as [-> ->]. rewrite <- N14.
  destruct (Z.eqb_spec (byte_at data 14 / 16) 4) as [Hv|Hv]; cbn [negb orb];
    [|exists STAT_MALFORMED; cbn; unfold ipv4_packet; split; [right; left; split_and!; [lia|done|lia]|done]].
  case_test; [exists STAT_MALFORMED; cbn; unfold ipv4_packet; split; [right; left; split_and!; [lia|done|lia]|done]|].
  assert (ipv4_packet data) as Hip by done.
  destruct (get8_read data 23) as (pr & _ & E & _); [done|lia..|]. pose proof (byte_at_get8 _ _ _ E) as N23.
  rewrite (E : get8 data (14 + 9) = _), Ok_bind. clear E. rewrite <- N23.
  destruct (Z.eqb_spec (byte_at data 23) IPPROTO_UDP) as [Hpr|Hpr]; cbn [negb]; [|exists STAT_NOT_UDP; by cbn].
  destruct (ld16_read data 20) as (f0 & f1 & Hf0 & Hf1 & E & _); [done|lia..|].
  pose proof (net16_ld16 _ _ _ _ Hb E Hf0 Hf1) as N20. rewrite (E : ld16 data (14 + 6) = _), Ok_bind. clear E.
  rewrite frag_mask, <- N20, frag_mod by done.
  destruct (Z.eqb_spec (net16 data 20 mod 16384) 0) as [Hf|Hf]; cbn [negb];
    [|exists STAT_MALFORMED; cbn; unfold udp_packet; split; [do 2 right; left; split_and!; [done..|tauto]|done]].
  assert (0 <= byte_at data 14 mod 16 < 16) as Hm by (apply Z.mod_pos_bound; lia).
  rewrite orb_false_intro by lia. change (14 + byte_at data 14 mod 16 * 4) with (udp_off data).
  case_test; [exists STAT_MALFORMED; cbn; unfold udp_packet; split; [do 2 right; left; split_and!; [done..|lia]|done]|].
  assert (udp_packet data) as Hudp by done. assert (34 <= udp_off data) as Huo by (unfold udp_off; lia).
  destruct (ld16_read data (udp_off data + 2)) as (d0 & d1 & Hd0 & Hd1 & E & _); [done|lia..|].
  pose proof (net16_ld16 _ _ _ _ Hb E Hd0 Hd1) as N2. rewrite E, Ok_bind. clear E.
  rewrite (field_eq_num d0 d1), <- N2 by done. destruct (Z.eqb_spec (net16 data (udp_off data + 2)) DNS_PORT) as [Hd|Hd]; cbn [negb];
    [|exists STAT_NOT_DNS_PORT; by cbn].
  rewrite <- !Z.add_assoc. change (8 + 12) with 20. change (8 + 2) with 10. change (8 + 4) with 12. change (8 + (12 + 1)) with 21.
  case_test; [exists STAT_MALFORMED; cbn; unfold dns_packet; split; [do 3 right; left; split_and!; [done..|lia]|done]|].
  assert (dns_packet data) as Hdns by done.
  destruct (ld16_read data (udp_off data + 10)) as (g0 & g1 & Hg0 & Hg1 & E & _); [done|lia..|].
  pose proof (net16_ld16 _ _ _ _ Hb E Hg0 Hg1) as N10. rewrite E, Ok_bind. clear E. rewrite qr_mask, <- N10 by done.
  destruct (Z.ltb_spec (net16 data (udp_off data + 10)) 32768) as [Hg|Hg]; cbn [negb];
    [|exists STAT_NOT_QUERY; cbn; unfold query_header; split; [split; [done|lia]|done]].
  destruct (ld16_read data (udp_off data + 12)) as (q0 & q1 & Hq0 & Hq1 & E & _); [done|lia..|].
  pose proof (net16_ld16 _ _ _ _ Hb E Hq0 Hq1) as N12'. rewrite E, Ok_bind. clear E. rewrite (field_eq_num q0 q1), <- N12' by done.
  destruct (Z.eqb_spec (net16 data (udp_off data + 12)) 1) as [Hq|Hq]; cbn [negb];
    [|exists STAT_NOT_QUERY; cbn; unfold query_header; split; [split; [done|lia]|done]].
  assert (query_header data) as Hqh by done.
  case_test; [exists STAT_MALFORMED; cbn; split; [do 4 right; split_and!; [done..|lia]|done]|].
  exists STAT_REDIRECTED. by cbn.
Qed.

(** No packet is in two classes. *)
Lemma packet_class_unique data s1 s2 : packet_class data s1 -> packet_class data s2 -> s1 = s2.
Proof.
  destruct s1, s2; cbn; try done; unfold dns_packet, udp_packet, ipv4_packet; intros H1 H2; exfalso; intuition (lia || congruence).
Qed.

Lemma filter_exact redirect_map stats data qidx : bytes data ->
  filtered redirect_map stats data qidx (xdp_dns_redirect redirect_map stats data qidx).
Proof.
  intros Hb. destruct (filter_cases redirect_map stats data qidx Hb) as (slot & Hc & H). exists slot. split_and!; [done| |done].
  intros slot' Hc'. by eapply packet_class_unique.
Qed.

(** The redirected packets are those with the layout of a query. *)
Lemma zdrop_byte_at data i : 0 <= i < zlen data -> zdrop i data = byte_at data i :: zdrop (i + 1) data.
Proof.
  intros Hi. destruct (get8_in_range data i Hi) as [a Ha]. rewrite (byte_at_get8 _ _ _ Ha).
  apply get8_Ok in Ha as [? Ha]. by apply lookup_zdrop_0.
Qed.

Lemma byte_at_byte data i : bytes data -> byte (byte_at data i).
Proof.
  intros Hb. unfold byte_at. destruct (data !! Z.to_nat i) as [a|] eqn:E; [|by vm_compute]. by eapply Forall_lookup_1 in Hb.
Qed.

Lemma zdrop_net16 data i v : bytes data -> 0 <= i -> i + 2 <= zlen data -> net16 data i = v ->
  zdrop i data = be16 v ++ zdrop (i + 2) data.
Proof.
  intros Hb Hi Hl <-. unfold net16. rewrite be16_pair by by apply byte_at_byte. cbn [app].
  rewrite zdrop_byte_at, (zdrop_byte_at data (i + 1)), <- Z.add_assoc by lia. done.
Qed.

Lemma query_frame_class data : bytes data -> packet_class data STAT_REDIRECTED -> query_frame data.
Proof.
  intros Hb ((((Hl & H12 & Hv & Hihl) & H23 & Hf & _) & Hd & _) & (Hg & Hq) & Hlen).
  pose proof (byte_at_byte data 14 Hb) as Hbb. destruct (version_ihl _ Hbb) as [Ev Ei].
  assert (14 + Z.land (byte_at data 14) 15 * 4 = udp_off data) as Eu by (rewrite Ei; done).
  assert (34 <= udp_off data) as Hu by (unfold udp_off; lia).
  apply (query_frame_of_reads data (byte_at data 14) (byte_at data 20) (byte_at data 21)
    (byte_at data (udp_off data + 10)) (byte_at data (udp_off data + 11))); rewrite ?Eu; try done; try by apply byte_at_byte.
  - lia.
  - by rewrite Ev.
  - by rewrite Ei.
  - apply Z.eqb_eq. rewrite frag_mod. by apply Z.eqb_eq.
  - unfold net16 in Hg. by rewrite <- Z.add_assoc in Hg.
  - apply (zdrop_net16 data 12 2048); done || lia.
  - apply (zdrop_byte_at data 14). lia.
  - rewrite (zdrop_byte_at data 20), (zdrop_byte_at data (20 + 1)) by lia. done.
  - rewrite (zdrop_byte_at data 23), H23 by lia. done.
  - rewrite (zdrop_net16 data (udp_off data + 2) 53) by (done || lia). cbn. do 3 f_equal. lia.
  - rewrite <- !Z.add_assoc. change (8 + 2) with 10. rewrite (zdrop_byte_at data (udp_off data + 10)) by lia.
    rewrite <- !Z.add_assoc. rewrite (zdrop_byte_at data (udp_off data + (10 + 1))) by lia. do 3 f_equal. lia.
  - rewrite <- !Z.add_assoc. change (8 + 4) with 12. rewrite (zdrop_net16 data (udp_off data + 12) 1) by (done || lia). cbn. do 3 f_equal. lia.
Qed.

Lemma query_frame_redirected data : bytes data -> query_frame data <-> packet_class data STAT_REDIRECTED.
Proof.
  intros Hb. split; [|by apply query_frame_class]. intros Hq.
  destruct (filter_cases (fun _ _ => 0) (replicate 7 0) data 0 Hb) as (slot & Hc & H).
  rewrite redirects_query_frame in H by done. injection H as H _.
  apply stat_bump_inj in H as <-; [done|]. apply stat_bump_ok. split; [done|]. repeat constructor; lia.
Qed.

Lemma u64_congr a b k : a = b + k * 2 ^ 64 -> u64 a = u64 b.
Proof. intros ->. unfold u64. apply Z.mod_add. lia. Qed.

Lemma u64_split v : u64 v = v - v / 2 ^ 64 * 2 ^ 64.
Proof. unfold u64. rewrite Z.mod_eq by lia. lia. Qed.

Lemma bump_sums slot stats : stats_ok stats ->
  total_of (stat_bump slot stats) = (if decide (slot = STAT_TOTAL) then u64 (total_of stats + 1) else total_of stats) /\
  u64 (others_of (stat_bump slot stats)) = u64 (others_of stats + (if decide (slot = STAT_TOTAL) then 0 else 1)).
Proof.
  intros [Hl _]. do 7 (destruct stats as [|? stats]; [done|]). destruct stats; [|done]. unfold total_of, others_of.
  destruct slot; cbn -[u64 Z.add]; (split; [done|]); case_decide; try done; [f_equal; lia|..];
    match goal with |- context [u64 (?x + 1)] => apply (u64_congr _ _ (- ((x + 1) / 2 ^ 64))); rewrite (u64_split (x + 1)); ring end.
Qed.

Lemma xdp_sums redirect_map stats data qidx : bytes data -> stats_ok stats ->
  exists stats' v, xdp_dns_redirect redirect_map stats data qidx = Ok (stats', v) /\ stats_ok stats' /\
    total_of stats' = u64 (total_of stats + 1) /\ u64 (others_of stats') = u64 (others_of stats + 1).
Proof.
  intros Hb Hs. assert (exists slot v, slot <> STAT_TOTAL /\
    xdp_dns_redirect redirect_map stats data qidx = Ok (stat_bump slot (stat_bump STAT_TOTAL stats), v)) as (slot & v & Hslot & ->).
  { destruct (filter_exact redirect_map stats data qidx Hb) as (slot & Hc & _ & ->). exists slot. eexists. split; [|done].
    by intros ->. }
  eexists _, v. split; [done|]. pose proof (stat_bump_ok STAT_TOTAL stats Hs) as Hs'.
  split; [by apply stat_bump_ok|].
  destruct (bump_sums STAT_TOTAL stats Hs) as [T O]. destruct (bump_sums slot _ Hs') as [T' O'].
  rewrite !decide_False in T', O' by done. rewrite !decide_True in T, O by done. split; [congruence|].
  rewrite O'. unfold u64 in *. rewrite <- Z.add_mod_idemp_l, O, Z.add_0_r, Z.add_mod_idemp_l by lia. done.
Qed.

Lemma run_sums redirect_map pkts : Forall (fun p => bytes p.1) pkts -> forall stats, stats_ok stats ->
  exists stats', xdp_run redirect_map stats pkts = Ok stats' /\ stats_ok stats' /\
    total_of stats' = u64 (total_of stats + zlen pkts) /\ u64 (others_of stats') = u64 (others_of stats + zlen pkts).
Proof.
  induction 1 as [|[data qidx] pkts Hb _ IH]; intros stats Hs.
  - exists stats. rewrite !zlen_nil, !Z.add_0_r. split_and!; try done. destruct Hs as [Hl Hs]. destruct stats as [|v stats]; [done|].
    apply Forall_cons in Hs as [Hv _]. unfold u64. by rewrite Z.mod_small.
  - cbn [xdp_run]. destruct (xdp_sums redirect_map stats data qidx Hb Hs) as (s1 & v & -> & Hs1 & T1 & O1). rewrite Ok_bind.
    destruct (IH s1 Hs1) as (s2 & -> & Hs2 & T2 & O2). exists s2. split_and!; [done..| |].
    + rewrite T2, T1, zlen_cons. unfold u64. rewrite Z.add_mod_idemp_l by lia. f_equal. lia.
    + rewrite O2, zlen_cons, Z.add_assoc. unfold u64 in *. rewrite <- Z.add_mod_idemp_l, O1, Z.add_mod_idemp_l by lia. done.
Qed.

(** ** Theorems *)

(** C27: The filter is exact: on every packet the program stays inside of the
    packet; it counts the packet in the total and in the one class it
    belongs to. A query over IPv4 and UDP (any IP options, unfragmented, to
    port 53, with QR clear, one question and at least one byte of it) is
    counted as redirected and gets the verdict of the redirect; every other
    packet passes to the kernel's stack and is counted by the first thing that
    is wrong with it: not IPv4, not UDP, not to port 53, not a query with one
    question, or malformed (a header cut off, a bad IPv4 header, a fragment).
    No packet is dropped, also when no socket is bound to the queue. *)
Theorem xdp_filter_exact redirect_map stats data qidx :
  bytes data ->
  (forall q, redirect_map q XDP_PASS = XDP_REDIRECT \/ redirect_map q XDP_PASS = XDP_PASS) ->
  filtered redirect_map stats data qidx (xdp_dns_redirect redirect_map stats data qidx) /\
  (query_frame data <-> packet_class data STAT_REDIRECTED) /\
  exists stats' v, xdp_dns_redirect redirect_map stats data qidx = Ok (stats', v) /\
    (v = XDP_PASS \/ (v = XDP_REDIRECT /\ query_frame data)).
Proof.
  intros Hb Hr. pose proof (filter_exact redirect_map stats data qidx Hb) as H. split_and!; [done|by apply query_frame_redirected|].
  destruct H as (slot & Hc & _ & ->). eexists _, _. split; [done|]. case_decide; subst; [|by left].
  apply query_frame_class in Hc; [|done]. destruct (Hr qidx) as [->| ->]; auto.
Qed.

Lemma xdp_filter_exact_witness :
  let rm := fun q _ => if q =? 3 then XDP_REDIRECT else XDP_PASS in
  filtered rm (replicate 7 0) sample_frame 3 (Ok ([1; 0; 0; 0; 0; 0; 1], XDP_REDIRECT)) /\
  (query_frame sample_frame <-> packet_class sample_frame STAT_REDIRECTED) /\
  exists stats' v, xdp_dns_redirect rm (replicate 7 0) sample_frame 3 = Ok (stats', v) /\
    (v = XDP_PASS \/ (v = XDP_REDIRECT /\ query_frame sample_frame)).
Proof.
  apply (xdp_filter_exact (fun q _ => if q =? 3 then XDP_REDIRECT else XDP_PASS) (replicate 7 0) sample_frame 3).
  - repeat constructor; lia.
  - intros q. destruct (q =? 3); auto.
Defined.

(** The counters add up: from zeroed counters, after any sequence of packets
    on a CPU the total is the number of packets, and the sum of the classes,
    both modulo 2^64. *)
Theorem xdp_counters_add_up redirect_map pkts : Forall (fun p => bytes p.1) pkts ->
  exists stats, xdp_run redirect_map (replicate 7 0) pkts = Ok stats /\ length stats = 7%nat /\
    total_of stats = u64 (zlen pkts) /\ u64 (others_of stats) = total_of stats.
Proof.
  intros Hb. destruct (run_sums redirect_map pkts Hb (replicate 7 0)) as (s & Hr & [Hl _] & T & O).
  - split; [done|]. apply Forall_replicate. lia.
  - exists s. split_and!; [done..|]. by rewrite O, T.
Qed.

Lemma xdp_counters_add_up_witness :
  exists stats, xdp_run (fun _ _ => XDP_PASS) (replicate 7 0) [(sample_frame, 0); ([1; 2; 3], 1)] = Ok stats /\
    length stats = 7%nat /\ total_of stats = u64 2 /\ u64 (others_of stats) = total_of stats.
Proof.
  apply (xdp_counters_add_up (fun _ _ => XDP_PASS) [(sample_frame, 0); ([1; 2; 3], 1)]).
  repeat constructor; lia.
Defined.
