(* ===== verification/XdpFrame.v ===== *)
(** * Frames in user space (src/af_xdp_user.c: parse_frame,
      build_response_frame, ipv4_checksum, the body of worker_main)

    What the packet loop does with the bytes of one frame: a received frame
    becomes a job with a copy of the DNS message and of the addresses, a worker
    resolves it against any [Backend], and the response becomes a frame with the
    addresses exchanged. Rings, queues and the frame pool are not part of it. *)

From stdpp Require Import prelude list.
From Stdlib Require Import ZArith Lia.
From S2P Require Import Prelude DnsName DnsParse DnsBuild Backend ResolverStub XdpKern.

Local Open Scope Z_scope.

Definition DNS_MAX_MSG_LEN : Z := 1500.
Definition FRAME_SIZE : Z := 4096.
Definition L2L3L4_HLEN : Z := sizeof_ethhdr + sizeof_iphdr + sizeof_udphdr.

(** Addresses and the port are kept as the bytes of the packet, the query is
    the array's first [query_len] bytes, and [j_resp] is the whole array. *)
Record dns_job := DnsJob {
  j_loop_idx : Z;
  j_client_mac : list Z;
  j_server_mac : list Z;
  j_client_ip : list Z;
  j_server_ip : list Z;
  j_client_port : list Z;
  j_tos : Z;
  j_ttl : Z;
  j_query : list Z;
  j_resp_len : Z;
  j_resp : list Z;
  j_t_rx_ns : Z
}.

(** ** Receiving *)

(** [malloc] gives the memory at [resp], or fails; [now] is [now_ns()]. *)
Definition parse_frame (malloc : option (list Z)) (now : Z) (pkt : list Z) (loop_idx : Z)
    : res (option dns_job) :=
  let len := zlen pkt in
  if len <? L2L3L4_HLEN then Ok None else
  h_proto ← ld16 pkt 12;
  if negb (h_proto =? htons ETH_P_IP) then Ok None else
  let ip := sizeof_ethhdr in
  b ← get8 pkt ip;
  if negb (Z.shiftr b 4 =? 4) || (Z.land b 15 <? 5) then Ok None else
  let ihl := u32 (Z.land b 15 * 4) in
  if len <? sizeof_ethhdr + ihl + sizeof_udphdr then Ok None else
  protocol ← get8 pkt (ip + 9);
  if negb (protocol =? IPPROTO_UDP) then Ok None else
  let udp := ip + ihl in
  dest ← ld16 pkt (udp + 2);
  if negb (dest =? htons 53) then Ok None else
  len_be ← ld16 pkt (udp + 4);
  let udp_len := htons len_be in
  if udp_len <? sizeof_udphdr then Ok None else
  let dns_len := u32 (udp_len - sizeof_udphdr) in
  let avail := u32 (len - (sizeof_ethhdr + ihl + sizeof_udphdr)) in
  let dns_len := if avail <? dns_len then avail else dns_len in
  if (dns_len <? 12) || (DNS_MAX_MSG_LEN <? dns_len) then Ok None else
  match malloc with
  | None => Ok None
  | Some resp =>
      h_source ← get_slice pkt 6 6;
      h_dest ← get_slice pkt 0 6;
      saddr ← get_slice pkt (ip + 12) 4;
      daddr ← get_slice pkt (ip + 16) 4;
      source ← get_slice pkt udp 2;
      tos ← get8 pkt (ip + 1);
      query ← get_slice pkt (udp + sizeof_udphdr) dns_len;
      Ok (Some (DnsJob (u8 loop_idx) h_source h_dest saddr daddr source tos 64 query 0 resp now))
  end.

(** ** The checksum *)

(** The loops over the words and over an odd last byte. *)
Fixpoint sum_words (buf : list Z) (sum : Z) : Z :=
  match buf with
  | a :: b :: buf' => sum_words buf' (u32 (sum + (a + 256 * b)))
  | [a] => u32 (sum + a)
  | [] => sum
  end.

(** [while (sum >> 16)]: two rounds bring a 32-bit sum below 2^16. *)
Fixpoint fold_carries (fuel : nat) (sum : Z) : res Z :=
  match fuel with
  | O => Diverge
  | S fuel' =>
      if Z.shiftr sum 16 =? 0 then Ok sum
      else fold_carries fuel' (u32 (Z.land sum 65535 + Z.shiftr sum 16))
  end.

Definition ipv4_checksum (buf : list Z) : res Z :=
  sum ← fold_carries 3 (sum_words buf 0);
  Ok (u16 (Z.lnot sum)).

(** ** Sending *)

(** A 16-bit store, low byte first. *)
Definition st16 (v : Z) : list Z := [v mod 256; v / 256 mod 256].

(** [frame] is the UMEM frame; the result is its contents and the length. *)
Definition build_response_frame (frame : list Z) (job : dns_job) : res (list Z * Z) :=
  let ip := sizeof_ethhdr in
  let udp := ip + sizeof_iphdr in
  let dns := udp + sizeof_udphdr in
  f ← put_bytes frame 0 (ztake 6 (j_client_mac job));
  f ← put_bytes f 6 (ztake 6 (j_server_mac job));
  f ← put_bytes f 12 (st16 (htons ETH_P_IP));
  let udp_total := u16 (sizeof_udphdr + j_resp_len job) in
  let ip_total := u16 (sizeof_iphdr + udp_total) in
  b ← get8 f ip;
  f ← put8 f ip (Z.lor (Z.land b 15) 64);
  b ← get8 f ip;
  f ← put8 f ip (Z.lor (Z.land b 240) 5);
  f ← put8 f (ip + 1) (j_tos job);
  f ← put_bytes f (ip + 2) (st16 (htons ip_total));
  f ← put_bytes f (ip + 4) (st16 0);
  f ← put_bytes f (ip + 6) (st16 (htons 16384));
  f ← put8 f (ip + 8) (j_ttl job);
  f ← put8 f (ip + 9) IPPROTO_UDP;
  f ← put_bytes f (ip + 10) (st16 0);
  f ← put_bytes f (ip + 12) (ztake 4 (j_server_ip job));
  f ← put_bytes f (ip + 16) (ztake 4 (j_client_ip job));
  hdr ← get_slice f ip sizeof_iphdr;
  check ← ipv4_checksum hdr;
  f ← put_bytes f (ip + 10) (st16 check);
  f ← put_bytes f udp (st16 (htons 53));
  f ← put_bytes f (udp + 2) (ztake 2 (j_client_port job));
  f ← put_bytes f (udp + 4) (st16 (htons udp_total));
  f ← put_bytes f (udp + 6) (st16 0);
  payload ← get_slice (j_resp job) 0 (j_resp_len job);
  f ← put_bytes f dns payload;
  Ok (f, u32 (L2L3L4_HLEN + j_resp_len job)).

(** ** The worker *)

(** One round of [worker_main] on a job: the backend's answer is stored in the
    job; a dropped query frees it. *)
Definition worker_resolve {E B} `{Backend E B} (e : E) (st : B) (job : dns_job) : res (B * option dns_job) :=
  '(st', r) ← b_query e st (j_query job) (j_resp job) true;
  match r with
  | Some (resp, out_len) =>
      if out_len =? 0 then Ok (st', None) else
      Ok (st', Some (DnsJob (j_loop_idx job) (j_client_mac job) (j_server_mac job) (j_client_ip job)
        (j_server_ip job) (j_client_port job) (j_tos job) (j_ttl job) (j_query job) out_len resp (j_t_rx_ns job)))
  | None => Ok (st', None)
  end.

(** ** Reference definitions *)

(** The layout of a UDP datagram over IPv4. *)
Record udp_frame := UdpFrame {
  uf_dst : list Z;
  uf_src : list Z;
  uf_tos : Z;
  uf_frag : list Z;       (* total length, identification, fragment *)
  uf_ttl : Z;
  uf_check : list Z;
  uf_saddr : list Z;
  uf_daddr : list Z;
  uf_opts : list Z;
  uf_sport : list Z;
  uf_dport : list Z;
  uf_ulen : Z;
  uf_ucheck : list Z;
  uf_payload : list Z
}.

Definition frame_ok (F : udp_frame) : Prop :=
  zlen (uf_dst F) = 6 /\ zlen (uf_src F) = 6 /\ zlen (uf_frag F) = 6 /\ zlen (uf_check F) = 2 /\
  zlen (uf_saddr F) = 4 /\ zlen (uf_daddr F) = 4 /\ zlen (uf_opts F) mod 4 = 0 /\ zlen (uf_opts F) <= 40 /\
  zlen (uf_sport F) = 2 /\ zlen (uf_dport F) = 2 /\ 0 <= uf_ulen F < 65536 /\ zlen (uf_ucheck F) = 2.

Definition ip_bytes (F : udp_frame) : list Z :=
  [69 + zlen (uf_opts F) / 4; uf_tos F] ++ uf_frag F ++ [uf_ttl F; IPPROTO_UDP] ++ uf_check F ++
  uf_saddr F ++ uf_daddr F ++ uf_opts F.

Definition frame_bytes (F : udp_frame) : list Z :=
  (uf_dst F ++ uf_src F ++ be16 ETH_P_IP) ++ ip_bytes F ++
  (uf_sport F ++ uf_dport F ++ be16 (uf_ulen F) ++ uf_ucheck F) ++ uf_payload F.

(** The DNS message: the UDP length says where it ends, but not behind the end
    of the frame. *)
Definition dns_part (F : udp_frame) : list Z := ztake (uf_ulen F - 8) (uf_payload F).

Definition job_of (F : udp_frame) (resp : list Z) (now loop_idx : Z) : dns_job :=
  DnsJob (u8 loop_idx) (uf_src F) (uf_dst F) (uf_saddr F) (uf_daddr F) (uf_sport F) (uf_tos F) 64
    (dns_part F) 0 resp now.

(** The frame of a response, for a checksum of its IP header: from the server's
    port 53 to the client, without options, and not to be fragmented. *)
Definition reply_frame (job : dns_job) (check : list Z) : udp_frame :=
  UdpFrame (j_client_mac job) (j_server_mac job) (j_tos job)
    (be16 (28 + j_resp_len job) ++ [0; 0] ++ be16 16384) (j_ttl job) check
    (j_server_ip job) (j_client_ip job) [] (be16 DNS_PORT) (j_client_port job) (8 + j_resp_len job) [0; 0]
    (ztake (j_resp_len job) (j_resp job)).

Definition job_ok (job : dns_job) : Prop :=
  zlen (j_client_mac job) = 6 /\ zlen (j_server_mac job) = 6 /\ zlen (j_client_ip job) = 4 /\
  zlen (j_server_ip job) = 4 /\ zlen (j_client_port job) = 2 /\ byte (j_tos job) /\ byte (j_ttl job) /\
  bytes (j_client_ip job) /\ bytes (j_server_ip job) /\
  zlen (j_resp job) = DNS_MAX_MSG_LEN /\ 0 <= j_resp_len job <= DNS_MAX_MSG_LEN.

(** The UDP datagram of [sample_frame]. *)
Definition sample_udp_frame : udp_frame :=
  UdpFrame [1; 2; 3; 4; 5; 6] [7; 8; 9; 10; 11; 12] 0 [0; 49; 0; 0; 64; 0] 64 [0; 0] [10; 0; 0; 2] [10; 0; 0; 1]
    [1; 1; 1; 0] [16; 146] [0; 53] 25 [0; 0] [0; 7; 1; 0; 0; 1; 0; 0; 0; 0; 0; 0; 0; 0; 1; 0; 1].

(** ** Lemmas: receiving *)

Lemma htons_fields a b : byte a -> byte b -> htons (a + 256 * b) = a * 256 + b.
Proof. unfold byte. intros Ha Hb. rewrite htons_swap by lia. Z.to_euclidean_division_equations. lia. Qed.

Lemma u32_id v : 0 <= v < 2 ^ 32 -> u32 v = v.
Proof. apply Z.mod_small. Qed.

(** The fields of a frame to port 53, where the loads find them. *)
Lemma frame_reads F u0 u1 :
  let pkt := frame_bytes F in let ihl := 5 + zlen (uf_opts F) / 4 in let udp := 14 + ihl * 4 in
  frame_ok F -> uf_dport F = be16 DNS_PORT -> be16 (uf_ulen F) = [u0; u1] -> 8 <= uf_ulen F ->
  (5 <= ihl <= 15 /\ zlen pkt = udp + 8 + zlen (uf_payload F)) /\
  get_slice pkt 0 6 = Ok (uf_dst F) /\ get_slice pkt 6 6 = Ok (uf_src F) /\ ld16 pkt 12 = Ok 8 /\
  get8 pkt 14 = Ok (64 + ihl) /\ get8 pkt 15 = Ok (uf_tos F) /\ get8 pkt 23 = Ok 17 /\
  get_slice pkt 26 4 = Ok (uf_saddr F) /\ get_slice pkt 30 4 = Ok (uf_daddr F) /\
  get_slice pkt udp 2 = Ok (uf_sport F) /\ ld16 pkt (udp + 2) = Ok (0 + 256 * 53) /\ ld16 pkt (udp + 4) = Ok (u0 + 256 * u1) /\
  get_slice pkt (udp + 8) (zlen (dns_part F)) = Ok (dns_part F).
Proof.
  intros pkt ihl udp (Hd & Hs & Hf & Hc & Hsa & Hda & Ho4 & Ho & Hsp & _ & Hul & Huc) Hdp Eu Hu.
  assert (ihl * 4 = 20 + zlen (uf_opts F) /\ 5 <= ihl <= 15) as [Hihl Hihl'].
  { unfold ihl. pose proof (zlen_nonneg (uf_opts F)). Z.to_euclidean_division_equations. lia. }
  unfold dns_part, udp in *. unfold pkt, frame_bytes, ip_bytes in *. clear pkt udp.
  replace (69 + zlen (uf_opts F) / 4) with (64 + ihl) in * by (unfold ihl; lia). clearbody ihl.
  destruct F as [dst src tos frag ttl check saddr daddr opts sport dport ulen ucheck payload].
  cbn [uf_dst uf_src uf_tos uf_frag uf_ttl uf_check uf_saddr uf_daddr uf_opts uf_sport uf_dport uf_ulen uf_ucheck uf_payload] in *.
  subst dport. rewrite Eu in *.
  change (be16 ETH_P_IP) with [8; 0] in *. change (be16 DNS_PORT) with [0; 53] in *.
  set (pkt := (dst ++ _) ++ _) in *.
  assert (zlen pkt = 14 + 4 * ihl + 8 + zlen payload) as Hl by (unfold pkt; zl).
  assert (forall p a b s i, pkt = p ++ a :: b :: s -> i = zlen p -> ld16 pkt i = Ok (a + 256 * b)) as Hld
    by (intros p a b s j -> ->; by apply ld16_at).
  assert (forall p a s i, pkt = p ++ a :: s -> i = zlen p -> get8 pkt i = Ok a) as Hget
    by (intros p a s j -> ->; by apply get8_at).
  assert (forall p x s i n, pkt = p ++ x ++ s -> i = zlen p -> n = zlen x -> get_slice pkt i n = Ok x) as Hsl.
  { intros p x s j n -> -> ->. rewrite get_slice_in_range by zl. by rewrite zdrop_app_eq, ztake_app_eq by done. }
  pose (r1 := dst ++ src ++ [8; 0]). pose (r2 := r1 ++ [64 + ihl; tos] ++ frag ++ [ttl]).
  pose (r3 := r2 ++ [17] ++ check). pose (r4 := r3 ++ saddr ++ daddr ++ opts). pose (r5 := r4 ++ sport).
  assert (zlen r1 = 14 /\ zlen r2 = 23 /\ zlen r3 = 26 /\ zlen r4 = 14 + ihl * 4 /\ zlen r5 = 14 + ihl * 4 + 2)
    as (Z1 & Z2 & Z3 & Z4 & Z5) by (unfold r5, r4, r3, r2, r1; zl).
  assert (ld16 pkt 12 = Ok 8) as L1 by (eapply (Hld (dst ++ src) 8 0); [by unfold pkt; rewrite <- !app_assoc|zl]).
  assert (get8 pkt 14 = Ok (64 + ihl)) as L2 by (eapply (Hget r1); [by unfold pkt, r1; rewrite <- !app_assoc|lia]).
  assert (get8 pkt 15 = Ok tos) as L3 by (eapply (Hget (r1 ++ [64 + ihl])); [by unfold pkt, r1; rewrite <- !app_assoc|zl]).
  assert (get8 pkt 23 = Ok 17) as L4 by (eapply (Hget r2); [by unfold pkt, r2, r1; rewrite <- !app_assoc|lia]).
  assert (get_slice pkt 26 4 = Ok saddr) as L5 by (eapply (Hsl r3); [by unfold pkt, r3, r2, r1; rewrite <- !app_assoc|lia..]).
  assert (get_slice pkt 30 4 = Ok daddr) as L6
    by (eapply (Hsl (r3 ++ saddr)); [by unfold pkt, r3, r2, r1; rewrite <- !app_assoc|zl..]).
  assert (get_slice pkt (14 + ihl * 4) 2 = Ok sport) as L7
    by (eapply (Hsl r4); [by unfold pkt, r4, r3, r2, r1; rewrite <- !app_assoc|lia..]).
  assert (ld16 pkt (14 + ihl * 4 + 2) = Ok (0 + 256 * 53)) as L8
    by (eapply (Hld r5); [by unfold pkt, r5, r4, r3, r2, r1; rewrite <- !app_assoc|lia]).
  assert (ld16 pkt (14 + ihl * 4 + 4) = Ok (u0 + 256 * u1)) as L9
    by (eapply (Hld (r5 ++ [0; 53])); [by unfold pkt, r5, r4, r3, r2, r1; rewrite <- !app_assoc|zl]).
  assert (get_slice pkt 0 6 = Ok dst /\ get_slice pkt 6 6 = Ok src) as [L10 L11].
  { split; [eapply (Hsl []); [by unfold pkt; rewrite <- !app_assoc|done..]|].
    eapply (Hsl dst); [by unfold pkt; rewrite <- !app_assoc|lia..]. }
  set (q := ztake (ulen - 8) payload) in *.
  assert (get_slice pkt (14 + ihl * 4 + 8) (zlen q) = Ok q) as L12.
  { eapply (Hsl (r5 ++ [0; 53; u0; u1] ++ ucheck) q (zdrop (ulen - 8) payload)); [|zl|done].
    unfold q. rewrite ztake_zdrop. by unfold pkt, r5, r4, r3, r2, r1; rewrite <- !app_assoc. }
  assert (zlen q = Z.min (ulen - 8) (zlen payload)) as Hq by (apply zlen_ztake_min; lia).
  split_and!; try done; lia.
Qed.

(** Every frame of the layout becomes a job, if there is memory for it. *)
Lemma parse_frame_complete F malloc now i :
  frame_ok F -> uf_dport F = be16 DNS_PORT -> zlen (frame_bytes F) < 2 ^ 32 -> 8 <= uf_ulen F ->
  12 <= zlen (dns_part F) <= DNS_MAX_MSG_LEN ->
  parse_frame malloc now (frame_bytes F) i = Ok ((fun resp => job_of F resp now i) <$> malloc).
Proof.
  intros HF Hdp Hlen Hu Hp. assert (0 <= uf_ulen F < 65536) as Hul by apply HF.
  destruct (be16_read (uf_ulen F) Hul) as (u0 & u1 & Eu & Hu0 & Hu1 & Hue).
  destruct (frame_reads F u0 u1 HF Hdp Eu Hu)
    as ((Hihl & Hl) & L10 & L11 & L1 & L2 & L3 & L4 & L5 & L6 & L7 & L8 & L9 & L12).
  set (ihl := 5 + _) in *. set (pkt := frame_bytes F) in *. set (q := dns_part F) in *.
  assert (zlen q = Z.min (uf_ulen F - 8) (zlen (uf_payload F))) as Hq by (apply zlen_ztake_min; lia).
  clearbody ihl. unfold parse_frame, L2L3L4_HLEN, sizeof_ethhdr, sizeof_iphdr, sizeof_udphdr. pose proof (zlen_nonneg (uf_payload F)).
  rewrite L1, Ok_bind, L2, Ok_bind, (L4 : get8 pkt (14 + 9) = _), Ok_bind, L10, L11, (L5 : get_slice pkt (14 + 12) 4 = _),
    (L6 : get_slice pkt (14 + 16) 4 = _), (L3 : get8 pkt (14 + 1) = _).
  assert (Z.shiftr (64 + ihl) 4 = 4 /\ Z.land (64 + ihl) 15 = ihl) as [-> ->].
  { change 15 with (Z.ones 4). rewrite Z.shiftr_div_pow2, Z.land_ones by lia. Z.to_euclidean_division_equations. lia. }
  rewrite (u32_id (ihl * 4)), L8, Ok_bind, L9, Ok_bind, L7, htons_fields, <- Hue by (lia || done).
  rewrite (u32_id (uf_ulen F - 8)), (u32_id (zlen pkt - _)) by lia.
  replace (zlen pkt - (14 + ihl * 4 + 8)) with (zlen (uf_payload F)) by lia.
  assert ((if zlen (uf_payload F) <? uf_ulen F - 8 then zlen (uf_payload F) else uf_ulen F - 8) = zlen q) as ->.
  { destruct (Z.ltb_spec (zlen (uf_payload F)) (uf_ulen F - 8)); lia. }
  rewrite L12, !(proj2 (Z.ltb_ge _ _)) by lia. destruct malloc; reflexivity.
Qed.

(** The layout a frame has when the tested bytes are those of a datagram to
    port 53. *)
Lemma frame_of_reads pkt b u0 u1 :
  let udp := 14 + Z.land b 15 * 4 in
  bytes pkt -> udp + 8 <= zlen pkt -> byte b -> Z.shiftr b 4 = 4 -> 5 <= Z.land b 15 -> byte u0 -> byte u1 ->
  zdrop 12 pkt = 8 :: 0 :: zdrop 14 pkt -> zdrop 14 pkt = b :: zdrop 15 pkt ->
  zdrop 23 pkt = IPPROTO_UDP :: zdrop 24 pkt -> zdrop (udp + 2) pkt = 0 :: 53 :: zdrop (udp + 4) pkt ->
  zdrop (udp + 4) pkt = u0 :: u1 :: zdrop (udp + 6) pkt ->
  exists F, frame_ok F /\ uf_dport F = be16 DNS_PORT /\ pkt = frame_bytes F /\ uf_ulen F = u0 * 256 + u1 /\
    uf_payload F = zdrop (udp + 8) pkt.
Proof.
  intros udp Hb Hl Hbb Hv Hihl Hu0 Hu1 D12 D14 D23 D2 D4. pose proof (ihl_version b Hbb Hv) as [Eb Hihl'].
  destruct (zdrop_slice pkt 0 6) as [D0 L0]; [lia..|]. destruct (zdrop_slice pkt 6 6) as [D6 L6]; [lia..|].
  destruct (get8_read pkt 15) as (tos & _ & _ & D15); [done|lia..|]. destruct (zdrop_slice pkt 16 6) as [D16 L16]; [lia..|].
  destruct (get8_read pkt 22) as (ttl & _ & _ & D22); [done|lia..|]. destruct (zdrop_slice pkt 24 2) as [D24 L24]; [lia..|].
  destruct (zdrop_slice pkt 26 4) as [D26 L26]; [lia..|]. destruct (zdrop_slice pkt 30 4) as [D30 L30]; [lia..|].
  destruct (zdrop_slice pkt 34 (4 * Z.land b 15 - 20)) as [D34 L34]; [lia..|].
  destruct (zdrop_slice pkt udp 2) as [D1 L1]; [lia..|]. destruct (zdrop_slice pkt (udp + 6) 2) as [D5 L5]; [lia..|].
  change (0 + 6) with 6 in D0. change (6 + 6) with 12 in D6. change (15 + 1) with 16 in D15. change (16 + 6) with 22 in D16.
  change (22 + 1) with 23 in D22. change (24 + 2) with 26 in D24. change (26 + 4) with 30 in D26. change (30 + 4) with 34 in D30.
  set (dst := ztake 6 (zdrop 0 pkt)) in *. set (src := ztake 6 (zdrop 6 pkt)) in *. set (frag := ztake 6 (zdrop 16 pkt)) in *.
  set (check := ztake 2 (zdrop 24 pkt)) in *. set (saddr := ztake 4 (zdrop 26 pkt)) in *. set (daddr := ztake 4 (zdrop 30 pkt)) in *.
  set (opts := ztake _ (zdrop 34 pkt)) in *. set (sport := ztake 2 (zdrop udp pkt)) in *. set (ucheck := ztake 2 (zdrop (udp + 6) pkt)) in *.
  replace (34 + (4 * Z.land b 15 - 20)) with udp in D34 by lia. replace (udp + 6 + 2) with (udp + 8) in D5 by lia.
  unfold byte in *. exists (UdpFrame dst src tos frag ttl check saddr daddr opts sport (be16 DNS_PORT) (u0 * 256 + u1) ucheck (zdrop (udp + 8) pkt)).
  split_and!; [|done| |done|done].
  - unfold frame_ok. cbn -[zlen]. rewrite L34. split_and!; try done; try lia. Z.to_euclidean_division_equations. lia.
  - unfold frame_bytes, ip_bytes. cbn [uf_dst uf_src uf_tos uf_frag uf_ttl uf_check uf_saddr uf_daddr uf_opts uf_sport uf_dport uf_ulen uf_ucheck uf_payload].
    rewrite L34. replace (69 + (4 * Z.land b 15 - 20) / 4) with b by (Z.to_euclidean_division_equations; lia).
    assert (be16 (u0 * 256 + u1) = [u0; u1]) as -> by (unfold be16; f_equal; [|f_equal]; Z.to_euclidean_division_equations; lia).
    change (be16 ETH_P_IP) with [8; 0]. change (be16 DNS_PORT) with [0; 53].
    rewrite <- !app_assoc. cbn [app]. rewrite <- D5, <- D4, <- D2, <- D1, <- D34, <- D30, <- D26, <- D24, <- D23, <- D22, <- D16.
    by rewrite <- D15, <- D14, <- D12, <- D6, <- D0.
Qed.

(** The frames [parse_frame] is for. *)
Definition dns_frame (F : udp_frame) (pkt : list Z) : Prop :=
  frame_ok F /\ uf_dport F = be16 DNS_PORT /\ 8 <= uf_ulen F /\
  12 <= zlen (dns_part F) <= DNS_MAX_MSG_LEN /\ pkt = frame_bytes F.

Ltac no_job := cbn [returns]; by intros ? [=].

Lemma parse_frame_sound malloc now pkt i : bytes pkt -> zlen pkt < 2 ^ 32 ->
  returns (parse_frame malloc now pkt i) (fun r => forall job, r = Some job ->
    exists F resp, malloc = Some resp /\ dns_frame F pkt /\ job = job_of F resp now i).
Proof.
  intros Hb Hlen. set (r := parse_frame malloc now pkt i).
  assert (r = Ok None \/ exists F, dns_frame F pkt) as [->|(F & HF)]; [|no_job|].
  { unfold r, parse_frame, L2L3L4_HLEN, sizeof_ethhdr, sizeof_iphdr, sizeof_udphdr. clear r.
    case_test; [by left|]. destruct (ld16_read pkt 12) as (p0 & p1 & Hp0 & Hp1 & -> & D12); [done|lia..|]. rewrite Ok_bind.
    rewrite field_eq by done. case_bool_decide as Ep; cbn [negb]; [|by left]. injection Ep as -> ->.
    destruct (get8_read pkt 14) as (b & Hbb & -> & D14); [done|lia..|]. rewrite Ok_bind.
    destruct (Z.eqb_spec (Z.shiftr b 4) 4) as [Hv|]; [|by left]. cbn [negb orb]. case_test; [by left|].
    pose proof (ihl_version b Hbb Hv) as [_ Hihl]. rewrite u32_id by lia. set (udp := 14 + Z.land b 15 * 4). case_test; [by left|].
    destruct (get8_read pkt 23) as (pr & _ & E & D23); [done|lia..|]. rewrite (E : get8 pkt (14 + 9) = _), Ok_bind. clear E.
    destruct (Z.eqb_spec pr IPPROTO_UDP) as [->|]; [|by left]. cbn [negb].
    destruct (ld16_read pkt (udp + 2)) as (d0 & d1 & Hd0 & Hd1 & -> & D2); [done|lia..|]. rewrite Ok_bind.
    rewrite field_eq by done. case_bool_decide as Ed; cbn [negb]; [|by left]. injection Ed as -> ->.
    destruct (ld16_read pkt (udp + 4)) as (u0 & u1 & Hu0 & Hu1 & -> & D4); [done|lia..|]. rewrite Ok_bind, htons_fields by done.
    case_test; [by left|]. unfold byte in *. rewrite !u32_id by lia. set (avail := zlen pkt - _).
    assert (forall x y, (if x <? y then x else y) = Z.min x y) as -> by (intros x y; destruct (Z.ltb_spec x y); lia).
    case_test; [by left|]. right.
    destruct (frame_of_reads pkt b u0 u1) as (F & HF & Hdp & E & Hul & Hpay); try done; [etrans; [done|]..|].
    1,2: do 3 f_equal; unfold udp; lia.
    exists F. unfold dns_frame. rewrite Hul. split_and!; try done; unfold dns_part;
      rewrite Hul, Hpay, zlen_ztake_min, zlen_zdrop by lia; unfold avail, udp in *; lia. }
  pose proof HF as (HF' & Hdp & Hu & Hp & E). unfold r. rewrite E in Hlen |- *. rewrite parse_frame_complete by done.
  destruct malloc as [resp|]; [|no_job]. cbn [returns fmap option_fmap option_map]. intros job [= <-].
  exists F, resp. by rewrite E in HF.
Qed.

(** A job made of a frame is well formed. *)
Lemma job_of_ok F resp now i : frame_ok F -> bytes (frame_bytes F) -> zlen resp = DNS_MAX_MSG_LEN -> job_ok (job_of F resp now i).
Proof.
  intros (Hd & Hs & Hf & Hc & Hsa & Hda & _ & _ & Hsp & _) Hb Hr. unfold frame_bytes, ip_bytes in Hb.
  rewrite !bytes_app in Hb. destruct Hb as (_ & (Hb & _ & _ & _ & Hsa' & Hda' & _) & _).
  apply Forall_cons in Hb as [_ Hb]. apply Forall_cons in Hb as [Htos _].
  unfold job_ok, job_of, DNS_MAX_MSG_LEN in *. cbn -[zlen]. split_and!; try done; unfold byte in *; lia.
Qed.

(** ** Lemmas: the checksum *)

(** The sum of the words, without wrap-around. *)
Fixpoint word_sum (buf : list Z) : Z :=
  match buf with
  | a :: b :: buf' => a + 256 * b + word_sum buf'
  | [a] => a
  | [] => 0
  end.

Lemma pair_ind (P : list Z -> Prop) :
  P [] -> (forall a, P [a]) -> (forall a b l, P l -> P (a :: b :: l)) -> forall l, P l.
Proof. intros H0 H1 H2. fix IH 1. intros [|a [|b l]]; [done|done|]. apply H2, IH. Qed.

Lemma word_sum_bound l : bytes l -> 0 <= word_sum l <= 65535 * zlen l.
Proof.
  unfold byte. induction l as [|a|a b l IH] using pair_ind; intros Hb; cbn [word_sum]; [zl|..]; apply Forall_cons in Hb as [Ha Hb].
  - unfold byte in *. zl.
  - apply Forall_cons in Hb as [Hb' Hb]. specialize (IH Hb). unfold byte in *. rewrite !zlen_cons. lia.
Qed.

Lemma sum_words_exact l : bytes l -> forall s, 0 <= s -> s + word_sum l < 2 ^ 32 -> sum_words l s = s + word_sum l.
Proof.
  induction l as [|a|a b l IH] using pair_ind; intros Hb s Hs Hl; cbn [sum_words word_sum] in *; [lia|..];
    apply Forall_cons in Hb as [Ha Hb]; unfold byte in *.
  - apply u32_id. lia.
  - apply Forall_cons in Hb as [Hb' Hb]. pose proof (word_sum_bound l Hb). unfold byte in *. rewrite u32_id by lia. rewrite IH by (done || lia). lia.
Qed.

Lemma word_sum_app p q : Z.even (zlen p) = true -> word_sum (p ++ q) = word_sum p + word_sum q.
Proof.
  induction p as [|a|a b p IH] using pair_ind; intros He; cbn [app word_sum]; [done|done|].
  rewrite IH; [lia|]. rewrite !zlen_cons in He. replace (1 + (1 + zlen p)) with (zlen p + 2 * 1) in He by lia.
  by rewrite Z.even_add_mul_2 in He.
Qed.

(** One round of the folding loop keeps the sum modulo 65535. *)
Lemma fold_step s : 0 <= s < 2 ^ 32 ->
  s = Z.shiftr s 16 * 65536 + Z.land s 65535 /\ 0 <= Z.land s 65535 < 65536 /\ 0 <= Z.shiftr s 16 < 65536.
Proof.
  intros Hs. change 65535 with (Z.ones 16). rewrite Z.shiftr_div_pow2, Z.land_ones by lia.
  change (2 ^ 16) with 65536. Z.to_euclidean_division_equations. lia.
Qed.

Lemma mod_congr a b k : a = b + k * 65535 -> a mod 65535 = b mod 65535.
Proof. intros ->. apply Z.mod_add. lia. Qed.

Lemma fold_carries_spec s : 0 <= s < 2 ^ 32 -> exists r, fold_carries 3 s = Ok r /\ 0 <= r < 65536 /\
  r mod 65535 = s mod 65535 /\ (0 < s -> 0 < r).
Proof.
  intros Hs. destruct (fold_step s Hs) as (E & Hl & Hh). cbn [fold_carries].
  case_test; [exists s; split_and!; (done || lia)|]. rewrite u32_id by lia. set (s1 := Z.land s 65535 + Z.shiftr s 16) in *.
  destruct (fold_step s1) as (E1 & Hl1 & Hh1); [lia|].
  case_test; [exists s1; split_and!; try done; try lia; apply (mod_congr _ _ (- Z.shiftr s 16)); lia|].
  rewrite u32_id by lia. set (s2 := Z.land s1 65535 + Z.shiftr s1 16) in *.
  destruct (fold_step s2) as (E2 & Hl2 & Hh2); [lia|].
  case_test; [exists s2; split_and!; try done; try lia; apply (mod_congr _ _ (- Z.shiftr s1 16 - Z.shiftr s 16)); lia|lia].
Qed.

Lemma checksum_spec buf : bytes buf -> zlen buf <= 65535 -> 0 < word_sum buf ->
  exists r, ipv4_checksum buf = Ok (65535 - r) /\ 0 < r <= 65535 /\ r mod 65535 = word_sum buf mod 65535.
Proof.
  intros Hb Hl Hp. pose proof (word_sum_bound buf Hb) as Hw. unfold ipv4_checksum. rewrite sum_words_exact by (done || lia).
  destruct (fold_carries_spec (0 + word_sum buf)) as (r & -> & Hr & Hm & Hr'); [lia|]. rewrite Ok_bind.
  exists r. split_and!; [|lia..|by rewrite Hm]. f_equal. unfold u16, Z.lnot. change (2 ^ 16) with 65536.
  symmetry. apply (Z.mod_unique_pos _ _ (-1)); lia.
Qed.

(** A receiver that sums over the header with the checksum in place gets 0. *)
Lemma checksum_verifies p s : bytes p -> bytes s -> zlen p + zlen s <= 65000 -> Z.even (zlen p) = true -> 0 < word_sum p ->
  exists c, ipv4_checksum (p ++ [0; 0] ++ s) = Ok c /\ 0 <= c < 65536 /\ ipv4_checksum (p ++ st16 c ++ s) = Ok 0.
Proof.
  intros Hp Hs Hl He Hw. pose proof (word_sum_bound s Hs) as Hws.
  assert (forall a b, word_sum (p ++ [a; b] ++ s) = word_sum p + (a + 256 * b) + word_sum s) as Hsum.
  { intros a b. rewrite word_sum_app by done. cbn [app word_sum]. lia. }
  destruct (checksum_spec (p ++ [0; 0] ++ s)) as (r & Hr & Hr0 & Hm).
  { rewrite !bytes_app. split_and!; [done| |done]. repeat constructor; lia. }
  { zl. }
  { rewrite Hsum. lia. }
  exists (65535 - r). split_and!; [done|lia..|]. set (c := 65535 - r). assert (0 <= c < 65535) as Hc by lia.
  assert (st16 c = [c mod 256; c / 256] /\ byte (c mod 256) /\ byte (c / 256) /\ c mod 256 + 256 * (c / 256) = c) as (-> & Hc0 & Hc1 & Hcc).
  { unfold st16, byte. split_and!; try (Z.to_euclidean_division_equations; lia). do 2 f_equal. Z.to_euclidean_division_equations; lia. }
  destruct (checksum_spec (p ++ [c mod 256; c / 256] ++ s)) as (r' & Hr' & Hr0' & Hm').
  { rewrite !bytes_app. split_and!; [done| |done]. by repeat (apply Forall_cons; split). }
  { zl. }
  { rewrite Hsum. lia. }
  rewrite Hr'. f_equal. rewrite Hsum in Hm, Hm'. rewrite Hcc in Hm'. change (0 + 256 * 0) with 0 in Hm. rewrite Z.add_0_r in Hm.
  assert (r' mod 65535 = 0) as Hz.
  { rewrite Hm'. replace (word_sum p + c + word_sum s) with (word_sum p + word_sum s - r + 1 * 65535) by lia.
    rewrite Z.mod_add, Zminus_mod, Hm, Z.sub_diag by lia. done. }
  Z.to_euclidean_division_equations. lia.
Qed.

(** ** Lemmas: sending *)

Lemma put_app p s i bs : i = zlen p -> zlen bs <= zlen s ->
  exists s', put_bytes (p ++ s) i bs = Ok ((p ++ bs) ++ s') /\ zlen s' = zlen s - zlen bs.
Proof.
  intros -> Hl. destruct (split_at s 0 (zlen bs)) as (e & x & s' & -> & He & Hx); [zl..|].
  destruct e; [|rewrite zlen_cons in He; zl]. exists s'. cbn [app]. rewrite put_bytes_at by done.
  rewrite <- app_assoc. split; [done|zl].
Qed.

(** The two writes to the bit fields of the first byte of the header. *)
Lemma put_version_ihl p s i : i = zlen p -> 1 <= zlen s -> exists s', zlen s' = zlen s - 1 /\ forall B (k : list Z -> res B),
  (b ← get8 (p ++ s) i;
   f ← put8 (p ++ s) i (Z.lor (Z.land b 15) 64);
   b ← get8 f i;
   f ← put8 f i (Z.lor (Z.land b 240) 5); k f) = k ((p ++ [69]) ++ s').
Proof.
  intros -> Hs. destruct s as [|v s]; [zl|]. exists s. split; [zl|]. intros B k.
  rewrite get8_at, Ok_bind, put8_put_bytes by done.
  rewrite (put_bytes_split _ p [v] s), Ok_bind by done. cbn [app]. rewrite get8_at, Ok_bind, put8_put_bytes by done.
  rewrite (put_bytes_split _ p [Z.lor (Z.land v 15) 64] s), Ok_bind by done.
  rewrite Z.land_lor_distr_l, <- Z.land_assoc. change (Z.land 15 240) with 0. rewrite Z.land_0_r. cbn [app Z.land Z.lor].
  by rewrite <- app_assoc.
Qed.

Lemma st16_htons v : 0 <= v < 65536 -> st16 (htons v) = be16 v.
Proof.
  intros Hv. rewrite htons_swap by done. unfold st16, be16.
  f_equal; [|f_equal]; Z.to_euclidean_division_equations; lia.
Qed.

Ltac append_field :=
  try match goal with |- context [put8 (?p ++ ?s) ?i ?v ≫= _] => rewrite (put8_put_bytes (p ++ s) i v) end;
  match goal with |- context [put_bytes (?p ++ ?s) ?i ?bs ≫= _] =>
    let s' := fresh "s" in let H := fresh "Hs" in
    destruct (put_app p s i bs) as (s' & -> & H); [zl|zl|rewrite Ok_bind]
  end.

(** The reply's IP header before and behind the checksum. *)
Definition reply_ip1 (job : dns_job) : list Z :=
  [69; j_tos job] ++ (be16 (28 + j_resp_len job) ++ [0; 0] ++ be16 16384) ++ [j_ttl job; IPPROTO_UDP].
Definition reply_ip2 (job : dns_job) : list Z := j_server_ip job ++ j_client_ip job.

Lemma reply_ip_bytes job c : ip_bytes (reply_frame job c) = reply_ip1 job ++ c ++ reply_ip2 job.
Proof.
  unfold ip_bytes, reply_ip1, reply_ip2. cbn [reply_frame uf_tos uf_frag uf_ttl uf_check uf_saddr uf_daddr uf_opts].
  change (69 + zlen (@nil Z) / 4) with 69. by rewrite app_nil_r, <- !app_assoc.
Qed.

Lemma reply_checksum job : job_ok job -> exists c,
  ipv4_checksum (ip_bytes (reply_frame job [0; 0])) = Ok c /\ ipv4_checksum (ip_bytes (reply_frame job (st16 c))) = Ok 0.
Proof.
  intros (Hcm & Hsm & Hci & Hsi & Hcp & Htos & Httl & Hcib & Hsib & Hr & Hn). assert (bytes (reply_ip1 job)) as Hb1.
  { unfold reply_ip1. rewrite !bytes_app. split_and!; auto with fizz; repeat (apply Forall_cons; split); try done;
      unfold byte, IPPROTO_UDP; lia. }
  assert (zlen (reply_ip1 job) = 10 /\ zlen (reply_ip2 job) = 8) as [Hh1 Hh2] by (unfold reply_ip1, reply_ip2; zl).
  destruct (checksum_verifies (reply_ip1 job) (reply_ip2 job)) as (c & Hc & _ & Hver); [done|by apply bytes_app|lia|by rewrite Hh1| |].
  - pose proof (word_sum_bound (drop 2 (reply_ip1 job)) (Forall_drop _ _ _ Hb1)) as Hw. unfold reply_ip1 in Hw |- *.
    cbn [app drop word_sum] in Hw |- *. rewrite drop_0 in Hw. unfold byte in Htos. lia.
  - exists c. by rewrite !reply_ip_bytes.
Qed.

Lemma build_frame_spec frame job : job_ok job -> L2L3L4_HLEN + j_resp_len job <= zlen frame ->
  exists c rest, let F := reply_frame job c in
    build_response_frame frame job = Ok (frame_bytes F ++ rest, L2L3L4_HLEN + j_resp_len job) /\
    ipv4_checksum (ip_bytes F) = Ok 0 /\ frame_ok F /\ zlen (frame_bytes F ++ rest) = zlen frame.
Proof.
  intros Hjob Hlen. pose proof Hjob as (Hcm & Hsm & Hci & Hsi & Hcp & Htos & Httl & Hcib & Hsib & Hr & Hn).
  unfold L2L3L4_HLEN, sizeof_ethhdr, sizeof_iphdr, sizeof_udphdr, DNS_MAX_MSG_LEN in *.
  unfold build_response_frame, L2L3L4_HLEN, sizeof_ethhdr, sizeof_iphdr, sizeof_udphdr.
  rewrite !(ztake_all 6), !(ztake_all 4), (ztake_all 2) by lia.
  assert (u16 (8 + j_resp_len job) = 8 + j_resp_len job) as -> by (apply Z.mod_small; lia).
  assert (u16 (20 + (8 + j_resp_len job)) = 28 + j_resp_len job) as -> by (unfold u16; rewrite Z.mod_small by lia; lia).
  rewrite u32_id, get_slice_in_range by lia. rewrite !st16_htons by lia. change (st16 0) with [0; 0].
  change (st16 (htons ETH_P_IP)) with [8; 0]. change frame with ([] ++ frame). do 3 append_field.
  match goal with |- context [get8 (?p ++ ?s) 14 ≫= ?k] => set (p1 := p) end.
  assert (zlen p1 = 14) as Hp1 by (unfold p1; zl).
  destruct (put_version_ihl p1 s1 14) as (s2 & Hs2 & ->); [done|zl|].
  do 9 append_field. set (buf := _ ++ s11). set (h1 := reply_ip1 job). set (h2 := reply_ip2 job).
  assert (buf = p1 ++ (h1 ++ [0; 0] ++ h2) ++ s11) as E by (unfold buf, h1, h2, reply_ip1, reply_ip2; by rewrite <- !app_assoc).
  assert (zlen h1 = 10 /\ zlen h2 = 8) as [Hh1 Hh2] by (unfold h1, h2, reply_ip1, reply_ip2; zl).
  destruct (reply_checksum job Hjob) as (c & Hc & Hver).
  assert (get_slice buf 14 20 = Ok (ip_bytes (reply_frame job [0; 0]))) as ->.
  { rewrite reply_ip_bytes, E, get_slice_in_range by zl. by rewrite zdrop_app_eq, ztake_app_eq by zl. }
  rewrite Ok_bind, Hc, Ok_bind, (put_bytes_split buf (p1 ++ h1) [0; 0] (h2 ++ s11)), Ok_bind;
    [|by rewrite E, <- !app_assoc|zl|done].
  assert (forall x, (p1 ++ h1) ++ x ++ h2 ++ s11 = (p1 ++ h1 ++ x ++ h2) ++ s11) as -> by (intros; by rewrite <- !app_assoc).
  assert (zlen (st16 c) = 2) as Hc2 by done. clear E. clearbody buf.
  assert (zlen (ztake (j_resp_len job) (j_resp job)) = j_resp_len job) as Hpay by (apply zlen_ztake; lia).
  do 4 append_field. rewrite Ok_bind, zdrop_0. append_field.
  exists (st16 c), s16. cbv zeta. assert (frame_ok (reply_frame job (st16 c))) as HF.
  { unfold frame_ok. cbn -[zlen be16 app]. change (zlen (@nil Z) mod 4) with 0. split_and!; zl; done. }
  split_and!; [|done..|].
  - unfold frame_bytes. rewrite reply_ip_bytes. cbn [reply_frame uf_dst uf_src uf_sport uf_dport uf_ulen uf_ucheck uf_payload].
    do 2 f_equal. unfold p1. cbn [app]. by rewrite <- !app_assoc.
  - unfold frame_bytes. rewrite reply_ip_bytes. cbn [reply_frame uf_dst uf_src uf_sport uf_dport uf_ulen uf_ucheck uf_payload].
    fold h1 h2. zl.
Qed.

(** ** Lemmas: the worker *)

(** [G] is a reply to [F]: to the machine, address and port that sent it, from
    the one it was sent to, with a response to its message. *)
Definition answers (F G : udp_frame) : Prop :=
  uf_dst G = uf_src F /\ uf_src G = uf_dst F /\ uf_saddr G = uf_daddr F /\ uf_daddr G = uf_saddr F /\
  uf_sport G = be16 DNS_PORT /\ uf_dport G = uf_sport F /\ uf_ulen G = 8 + zlen (uf_payload G) /\
  ipv4_checksum (ip_bytes G) = Ok 0 /\ response_to (dns_part F) (uf_payload G).

(** A finished job for [F]: whatever the UMEM frame holds, its reply fits. *)
Definition answered (F : udp_frame) (job : dns_job) : Prop :=
  job_ok job /\ j_resp_len job <> 0 /\ forall frame, zlen frame = FRAME_SIZE ->
    exists G rest, build_response_frame frame job = Ok (frame_bytes G ++ rest, zlen (frame_bytes G)) /\
      zlen (frame_bytes G ++ rest) = FRAME_SIZE /\ answers F G.

(** The backend's response, put in the job of [F]. *)
Lemma job_answered F now i n resp' : frame_ok F -> bytes (frame_bytes F) ->
  zlen resp' = DNS_MAX_MSG_LEN -> 0 < n <= DNS_MAX_MSG_LEN -> response_to (dns_part F) (ztake n resp') ->
  answered F (DnsJob (u8 i) (uf_src F) (uf_dst F) (uf_saddr F) (uf_daddr F) (uf_sport F) (uf_tos F) 64 (dns_part F) n resp' now).
Proof.
  intros HF Hb Hr' Hn Hto. destruct (job_of_ok F resp' now i HF Hb Hr') as (? & ? & ? & ? & ? & ? & ? & ? & ? & _).
  set (job := DnsJob _ _ _ _ _ _ _ _ _ _ _ _). unfold DNS_MAX_MSG_LEN in *.
  assert (job_ok job) as Hj by (unfold job_ok, DNS_MAX_MSG_LEN; split_and!; try done; cbn; lia).
  split; [done|]. split; [cbn; lia|]. intros frame Hf. unfold FRAME_SIZE in *.
  destruct (build_frame_spec frame job Hj) as (c & rest & Hbuild & Hck & HG & Hfl).
  { cbn [job j_resp_len]. unfold L2L3L4_HLEN, sizeof_ethhdr, sizeof_iphdr, sizeof_udphdr. lia. }
  assert (zlen (ztake n resp') = n) as Hpay by (apply zlen_ztake; lia).
  assert (L2L3L4_HLEN + n = zlen (frame_bytes (reply_frame job c))) as El.
  { destruct HG as (Hd & Hs & Hfr & Hc & Hsa & Hda & _ & _ & Hsp & Hdp' & _ & Huc). unfold frame_bytes, ip_bytes.
    cbn [job reply_frame uf_dst uf_src uf_tos uf_frag uf_ttl uf_check uf_saddr uf_daddr uf_opts uf_sport uf_dport uf_ulen uf_ucheck uf_payload
      j_client_mac j_server_mac j_client_ip j_server_ip j_client_port j_resp j_resp_len] in *.
    unfold L2L3L4_HLEN, sizeof_ethhdr, sizeof_iphdr, sizeof_udphdr. zl. }
  exists (reply_frame job c), rest. cbn [job j_resp_len] in Hbuild. rewrite El in Hbuild. split_and!; [done|lia|].
  unfold answers. cbn [reply_frame uf_dst uf_src uf_saddr uf_daddr uf_sport uf_dport uf_ulen uf_payload job j_client_mac j_server_mac
    j_client_ip j_server_ip j_client_port j_resp j_resp_len]. split_and!; try done. lia.
Qed.

Lemma worker_answers {E B} `{BackendLaws E B} (e : E) (st : B) F pkt resp now i :
  b_env_ok e -> b_ok st -> dns_frame F pkt -> bytes pkt -> zlen resp = DNS_MAX_MSG_LEN ->
  returns (worker_resolve e st (job_of F resp now i)) (fun '(st', r) => b_ok st' /\ forall job', r = Some job' ->
    answered F job' /\ j_loop_idx job' = u8 i).
Proof.
  intros He Hst (HF & _ & _ & _ & ->) Hb Hr. unfold worker_resolve.
  eapply returns_bind_intro; [apply (b_query_ok e st _ _ true); try done|].
  { cbn [job_of j_query]. unfold dns_part. apply bytes_ztake. unfold frame_bytes in Hb. rewrite !bytes_app in Hb. apply Hb. }
  { cbn [job_of j_resp]. unfold DNS_MAX_MSG_LEN in *. lia. }
  intros [st' [[resp' n]|]] [Hst' Ha]; [|cbn; by split]. destruct (Ha resp' n eq_refl) as (Hr' & Hn & Hto).
  cbn [job_of j_query j_resp] in *. unfold DNS_HDR_LEN in Hn. rewrite (proj2 (Z.eqb_neq _ _)) by lia. cbn [returns]. split; [done|].
  intros job' [= <-]. split; [|done]. apply job_answered; try done; [congruence|]. unfold DNS_MAX_MSG_LEN in *. lia.
Qed.

(** ** Lemmas: the filter and the parser *)

(** What the filter redirects has the layout [parse_frame] expects. *)
Lemma layout_frame L ulen uck : layout_ok L -> ql_udp L = be16 ulen ++ uck -> 0 <= ulen < 65536 ->
  exists F, frame_ok F /\ uf_dport F = be16 DNS_PORT /\ frame_bytes F = layout_bytes L /\ uf_ulen F = ulen /\
    uf_payload F = ql_id L ++ be16 (ql_flags L) ++ be16 1 ++ ql_rest L.
Proof.
  intros (Hm & Ht & Ha & Ho4 & Ho & Hs & Hu & Hi & Hr & Hf & Hfrag & Hfl) Hul Hulen.
  destruct L as [macs tos frag ttl addrs opts sport udp id flags rest].
  cbn [ql_macs ql_tos ql_frag ql_ttl ql_addrs ql_opts ql_sport ql_udp ql_id ql_flags ql_rest] in *. subst udp.
  destruct (split_at macs 0 6) as (e & dst & src & -> & He & Hdst); [zl..|]. destruct e; [|rewrite zlen_cons in He; zl].
  destruct (split_at addrs 0 2) as (e & check & as' & -> & He' & Hcheck); [zl..|]. destruct e; [|rewrite zlen_cons in He'; zl].
  destruct (split_at as' 0 4) as (e & saddr & daddr & -> & He'' & Hsaddr); [zl..|]. destruct e; [|rewrite zlen_cons in He''; zl].
  destruct tos as [|t0 tos]; [zl|]. cbn [app] in *.
  exists (UdpFrame dst src t0 (tos ++ be16 frag) ttl check saddr daddr opts sport (be16 DNS_PORT) ulen uck
    (id ++ be16 flags ++ be16 1 ++ rest)). split_and!; [|done| |done|done].
  - unfold frame_ok. cbn -[zlen be16 app]. split_and!; zl.
  - unfold frame_bytes, ip_bytes, layout_bytes, ihl_of. cbn -[zlen be16 app].
    replace (64 + (5 + zlen opts / 4)) with (69 + zlen opts / 4) by lia. rewrite <- !app_assoc. done.
Qed.

(** A message that begins with an id, flags and a question count. *)
Lemma header_of_query id flags rest n : zlen id = 2 -> 0 <= flags < 65536 -> 6 <= zlen rest -> 12 <= n ->
  let msg := id ++ be16 flags ++ be16 1 ++ rest in bytes msg ->
  exists h, dns_parse_header (ztake n msg) = Ok h /\ h_flags h = flags /\ h_qdcount h = 1.
Proof.
  intros Hi Hf Hr Hn msg Hb. assert (zlen msg = 6 + zlen rest) as Hl by (unfold msg; zl).
  destruct (split12 (ztake n msg)) as (a0 & a1 & a2 & a3 & a4 & a5 & a6 & a7 & a8 & a9 & a10 & a11 & r & E).
  { rewrite zlen_ztake_min; lia. }
  assert (bytes (ztake n msg)) as Hbt by by apply bytes_ztake.
  destruct (be16_read flags Hf) as (f0 & f1 & Ef & _ & _ & ->).
  assert (exists t, ztake n msg ++ zdrop n msg = id ++ f0 :: f1 :: 0 :: 1 :: t) as (t & Et).
  { exists rest. rewrite ztake_zdrop. unfold msg. rewrite Ef. done. }
  destruct id as [|i0 [|i1 [|]]]; [done..| |zl]. rewrite E in Et, Hbt |- *. cbn [app] in Et. injection Et as -> -> -> -> -> -> _.
  rewrite parse_header_12 by done. by eexists.
Qed.

(** The UDP length field of a layout. *)
Lemma layout_ulen L data : layout_ok L -> data = layout_bytes L -> bytes data ->
  exists uck, ql_udp L = be16 (net16 data (udp_off data + 4)) ++ uck.
Proof.
  intros (Hm & Ht & Ha & Ho4 & Ho & Hs & Hu & Hi & Hr & Hf & Hfrag & Hfl) -> Hb.
  destruct L as [macs tos frag ttl addrs opts sport udp id flags rest].
  unfold layout_bytes, ihl_of in *. cbn [ql_macs ql_tos ql_frag ql_ttl ql_addrs ql_opts ql_sport ql_udp ql_id ql_flags ql_rest] in *.
  destruct udp as [|u0 [|u1 uck]]; [zl..|]. exists uck. set (data := _ ++ _) in *.
  assert (forall p a s i, data = p ++ a :: s -> i = zlen p -> byte_at data i = a) as Hat.
  { intros p a s i -> ->. apply byte_at_get8. by apply get8_at. }
  assert (byte_at data 14 = 64 + (5 + zlen opts / 4)) as H14.
  { apply (Hat (macs ++ be16 ETH_P_IP) _ (tos ++ be16 frag ++ [ttl; IPPROTO_UDP] ++ addrs ++ opts ++
      (sport ++ be16 DNS_PORT ++ u0 :: u1 :: uck) ++ id ++ be16 flags ++ be16 1 ++ rest)); [|zl].
    unfold data. rewrite <- !app_assoc. done. }
  set (pre := (macs ++ be16 ETH_P_IP) ++ ([64 + (5 + zlen opts / 4)] ++ tos ++ be16 frag ++ [ttl; IPPROTO_UDP] ++ addrs ++ opts) ++
    sport ++ be16 DNS_PORT).
  assert (data = pre ++ u0 :: u1 :: uck ++ id ++ be16 flags ++ be16 1 ++ rest) as E.
  { unfold data, pre. rewrite <- !app_assoc. done. }
  assert (udp_off data + 4 = zlen pre) as Eo.
  { unfold udp_off. rewrite H14. unfold pre. pose proof (zlen_nonneg opts). zl.
    Z.to_euclidean_division_equations. lia. }
  rewrite Eo. unfold net16. rewrite (Hat pre u0 _ _ E eq_refl).
  rewrite (Hat (pre ++ [u0]) u1 (uck ++ id ++ be16 flags ++ be16 1 ++ rest)); [|by rewrite <- app_assoc|zl].
  rewrite E in Hb. apply bytes_app in Hb as [_ Hb]. apply Forall_cons in Hb as [? Hb]. apply Forall_cons in Hb as [? _].
  by rewrite be16_pair.
Qed.

(** A layout of a query becomes a job with a query. *)
Lemma layout_is_query L ulen uck resp now i :
  layout_ok L -> bytes (layout_bytes L) -> zlen (layout_bytes L) < 2 ^ 32 ->
  ql_udp L = be16 ulen ++ uck -> 20 <= ulen <= DNS_MAX_MSG_LEN + 8 ->
  exists job h, parse_frame (Some resp) now (layout_bytes L) i = Ok (Some job) /\
    dns_parse_header (j_query job) = Ok h /\ has_flag (h_flags h) DNS_FLAG_QR = false /\ h_qdcount h = 1.
Proof.
  intros HL Hb Hlen Hul Hu. unfold DNS_MAX_MSG_LEN in Hu.
  destruct (layout_frame L ulen uck HL Hul) as (F & HF & Hdp & E & Hu' & Hpay); [lia|].
  destruct HL as (_ & _ & _ & _ & _ & _ & _ & Hi & Hr & _ & _ & Hfl). rewrite <- E in *.
  assert (bytes (uf_payload F)) as Hbp by (unfold frame_bytes in Hb; rewrite !bytes_app in Hb; apply Hb).
  assert (12 <= zlen (dns_part F) <= DNS_MAX_MSG_LEN) as Hd.
  { unfold dns_part, DNS_MAX_MSG_LEN. rewrite zlen_ztake_min, Hu', Hpay by lia. zl. }
  rewrite Hpay in Hbp. destruct (header_of_query (ql_id L) (ql_flags L) (ql_rest L) (ulen - 8)) as (h & Hh & Hhf & Hq); [lia..|done|].
  exists (job_of F resp now i), h. split_and!; [| | |done].
  - by rewrite parse_frame_complete by (done || lia).
  - cbn [job_of j_query]. unfold dns_part. by rewrite Hu', Hpay.
  - rewrite Hhf. change DNS_FLAG_QR with (2 ^ 15). rewrite has_flag_bit by lia. apply Z.testbit_false; [lia|].
    by rewrite Z.div_small by lia.
Qed.

(** ** Theorems *)

(** C34: [parse_frame] never reads outside of the frame, and makes a job of
    exactly the UDP datagrams over IPv4 to port 53 whose DNS message has
    between 12 and 1500 bytes: the message ends where the UDP length says or
    with the frame, whichever is first, and the job holds a copy of it with
    the sender's addresses. *)
Theorem parse_frame_exact resp now pkt i :
  bytes pkt -> zlen pkt < 2 ^ 32 ->
  exists r, parse_frame (Some resp) now pkt i = Ok r /\
    forall job, r = Some job <-> exists F, dns_frame F pkt /\ job = job_of F resp now i.
Proof.
  intros Hb Hl. destruct (proj1 (returns_Ok _ _) (parse_frame_sound (Some resp) now pkt i Hb Hl)) as (r & Hr & Hs).
  exists r. split; [done|]. intros job. split.
  - intros E. destruct (Hs job E) as (F & resp' & [= <-] & HF & Hj). by exists F.
  - intros (F & (HF & Hdp & Hu & Hp & E) & ->). rewrite E in Hl, Hr. rewrite parse_frame_complete in Hr by done.
    by injection Hr as <-.
Qed.

Lemma parse_frame_exact_witness :
  exists r, parse_frame (Some []) 0 sample_frame 0 = Ok r /\
    forall job, r = Some job <-> exists F, dns_frame F sample_frame /\ job = job_of F [] 0 0.
Proof.
  apply (parse_frame_exact [] 0 sample_frame 0); [repeat constructor; lia|vm_compute; reflexivity].
Defined.

(** C35: The kernel's filter and the user-space parser agree: a frame that
    [xdp_dns_redirect] redirects, whose UDP length covers a DNS header and at
    most 1500 bytes of message, is made a job by [parse_frame], and the job's
    message is a query (QR clear) with one question. *)
Theorem redirected_frame_is_query redirect_map stats data qidx stats' resp now i :
  bytes data -> zlen data < 2 ^ 32 ->
  xdp_dns_redirect redirect_map stats data qidx = Ok (stats', XDP_REDIRECT) ->
  20 <= net16 data (udp_off data + 4) <= DNS_MAX_MSG_LEN + 8 ->
  exists job h, parse_frame (Some resp) now data i = Ok (Some job) /\
    dns_parse_header (j_query job) = Ok h /\ has_flag (h_flags h) DNS_FLAG_QR = false /\ h_qdcount h = 1.
Proof.
  intros Hb Hlen Hx Hu. destruct (filter_exact redirect_map stats data qidx Hb) as (slot & Hc & _ & H).
  rewrite Hx in H. case_decide; [subst slot|by injection H].
  apply query_frame_class in Hc as (L & HL & E); [|done]. destruct (layout_ulen L data HL E Hb) as (uck & Hul).
  subst data. by eapply layout_is_query.
Qed.

Lemma redirected_frame_is_query_witness :
  exists job h, parse_frame (Some []) 0 sample_frame 0 = Ok (Some job) /\
    dns_parse_header (j_query job) = Ok h /\ has_flag (h_flags h) DNS_FLAG_QR = false /\ h_qdcount h = 1.
Proof.
  apply (redirected_frame_is_query (fun _ _ => XDP_REDIRECT) (replicate 7 0) sample_frame 0 [1; 0; 0; 0; 0; 0; 1]).
  - repeat constructor; lia.
  - reflexivity.
  - reflexivity.
  - vm_compute. intuition discriminate.
Defined.

(** C14: The path of a query through the AF_XDP transport, for every backend
    that keeps the contract of dns_iface.h: a frame with a DNS message becomes
    a job; the worker's call returns; and if there is a response, the frame
    built for it fits a UMEM frame, goes from the addressed machine, address
    and port 53 to the sender's machine, address and port, has an IP header
    whose checksum a receiver accepts, and carries a response to the query's
    message. *)
Theorem reply_reaches_sender {E B} `{BackendLaws E B} (e : E) (st : B) F pkt resp now i frame :
  b_env_ok e -> b_ok st -> dns_frame F pkt -> bytes pkt -> zlen pkt < 2 ^ 32 ->
  zlen resp = DNS_MAX_MSG_LEN -> zlen frame = FRAME_SIZE ->
  exists job, parse_frame (Some resp) now pkt i = Ok (Some job) /\
    returns (worker_resolve e st job) (fun '(st', r) => b_ok st' /\ forall job', r = Some job' ->
      exists G rest n, build_response_frame frame job' = Ok (frame_bytes G ++ rest, n) /\
        n = zlen (frame_bytes G) /\ zlen (frame_bytes G ++ rest) = FRAME_SIZE /\
        uf_dst G = uf_src F /\ uf_src G = uf_dst F /\ uf_saddr G = uf_daddr F /\ uf_daddr G = uf_saddr F /\
        uf_sport G = be16 DNS_PORT /\ uf_dport G = uf_sport F /\ uf_ulen G = 8 + zlen (uf_payload G) /\
        ipv4_checksum (ip_bytes G) = Ok 0 /\ response_to (dns_part F) (uf_payload G)).
Proof.
  intros He Hst HF Hb Hl Hr Hf. exists (job_of F resp now i). split.
  { destruct HF as (? & ? & ? & ? & ->). by rewrite parse_frame_complete. }
  eapply returns_mono; [by eapply worker_answers|]. intros [st' r] [Hst' Ha]. split; [done|]. intros job' E'.
  destruct (Ha job' E') as (Hans & _). destruct (proj2 (proj2 Hans) frame Hf) as (G & rest & Hbuild & Hlen & HG).
  exists G, rest, (zlen (frame_bytes G)). split_and!; try done; apply HG.
Qed.

Lemma reply_reaches_sender_witness :
  exists job, parse_frame (Some (replicate 1500 0)) 0 sample_frame 0 = Ok (Some job) /\
    returns (worker_resolve tt (Stub [10; 0; 0; 1] 0) job) (fun '(st', r) => b_ok st' /\ forall job', r = Some job' ->
      exists G rest n, build_response_frame (replicate 4096 0) job' = Ok (frame_bytes G ++ rest, n) /\
        n = zlen (frame_bytes G) /\ zlen (frame_bytes G ++ rest) = FRAME_SIZE /\
        uf_dst G = [7; 8; 9; 10; 11; 12] /\ uf_src G = [1; 2; 3; 4; 5; 6] /\
        uf_saddr G = [10; 0; 0; 1] /\ uf_daddr G = [10; 0; 0; 2] /\
        uf_sport G = be16 DNS_PORT /\ uf_dport G = [16; 146] /\ uf_ulen G = 8 + zlen (uf_payload G) /\
        ipv4_checksum (ip_bytes G) = Ok 0 /\ response_to (dns_part sample_udp_frame) (uf_payload G)).
Proof.
  apply (reply_reaches_sender tt (Stub [10; 0; 0; 1] 0) sample_udp_frame sample_frame (replicate 1500 0) 0 0 (replicate 4096 0)).
  - exact I.
  - split; [reflexivity|]. repeat constructor; lia.
  - unfold dns_frame, frame_ok. vm_compute. intuition discriminate.
  - repeat constructor; lia.
  - reflexivity.
  - unfold zlen. rewrite length_replicate. reflexivity.
  - unfold zlen. rewrite length_replicate. reflexivity.
Defined.
