(* ===== verification/JobQueue.v ===== *)
(** * The job queues (src/server.c and src/af_xdp_user.c: queue_init,
      queue_push, queue_pop_wait, queue_drain, queue_shutdown)

    A queue is a singly linked list of jobs with a tail pointer, a count and a
    capacity, guarded by a mutex and a condition variable. The first part has
    the operations on a heap of nodes and relates them to a bounded FIFO. The
    second part is the protocol of the mutex, the condition variable and the
    threads, in which no wake-up is lost. *)

From stdpp Require Import prelude list gmap.
From Stdlib Require Import ZArith Lia.
From S2P Require Import Prelude DnsCache.

Local Open Scope Z_scope.

(** ** Operations *)

(** A job and its [next] pointer. *)
Record qnode (J : Type) := QNode {
  nd_job : J;
  nd_next : option loc
}.
Arguments QNode {J}.
Arguments nd_job {J}.
Arguments nd_next {J}.

(** [struct job_queue], but for the mutex, the condition variable and the
    eventfd. *)
Record job_queue := JobQueue {
  q_head : option loc;
  q_tail : option loc;
  q_count : Z;
  q_cap : Z;
  q_shutdown : bool
}.

Definition queue_init (cap : Z) : job_queue := JobQueue None None 0 cap false.

(** The two tests for a full queue: in server.c, and in af_xdp_user.c, where a
    capacity of 0 is no bound. *)
Definition udp_full (q : job_queue) : bool := q_cap q <=? q_count q.
Definition xdp_full (q : job_queue) : bool := negb (q_cap q =? 0) && (q_cap q <=? q_count q).

Section queue_ops.
Context {J : Type}.
Implicit Types (h : gmap loc (qnode J)) (q : job_queue).

(** [l->next = v] *)
Definition write_next h (l : loc) (v : option loc) : res (gmap loc (qnode J)) :=
  match h !! l with
  | Some n => Ok (<[l := QNode (nd_job n) v]> h)
  | None => Fault
  end.

(** The critical section, and what is returned. *)
Definition queue_push (full : job_queue -> bool) h q (job : loc) : res (gmap loc (qnode J) * job_queue * bool) :=
  if q_shutdown q || full q then Ok (h, q, false) else
  h1 ← write_next h job None;
  '(h2, head) ← match q_tail q with
                | Some t => h2 ← write_next h1 t (Some job); Ok (h2, q_head q)
                | None => Ok (h1, Some job)
                end;
  Ok (h2, JobQueue head (Some job) (u32 (q_count q + 1)) (q_cap q) (q_shutdown q), true).

(** From the return of [pthread_cond_wait]: the condition of the loop is false,
    so there is a job or the queue is shut down. [clear] is the statement
    [job->next = NULL] of af_xdp_user.c. *)
Definition queue_pop (clear : bool) h q : res (gmap loc (qnode J) * job_queue * option loc) :=
  match q_head q with
  | None => Ok (h, q, None)
  | Some job =>
      match h !! job with
      | None => Fault
      | Some n =>
          let head := nd_next n in
          let tail := match head with None => None | Some _ => q_tail q end in
          let q' := JobQueue head tail (u32 (q_count q - 1)) (q_cap q) (q_shutdown q) in
          h' ← (if clear then write_next h job None else Ok h);
          Ok (h', q', Some job)
      end
  end.

(** [while (!q->head && !q->shutdown)] *)
Definition must_wait (q : job_queue) : bool := bool_decide (q_head q = None) && negb (q_shutdown q).

Definition queue_drain q : job_queue * option loc :=
  (JobQueue None None 0 (q_cap q) (q_shutdown q), q_head q).

Definition queue_shutdown q : job_queue :=
  JobQueue (q_head q) (q_tail q) (q_count q) (q_cap q) true.

(** The jobs of a detached list, in the order of its [next] pointers. *)
Fixpoint walk (fuel : nat) h (p : option loc) : res (list loc) :=
  match p with
  | None => Ok []
  | Some l =>
      match fuel with
      | O => Diverge
      | S fuel' =>
          match h !! l with
          | None => Fault
          | Some n => ls ← walk fuel' h (nd_next n); Ok (l :: ls)
          end
      end
  end.

(** ** The FIFO *)

(** The heap holds the queue of the jobs [ls], the oldest first. *)
Definition rep_queue h q (ls : list loc) : Prop :=
  q_head q = head ls /\ q_tail q = last ls /\ q_count q = zlen ls /\ NoDup ls /\ zlen ls < 2 ^ 32 /\
  forall i l, ls !! i = Some l -> exists n, h !! l = Some n /\ nd_next n = ls !! S i.
End queue_ops.

(** Calls of a queue's users. A pop that would wait is not a call yet. *)
Inductive queue_call :=
| Push (l : loc)
| Pop
| Drain
| Shutdown.

Inductive queue_result :=
| Pushed (ok : bool)
| Popped (job : option loc)
| Drained (jobs : list loc)
| Done.

(** The calls on the heap. [fuel] bounds the walk over a drained list. *)
Definition queue_do {J} (full : job_queue -> bool) (clear : bool) (h : gmap loc (qnode J)) (q : job_queue) (c : queue_call)
    : res (gmap loc (qnode J) * job_queue * queue_result) :=
  match c with
  | Push l => '(h', q', ok) ← queue_push full h q l; Ok (h', q', Pushed ok)
  | Pop => '(h', q', r) ← queue_pop clear h q; Ok (h', q', Popped r)
  | Drain => let '(q', p) := queue_drain q in ls ← walk (size h) h p; Ok (h, q', Drained ls)
  | Shutdown => Ok (h, queue_shutdown q, Done)
  end.

(** The bounded FIFO: the jobs, the capacity ([None] is no bound) and whether it
    still takes jobs. *)
Record fifo := Fifo {
  f_jobs : list loc;
  f_cap : option Z;
  f_open : bool
}.

Definition fifo_do (f : fifo) (c : queue_call) : fifo * queue_result :=
  match c with
  | Push l =>
      if f_open f && match f_cap f with Some cap => zlen (f_jobs f) <? cap | None => true end
      then (Fifo (f_jobs f ++ [l]) (f_cap f) true, Pushed true)
      else (f, Pushed false)
  | Pop =>
      match f_jobs f with
      | [] => (f, Popped None)
      | l :: ls => (Fifo ls (f_cap f) (f_open f), Popped (Some l))
      end
  | Drain => (Fifo [] (f_cap f) (f_open f), Drained (f_jobs f))
  | Shutdown => (Fifo (f_jobs f) (f_cap f) false, Done)
  end.

(** [full] is a test for the capacity [cap]. *)
Definition full_for (full : job_queue -> bool) (cap : option Z) (qcap : Z) : Prop :=
  forall q, q_cap q = qcap -> full q = match cap with Some c => c <=? q_count q | None => false end.

Definition rep_fifo {J} (full : job_queue -> bool) (h : gmap loc (qnode J)) (q : job_queue) (f : fifo) : Prop :=
  rep_queue h q (f_jobs f) /\ full_for full (f_cap f) (q_cap q) /\ q_shutdown q = negb (f_open f).

(** A pushed job is a node of its own, and not in the queue yet; fewer than 2^32
    jobs wait. *)
Definition call_ok {J} (h : gmap loc (qnode J)) (f : fifo) (c : queue_call) : Prop :=
  match c with
  | Push l => is_Some (h !! l) /\ (l ∉ f_jobs f) /\ zlen (f_jobs f) + 1 < 2 ^ 32
  | _ => True
  end.

(** Sequences of calls, on the heap and on the FIFO. *)
Fixpoint queue_run {J} (full : job_queue -> bool) (clear : bool) (h : gmap loc (qnode J)) (q : job_queue) (cs : list queue_call)
    : res (gmap loc (qnode J) * job_queue * list queue_result) :=
  match cs with
  | [] => Ok (h, q, [])
  | c :: cs' =>
      '(h1, q1, r) ← queue_do full clear h q c;
      '(h2, q2, rs) ← queue_run full clear h1 q1 cs';
      Ok (h2, q2, r :: rs)
  end.

Fixpoint fifo_run (f : fifo) (cs : list queue_call) : fifo * list queue_result :=
  match cs with
  | [] => (f, [])
  | c :: cs' => let '(f1, r) := fifo_do f c in let '(f2, rs) := fifo_run f1 cs' in (f2, r :: rs)
  end.

Fixpoint calls_ok {J} (h : gmap loc (qnode J)) (f : fifo) (cs : list queue_call) : Prop :=
  match cs with
  | [] => True
  | c :: cs' => call_ok h f c /\ calls_ok h (fifo_do f c).1 cs'
  end.

(** The jobs a sequence of results took in, and handed out. *)
Definition taken_in (c : queue_call) (r : queue_result) : list loc :=
  match c, r with Push l, Pushed true => [l] | _, _ => [] end.
Definition handed_out (r : queue_result) : list loc :=
  match r with Popped (Some l) => [l] | Drained ls => ls | _ => [] end.

(** ** Lemmas: the list *)

Section lists.
Context {J : Type}.
Implicit Types (h : gmap loc (qnode J)) (q : job_queue) (ls : list loc).

Lemma write_next_Ok h l n v : h !! l = Some n -> write_next h l v = Ok (<[l := QNode (nd_job n) v]> h).
Proof. unfold write_next. by intros ->. Qed.

Lemma push_rep full h q ls job n : rep_queue h q ls -> q_shutdown q = false -> full q = false ->
  h !! job = Some n -> (job ∉ ls) -> zlen ls + 1 < 2 ^ 32 ->
  exists h' q', queue_push full h q job = Ok (h', q', true) /\ rep_queue h' q' (ls ++ [job]) /\
    q_cap q' = q_cap q /\ q_shutdown q' = false /\ dom h' = dom h.
Proof.
  intros (Hh & Ht & Hc & Hnd & Hl & Hch) Hs Hf Hn Hnew Hlen. unfold queue_push. rewrite Hs, Hf. cbn [orb].
  rewrite (write_next_Ok h job n None Hn), Ok_bind, Ht.
  assert (u32 (q_count q + 1) = zlen (ls ++ [job])) as Ec.
  { unfold u32. rewrite Hc, Z.mod_small; zl. }
  destruct (last ls) as [t|] eqn:Et.
  - assert (ls !! pred (length ls) = Some t) as Hlast by by rewrite <- last_lookup.
    destruct (Hch _ _ Hlast) as (nt & Hnt & _). assert (t <> job) as Hne by (intros ->; apply Hnew; by eapply list_elem_of_lookup_2).
    rewrite (write_next_Ok _ t nt) by (by rewrite lookup_insert_ne). rewrite !Ok_bind. eexists _, _. split; [done|].
    split_and!; [|done|done|rewrite !dom_insert_L; apply elem_of_dom_2 in Hn, Hnt; set_solver].
    unfold rep_queue. cbn -[zlen]. split_and!; [|by rewrite last_snoc|done| |zl|].
    + rewrite Hh. by destruct ls.
    + apply NoDup_app. split_and!; [done| |apply NoDup_singleton]. intros x Hx. rewrite list_elem_of_singleton. by intros ->.
    + intros i l Hi. destruct (decide (i < length ls)%nat) as [Hlt|Hge].
      * rewrite lookup_app_l in Hi by done. destruct (Hch i l Hi) as (m & Hm & Hmn).
        assert (l <> job) as Hlj by (intros ->; apply Hnew; by eapply list_elem_of_lookup_2).
        destruct (decide (l = t)) as [->|Hlt'].
        -- assert (i = pred (length ls)) as -> by (eapply NoDup_lookup; done). eexists. rewrite lookup_insert_eq. split; [done|].
           cbn. replace (S (pred (length ls))) with (length ls) by lia. by rewrite lookup_app_r, Nat.sub_diag.
        -- exists m. rewrite !lookup_insert_ne by done. split; [done|]. rewrite Hmn.
           assert (i <> pred (length ls)) by (intros ->; congruence). by rewrite lookup_app_l by lia.
      * assert (i = length ls) as -> by (apply lookup_lt_Some in Hi; rewrite length_app in Hi; cbn in Hi; lia).
        rewrite lookup_app_r, Nat.sub_diag in Hi by lia. injection Hi as <-. exists (QNode (nd_job n) None).
        rewrite lookup_insert_ne, lookup_insert_eq by done. split; [done|]. symmetry. apply lookup_ge_None_2. rewrite length_app. cbn. lia.
  - apply last_None in Et as ->. rewrite Ok_bind. eexists _, _. split; [done|].
    split_and!; [|done|done|rewrite dom_insert_L; apply elem_of_dom_2 in Hn; set_solver].
    unfold rep_queue. cbn -[zlen]. split_and!; [done|done|done|apply NoDup_singleton|done|].
    intros [|i] l Hi; [|done]. injection Hi as <-. eexists. by rewrite lookup_insert_eq.
Qed.

Lemma pop_rep clear h q job ls : rep_queue h q (job :: ls) ->
  exists h' q', queue_pop clear h q = Ok (h', q', Some job) /\ rep_queue h' q' ls /\
    q_cap q' = q_cap q /\ q_shutdown q' = q_shutdown q /\ dom h' = dom h.
Proof.
  intros (Hh & Ht & Hc & Hnd & Hl & Hch). destruct (Hch 0%nat job eq_refl) as (n & Hn & Hnext).
  unfold queue_pop. rewrite Hh. cbn [head]. rewrite Hn. apply NoDup_cons in Hnd as [Hnew Hnd].
  assert (exists h', (if clear then write_next h job None else Ok h) = Ok h' /\ dom h' = dom h /\
    forall l, l <> job -> h' !! l = h !! l) as (h' & -> & Hd & Hsame).
  { destruct clear; [|by exists h]. rewrite (write_next_Ok h job n None Hn). eexists. split; [done|].
    split; [rewrite dom_insert_L; apply elem_of_dom_2 in Hn; set_solver|]. intros l Hlj. by rewrite lookup_insert_ne. }
  rewrite Ok_bind. eexists _, _. split; [done|]. split_and!; [|done|done|done].
  assert (nd_next n = head ls) as -> by (rewrite Hnext; by destruct ls).
  unfold rep_queue. cbn -[zlen]. split_and!; [done| | |done|zl|].
  - rewrite Ht. destruct ls; [done|]. by rewrite last_cons_cons.
  - rewrite Hc. unfold u32. rewrite zlen_cons. rewrite Z.mod_small; zl.
  - intros i l Hi. destruct (Hch (S i) l Hi) as (m & Hm & Hmn). exists m. split; [|done]. rewrite Hsame; [done|].
    intros ->. apply Hnew. by eapply list_elem_of_lookup_2.
Qed.

Lemma walk_rep h ls : (forall i l, ls !! i = Some l -> exists n, h !! l = Some n /\ nd_next n = ls !! S i) ->
  forall fuel, (length ls <= fuel)%nat -> walk fuel h (head ls) = Ok ls.
Proof.
  induction ls as [|l ls IH]; intros Hch fuel Hf; [by destruct fuel|].
  destruct fuel as [|fuel]; [cbn in Hf; lia|]. cbn [head walk]. destruct (Hch 0%nat l eq_refl) as (n & -> & Hn).
  assert (nd_next n = head ls) as -> by (rewrite Hn; by destruct ls). rewrite IH; [done| |cbn in Hf; lia].
  intros i k Hi. apply (Hch (S i) k Hi).
Qed.

(** A queue's nodes are nodes of the heap. *)
Lemma rep_size h q ls : rep_queue h q ls -> (length ls <= size h)%nat.
Proof.
  intros (_ & _ & _ & Hnd & _ & Hch). rewrite <- size_dom, <- (size_list_to_set (C := gset loc) ls Hnd).
  apply subseteq_size. intros l Hl%elem_of_list_to_set. apply list_elem_of_lookup in Hl as [i Hi].
  destruct (Hch i l Hi) as (n & Hn & _). by eapply elem_of_dom_2.
Qed.

(** Every call does on the heap what it does on the FIFO. *)
Lemma queue_do_rep full clear h q f c : rep_fifo full h q f -> call_ok h f c ->
  exists h' q', queue_do full clear h q c = Ok (h', q', (fifo_do f c).2) /\ rep_fifo full h' q' (fifo_do f c).1 /\ dom h' = dom h.
Proof.
  intros (Hrep & Hfull & Hs) Hok. pose proof Hrep as (Hh & Ht & Hc & Hnd & Hl & Hch). destruct f as [ls cap open]. cbn in *.
  destruct c as [l| | |]; cbn [queue_do fifo_do f_jobs f_cap f_open].
  - destruct Hok as ([n Hn] & Hnew & Hlen).
    assert ((open && match cap with Some c => zlen ls <? c | None => true end) = negb (q_shutdown q || full q)) as ->.
    { rewrite (Hfull q eq_refl), Hs, Hc. destruct open, cap as [c|]; cbn; try done. rewrite Z.leb_antisym. by destruct (_ <? _). }
    destruct (q_shutdown q || full q) eqn:E; cbn [negb].
    + unfold queue_push. rewrite E, Ok_bind. by eexists _, _.
    + apply orb_false_iff in E as [E1 E2]. destruct (push_rep full h q ls l n) as (h' & q' & -> & Hrep' & Hcap & Hs' & Hd); try done.
      rewrite Ok_bind. eexists _, _. split; [done|]. split; [|done]. unfold rep_fifo. cbn. by rewrite Hcap, Hs'.
  - destruct ls as [|l ls].
    + unfold queue_pop. rewrite Hh. cbn. by eexists _, _.
    + destruct (pop_rep clear h q l ls Hrep) as (h' & q' & -> & Hrep' & Hcap & Hs' & Hd). rewrite Ok_bind.
      eexists _, _. split; [done|]. split; [|done]. unfold rep_fifo. cbn. by rewrite Hcap, Hs'.
  - cbn [queue_drain]. rewrite Hh, (walk_rep h ls Hch) by (by eapply rep_size). rewrite Ok_bind. eexists _, _. split; [done|].
    split; [|done]. split_and!; [|done|done]. unfold rep_queue. cbn. split_and!; try done. constructor.
  - eexists _, _. split; [done|]. split; [|done]. unfold rep_fifo. cbn. done.
Qed.

Lemma call_ok_dom h h' f c : dom h' = dom h -> call_ok h f c -> call_ok h' f c.
Proof. intros Hd. destruct c; cbn; [|done..]. rewrite <- !elem_of_dom, Hd. done. Qed.

Lemma calls_ok_dom h h' cs : dom h' = dom h -> forall f, calls_ok h f cs -> calls_ok h' f cs.
Proof.
  intros Hd. induction cs as [|c cs IH]; intros f; cbn; [done|]. intros [H1 H2]. split; [by eapply call_ok_dom|by apply IH].
Qed.

Lemma queue_run_rep full clear cs : forall h q f, rep_fifo full h q f -> calls_ok h f cs ->
  exists h' q', queue_run full clear h q cs = Ok (h', q', (fifo_run f cs).2) /\ rep_fifo full h' q' (fifo_run f cs).1.
Proof.
  induction cs as [|c cs IH]; intros h q f Hrep Hok; cbn [queue_run fifo_run]; [by exists h, q|].
  destruct Hok as [Hc Hcs]. destruct (queue_do_rep full clear h q f c Hrep Hc) as (h1 & q1 & -> & Hrep1 & Hd). rewrite Ok_bind.
  destruct (fifo_do f c) as [f1 r]. cbn [fst snd] in *.
  destruct (IH h1 q1 f1 Hrep1) as (h2 & q2 & -> & Hrep2); [by eapply calls_ok_dom|]. rewrite Ok_bind.
  destruct (fifo_run f1 cs) as [f2 rs]. by exists h2, q2.
Qed.

Lemma init_rep_queue cap h : rep_queue h (queue_init cap) [].
Proof. unfold rep_queue. cbn. split_and!; try done. constructor. Qed.
End lists.

(** In a FIFO what goes in comes out, in order, or is still there. *)
Lemma fifo_conserves cs : forall f, let '(f', rs) := fifo_run f cs in
  f_jobs f ++ concat (zip_with taken_in cs rs) = concat (map handed_out rs) ++ f_jobs f'.
Proof.
  induction cs as [|c cs IH]; intros f; cbn [fifo_run zip_with concat map]; [by rewrite app_nil_r|].
  destruct (fifo_do f c) as [f1 r] eqn:E. specialize (IH f1). destruct (fifo_run f1 cs) as [f2 rs].
  cbn [zip_with concat map]. rewrite <- app_assoc, <- IH.
  destruct c as [l| | |], f as [ls cap open]; cbn in E.
  - case_test_in E; injection E as <- <-; cbn; [by rewrite <- app_assoc|done].
  - destruct ls; injection E as <- <-; done.
  - injection E as <- <-. done.
  - injection E as <- <-. done.
Qed.

(** It never holds more than its capacity, and takes nothing once closed. *)
Lemma fifo_bounded cs c : forall f, f_cap f = Some c -> zlen (f_jobs f) <= Z.max 0 c -> zlen (f_jobs (fifo_run f cs).1) <= Z.max 0 c.
Proof.
  induction cs as [|x cs IH]; intros f Hc Hl; cbn [fifo_run]; [done|].
  assert (f_cap (fifo_do f x).1 = Some c /\ zlen (f_jobs (fifo_do f x).1) <= Z.max 0 c) as [Hc' Hl'].
  { destruct f as [ls cap open]. cbn in Hc, Hl. subst cap. destruct x; cbn; [|destruct ls; cbn; (split; [done|zl])|by split; zl|done].
    case_test; cbn; split; try done. zl. }
  specialize (IH _ Hc' Hl'). destruct (fifo_do f x) as [f1 r]. cbn in *. by destruct (fifo_run f1 cs).
Qed.

(** The test of the wait loop. *)
Lemma must_wait_rep {J} full (h : gmap loc (qnode J)) q f : rep_fifo full h q f ->
  must_wait q = bool_decide (f_jobs f = []) && f_open f.
Proof.
  intros ((Hh & _) & _ & Hs). unfold must_wait. rewrite Hh, Hs, negb_involutive. f_equal.
  apply bool_decide_ext. by destruct (f_jobs f).
Qed.

Lemma udp_full_for cap : full_for udp_full (Some cap) cap.
Proof. intros q <-. done. Qed.

Lemma xdp_full_for cap : full_for xdp_full (if cap =? 0 then None else Some cap) cap.
Proof. intros q <-. unfold xdp_full. by destruct (q_cap q =? 0). Qed.

(** ** The monitor *)

(** The threads that share a queue: [m_idle] workers are on their way to
    [queue_pop_wait], [m_busy] have a job, [m_waiting] are in
    [pthread_cond_wait], [m_woken] have been woken and wait for the mutex,
    [m_exited] have left [worker_main]; [m_signals] calls of
    [pthread_cond_signal] are due after an unlock, and [m_bcast] is a due
    [pthread_cond_broadcast]. *)
Record monitor := Monitor {
  m_fifo : fifo;
  m_idle : nat;
  m_busy : nat;
  m_waiting : nat;
  m_woken : nat;
  m_exited : nat;
  m_signals : nat;
  m_bcast : bool
}.

(** One round of [queue_pop_wait] with the mutex held: wait, take a job, or
    leave. *)
Inductive pop_round : fifo -> fifo -> (nat * nat * nat) -> Prop :=
| round_wait f : f_jobs f = [] -> f_open f = true -> pop_round f f (1, 0, 0)%nat
| round_job f f' l : fifo_do f Pop = (f', Popped (Some l)) -> pop_round f f' (0, 1, 0)%nat
| round_exit f : f_jobs f = [] -> f_open f = false -> pop_round f f (0, 0, 1)%nat.

Inductive mon_step : monitor -> monitor -> Prop :=
| step_push f f' l i b w k x s c : fifo_do f (Push l) = (f', Pushed true) ->
    mon_step (Monitor f i b w k x s c) (Monitor f' i b w k x (S s) c)
| step_push_full f l i b w k x s c : fifo_do f (Push l) = (f, Pushed false) ->
    mon_step (Monitor f i b w k x s c) (Monitor f i b w k x s c)
| step_signal f i b w k x s c :
    mon_step (Monitor f i b (S w) k x (S s) c) (Monitor f i b w (S k) x s c)
| step_signal_none f i b k x s c :
    mon_step (Monitor f i b 0 k x (S s) c) (Monitor f i b 0 k x s c)
| step_spurious f i b w k x s c :
    mon_step (Monitor f i b (S w) k x s c) (Monitor f i b w (S k) x s c)
| step_pop f f' dw db dx i b w k x s c : pop_round f f' (dw, db, dx) ->
    mon_step (Monitor f (S i) b w k x s c) (Monitor f' i (b + db) (w + dw) k (x + dx) s c)
| step_wake f f' dw db dx i b w k x s c : pop_round f f' (dw, db, dx) ->
    mon_step (Monitor f i b w (S k) x s c) (Monitor f' i (b + db) (w + dw) k (x + dx) s c)
| step_done f i b w k x s c :
    mon_step (Monitor f i (S b) w k x s c) (Monitor f (S i) b w k x s c)
| step_shutdown f i b w k x s c :
    mon_step (Monitor f i b w k x s c) (Monitor (fifo_do f Shutdown).1 i b w k x s true)
| step_bcast f i b w k x s :
    mon_step (Monitor f i b w k x s true) (Monitor f i b 0 (k + w) x s false).

Definition mon_init (cap : option Z) (workers : nat) : monitor :=
  Monitor (Fifo [] cap true) workers 0 0 0 0 0 false.

(** A waiting worker leaves no job without a signal or a woken worker that will
    take it, and no shutdown without a broadcast; workers leave only an empty,
    closed queue. *)
Definition mon_inv (workers : nat) (m : monitor) : Prop :=
  (m_idle m + m_busy m + m_waiting m + m_woken m + m_exited m = workers)%nat /\
  (0 < m_waiting m -> length (f_jobs (m_fifo m)) <= m_signals m + m_woken m)%nat /\
  ((0 < m_waiting m)%nat -> f_open (m_fifo m) = false -> m_bcast m = true) /\
  ((0 < m_exited m)%nat -> f_jobs (m_fifo m) = [] /\ f_open (m_fifo m) = false).

(** ** Lemmas: the monitor *)

Lemma pop_round_spec f f' dw db dx : pop_round f f' (dw, db, dx) ->
  (dw + db + dx = 1)%nat /\ f_open f' = f_open f /\ (length (f_jobs f') <= length (f_jobs f) - db)%nat /\
  (dw = 1%nat -> f' = f /\ f_jobs f = [] /\ f_open f = true) /\
  (dx = 1%nat -> f' = f /\ f_jobs f = [] /\ f_open f = false) /\ (db = 1%nat -> f_jobs f <> []).
Proof.
  intros H. inversion H as [? H1 H2|? ? l H1|? H1 H2]; subst.
  - split_and!; try done. lia.
  - destruct f as [[|j js] cap open]; cbn in H1; [done|]. injection H1 as <- <-. cbn. split_and!; try done. lia.
  - split_and!; try done. lia.
Qed.

Lemma mon_step_inv workers m m' : mon_inv workers m -> mon_step m m' -> mon_inv workers m'.
Proof.
  intros (Ht & Hj & Hb & Hx) Hs. unfold mon_inv. destruct Hs; cbn in *.
  - destruct f as [ls cap open]. cbn in *. case_test_in H; [|done]. injection H as <-. cbn. zbool. rewrite length_app. cbn.
    destruct open; [|done]. split_and!; [done|lia|done|]. intros Hx'. by destruct (Hx Hx').
  - done.
  - split_and!; [lia|lia| |done]. intros Hw. apply Hb. lia.
  - split_and!; try done; lia.
  - split_and!; [lia|lia| |done]. intros Hw. apply Hb. lia.
  - apply pop_round_spec in H as (H1 & H2 & H3 & H4 & H5 & H6). rewrite H2. split_and!; [lia| | |].
    + intros Hw. destruct (decide (dw = 1%nat)) as [Hd|]; [destruct (H4 Hd) as (-> & -> & _); cbn; lia|lia].
    + intros Hw Hc. destruct (decide (dw = 1%nat)) as [Hd|]; [destruct (H4 Hd) as (_ & _ & Ho); congruence|apply Hb; [lia|done]].
    + intros Hx'. destruct (decide (dx = 1%nat)) as [Hd|]; [by destruct (H5 Hd) as (-> & -> & ->)|].
      destruct Hx as [Hx Ho]; [lia|]. split; [|done]. apply nil_length_inv. rewrite Hx in H3. cbn in H3. lia.
  - apply pop_round_spec in H as (H1 & H2 & H3 & H4 & H5 & H6). rewrite H2. split_and!; [lia| | |].
    + intros Hw. destruct (decide (dw = 1%nat)) as [Hd|]; [destruct (H4 Hd) as (-> & -> & _); cbn; lia|].
      destruct (decide (dx = 1%nat)) as [Hd|]; [destruct (H5 Hd) as (-> & -> & _); cbn; lia|lia].
    + intros Hw Hc. destruct (decide (dw = 1%nat)) as [Hd|]; [destruct (H4 Hd) as (_ & _ & Ho); congruence|apply Hb; [lia|done]].
    + intros Hx'. destruct (decide (dx = 1%nat)) as [Hd|]; [by destruct (H5 Hd) as (-> & -> & ->)|].
      destruct Hx as [Hx Ho]; [lia|]. split; [|done]. apply nil_length_inv. rewrite Hx in H3. cbn in H3. lia.
  - split_and!; try done. lia.
  - split_and!; try done. intros Hx'. by destruct (Hx Hx').
  - split_and!; [lia|lia|lia|done].
Qed.

Lemma mon_reach_inv cap workers m : rtc mon_step (mon_init cap workers) m -> mon_inv workers m.
Proof.
  assert (mon_inv workers (mon_init cap workers)) as Hi by (unfold mon_inv; cbn; split_and!; lia).
  intros Hr. revert Hi. induction Hr as [m|m m1 m2 Hs _ IH]; [done|]. intros Hi. by eapply IH, mon_step_inv.
Qed.

(** ** Theorems *)

(** C26: Both job queues are bounded FIFOs: any sequence of pushes, pops, drains
    and a shutdown on the linked list runs without a bad pointer, gives the
    results of the FIFO and keeps representing it; what was accepted is
    exactly what was handed out, in the same order, and what still waits; and
    the count never exceeds the capacity (0 is no bound in af_xdp_user.c). *)
Theorem queue_is_fifo {J} (h : gmap loc (qnode J)) full clear fcap cap cs :
  (full = udp_full /\ clear = false /\ fcap = Some cap) \/
  (full = xdp_full /\ clear = true /\ fcap = if cap =? 0 then None else Some cap) ->
  calls_ok h (Fifo [] fcap true) cs ->
  exists h' q' rs f, queue_run full clear h (queue_init cap) cs = Ok (h', q', rs) /\
    fifo_run (Fifo [] fcap true) cs = (f, rs) /\ rep_queue h' q' (f_jobs f) /\
    concat (zip_with taken_in cs rs) = concat (map handed_out rs) ++ f_jobs f /\
    (forall c, fcap = Some c -> q_count q' <= Z.max 0 c).
Proof.
  intros Hor Hok. assert (full_for full fcap cap) as Hfull.
  { destruct Hor as [(-> & _ & ->)|(-> & _ & ->)]; [apply udp_full_for|apply xdp_full_for]. }
  destruct (queue_run_rep full clear cs h (queue_init cap) (Fifo [] fcap true)) as (h' & q' & Hr & Hrep & _ & _); [|done|].
  { split_and!; [apply init_rep_queue|done|done]. }
  pose proof (fifo_conserves cs (Fifo [] fcap true)) as Hcons.
  pose proof (fun c (Hc : f_cap (Fifo [] fcap true) = Some c) => fifo_bounded cs c _ Hc ltac:(zl)) as Hb.
  destruct (fifo_run (Fifo [] fcap true) cs) as [f rs]. cbn [fst snd f_jobs f_cap app] in *.
  exists h', q', rs, f. split_and!; [done..|]. intros c Hc. destruct Hrep as (_ & _ & -> & _). by apply Hb.
Qed.

Lemma queue_is_fifo_witness :
  let h := {[1%positive := QNode 10 None; 2%positive := QNode 20 (Some 7%positive)]} : gmap loc (qnode Z) in
  let cs := [Push 1%positive; Push 2%positive; Pop; Drain] in
  exists h' q' rs f, queue_run udp_full false h (queue_init 1) cs = Ok (h', q', rs) /\
    fifo_run (Fifo [] (Some 1) true) cs = (f, rs) /\ rep_queue h' q' (f_jobs f) /\
    concat (zip_with taken_in cs rs) = concat (map handed_out rs) ++ f_jobs f /\
    (forall c, Some 1 = Some c -> q_count q' <= Z.max 0 c).
Proof.
  apply (queue_is_fifo ({[1%positive := QNode 10 None; 2%positive := QNode 20 (Some 7%positive)]} : gmap loc (qnode Z))
    udp_full false (Some 1) 1 [Push 1%positive; Push 2%positive; Pop; Drain]).
  - left. done.
  - cbn. split_and!; try done; try (by eexists); set_solver.
Defined.

(** C24: No wake-up is lost: whatever the interleaving of pushes, pops, signals,
    spurious wake-ups and shutdown, while a job waits no worker has exited, and
    some worker is on its way to the queue, works, is woken, or is about to be
    signalled; when no signal, broadcast or woken worker is outstanding,
    workers wait only for an empty, open queue; and all workers have exited
    only when every accepted job has been handed out. *)
Theorem no_job_is_stranded cap workers m :
  rtc mon_step (mon_init cap workers) m -> (0 < workers)%nat ->
  (f_jobs (m_fifo m) <> [] -> m_exited m = 0%nat /\
     (0 < m_idle m + m_busy m + m_woken m \/ (0 < m_waiting m /\ 0 < m_signals m))%nat) /\
  (m_signals m = 0%nat -> m_woken m = 0%nat -> m_bcast m = false -> (0 < m_waiting m)%nat ->
     f_jobs (m_fifo m) = [] /\ f_open (m_fifo m) = true) /\
  (m_exited m = workers -> f_jobs (m_fifo m) = []).
Proof.
  intros (Ht & Hj & Hb & Hx)%mon_reach_inv Hw. split_and!.
  - intros Hne. assert (m_exited m = 0%nat) as He.
    { destruct (m_exited m); [done|]. destruct Hx as [? _]; [lia|done]. }
    split; [done|]. destruct (decide (0 < m_idle m + m_busy m + m_woken m)%nat) as [|Hz]; [by left|]. right.
    assert (0 < m_waiting m)%nat as Hw' by lia. specialize (Hj Hw'). destruct (f_jobs (m_fifo m)); [done|]. cbn in Hj. lia.
  - intros Hs Hk Hc Hwait. specialize (Hj Hwait). split; [apply nil_length_inv; lia|].
    destruct (f_open (m_fifo m)); [done|]. by rewrite Hb in Hc.
  - intros He. apply Hx. lia.
Qed.

Lemma no_job_is_stranded_witness :
  let m := Monitor (Fifo [1%positive] (Some 4) true) 0 0 1 0 0 1 false in
  (f_jobs (m_fifo m) <> [] -> m_exited m = 0%nat /\
     (0 < m_idle m + m_busy m + m_woken m \/ (0 < m_waiting m /\ 0 < m_signals m))%nat) /\
  (m_signals m = 0%nat -> m_woken m = 0%nat -> m_bcast m = false -> (0 < m_waiting m)%nat ->
     f_jobs (m_fifo m) = [] /\ f_open (m_fifo m) = true) /\
  (m_exited m = 1%nat -> f_jobs (m_fifo m) = []).
Proof.
  apply (no_job_is_stranded (Some 4) 1 (Monitor (Fifo [1%positive] (Some 4) true) 0 0 1 0 0 1 false)); [|lia].
  eapply rtc_l; [apply (step_pop (Fifo [] (Some 4) true) (Fifo [] (Some 4) true) 1 0 0); by constructor|].
  eapply rtc_l; [apply (step_push (Fifo [] (Some 4) true) (Fifo [1%positive] (Some 4) true) 1%positive); reflexivity|].
  apply rtc_refl.
Defined.
