(* ===== verification/Server.v ===== *)
(** * The UDP server (src/server.c: the receive loop of main, worker_main)

    One thread receives datagrams, makes a job of each and pushes it; workers
    pop jobs, call the backend and send the response to the job's client. The
    queue is the FIFO that [JobQueue] proves the linked list to be; jobs live
    on a heap, so that a job is freed once and by its owner only. *)

From stdpp Require Import prelude list gmap.
From Stdlib Require Import ZArith Lia.
From S2P Require Import Prelude DnsName DnsParse DnsCache Backend ResolverStub XdpFrame JobQueue.

Local Open Scope Z_scope.

Definition MAX_PENDING : Z := 4096.
Definition RECV_BUF : Z := 1500.

Section server.
(** Socket addresses, and the backend. *)
Context {C E B : Type} `{Backend E B}.

(** [struct udp_job]: the client and the first [len] bytes of [msg]. *)
Record udp_job := UdpJob {
  uj_client : C;
  uj_msg : list Z
}.

Record server := Srv {
  s_heap : gmap loc udp_job;
  s_queue : fifo;
  s_busy : list loc;                (* the jobs workers have popped *)
  s_running : bool;                 (* the receive loop *)
  s_backend : B;
  s_rx : Z;
  s_tx : Z;
  s_drop_parse : Z;
  s_drop_backlog : Z;
  (* history that only the theorems speak of and no counter of the program
     shows: datagrams received, responses handed to sendto, and how many of
     these calls failed *)
  s_received : list (C * list Z);
  s_sent : list (C * list Z);
  s_refused : nat
}.

Definition server_init (st : B) : server :=
  Srv ∅ (Fifo [] (Some MAX_PENDING) true) [] true st 0 0 0 0 [] [] 0.

(** What [recvfrom] returns: a datagram, EINTR, or another error. *)
Inductive recvfrom_event :=
| Datagram (client : C) (data : list Z)
| Interrupted
| RecvFailed.

(** One iteration of the receive loop; [malloc] is the new job's location, if
    there is memory. *)
Definition receive (malloc : gset loc -> option loc) (ev : recvfrom_event) (s : server) : server :=
  match malloc (dom (s_heap s)) with
  | None => s
  | Some l =>
      match ev with
      | Datagram client data =>
          let job := UdpJob client (ztake RECV_BUF data) in
          let '(q, r) := fifo_do (s_queue s) (Push l) in
          match r with
          | Pushed true =>
              Srv (<[l := job]> (s_heap s)) q (s_busy s) (s_running s) (s_backend s) (u64 (s_rx s + 1)) (s_tx s)
                (s_drop_parse s) (s_drop_backlog s) (s_received s ++ [(client, data)]) (s_sent s) (s_refused s)
          | _ =>
              Srv (s_heap s) q (s_busy s) (s_running s) (s_backend s) (u64 (s_rx s + 1)) (s_tx s)
                (s_drop_parse s) (u64 (s_drop_backlog s + 1)) (s_received s ++ [(client, data)]) (s_sent s) (s_refused s)
          end
      | Interrupted => s
      | RecvFailed =>
          Srv (s_heap s) (s_queue s) (s_busy s) false (s_backend s) (s_rx s) (s_tx s) (s_drop_parse s)
            (s_drop_backlog s) (s_received s) (s_sent s) (s_refused s)
      end
  end.

(** [queue_pop_wait] in a worker that finds a job. *)
Definition take_job (s : server) : option (server * loc) :=
  let '(q, r) := fifo_do (s_queue s) Pop in
  match r with
  | Popped (Some l) =>
      Some (Srv (s_heap s) q (l :: s_busy s) (s_running s) (s_backend s) (s_rx s) (s_tx s) (s_drop_parse s)
        (s_drop_backlog s) (s_received s) (s_sent s) (s_refused s), l)
  | _ => None
  end.

(** The rest of the worker's round with the job [l]; [resp] is the response
    array on the worker's stack, [sent] what [sendto] returns. *)
Definition serve_job (e : E) (resp : list Z) (sent : Z) (l : loc) (s : server) : res server :=
  match s_heap s !! l with
  | None => Fault
  | Some job =>
      '(st', r) ← b_query e (s_backend s) (uj_msg job) resp true;
      let answer := match r with Some (resp', n) => if 0 <? n then Some (ztake n resp') else None | None => None end in
      let heap := delete l (s_heap s) in
      let busy := filter (fun x => x <> l) (s_busy s) in
      match answer with
      | Some R =>
          let log := s_sent s ++ [(uj_client job, R)] in
          if 0 <? sent
          then Ok (Srv heap (s_queue s) busy (s_running s) st' (s_rx s) (u64 (s_tx s + 1)) (s_drop_parse s)
                 (s_drop_backlog s) (s_received s) log (s_refused s))
          else Ok (Srv heap (s_queue s) busy (s_running s) st' (s_rx s) (s_tx s) (s_drop_parse s)
                 (s_drop_backlog s) (s_received s) log (S (s_refused s)))
      | None =>
          Ok (Srv heap (s_queue s) busy (s_running s) st' (s_rx s) (s_tx s) (u64 (s_drop_parse s + 1))
            (s_drop_backlog s) (s_received s) (s_sent s) (s_refused s))
      end
  end.

(** [queue_shutdown] after the receive loop. *)
Definition close_queue (s : server) : server :=
  Srv (s_heap s) (fifo_do (s_queue s) Shutdown).1 (s_busy s) (s_running s) (s_backend s) (s_rx s) (s_tx s)
    (s_drop_parse s) (s_drop_backlog s) (s_received s) (s_sent s) (s_refused s).

(** The interleavings of the receive thread and the workers. *)
Inductive server_step `{!BackendLaws E B} : server -> server -> Prop :=
| step_receive malloc ev s : s_running s = true -> (forall X l, malloc X = Some l -> l ∉ X) ->
    (forall c data, ev = Datagram c data -> bytes data) ->
    server_step s (receive malloc ev s)
| step_take s s' l : take_job s = Some (s', l) -> server_step s s'
| step_serve e resp sent l s s' : l ∈ s_busy s -> b_env_ok e -> zlen resp = DNS_MAX_MSG_LEN ->
    serve_job e resp sent l s = Ok s' -> server_step s s'
| step_close s : s_running s = false -> server_step s (close_queue s).

(** The jobs on the heap are those that wait and those workers have, each once. *)
Definition owned (s : server) : list loc := f_jobs (s_queue s) ++ s_busy s.

(** What holds of every reachable state. *)
Definition server_inv `{!BackendLaws E B} (s : server) : Prop :=
  b_ok (s_backend s) /\ NoDup (owned s) /\ (forall l, is_Some (s_heap s !! l) <-> l ∈ owned s) /\
  (forall l job, s_heap s !! l = Some job -> exists data, (uj_client job, data) ∈ s_received s /\
     uj_msg job = ztake RECV_BUF data /\ bytes data) /\
  (forall c R, (c, R) ∈ s_sent s -> exists data, (c, data) ∈ s_received s /\ response_to (ztake RECV_BUF data) R /\
     zlen R <= DNS_MAX_MSG_LEN) /\
  s_rx s = u64 (zlen (s_received s)) /\
  u64 (zlen (s_received s)) =
    u64 (s_drop_backlog s + s_drop_parse s + s_tx s + Z.of_nat (s_refused s) + zlen (owned s)) /\
  (f_cap (s_queue s) = Some MAX_PENDING /\ zlen (f_jobs (s_queue s)) <= MAX_PENDING) /\
  u64 (s_tx s + Z.of_nat (s_refused s)) = u64 (zlen (s_sent s)).

(** ** Lemmas *)

Lemma u64_add_mono a b k : u64 a = u64 b -> u64 (a + k) = u64 (b + k).
Proof. unfold u64. intros E1. by rewrite <- (Z.add_mod_idemp_l a), E1, Z.add_mod_idemp_l by lia. Qed.

Lemma u64_inc_sum a b : u64 (u64 (a + 1) + b) = u64 (a + b + 1).
Proof. unfold u64. rewrite Z.add_mod_idemp_l by lia. f_equal. lia. Qed.

Lemma fifo_push_cases q l :
  (fifo_do q (Push l) = (Fifo (f_jobs q ++ [l]) (f_cap q) true, Pushed true) /\ f_open q = true /\
   forall c, f_cap q = Some c -> zlen (f_jobs q) < c) \/
  fifo_do q (Push l) = (q, Pushed false).
Proof.
  destruct q as [ls cap open]. cbn. destruct (open && _) eqn:E1; [left|by right]. apply andb_true_iff in E1 as [-> E1].
  split_and!; [done|done|]. intros c ->. lia.
Qed.

Context `{!BackendLaws E B}.

Lemma receive_inv malloc ev s : (forall X l, malloc X = Some l -> l ∉ X) ->
  (forall c data, ev = Datagram c data -> bytes data) -> server_inv s -> server_inv (receive malloc ev s).
Proof.
  intros Hm Hev Hinv. pose proof Hinv as (Hb & Hnd & Hheap & Hjobs & Hsent & Hrx & Hacc & [Hcap Hlen] & Htx). unfold receive.
  destruct (malloc (dom (s_heap s))) as [l|] eqn:El; [|done]. apply Hm in El. destruct ev as [c data| |]; [|done|done].
  specialize (Hev c data eq_refl). assert (l ∉ owned s) as Hnew by (rewrite <- Hheap, <- elem_of_dom; done).
  assert (forall x, x ∈ s_received s -> x ∈ s_received s ++ [(c, data)]) as Hmono by set_solver.
  assert (u64 (s_rx s + 1) = u64 (zlen (s_received s ++ [(c, data)]))) as Hrx'.
  { rewrite zlen_app, Hrx. change (zlen [(c, data)]) with 1. unfold u64. by rewrite Z.add_mod_idemp_l by lia. }
  destruct (fifo_push_cases (s_queue s) l) as [(-> & _ & Hroom)| ->]; unfold server_inv, owned in *; cbn [s_heap s_queue s_busy s_backend
    s_rx s_tx s_drop_parse s_drop_backlog s_received s_sent s_refused f_jobs f_cap] in *.
  - split_and!; try done.
    + rewrite <- app_assoc. apply (NoDup_Permutation_proper _ (l :: f_jobs (s_queue s) ++ s_busy s)).
      * by rewrite Permutation_middle.
      * by constructor.
    + intros k. destruct (decide (k = l)) as [->|Hk].
      * rewrite lookup_insert_eq. split; [set_solver|by eexists].
      * rewrite lookup_insert_ne, Hheap by done. set_solver.
    + intros k job. destruct (decide (k = l)) as [->|Hk].
      * rewrite lookup_insert_eq. intros [= <-]. exists data. cbn. split_and!; [set_solver|done..].
      * rewrite lookup_insert_ne by done. intros Hj. destruct (Hjobs k job Hj) as (d & ? & ?). exists d. auto.
    + intros c' R HR. destruct (Hsent c' R HR) as (d & ? & ?). exists d. auto.
    + rewrite zlen_app. change (zlen [(c, data)]) with 1. rewrite (u64_add_mono _ _ 1 Hacc). f_equal. zl.
    + specialize (Hroom MAX_PENDING Hcap). zl.
  - split_and!; try done.
    + intros k job Hj. destruct (Hjobs k job Hj) as (d & ? & ?). exists d. auto.
    + intros c' R HR. destruct (Hsent c' R HR) as (d & ? & ?). exists d. auto.
    + rewrite zlen_app. change (zlen [(c, data)]) with 1. rewrite (u64_add_mono _ _ 1 Hacc).
      rewrite <- !Z.add_assoc, u64_inc_sum. f_equal. lia.
Qed.

Lemma take_inv s s' l : take_job s = Some (s', l) -> server_inv s -> server_inv s' /\ l ∈ s_busy s'.
Proof.
  intros Ht (Hb & Hnd & Hheap & Hjobs & Hsent & Hrx & Hacc & [Hcap Hlen] & Htx). unfold take_job in Ht.
  destruct s as [h [[|j js] cap open] busy run st rx tx dp db rc snt rf]; cbn in Ht; [done|].
  injection Ht as <- <-. unfold server_inv, owned in *. cbn -[zlen u64] in *. split; [|set_solver].
  assert (js ++ j :: busy ≡ₚ j :: js ++ busy) as Hp by by rewrite Permutation_middle.
  split_and!; try done.
  - by rewrite Hp.
  - intros k. rewrite Hheap. by rewrite Hp.
  - rewrite Hacc. f_equal. autorewrite with zlen. lia.
  - zl.
Qed.

(** The state after a job [l] is freed and taken from the busy ones. *)
Lemma owned_release (q ls : list loc) (h : gmap loc udp_job) l : NoDup (q ++ ls) -> l ∈ ls ->
  (forall k, is_Some (h !! k) <-> k ∈ q ++ ls) ->
  NoDup (q ++ filter (fun x => x <> l) ls) /\ zlen (q ++ ls) = zlen (q ++ filter (fun x => x <> l) ls) + 1 /\
  (forall k, is_Some (delete l h !! k) <-> k ∈ q ++ filter (fun x => x <> l) ls).
Proof.
  intros Hnd Hl Hh. apply list_elem_of_split in Hl as (l1 & l2 & ->).
  assert (NoDup (l :: q ++ l1 ++ l2)) as Hnd'.
  { eapply NoDup_Permutation_proper; [|exact Hnd]. by rewrite <- Permutation_middle, <- (Permutation_middle q). }
  apply NoDup_cons in Hnd' as [Hl Hnd'].
  assert (filter (fun x => x <> l) (l1 ++ l :: l2) = l1 ++ l2) as ->.
  { rewrite filter_app, filter_cons_False by naive_solver. rewrite !filter_id; [done|set_solver..]. }
  split_and!; [done| |].
  - autorewrite with zlen. lia.
  - intros k. destruct (decide (k = l)) as [->|Hk]; [rewrite lookup_delete_eq; split; [by intros []|done]|].
    rewrite lookup_delete_ne, Hh by done. set_solver.
Qed.

(** The end of a worker's round keeps the invariant, if one more datagram is
    accounted for and what is sent is a response. *)
Lemma release_inv s l st' tx dp sent refused : server_inv s -> l ∈ s_busy s -> b_ok st' ->
  u64 (s_drop_backlog s + dp + tx + Z.of_nat refused) =
    u64 (s_drop_backlog s + s_drop_parse s + s_tx s + Z.of_nat (s_refused s) + 1) ->
  (forall c R, (c, R) ∈ sent -> exists data, (c, data) ∈ s_received s /\ response_to (ztake RECV_BUF data) R /\
     zlen R <= DNS_MAX_MSG_LEN) ->
  u64 (tx + Z.of_nat refused) = u64 (zlen sent) ->
  server_inv (Srv (delete l (s_heap s)) (s_queue s) (filter (fun x => x <> l) (s_busy s)) (s_running s) st' (s_rx s)
    tx dp (s_drop_backlog s) (s_received s) sent refused).
Proof.
  intros (Hb & Hnd & Hheap & Hjobs & Hsent & Hrx & Hacc & [Hcap Hlen] & _) Hl Hst' Hsum Hs' Htx'.
  destruct (owned_release (f_jobs (s_queue s)) (s_busy s) (s_heap s) l Hnd Hl Hheap) as (Hnd' & Hz & Hheap').
  unfold server_inv, owned in *. cbn [s_heap s_queue s_busy s_backend s_rx s_tx s_drop_parse s_drop_backlog s_received s_sent s_refused].
  split_and!; try done.
  - intros k job Hk. apply lookup_delete_Some in Hk as [_ Hk]. by apply (Hjobs k).
  - rewrite Hacc, Hz. set (X := s_drop_backlog s + s_drop_parse s + s_tx s + Z.of_nat (s_refused s)) in *.
    set (Y := zlen (_ ++ filter _ _)). rewrite (u64_add_mono _ _ Y Hsum). f_equal. lia.
Qed.

Lemma serve_inv e resp sent l s : l ∈ s_busy s -> b_env_ok e -> zlen resp = DNS_MAX_MSG_LEN -> server_inv s ->
  returns (serve_job e resp sent l s) server_inv.
Proof.
  intros Hl He Hr Hinv. pose proof Hinv as (Hb & Hnd & Hheap & Hjobs & Hsent & _ & _ & _ & Htx). unfold serve_job.
  assert (is_Some (s_heap s !! l)) as [job Hj] by (apply Hheap; unfold owned; set_solver). rewrite Hj.
  destruct (Hjobs l job Hj) as (data & Hin & Hmsg & Hbd).
  eapply returns_bind_intro; [apply (b_query_ok e (s_backend s) (uj_msg job) resp true); try done|].
  { rewrite Hmsg. by apply bytes_ztake. }
  { rewrite Hr. unfold DNS_MAX_MSG_LEN. lia. }
  intros [st' r] [Hst' Ha]. destruct r as [[resp' n]|].
  - destruct (Ha resp' n eq_refl) as (Hr' & Hn & Hto). unfold DNS_HDR_LEN in Hn. rewrite (proj2 (Z.ltb_lt 0 n)) by lia.
    assert (forall c R, (c, R) ∈ s_sent s ++ [(uj_client job, ztake n resp')] -> exists data, (c, data) ∈ s_received s /\
      response_to (ztake RECV_BUF data) R /\ zlen R <= DNS_MAX_MSG_LEN) as Hs'.
    { intros c R [HR|HR]%elem_of_app; [by apply Hsent|]. apply list_elem_of_singleton in HR as [= -> ->].
      exists data. rewrite <- Hmsg. split_and!; [done..|]. rewrite zlen_ztake; lia. }
    case_test; cbn [returns]; apply release_inv; try done.
    + unfold u64. rewrite <- Z.add_assoc, (Z.add_comm ((s_tx s + 1) mod 2 ^ 64)), Z.add_assoc.
      rewrite Z.add_mod_idemp_r by lia. f_equal. lia.
    + rewrite u64_inc_sum, zlen_app. by apply u64_add_mono.
    + f_equal. lia.
    + rewrite zlen_app, Nat2Z.inj_succ. unfold Z.succ. rewrite Z.add_assoc. by apply u64_add_mono.
  - cbn [returns]. apply release_inv; try done.
    unfold u64. rewrite <- !Z.add_assoc, (Z.add_comm ((s_drop_parse s + 1) mod 2 ^ 64)), Z.add_assoc.
    rewrite Z.add_mod_idemp_r by lia. f_equal. lia.
Qed.

Lemma close_inv s : server_inv s -> server_inv (close_queue s).
Proof. by intros (Hb & Hnd & Hheap & Hjobs & Hsent & Hrx & Hacc & Hcap & Htx). Qed.

Lemma server_step_inv s s' : server_step s s' -> server_inv s -> server_inv s'.
Proof.
  intros Hs Hinv. destruct Hs as [malloc ev s Hrun Hm Hev|s s' l Ht|e resp sent l s s' Hl He Hr Hs|s Hrun].
  - by apply receive_inv.
  - by eapply take_inv.
  - pose proof (serve_inv e resp sent l s Hl He Hr Hinv) as H'. by rewrite Hs in H'.
  - by apply close_inv.
Qed.

Lemma server_reach_inv st s : b_ok st -> rtc server_step (server_init st) s -> server_inv s.
Proof.
  intros Hst Hr. assert (server_inv (server_init st)) as Hi.
  { unfold server_inv, owned. cbn -[zlen]. split_and!; try done; try constructor; try set_solver.
    rewrite lookup_empty. by intros []. }
  revert Hi. induction Hr as [s|s s1 s2 Hs _ IH]; [done|]. intros Hi. by eapply IH, server_step_inv.
Qed.

(** ** Theorems *)

(** C20: The UDP server, for every backend that keeps the contract of
    dns_iface.h and in every interleaving of the receive thread and the
    workers: every response it sends answers a datagram its client sent, and
    has at most 1500 bytes; the jobs on the heap are exactly those that wait or
    that a worker has, so none leaks or is freed twice; at most 4096 wait. Its
    counters are exact, modulo 2^64: [rx_count] is the number of datagrams
    received, [tx_count] that of the responses [sendto] took, and [rx_count] is
    the sum of [tx_count], the two drop counters, the jobs under way and the
    responses [sendto] failed on, which the program counts nowhere. No round of
    a worker faults. *)
Theorem server_answers st s :
  b_ok st -> rtc server_step (server_init st) s ->
  (forall c R, (c, R) ∈ s_sent s -> exists data, (c, data) ∈ s_received s /\ response_to (ztake RECV_BUF data) R /\
     zlen R <= DNS_MAX_MSG_LEN) /\
  NoDup (owned s) /\ (forall l, is_Some (s_heap s !! l) <-> l ∈ owned s) /\ zlen (f_jobs (s_queue s)) <= MAX_PENDING /\
  s_rx s = u64 (zlen (s_received s)) /\ u64 (s_tx s + Z.of_nat (s_refused s)) = u64 (zlen (s_sent s)) /\
  s_rx s = u64 (s_drop_backlog s + s_drop_parse s + s_tx s + Z.of_nat (s_refused s) + zlen (owned s)) /\
  (forall e resp sent l, l ∈ s_busy s -> b_env_ok e -> zlen resp = DNS_MAX_MSG_LEN ->
     exists s', serve_job e resp sent l s = Ok s').
Proof.
  intros Hst Hr. pose proof (server_reach_inv st s Hst Hr) as Hinv.
  pose proof Hinv as (_ & Hnd & Hheap & _ & Hsent & Hrx & Hacc & [_ Hlen] & Htx). split_and!; [done..|by rewrite Hrx|].
  intros e resp sent l Hl He Hresp. pose proof (serve_inv e resp sent l s Hl He Hresp Hinv) as Hs.
  destruct (serve_job e resp sent l s) as [s'| | |]; [by exists s'|done..].
Qed.
End server.

(** Two datagrams arrive at a server with the stub backend; a worker has taken
    the first. *)
Definition sample_datagram : list Z := [0; 7; 1; 0; 0; 1; 0; 0; 0; 0; 0; 0; 1; 97; 0; 0; 1; 0; 1].

Lemma server_answers_witness :
  let s := Srv {[1%positive := UdpJob tt sample_datagram; 2%positive := UdpJob tt [1]]}
    (Fifo [2%positive] (Some 4096) true) [1%positive] true (Stub [10; 0; 0; 1] 0) 2 0 0 0
    [(tt, sample_datagram); (tt, [1])] [] 0 in
  (forall c R, (c, R) ∈ s_sent s -> exists data, (c, data) ∈ s_received s /\ response_to (ztake RECV_BUF data) R /\
     zlen R <= DNS_MAX_MSG_LEN) /\
  NoDup (owned s) /\ (forall l, is_Some (s_heap s !! l) <-> l ∈ owned s) /\ zlen (f_jobs (s_queue s)) <= MAX_PENDING /\
  s_rx s = u64 (zlen (s_received s)) /\ u64 (s_tx s + Z.of_nat (s_refused s)) = u64 (zlen (s_sent s)) /\
  s_rx s = u64 (s_drop_backlog s + s_drop_parse s + s_tx s + Z.of_nat (s_refused s) + zlen (owned s)) /\
  (forall e resp sent l, l ∈ s_busy s -> b_env_ok e -> zlen resp = DNS_MAX_MSG_LEN ->
     exists s', serve_job e resp sent l s = Ok s').
Proof.
  apply (server_answers (C := unit) (E := unit) (Stub [10; 0; 0; 1] 0)).
  - split; [reflexivity|]. repeat constructor; lia.
  - pose (m := fun X : gset loc => Some (fresh X)).
    assert (forall X l, m X = Some l -> l ∉ X) as Hm by (intros X l [= <-]; apply is_fresh).
    eapply rtc_l; [apply (step_receive m (Datagram tt sample_datagram)); [done|done|]|].
    { intros c data [= _ <-]. repeat constructor; lia. }
    eapply rtc_l; [apply (step_receive m (Datagram tt [1])); [done|done|]|].
    { intros c data [= _ <-]. repeat constructor; lia. }
    eapply rtc_l; [apply (step_take _ _ 1%positive); reflexivity|]. apply rtc_refl.
Defined.
