(* ===== verification/DnsTcp.v ===== *)
(** * DNS over TCP (src/dns_tcp.c)

    The service of one connection: messages with a two-byte length prefix, read
    and written through sockets that deliver and take any number of bytes at a
    time. The connection table is in TcpTable.v. *)

From stdpp Require Import prelude list.
From Stdlib Require Import ZArith Lia.
From S2P Require Import Prelude DnsName DnsParse DnsBuild Backend ResolverStub.

Local Open Scope Z_scope.

Definition DNS_MAX_TCP_MSG_LEN : Z := 65535.

(** ** Framing *)

(** What [recv] returns: bytes (none at the end of the stream), EINTR, or an
    error or timeout. Bytes beyond those asked for stay in the socket. *)
Inductive tcp_event :=
| Bytes (bs : list Z)
| RecvIntr
| RecvErr.

(** What [send] returns: the number of bytes taken (at most those offered),
    EINTR, or an error or timeout. *)
Inductive send_event :=
| Sent (n : Z)
| SendIntr
| SendErr.

(** [read_full(fd, buf, n)] from a socket that delivers [evs] and then nothing
    more ([recv] times out); [got] are the bytes read so far. *)
Fixpoint read_full (evs : list tcp_event) (n : Z) (got : list Z) : option (list Z) * list tcp_event :=
  if n <=? zlen got then (Some got, evs) else
  match evs with
  | [] => (None, [])
  | Bytes bs :: evs' =>
      let r := ztake (n - zlen got) bs in
      if zlen bs =? 0 then (None, evs')
      else if zlen bs <=? n - zlen got then read_full evs' n (got ++ r)
      else (Some (got ++ r), Bytes (zdrop (n - zlen got) bs) :: evs')
  | RecvIntr :: evs' => read_full evs' n got
  | RecvErr :: evs' => (None, evs')
  end.

(** [write_full(fd, buf, n)]: whether all bytes were taken, those that were, and
    the socket's further results. *)
Fixpoint write_full (sends : list send_event) (buf : list Z) (sent : Z) : bool * list Z * list send_event :=
  if zlen buf <=? sent then (true, [], sends) else
  match sends with
  | [] => (false, [], [])
  | Sent w :: sends' =>
      let w' := Z.min (Z.max 0 w) (zlen buf - sent) in
      let '(ok, out, rest) := write_full sends' buf (sent + w') in
      (ok, ztake w' (zdrop sent buf) ++ out, rest)
  | SendIntr :: sends' => write_full sends' buf sent
  | SendErr :: sends' => (false, [], sends')
  end.

Section connection.
Context {E B : Type} `{Backend E B}.

(** A connection: the backend, its response buffer, the socket in both
    directions, the bytes sent, and the counters of queries and answers. *)
Record conn := Conn {
  k_backend : B;
  k_resp : list Z;
  k_recv : list tcp_event;
  k_send : list send_event;
  k_out : list Z;
  k_queries : Z;
  k_answered : Z
}.

(** Why [conn_main] ends: no memory for its two buffers, nothing more to read,
    or [write_full] failed. *)
Inductive conn_end := NoBuffers | InputEnded | SendFailed.

(** The loop of [conn_main]; [env] are the circumstances of its backend calls,
    and [others] what the other threads do to the backend before each of them.
    Every round reads a length prefix. *)
Fixpoint conn_loop (fuel : nat) (env : nat -> E) (others : nat -> B -> B) (k : conn) : res (conn * conn_end) :=
  match fuel with
  | O => Diverge
  | S fuel' =>
      let '(lenbuf, evs1) := read_full (k_recv k) 2 [] in
      match lenbuf with
      | None => Ok (Conn (k_backend k) (k_resp k) evs1 (k_send k) (k_out k) (k_queries k) (k_answered k), InputEnded)
      | Some lb =>
          b0 ← get8 lb 0;
          b1 ← get8 lb 1;
          let mlen := u16 (Z.lor (Z.shiftl b0 8) b1) in
          if mlen =? 0
          then Ok (Conn (k_backend k) (k_resp k) evs1 (k_send k) (k_out k) (k_queries k) (k_answered k), InputEnded) else
          let '(query, evs2) := read_full evs1 mlen [] in
          match query with
          | None => Ok (Conn (k_backend k) (k_resp k) evs2 (k_send k) (k_out k) (k_queries k) (k_answered k), InputEnded)
          | Some q =>
              let queries := u64 (k_queries k + 1) in
              '(st', r) ← b_query (env 0%nat) (others 0%nat (k_backend k)) q (k_resp k) false;
              match r with
              | Some (resp', resp_len) =>
                  if (resp_len =? 0) || (DNS_MAX_TCP_MSG_LEN <? resp_len)
                  then conn_loop fuel' (fun i => env (S i)) (fun i => others (S i)) (Conn st' resp' evs2 (k_send k) (k_out k) queries (k_answered k))
                  else
                    let outlen := [u8 (Z.shiftr resp_len 8); u8 resp_len] in
                    let '(ok1, o1, sends1) := write_full (k_send k) outlen 0 in
                    if ok1 then
                      let '(ok2, o2, sends2) := write_full sends1 (ztake resp_len resp') 0 in
                      if ok2
                      then conn_loop fuel' (fun i => env (S i)) (fun i => others (S i))
                             (Conn st' resp' evs2 sends2 (k_out k ++ o1 ++ o2) queries (u64 (k_answered k + 1)))
                      else Ok (Conn st' resp' evs2 sends2 (k_out k ++ o1 ++ o2) queries (k_answered k), SendFailed)
                    else Ok (Conn st' resp' evs2 sends1 (k_out k ++ o1) queries (k_answered k), SendFailed)
              | None =>
                  conn_loop fuel' (fun i => env (S i)) (fun i => others (S i)) (Conn st' (k_resp k) evs2 (k_send k) (k_out k) queries (k_answered k))
              end
          end
      end
  end.

(** The bytes a socket will deliver. *)
Fixpoint stream (evs : list tcp_event) : list Z :=
  match evs with
  | [] => []
  | Bytes bs :: evs' => if zlen bs =? 0 then [] else bs ++ stream evs'
  | RecvIntr :: evs' => stream evs'
  | RecvErr :: _ => []
  end.

(** A round of the loop takes at least three bytes from the stream, but for the
    last. *)
Definition conn_fuel (evs : list tcp_event) : nat := S (length (stream evs)).

(** [mem]: whether both of [malloc]'s results are there. *)
Definition conn_main (mem : bool) (env : nat -> E) (others : nat -> B -> B) (k : conn) : res (conn * conn_end) :=
  if negb mem then Ok (k, NoBuffers) else conn_loop (conn_fuel (k_recv k)) env others k.

(** ** Reference definitions *)

(** A message with its length prefix. *)
Definition framed (m : list Z) : list Z := be16 (zlen m) ++ m.

(** The complete messages of a byte stream, up to the first of length zero. *)
Fixpoint messages (fuel : nat) (s : list Z) : list (list Z) :=
  match fuel, s with
  | S fuel', b0 :: b1 :: s' =>
      let n := b0 * 256 + b1 in
      if (n =? 0) || (zlen s' <? n) then [] else ztake n s' :: messages fuel' (zdrop n s')
  | _, _ => []
  end.

(** The outcome of a message: an answer, or none. *)
Definition outcome_for (m : list Z) (r : option (list Z)) : Prop :=
  match r with
  | Some R => response_to m R /\ DNS_HDR_LEN <= zlen R <= DNS_MAX_TCP_MSG_LEN
  | None => True
  end.

(** What the connection did with the messages [ms] of its stream. *)
Definition served (ms : list (list Z)) (k : conn) (out : list Z) (queries answered : Z) (why : conn_end) : Prop :=
  exists done rest rs, ms = done ++ rest /\ Forall2 outcome_for done rs /\
    u64 queries = u64 (k_queries k + zlen done) /\
    match why with
    | NoBuffers => False
    | InputEnded => rest = [] /\ out = k_out k ++ concat (map framed (omap id rs)) /\
        u64 answered = u64 (k_answered k + zlen (omap id rs))
    | SendFailed => out `prefix_of` k_out k ++ concat (map framed (omap id rs))
    end.
End connection.

(** ** Lemmas: sockets *)

(** How the stream is cut into segments does not matter. *)
Lemma read_full_enough evs : forall n got, zlen got <= n -> n - zlen got <= zlen (stream evs) ->
  exists evs', read_full evs n got = (Some (got ++ ztake (n - zlen got) (stream evs)), evs') /\
    stream evs' = zdrop (n - zlen got) (stream evs).
Proof.
  induction evs as [|ev evs IH]; intros n got Hg Hn.
  - cbn [stream] in *. assert (n = zlen got) as -> by zl. cbn [read_full]. rewrite Z.leb_refl, Z.sub_diag. exists [].
    by rewrite ztake_0, app_nil_r.
  - cbn [read_full]. destruct (Z.leb_spec n (zlen got)) as [Hle|Hlt].
    { assert (n = zlen got) as -> by lia. exists (ev :: evs). by rewrite Z.sub_diag, ztake_0, zdrop_0, app_nil_r. }
    destruct ev as [bs| |]; cbn [stream] in *; [| |zl].
    + destruct (Z.eqb_spec (zlen bs) 0) as [Hz|Hz]; [zl|]. destruct (Z.leb_spec (zlen bs) (n - zlen got)) as [Hall|Hpart].
      * rewrite (ztake_all _ bs) by lia. destruct (IH n (got ++ bs)) as (evs' & -> & Hs); [zl..|]. exists evs'.
        assert (exists m, 0 <= m /\ n - zlen (got ++ bs) = m /\ n - zlen got = zlen bs + m) as (m & Hm & E1 & E2).
        { exists (n - zlen got - zlen bs). split_and!; zl. }
        by rewrite Hs, E1, E2, <- app_assoc, ztake_app_add, zdrop_app_add by lia.
      * eexists. split; [by rewrite ztake_app_le by lia|]. cbn [stream]. rewrite (proj2 (Z.eqb_neq _ _)).
        -- unfold zdrop. rewrite skipn_app. f_equal. replace (Z.to_nat (n - zlen got) - length bs)%nat with 0%nat by (unfold zlen in *; lia). done.
        -- rewrite zlen_zdrop; lia.
    + apply IH; lia.
Qed.

Lemma read_full_short evs : forall n got, zlen (stream evs) < n - zlen got -> exists evs', read_full evs n got = (None, evs').
Proof.
  induction evs as [|ev evs IH]; intros n got Hn; cbn [read_full]; rewrite (proj2 (Z.leb_gt _ _)) by zl; [by eexists|].
  destruct ev as [bs| |]; cbn [stream] in *; [|by apply IH|by eexists].
  destruct (Z.eqb_spec (zlen bs) 0) as [Hz|Hz]; [by eexists|]. rewrite (proj2 (Z.leb_le _ _)) by zl.
  apply IH. rewrite ztake_all by zl. zl.
Qed.

(** What is sent is the beginning of the buffer, and all of it on success. *)
Lemma write_full_spec sends : forall buf sent, 0 <= sent <= zlen buf ->
  let '(ok, out, _) := write_full sends buf sent in
  (ok = true -> out = zdrop sent buf) /\ out `prefix_of` zdrop sent buf.
Proof.
  induction sends as [|ev sends IH]; intros buf sent Hs; cbn [write_full].
  - case_test; [rewrite zdrop_all by lia; done|]. split; [done|apply prefix_nil].
  - case_test; [rewrite zdrop_all by lia; done|]. destruct ev as [w| |]; [|by apply IH|split; [done|apply prefix_nil]].
    set (w' := Z.min _ _). specialize (IH buf (sent + w') ltac:(lia)). destruct (write_full sends buf (sent + w')) as [[ok out] rest].
    destruct IH as [Hok Hpre]. rewrite <- zdrop_zdrop in Hok, Hpre by lia. split.
    + intros E1. rewrite (Hok E1). apply ztake_zdrop.
    + rewrite <- (ztake_zdrop w' (zdrop sent buf)) at 2. by apply prefix_app.
Qed.

(** ** Lemmas: connections *)

Lemma messages_fuel s : forall f1 f2, (length s <= f1)%nat -> (length s <= f2)%nat -> messages f1 s = messages f2 s.
Proof.
  remember (length s) as n eqn:Hn. revert s Hn. induction n as [n IH] using lt_wf_ind. intros s -> f1 f2 H1 H2.
  destruct s as [|b0 [|b1 s]]; [by destruct f1, f2..|]. destruct f1, f2; try (cbn in *; lia). cbn [messages].
  destruct ((b0 * 256 + b1 =? 0) || (zlen s <? b0 * 256 + b1)) eqn:E1; [done|]. f_equal.
  assert (length (zdrop (b0 * 256 + b1) s) <= length s)%nat by (unfold zdrop; rewrite length_skipn; lia).
  eapply IH; [|done|cbn in *; lia..]. cbn. lia.
Qed.

Section serving.
Context {E B : Type} `{BackendLaws E B}.
Implicit Types k : conn (B := B).

Definition reply_part (r : option (list Z)) : list Z := match r with Some R => framed R | None => [] end.
Definition reply_count (r : option (list Z)) : Z := match r with Some _ => 1 | None => 0 end.

Lemma served_nil k : served [] k (k_out k) (k_queries k) (k_answered k) InputEnded.
Proof. exists [], [], []. cbn. rewrite app_nil_r, !zlen_nil, !Z.add_0_r. by split_and!. Qed.

(** One message more in front. *)
Lemma served_cons m r ms k k1 out queries answered why : outcome_for m r ->
  k_out k1 = k_out k ++ reply_part r -> u64 (k_queries k1) = u64 (k_queries k + 1) ->
  u64 (k_answered k1) = u64 (k_answered k + reply_count r) ->
  served ms k1 out queries answered why -> served (m :: ms) k out queries answered why.
Proof.
  intros Hr Ho Hq Ha (done & rest & rs & -> & H2 & Hqs & Hwhy). exists (m :: done), rest, (r :: rs).
  assert (forall a b c d, u64 a = u64 (b + c) -> u64 (a + d) = u64 (b + (c + d))) as Hadd.
  { unfold u64. intros a b c d E1. rewrite <- Z.add_mod_idemp_l, E1, Z.add_mod_idemp_l by lia. f_equal. lia. }
  assert (omap id (r :: rs) = (match r with Some R => [R] | None => [] end) ++ omap id rs) as Eo by by destruct r.
  assert (concat (map framed (omap id (r :: rs))) = reply_part r ++ concat (map framed (omap id rs))) as ->.
  { rewrite Eo. destruct r; done. }
  assert (zlen (omap id (r :: rs)) = reply_count r + zlen (omap id rs)) as -> by (rewrite Eo; destruct r; cbn [reply_count]; zl).
  split_and!; [done|by constructor| |].
  - rewrite Hqs, zlen_cons. by apply Hadd.
  - destruct why; [done| |].
    + destruct Hwhy as (-> & -> & ->). rewrite Ho, <- app_assoc. split_and!; [done..|]. by apply Hadd.
    + by rewrite Ho, <- app_assoc in Hwhy.
Qed.

(** The connection breaks while the answer to [m] is sent. *)
Lemma served_broken m R ms k out queries answered : outcome_for m (Some R) -> u64 queries = u64 (k_queries k + 1) ->
  out `prefix_of` k_out k ++ framed R -> served (m :: ms) k out queries answered SendFailed.
Proof.
  intros Hr Hq Ho. exists [m], ms, [Some R]. split_and!; [done| |done|].
  - constructor; [done|constructor].
  - cbn. by rewrite app_nil_r.
Qed.

(** The messages of a stream, from its first bytes. *)
Lemma messages_cons b0 b1 s : byte b0 -> byte b1 ->
  messages (length (b0 :: b1 :: s)) (b0 :: b1 :: s) =
  if (b0 * 256 + b1 =? 0) || (zlen s <? b0 * 256 + b1) then []
  else ztake (b0 * 256 + b1) s :: messages (length (zdrop (b0 * 256 + b1) s)) (zdrop (b0 * 256 + b1) s).
Proof.
  intros Hb0 Hb1. cbn [length]. remember (S (length s)) as f eqn:Ef. cbn [messages]. case_match; [done|]. f_equal.
  apply messages_fuel; [|done]. unfold zdrop. rewrite length_skipn. lia.
Qed.

Lemma outlen_be16 n : 0 <= n < 65536 -> [u8 (Z.shiftr n 8); u8 n] = be16 n.
Proof. intros Hn. unfold u8, be16. rewrite Z.shiftr_div_pow2 by lia. done. Qed.

(** Writing a response in its frame, and going on with [next] when that
    succeeds. *)
Lemma reply_serves ms k st' resp' evs2 n m answered next : b_ok st' -> 0 <= n <= zlen resp' -> outcome_for m (Some (ztake n resp')) ->
  (forall sends out, out = k_out k ++ framed (ztake n resp') -> returns (next sends out) (fun '(k', why) => b_ok (k_backend k') /\
     served (m :: ms) k (k_out k') (k_queries k') (k_answered k') why)) ->
  returns (let '(ok1, o1, sends1) := write_full (k_send k) (be16 n) 0 in
    if ok1 : bool then
      let '(ok2, o2, sends2) := write_full sends1 (ztake n resp') 0 in
      if ok2 : bool then next sends2 (k_out k ++ o1 ++ o2) else Ok (Conn st' resp' evs2 sends2 (k_out k ++ o1 ++ o2) (u64 (k_queries k + 1)) answered, SendFailed)
    else Ok (Conn st' resp' evs2 sends1 (k_out k ++ o1) (u64 (k_queries k + 1)) answered, SendFailed))
    (fun '(k', why) => b_ok (k_backend k') /\ served (m :: ms) k (k_out k') (k_queries k') (k_answered k') why).
Proof.
  intros Hst' Hn Hout Hnext. assert (zlen (ztake n resp') = n) as Hnr by (apply zlen_ztake; lia).
  pose proof (write_full_spec (k_send k) (be16 n) 0 ltac:(zl)) as Hw1. destruct (write_full (k_send k) (be16 n) 0) as [[ok1 o1] sends1].
  rewrite zdrop_0 in Hw1. destruct Hw1 as [Hw1 Hp1]. destruct ok1; cycle 1.
  { cbn [returns]. split; [done|]. eapply served_broken; [exact Hout|apply u64_u64|]. cbn [k_out].
    apply prefix_app. unfold framed. rewrite Hnr. by apply prefix_app_r. }
  rewrite (Hw1 eq_refl). pose proof (write_full_spec sends1 (ztake n resp') 0 ltac:(lia)) as Hw2.
  destruct (write_full sends1 (ztake n resp') 0) as [[ok2 o2] sends2]. rewrite zdrop_0 in Hw2. destruct Hw2 as [Hw2 Hp2].
  destruct ok2.
  - rewrite (Hw2 eq_refl). apply Hnext. unfold framed. by rewrite Hnr.
  - cbn [returns]. split; [done|]. eapply served_broken; [exact Hout|apply u64_u64|]. cbn [k_out].
    apply prefix_app. unfold framed. rewrite Hnr. by apply prefix_app.
Qed.

Lemma conn_loop_serves fuel : forall env others k,
  (forall i, b_env_ok (env i)) -> (forall i st, b_ok st -> b_ok (others i st)) -> b_ok (k_backend k) -> zlen (k_resp k) = DNS_MAX_TCP_MSG_LEN ->
  bytes (stream (k_recv k)) -> (length (stream (k_recv k)) < fuel)%nat ->
  returns (conn_loop fuel env others k) (fun '(k', why) => b_ok (k_backend k') /\
    served (messages (length (stream (k_recv k))) (stream (k_recv k))) k (k_out k') (k_queries k') (k_answered k') why).
Proof.
  induction fuel as [|fuel IH]; intros env others k He Ho Hb Hr Hs Hf; [lia|]. cbn [conn_loop].
  destruct (decide (2 <= zlen (stream (k_recv k)))) as [Hlen|Hlen]; cycle 1.
  { destruct (read_full_short (k_recv k) 2 []) as (evs & ->); [zl|]. cbn [returns k_backend k_out k_queries k_answered].
    split; [done|]. destruct (stream (k_recv k)) as [|b0 [|b1 s]]; [apply served_nil..|zl]. }
  destruct (read_full_enough (k_recv k) 2 []) as (evs1 & -> & Hs1); [zl..|]. change (2 - zlen (@nil Z)) with 2 in Hs1 |- *. cbn [app].
  destruct (stream (k_recv k)) as [|b0 [|b1 s]] eqn:Es; [zl..|]. change (zdrop 2 (b0 :: b1 :: s)) with s in Hs1.
  change (ztake 2 (b0 :: b1 :: s)) with [b0; b1].
  assert (get8 [b0; b1] 0 = Ok b0 /\ get8 [b0; b1] 1 = Ok b1) as [-> ->] by done. rewrite !Ok_bind.
  apply Forall_cons in Hs as [Hb0 Hs]. apply Forall_cons in Hs as [Hb1 Hs]. rewrite messages_cons by done.
  assert (u16 (Z.lor (b0 ≪ 8) b1) = b0 * 256 + b1) as ->.
  { unfold byte, u16 in *. rewrite lor_shiftl_add by lia. change (2 ^ 8) with 256. apply Z.mod_small. lia. }
  set (mlen := b0 * 256 + b1). assert (0 <= mlen < 65536) as Hm by (unfold mlen, byte in *; lia).
  destruct (Z.eqb_spec mlen 0) as [Hz|Hz]; [cbn; split; [done|apply served_nil]|]. cbn [orb].
  destruct (Z.ltb_spec (zlen s) mlen) as [Hshort|Henough].
  { destruct (read_full_short evs1 mlen []) as (evs2 & ->); [rewrite Hs1; zl|]. cbn. split; [done|apply served_nil]. }
  destruct (read_full_enough evs1 mlen []) as (evs2 & -> & Hs2); [zl|rewrite Hs1; zl|].
  change (zlen (@nil Z)) with 0 in Hs2 |- *. rewrite Z.sub_0_r in Hs2 |- *. rewrite Hs1 in Hs2 |- *. cbn [app].
  assert (zlen (zdrop mlen s) = zlen s - mlen) as Hdl by (apply zlen_zdrop; lia).
  eapply returns_bind_intro; [apply (b_query_ok (env 0%nat) (others 0%nat (k_backend k)) (ztake mlen s) (k_resp k) false); try done|].
  { by apply Ho. }
  { by apply bytes_ztake. }
  { rewrite Hr. unfold DNS_MAX_TCP_MSG_LEN. lia. }
  intros [st' r] [Hst' Ha].
  assert (forall r0 resp' sends out answered, outcome_for (ztake mlen s) r0 -> out = k_out k ++ reply_part r0 ->
    u64 answered = u64 (k_answered k + reply_count r0) -> zlen resp' = DNS_MAX_TCP_MSG_LEN ->
    returns (conn_loop fuel (fun i => env (S i)) (fun i => others (S i)) (Conn st' resp' evs2 sends out (u64 (k_queries k + 1)) answered))
      (fun '(k', why) => b_ok (k_backend k') /\ served (ztake mlen s :: messages (length (zdrop mlen s)) (zdrop mlen s)) k
         (k_out k') (k_queries k') (k_answered k') why)) as Hnext.
  { intros r0 resp' sends out answered Hr0 Hr1 Hr2 Hr3. eapply returns_mono; [apply IH|].
    - intros i. apply He.
    - intros i. apply Ho.
    - done.
    - done.
    - cbn [k_recv]. rewrite Hs2. by apply bytes_zdrop.
    - cbn [k_recv length] in *. rewrite Hs2. unfold zlen in *. lia.
    - intros [k' why] [Hk' Hserved]. split; [done|]. cbn [k_recv] in Hserved. rewrite Hs2 in Hserved.
      apply (served_cons _ r0 _ k (Conn st' resp' evs2 sends out (u64 (k_queries k + 1)) answered));
        [exact Hr0|exact Hr1|apply u64_u64|exact Hr2|exact Hserved]. }
  destruct r as [[resp' n]|].
  - destruct (Ha resp' n eq_refl) as (Hr' & Hn & Hto). unfold DNS_HDR_LEN in Hn. rewrite Hr in Hr', Hn.
    rewrite (proj2 (Z.eqb_neq _ _)), (proj2 (Z.ltb_ge _ _)) by lia. cbn [orb]. unfold DNS_MAX_TCP_MSG_LEN in Hn, Hr'.
    rewrite outlen_be16 by lia. apply (reply_serves _ k st' resp' evs2 n (ztake mlen s) (k_answered k) (fun sends out => conn_loop fuel
      (fun i => env (S i)) (fun i => others (S i)) (Conn st' resp' evs2 sends out (u64 (k_queries k + 1)) (u64 (k_answered k + 1)))));
      [done|lia|split; [done|]; rewrite zlen_ztake by lia; unfold DNS_HDR_LEN, DNS_MAX_TCP_MSG_LEN; lia|].
    intros sends out -> . apply (Hnext (Some (ztake n resp'))); [|done|apply u64_u64|done].
    split; [done|]. rewrite zlen_ztake by lia. unfold DNS_HDR_LEN, DNS_MAX_TCP_MSG_LEN. lia.
  - apply (Hnext None); [done|by rewrite app_nil_r|by rewrite Z.add_0_r|done].
Qed.

(** ** Properties *)

End serving.

(** A query in three segments with an interrupted [recv], and half of another,
    on a socket that takes one, then any number of bytes. *)
Definition sample_conn : conn (B := stub) :=
  Conn (Stub [10; 0; 0; 1] 0) (replicate (Z.to_nat DNS_MAX_TCP_MSG_LEN) 0)
    [Bytes [0]; RecvIntr; Bytes [19; 0; 7; 1; 0; 0; 1; 0]; Bytes [0; 0; 0; 0; 0; 1; 97; 0; 0; 1; 0; 1; 0; 30; 1; 2]]
    [Sent 1; SendIntr; Sent 100; Sent 3; Sent 100] [] 0 0.


(** What the sample connection sends: the answer with its length, 35. *)
Example sample_conn_output :
  match conn_main true (fun _ => tt) (fun _ st => st) sample_conn with
  | Ok (k', InputEnded) => ztake 4 (k_out k') = [0; 35; 0; 7] /\ zlen (k_out k') = 37 /\ k_answered k' = 1
  | _ => False
  end.
Proof. vm_compute. auto. Qed.
