(* ===== verification/TcpTable.v ===== *)
(** * The TCP server's connection table (src/dns_tcp.c)

    [conn_reserve] and [conn_release], the accept loop, the life of the detached
    connection threads, and [dns_tcp_server_stop], as an interleaving of the
    steps the mutex and the atomic counters make indivisible. The rest of the
    process opens and closes descriptors of its own in between, so that a
    descriptor number can be used again as soon as it is closed. *)

From stdpp Require Import prelude list gmap.
From Stdlib Require Import ZArith Lia.
From S2P Require Import Prelude.

Local Open Scope Z_scope.

Definition DNS_TCP_MAX_CONNS : nat := 128.
Definition EMPTY : Z := -1.

(** ** The table *)

(** The loop of [conn_reserve]: the first empty slot. *)
Fixpoint free_slot (fds : list Z) : option nat :=
  match fds with
  | [] => None
  | fd :: fds' => if fd =? EMPTY then Some 0%nat else S <$> free_slot fds'
  end.

(** The critical section of [conn_reserve]. *)
Definition conn_reserve (fds : list Z) (fd : Z) : option (nat * list Z) :=
  slot ← free_slot fds; Some (slot, <[slot := fd]> fds).

(** The table's part of the critical section of [conn_release]. *)
Definition conn_release (fds : list Z) (slot : nat) : list Z := <[slot := EMPTY]> fds.

(** The descriptors [dns_tcp_server_stop] shuts down. *)
Definition shutdown_scan (fds : list Z) : list Z := filter (fun fd => fd <> EMPTY) fds.

(** ** Threads *)

(** Where the accept thread is: at the head of its loop; past the test of
    [stop], in [poll] or [accept]; with an accepted descriptor; after the critical section of [conn_reserve]; after its
    increment of [active_conns]; after [pthread_create]; after the critical
    section of a [conn_release] of its own; returned. *)
Inductive accept_pc :=
| LoopHead
| Polling
| Accepted (fd : Z)
| Reserved (slot : nat) (fd : Z)
| Counted (slot : nat) (fd : Z)
| Created
| Undone
| Returned.

(** A connection thread: in its loop, or after the critical section of
    [conn_release]. It is gone after its decrement of [active_conns]. *)
Inductive conn_pc :=
| Serving (slot : nat) (fd : Z)
| Leaving.

(** Where [dns_tcp_server_stop] is: not called; [stop] set, joining the accept
    thread; joined, with [listen_fd] closed; after the scan; server freed. *)
Inductive stop_pc := NotCalled | Joining | Joined | Waiting | Freed.

#[global] Instance stop_pc_eq_dec : EqDecision stop_pc.
Proof. solve_decision. Defined.

(** The server, its threads, and the process' descriptors: all that are open,
    and those of them that belong to other parts. [t_finished] counts the
    connection threads that are gone; [t_shut] are the descriptors on which
    [shutdown] was called. *)
Record tcp_server := Tcp {
  t_listen : Z;
  t_fds : list Z;
  t_active : Z;
  t_accepted : Z;
  t_rejected : Z;
  t_stop : bool;
  t_accept : accept_pc;
  t_conns : list conn_pc;
  t_stopper : stop_pc;
  t_open : gset Z;
  t_other : gset Z;
  t_shut : list Z;
  t_finished : nat
}.

(** The server that [dns_tcp_server_start] sets up, with the listening socket
    [lfd], in a process with the descriptors [open]. *)
Definition started (lfd : Z) (open : gset Z) : tcp_server :=
  Tcp lfd (replicate DNS_TCP_MAX_CONNS EMPTY) 0 0 0 false LoopHead [] NotCalled ({[lfd]} ∪ open) ({[lfd]} ∪ open) [] 0.

(** What its calls return: [calloc], [socket], [bind], [listen],
    [pthread_create]. *)
Record start_calls := StartCalls {
  st_calloc : bool;
  st_socket : Z;
  st_bind : Z;
  st_listen : Z;
  st_thread : Z
}.

(** The server, or NULL; and the open descriptors. *)
Definition dns_tcp_server_start (c : start_calls) (open : gset Z) : option tcp_server * gset Z :=
  if negb (st_calloc c) then (None, open) else
  if st_socket c <? 0 then (None, open) else
  let open' := {[st_socket c]} ∪ open in
  if st_bind c <? 0 then (None, open' ∖ {[st_socket c]}) else
  if st_listen c <? 0 then (None, open' ∖ {[st_socket c]}) else
  if negb (st_thread c =? 0) then (None, open' ∖ {[st_socket c]}) else
  (Some (started (st_socket c) open), open').

(** ** Steps *)

(** The accept thread. [ev]: what [poll] and [accept] give, a descriptor or
    nothing; [mem]: whether [malloc] and [pthread_create] succeed. *)
Definition accept_step (ev : option Z) (mem : bool) (s : tcp_server) : tcp_server :=
  let '(Tcp lfd fds active accepted rejected stop pc conns stopper open other shut fin) := s in
  match pc with
  | LoopHead => Tcp lfd fds active accepted rejected stop (if stop then Returned else Polling) conns stopper open other shut fin
  | Polling =>
      match ev with
      | None => Tcp lfd fds active accepted rejected stop LoopHead conns stopper open other shut fin
      | Some fd => Tcp lfd fds active accepted rejected stop (Accepted fd) conns stopper ({[fd]} ∪ open) other shut fin
      end
  | Accepted fd =>
      match conn_reserve fds fd with
      | Some (slot, fds') => Tcp lfd fds' active accepted rejected stop (Reserved slot fd) conns stopper open other shut fin
      | None => Tcp lfd fds active accepted (u64 (rejected + 1)) stop LoopHead conns stopper (open ∖ {[fd]}) other shut fin
      end
  | Reserved slot fd => Tcp lfd fds (active + 1) accepted rejected stop (Counted slot fd) conns stopper open other shut fin
  | Counted slot fd =>
      if mem
      then Tcp lfd fds active accepted rejected stop Created (Serving slot fd :: conns) stopper open other shut fin
      else Tcp lfd (conn_release fds slot) active accepted rejected stop Undone conns stopper (open ∖ {[fd]}) other shut fin
  | Created => Tcp lfd fds active (u64 (accepted + 1)) rejected stop LoopHead conns stopper open other shut fin
  | Undone => Tcp lfd fds (active - 1) accepted rejected stop LoopHead conns stopper open other shut fin
  | Returned => s
  end.

(** The thread [c] of the connections [l1 ++ c :: l2] leaves its loop, or ends.
    When it may do so is in [tcp_step]. *)
Definition conn_step (l1 : list conn_pc) (c : conn_pc) (l2 : list conn_pc) (s : tcp_server) : tcp_server :=
  let '(Tcp lfd fds active accepted rejected stop pc _ stopper open other shut fin) := s in
  match c with
  | Serving slot fd =>
      Tcp lfd (conn_release fds slot) active accepted rejected stop pc (l1 ++ Leaving :: l2) stopper (open ∖ {[fd]}) other shut fin
  | Leaving => Tcp lfd fds (active - 1) accepted rejected stop pc (l1 ++ l2) stopper open other shut (S fin)
  end.

(** [dns_tcp_server_stop]. [pthread_join] blocks until the accept thread has
    returned, and the last loop until [active_conns] is not positive. *)
Definition stop_step (s : tcp_server) : tcp_server :=
  let '(Tcp lfd fds active accepted rejected stop pc conns stopper open other shut fin) := s in
  match stopper with
  | NotCalled => Tcp lfd fds active accepted rejected true pc conns Joining open other shut fin
  | Joining => match pc with
               | Returned => Tcp lfd fds active accepted rejected stop pc conns Joined (open ∖ {[lfd]}) (other ∖ {[lfd]}) shut fin
               | _ => s
               end
  | Joined => Tcp lfd fds active accepted rejected stop pc conns Waiting open other (shut ++ shutdown_scan fds) fin
  | Waiting => if 0 <? active then s else Tcp lfd fds active accepted rejected stop pc conns Freed open other shut fin
  | Freed => s
  end.

(** Other parts of the process open and close their descriptors. *)
Definition other_opens (fd : Z) (s : tcp_server) : tcp_server :=
  let '(Tcp lfd fds active accepted rejected stop pc conns stopper open other shut fin) := s in
  Tcp lfd fds active accepted rejected stop pc conns stopper ({[fd]} ∪ open) ({[fd]} ∪ other) shut fin.
Definition other_closes (fd : Z) (s : tcp_server) : tcp_server :=
  let '(Tcp lfd fds active accepted rejected stop pc conns stopper open other shut fin) := s in
  Tcp lfd fds active accepted rejected stop pc conns stopper (open ∖ {[fd]}) (other ∖ {[fd]}) shut fin.

(** The threads that will move by themselves: one that waits in [recv] or
    [send] does so only when its descriptor was shut down. *)
Definition conn_ready (s : tcp_server) (c : conn_pc) : Prop :=
  match c with
  | Serving _ fd => fd ∈ t_shut s
  | Leaving => True
  end.

(** A thread in its loop leaves when its descriptor was shut down, or when its
    client closes, errs or is idle for too long ([step_client]), which nobody
    can count on. New descriptors are not negative and not open. The listening socket is the
    server's to close. *)
Inductive tcp_step : tcp_server -> tcp_server -> Prop :=
| step_accept ev mem s : (forall fd, ev = Some fd -> 0 <= fd /\ fd ∉ t_open s) -> tcp_step s (accept_step ev mem s)
| step_conn l1 c l2 s : t_conns s = l1 ++ c :: l2 -> conn_ready s c -> tcp_step s (conn_step l1 c l2 s)
| step_client l1 slot fd l2 s : t_conns s = l1 ++ Serving slot fd :: l2 -> tcp_step s (conn_step l1 (Serving slot fd) l2 s)
| step_stop s : tcp_step s (stop_step s)
| step_open fd s : 0 <= fd -> fd ∉ t_open s -> tcp_step s (other_opens fd s)
| step_close fd s : fd ∈ t_other s -> fd <> t_listen s -> tcp_step s (other_closes fd s).

(** ** Invariant *)

(** Slots with their descriptors, by the thread that has them. *)
Definition accept_slots (pc : accept_pc) : list (nat * Z) :=
  match pc with Reserved slot fd | Counted slot fd => [(slot, fd)] | _ => [] end.
Definition conn_slot (c : conn_pc) : option (nat * Z) :=
  match c with Serving slot fd => Some (slot, fd) | Leaving => None end.
Definition slots (pc : accept_pc) (conns : list conn_pc) : list (nat * Z) := accept_slots pc ++ omap conn_slot conns.
Definition accepted_fd (pc : accept_pc) : list Z := match pc with Accepted fd => [fd] | _ => [] end.

(** The table [fds] holds exactly the slots [L]; the descriptors of [L] and of
    the list [A] are distinct, open, and not those of other parts. *)
Record table_ok (fds A : list Z) (L : list (nat * Z)) (open other : gset Z) : Prop := TableOk {
  to_length : length fds = DNS_TCP_MAX_CONNS;
  to_table : forall i fd, (fds !! i = Some fd /\ fd <> EMPTY) <-> (i, fd) ∈ L;
  to_slots : NoDup L.*1;
  to_fds : NoDup (A ++ L.*2);
  to_own : forall fd, fd ∈ A ++ L.*2 -> 0 <= fd /\ fd ∈ open /\ fd ∉ other;
  to_other : other ⊆ open
}.

(** What the accept thread's position adds to the two counters. *)
Definition pc_active (pc : accept_pc) : Z := match pc with Counted _ _ | Undone => 1 | _ => 0 end.
Definition pc_accepted (pc : accept_pc) : Z := match pc with Created => 1 | _ => 0 end.

Record tcp_inv (s : tcp_server) : Prop := TcpInv {
  ti_table : table_ok (t_fds s) (accepted_fd (t_accept s)) (slots (t_accept s) (t_conns s)) (t_open s) (t_other s);
  ti_active : t_active s = zlen (t_conns s) + pc_active (t_accept s);
  ti_accepted : u64 (t_accepted s + pc_accepted (t_accept s)) = u64 (Z.of_nat (t_finished s) + zlen (t_conns s));
  ti_joined : t_stopper s ∈ [Joined; Waiting; Freed] -> t_accept s = Returned;
  ti_shut : t_stopper s ∈ [Waiting; Freed] -> forall slot fd, Serving slot fd ∈ t_conns s -> fd ∈ t_shut s;
  ti_freed : t_stopper s = Freed -> t_conns s = [];
  ti_listen : t_stopper s ∈ [NotCalled; Joining] -> t_listen s ∈ t_other s;
  ti_stop : t_stop s = true <-> t_stopper s <> NotCalled
}.

(** ** Lemmas *)

Lemma free_slot_spec fds slot : free_slot fds = Some slot -> fds !! slot = Some EMPTY.
Proof.
  revert slot. induction fds as [|fd fds IH]; intros slot; cbn [free_slot]; [done|].
  destruct (Z.eqb_spec fd EMPTY) as [->|_]; [by intros [= <-]|].
  destruct (free_slot fds) as [i|] eqn:Ef; [|done]. intros [= <-]. by apply IH.
Qed.

Lemma free_slot_full fds : free_slot fds = None -> EMPTY ∉ fds.
Proof.
  induction fds as [|fd fds IH]; cbn [free_slot]; [intros _; apply not_elem_of_nil|].
  destruct (Z.eqb_spec fd EMPTY) as [->|Hne]; [done|]. destruct (free_slot fds); [done|].
  intros _. apply not_elem_of_cons. split; [done|by apply IH].
Qed.

Lemma slots_split pc l1 c l2 :
  slots pc (l1 ++ c :: l2) ≡ₚ match conn_slot c with Some p => [p] | None => [] end ++ slots pc (l1 ++ l2).
Proof.
  unfold slots. rewrite !omap_app. cbn [omap list_omap]. destruct (conn_slot c) as [p|]; cbn [app]; [|done].
  solve_Permutation.
Qed.

Lemma table_perm fds A L L' open other : L ≡ₚ L' -> table_ok fds A L open other -> table_ok fds A L' open other.
Proof.
  intros HL [Hl Ht Hs Hf Ho Hoo]. split; [done| | | | |done].
  - intros i fd. by rewrite <- HL.
  - by rewrite <- HL.
  - by rewrite <- HL.
  - intros fd. rewrite <- HL. apply Ho.
Qed.

Lemma table_claim fds fd L open other slot fds' : conn_reserve fds fd = Some (slot, fds') ->
  table_ok fds [fd] L open other -> table_ok fds' [] ((slot, fd) :: L) open other.
Proof.
  unfold conn_reserve. destruct (free_slot fds) as [i|] eqn:Ef; [|done]. intros [= -> <-] [Hl Ht Hs Hf Ho Hoo].
  apply free_slot_spec in Ef. assert (slot < length fds)%nat as Hlt by by eapply lookup_lt_Some.
  assert (slot ∉ L.*1) as Hnew.
  { intros ([i f] & -> & Hin)%list_elem_of_fmap. apply Ht in Hin as [Hin Hne]. cbn in *. congruence. }
  split; [by rewrite length_insert| | |done|done|done].
  - intros i f. rewrite elem_of_cons, <- Ht. destruct (decide (i = slot)) as [->|Hi].
    + rewrite list_lookup_insert_eq by done. destruct (Ho fd) as [Hfd _]; [by left|]. unfold EMPTY in *. split.
      * intros [[= <-] _]. by left.
      * intros [[= ->]|[E1 E2]]; [|congruence]. split; [done|lia].
    + rewrite list_lookup_insert_ne by done. split; [by right|]. intros [[= ? ?]|Hp]; [done|exact Hp].
  - cbn. by constructor.
Qed.

(** A full table: the server is at its limit. *)
Lemma table_full fds A L open other fd : table_ok fds A L open other -> conn_reserve fds fd = None ->
  length L = DNS_TCP_MAX_CONNS.
Proof.
  intros [Hl Ht Hs Hf Ho Hoo]. unfold conn_reserve. destruct (free_slot fds) as [i|] eqn:Ef; [done|]. intros _.
  apply free_slot_full in Ef. rewrite <- Hl, <- (length_fmap fst L). rewrite <- (length_seq (length fds) 0).
  apply Permutation_length, NoDup_Permutation; [done|apply NoDup_ListNoDup, seq_NoDup|].
  intros i. rewrite elem_of_seq, list_elem_of_fmap. split.
  - intros ([i' f] & -> & Hin). apply Ht in Hin as [Hin _]. apply lookup_lt_Some in Hin. cbn. lia.
  - intros [_ Hi]. destruct (lookup_lt_is_Some_2 fds i) as [f Hf']; [lia|]. exists (i, f). split; [done|]. apply Ht.
    split; [done|]. intros ->. apply Ef. by eapply list_elem_of_lookup_2.
Qed.

Lemma table_bound fds A L open other : table_ok fds A L open other -> (length L <= DNS_TCP_MAX_CONNS)%nat.
Proof.
  intros [Hl Ht Hs Hf Ho Hoo]. rewrite <- Hl, <- (length_fmap fst L). rewrite <- (length_seq (length fds) 0).
  apply submseteq_length, NoDup_submseteq; [done|]. intros i. rewrite elem_of_seq, list_elem_of_fmap.
  intros ([i' f] & -> & Hin). apply Ht in Hin as [Hin _]. apply lookup_lt_Some in Hin. cbn. lia.
Qed.

Lemma table_clear fds A slot fd L open other : table_ok fds A ((slot, fd) :: L) open other ->
  table_ok (conn_release fds slot) A L (open ∖ {[fd]}) other.
Proof.
  intros [Hl Ht Hs Hf Ho Hoo]. unfold conn_release. cbn in Hs, Hf. apply NoDup_cons in Hs as [Hns Hs].
  apply NoDup_app in Hf as (HfA & HAL & HfL). apply NoDup_cons in HfL as [Hnf HfL].
  assert (forall f, f ∈ A ++ L.*2 -> f <> fd) as Hne.
  { intros f [HA|HL]%elem_of_app ->; [|done]. apply (HAL fd HA). by left. }
  destruct (Ho fd) as (Hpos & Hop & Hot); [apply elem_of_app; right; by left|].
  split; [by rewrite length_insert| |done| | |set_solver].
  - intros i f. destruct (decide (i = slot)) as [->|Hi].
    + assert (slot < length fds)%nat.
      { destruct (proj2 (Ht slot fd)) as [Hlk _]; [by left|]. by eapply lookup_lt_Some. }
      rewrite list_lookup_insert_eq by done. split; [intros [[= <-] ?]; done|]. intros Hin. exfalso. apply Hns.
      by apply (list_elem_of_fmap_2 fst) in Hin.
    + rewrite list_lookup_insert_ne, Ht, elem_of_cons by done. split; [intros [[= ? ?]|?]; done|by right].
  - apply NoDup_app. split_and!; [done| |done]. intros f HA HL. apply (HAL f HA). by right.
  - intros f Hin. destruct (Ho f) as (? & ? & ?); [rewrite elem_of_app in *; destruct Hin; [by left|right; by right]|].
    specialize (Hne f Hin). set_solver.
Qed.

Lemma table_reject fds fd L open other : table_ok fds [fd] L open other -> table_ok fds [] L (open ∖ {[fd]}) other.
Proof.
  intros [Hl Ht Hs Hf Ho Hoo]. cbn in Hf. apply NoDup_cons in Hf as [Hnf Hf].
  destruct (Ho fd) as (_ & _ & Hot); [by left|]. split; [done..| |set_solver].
  intros f Hin. destruct (Ho f) as (? & ? & ?); [by right|]. assert (f <> fd) by (intros ->; done). set_solver.
Qed.

Lemma table_accept fds fd L open other : 0 <= fd -> fd ∉ open -> table_ok fds [] L open other ->
  table_ok fds [fd] L ({[fd]} ∪ open) other.
Proof.
  intros Hfd Hnew [Hl Ht Hs Hf Ho Hoo]. split; [done..| | |set_solver].
  - cbn. constructor; [|done]. intros Hin. apply Hnew. by apply (Ho fd).
  - intros f [->|Hin]%elem_of_cons; [set_solver|]. destruct (Ho f Hin) as (? & ? & ?). set_solver.
Qed.

(** The rest of the process has the same effect with a descriptor of its own. *)
Lemma table_others fds A L open other fd : table_ok fds A L open other ->
  (fd ∉ open -> table_ok fds A L ({[fd]} ∪ open) ({[fd]} ∪ other)) /\
  (fd ∈ other -> table_ok fds A L (open ∖ {[fd]}) (other ∖ {[fd]})).
Proof.
  intros [Hl Ht Hs Hf Ho Hoo]. split; intros Hnew; split; try done.
  - intros f Hin. destruct (Ho f Hin) as (? & ? & ?). set_solver.
  - set_solver.
  - intros f Hin. destruct (Ho f Hin) as (? & ? & ?). set_solver.
  - set_solver.
Qed.

Lemma start_inv lfd open : tcp_inv (started lfd open).
Proof.
  split; try (cbn; set_solver). split; cbn -[replicate]; [done| |constructor|constructor|set_solver|done].
  intros i fd. split; [|by intros ?%elem_of_nil]. intros [[-> _]%lookup_replicate Hne]. done.
Qed.

Lemma start_inv_Some c open s open' : dns_tcp_server_start c open = (Some s, open') -> tcp_inv s.
Proof. unfold dns_tcp_server_start. repeat (case_match; try discriminate). intros [= <- _]. apply start_inv. Qed.

(** Refutes the membership of a program point. *)
Ltac not_in := let Hin := fresh in intros Hin; repeat (apply elem_of_cons in Hin as [Hin|Hin]; [discriminate Hin|]); by apply elem_of_nil in Hin.

(** Closes the clauses of the invariant that a step leaves alone. *)
Ltac close_inv :=
  try match goal with
  | Hj : _ ∈ _ -> _ = Returned |- _ ∈ _ -> _ => let Hin := fresh in intros Hin; discriminate (Hj Hin)
  end; try assumption; try reflexivity; try (cbn in *; lia).

Lemma accept_step_inv ev mem s : (forall fd, ev = Some fd -> 0 <= fd /\ fd ∉ t_open s) -> tcp_inv s ->
  tcp_inv (accept_step ev mem s).
Proof.
  intros Hev Hinv. destruct s as [lfd fds active accepted rejected stop pc conns stopper open other shut fin].
  pose proof Hinv as [Ht Ha Hc Hj Hs Hf Hli Hst]. cbn in Hev, Ht, Ha, Hc, Hj, Hs, Hf, Hli, Hst. unfold accept_step.
  destruct pc as [| |fd|slot fd|slot fd| | |]; [| | | | | | |exact Hinv].
  - destruct stop; split; cbn; close_inv.
  - destruct ev as [fd|]; [|split; cbn; close_inv].
    destruct (Hev fd eq_refl) as [Hpos Hnew]. split; cbn; close_inv. by apply table_accept.
  - destruct (conn_reserve fds fd) as [[slot fds']|] eqn:Er; split; cbn; close_inv.
    + by eapply table_claim.
    + by apply table_reject.
  - split; cbn; close_inv.
  - destruct mem; split; cbn; close_inv.
    + rewrite Ha. cbn. zl.
    + rewrite zlen_cons. replace (Z.of_nat fin + (1 + zlen conns)) with (Z.of_nat fin + zlen conns + 1) by lia.
      apply u64_shift. by rewrite <- Hc, Z.add_0_r.
    + intros Hin. assert (stopper ∈ [Joined; Waiting; Freed]) as Hin' by by right. discriminate (Hj Hin').
    + intros ->. discriminate (Hj ltac:(set_solver)).
    + by eapply table_clear.
  - split; cbn; close_inv.
    + by rewrite u64_wrapped, Z.add_0_r.
  - split; cbn; close_inv.
Qed.

Lemma conn_step_inv l1 c l2 s : t_conns s = l1 ++ c :: l2 -> tcp_inv s -> tcp_inv (conn_step l1 c l2 s).
Proof.
  intros Hl Hinv. destruct s as [lfd fds active accepted rejected stop pc conns stopper open other shut fin].
  pose proof Hinv as [Ht Ha Hc Hj Hs Hf Hli Hst]. cbn in Hl, Ht, Ha, Hc, Hj, Hs, Hf, Hli, Hst. subst conns.
  apply (table_perm _ _ _ _ _ _ (slots_split pc l1 c l2)) in Ht. assert (stopper <> Freed) as Hnf.
  { intros E1. by destruct (app_cons_not_nil l1 l2 c (eq_sym (Hf E1))). }
  destruct c as [slot fd|]; split; cbn -[slots]; close_inv; try (intros E1; by destruct (Hnf E1)).
  - apply table_clear. eapply table_perm; [|exact Ht]. cbn [conn_slot app]. f_equiv. symmetry. apply (slots_split pc l1 Leaving l2).
  - rewrite Ha. zl.
  - rewrite Hc. f_equal. zl.
  - intros Hin slot' fd' Hin'. apply (Hs Hin slot'). set_solver.
  - rewrite Ha. zl.
  - rewrite Hc. f_equal. zl.
  - intros Hin slot' fd' Hin'. apply (Hs Hin slot'). set_solver.
Qed.

Lemma stop_step_inv s : tcp_inv s -> tcp_inv (stop_step s).
Proof.
  intros Hinv. destruct s as [lfd fds active accepted rejected stop pc conns stopper open other shut fin].
  pose proof Hinv as [Ht Ha Hc Hj Hs Hf Hli Hst]. cbn in Ht, Ha, Hc, Hj, Hs, Hf, Hli, Hst. unfold stop_step.
  assert (stopper <> NotCalled -> stop = true) as Hs' by apply Hst. destruct stopper; [| | | |exact Hinv]; try (rewrite (Hs' ltac:(done)) in *).
  - split; cbn; try done; try not_in. intros _. apply Hli. by left.
  - destruct pc; try exact Hinv. assert (lfd ∈ other) as Hlf by (apply Hli; right; by left).
    split; cbn; try done; try not_in. by apply table_others.
  - split; cbn; try done; try not_in; [intros _; apply Hj; by left|]. intros _ slot fd Hin. apply elem_of_app. right. apply list_elem_of_filter.
    assert ((slot, fd) ∈ slots pc conns) as Hslot.
    { apply elem_of_app. right. apply list_elem_of_omap. by exists (Serving slot fd). }
    apply (to_table _ _ _ _ _ Ht) in Hslot as [Hlk Hne]. split; [done|]. by eapply list_elem_of_lookup_2.
  - destruct (Z.ltb_spec 0 active); [exact Hinv|]. assert (pc = Returned) as -> by (apply Hj; right; by left).
    assert (conns = []) as -> by (destruct conns as [|c conns]; [done|]; cbn [pc_active] in Ha; zl).
    split; cbn; try done; try not_in. by intros _ slot fd ?%elem_of_nil.
Qed.

Lemma other_step_inv fd s : tcp_inv s ->
  (fd ∉ t_open s -> tcp_inv (other_opens fd s)) /\ (fd ∈ t_other s -> fd <> t_listen s -> tcp_inv (other_closes fd s)).
Proof.
  intros [Ht Ha Hc Hj Hs Hf Hli Hst]. destruct (table_others _ _ _ _ _ fd Ht) as [Ho Hcl]. destruct s; cbn in *.
  split; intros Hfd; [|intros Hne]; split; cbn; try done; [by apply Ho| |by apply Hcl|]; intros Hin; specialize (Hli Hin); set_solver.
Qed.

Lemma tcp_reach_inv s s' : rtc tcp_step s s' -> tcp_inv s -> tcp_inv s'.
Proof.
  induction 1 as [s|s s1 s2 Hstep _ IH]; intros Hinv; [done|]. apply IH. destruct Hstep.
  - by apply accept_step_inv.
  - by apply conn_step_inv.
  - by apply conn_step_inv.
  - by apply stop_step_inv.
  - by apply other_step_inv.
  - by apply other_step_inv.
Qed.

(** ** Properties *)

(** C22: in every interleaving of the accept thread, the connection threads,
    [dns_tcp_server_stop] and the rest of the process: the table holds exactly
    the descriptors of the connections, at most 128 and all distinct; each is
    open and not one that another part of the process has got since, so that
    [shutdown] in [stop] only ever hits connections; once the scan is done every
    thread still in its loop has had its descriptor shut down; [active_conns]
    counts the threads that still use the server, [accepted] those ever started;
    when [stop] frees the server no thread is left to use it, and it closes the
    listening socket only when the accept thread has returned. A connection
    is turned away only when 128 are held. *)
Theorem conn_table_safe c open open' s0 s : dns_tcp_server_start c open = (Some s0, open') -> rtc tcp_step s0 s ->
  (forall i fd, (t_fds s !! i = Some fd /\ fd <> EMPTY) <-> (i, fd) ∈ slots (t_accept s) (t_conns s)) /\
  NoDup (slots (t_accept s) (t_conns s)).*1 /\ NoDup (slots (t_accept s) (t_conns s)).*2 /\
  (length (slots (t_accept s) (t_conns s)) <= DNS_TCP_MAX_CONNS)%nat /\
  (forall fd, fd ∈ shutdown_scan (t_fds s) -> fd ∈ t_open s /\ fd ∉ t_other s) /\
  (t_stopper s ∈ [Waiting; Freed] -> forall slot fd, Serving slot fd ∈ t_conns s -> fd ∈ t_shut s) /\
  (t_accept s = LoopHead \/ t_accept s = Returned ->
     t_active s = zlen (t_conns s) /\ u64 (t_accepted s) = u64 (Z.of_nat (t_finished s) + zlen (t_conns s))) /\
  (t_stopper s = Freed -> t_accept s = Returned /\ t_conns s = []) /\
  (t_accept s <> Returned -> t_listen s ∈ t_open s) /\
  (forall fd, conn_reserve (t_fds s) fd = None -> length (slots (t_accept s) (t_conns s)) = DNS_TCP_MAX_CONNS).
Proof.
  intros H0 Hr. apply start_inv_Some in H0. destruct (tcp_reach_inv _ s Hr H0) as [Ht Ha Hc Hj Hs Hf Hli Hst]. pose proof Ht as [Hl Htab Hnd Hnf Hown _].
  apply NoDup_app in Hnf as (_ & _ & Hnf). split; [exact Htab|]. split; [exact Hnd|]. split; [exact Hnf|].
  split; [by eapply table_bound|]. split_and!.
  - intros fd [Hne (i & Hi)%list_elem_of_lookup]%list_elem_of_filter.
    assert ((i, fd) ∈ slots (t_accept s) (t_conns s)) as Hin by by apply Htab.
    destruct (Hown fd) as (_ & ? & ?); [apply elem_of_app; right; by apply (list_elem_of_fmap_2 snd) in Hin|done].
  - exact Hs.
  - intros [E1|E1]; rewrite E1 in Ha, Hc; cbn in Ha, Hc; by rewrite Z.add_0_r in Ha, Hc.
  - intros E1. split; [apply Hj; rewrite E1; set_solver|by apply Hf].
  - intros Hne. apply (to_other _ _ _ _ _ Ht), Hli. destruct (t_stopper s); try (by left); try (right; by left);
      destruct Hne; apply Hj; set_solver.
  - intros fd. by eapply table_full.
Qed.

(** A connection is accepted and served; [stop] has joined the accept thread
    and shut the connection down. *)
Lemma conn_table_safe_witness :
  let s := Tcp 4 (5 :: replicate 127 EMPTY) 1 1 0 true Returned [Serving 0 5] Waiting {[5; 3]} {[3]} [5] 0 in
  (forall i fd, (t_fds s !! i = Some fd /\ fd <> EMPTY) <-> (i, fd) ∈ slots (t_accept s) (t_conns s)) /\
  NoDup (slots (t_accept s) (t_conns s)).*1 /\ NoDup (slots (t_accept s) (t_conns s)).*2 /\
  (length (slots (t_accept s) (t_conns s)) <= DNS_TCP_MAX_CONNS)%nat /\
  (forall fd, fd ∈ shutdown_scan (t_fds s) -> fd ∈ t_open s /\ fd ∉ t_other s) /\
  (t_stopper s ∈ [Waiting; Freed] -> forall slot fd, Serving slot fd ∈ t_conns s -> fd ∈ t_shut s) /\
  (t_accept s = LoopHead \/ t_accept s = Returned ->
     t_active s = zlen (t_conns s) /\ u64 (t_accepted s) = u64 (Z.of_nat (t_finished s) + zlen (t_conns s))) /\
  (t_stopper s = Freed -> t_accept s = Returned /\ t_conns s = []) /\
  (t_accept s <> Returned -> t_listen s ∈ t_open s) /\
  (forall fd, conn_reserve (t_fds s) fd = None -> length (slots (t_accept s) (t_conns s)) = DNS_TCP_MAX_CONNS).
Proof.
  apply (conn_table_safe (StartCalls true 4 0 0 0) {[3]} {[4; 3]} (started 4 {[3]})); [reflexivity|]. eapply rtc_l; [by apply (step_accept None true)|].
  eapply rtc_l; [apply (step_accept (Some 5) true); intros fd [= <-]; split; [lia|set_solver]|].
  do 4 (eapply rtc_l; [by apply (step_accept None true)|]).
  eapply rtc_l; [apply step_stop|]. eapply rtc_l; [by apply (step_accept None true)|].
  do 2 (eapply rtc_l; [apply step_stop|]). apply rtc_refl.
Defined.

(** ** [dns_tcp_server_stop] completes *)

(** What the server cannot bring about: other parts of the process open and
    close descriptors, and clients leave. *)
Definition other_step (s s' : tcp_server) : Prop :=
  (exists fd, (0 <= fd /\ (fd ∉ t_open s) /\ s' = other_opens fd s) \/ (fd ∈ t_other s /\ fd <> t_listen s /\ s' = other_closes fd s)) \/
  (exists l1 slot fd l2, t_conns s = l1 ++ Serving slot fd :: l2 /\ s' = conn_step l1 (Serving slot fd) l2 s).

(** A step the server's threads take by themselves and that changes something:
    the accept thread, whose [poll] has a timeout; [stop]; and a connection
    thread that is past its loop or whose descriptor was shut down. *)
Definition thread_step (s s' : tcp_server) : Prop :=
  s' <> s /\
  ((exists ev mem, (forall fd, ev = Some fd -> 0 <= fd /\ fd ∉ t_open s) /\ s' = accept_step ev mem s) \/
   (exists l1 c l2, t_conns s = l1 ++ c :: l2 /\ conn_ready s c /\ s' = conn_step l1 c l2 s) \/
   s' = stop_step s).

Definition progress (s s' : tcp_server) : Prop := exists s1, rtc other_step s s1 /\ thread_step s1 s'.

(** However the scheduler chooses among the threads that can move, and whatever
    clients and other parts do in between, the server is freed after finitely
    many steps of its threads, and until then one of them can move. *)
Inductive surely_freed (s : tcp_server) : Prop :=
| freed_now : t_stopper s = Freed -> surely_freed s
| freed_later : (exists s', thread_step s s') -> (forall s', progress s s' -> surely_freed s') -> surely_freed s.

(** What is left to do once [stop] is set. *)
Definition accept_rank (pc : accept_pc) : nat :=
  match pc with
  | Returned => 0
  | LoopHead => 1
  | Created | Undone => 2
  | Counted _ _ => 5
  | Reserved _ _ => 6
  | Accepted _ => 7
  | Polling => 8
  end.
Definition conn_rank (c : conn_pc) : nat := match c with Serving _ _ => 2 | Leaving => 1 end.
Definition stop_rank (p : stop_pc) : nat :=
  match p with NotCalled => 4 | Joining => 3 | Joined => 2 | Waiting => 1 | Freed => 0 end.
Definition rank (s : tcp_server) : nat :=
  (accept_rank (t_accept s) + sum_list_with conn_rank (t_conns s) + stop_rank (t_stopper s))%nat.

Lemma thread_step_rank s s' : tcp_inv s -> t_stop s = true -> thread_step s s' ->
  (rank s' < rank s)%nat /\ t_stop s' = true /\ tcp_inv s'.
Proof.
  intros Hinv Hst [Hne Hs]. destruct s as [lfd fds active accepted rejected stop pc conns stopper open other shut fin].
  cbn in Hst. subst stop. destruct Hs as [(ev & mem & Hev & ->)|[(l1 & c & l2 & Hl & _ & ->)| ->]].
  - split; [|split; [|by apply accept_step_inv]]; unfold accept_step, rank in *; destruct pc; repeat case_match; cbn in *; try done; try lia.
  - split; [|split; [|by apply conn_step_inv]]; cbn in Hl; subst conns; unfold rank; destruct c; cbn; rewrite ?sum_list_with_app; cbn; try done; lia.
  - split; [|split; [|by apply stop_step_inv]]; unfold stop_step, rank in *; destruct stopper; repeat case_match; cbn in *; try done; lia.
Qed.

Lemma other_steps_keep s s' : rtc other_step s s' -> tcp_inv s ->
  tcp_inv s' /\ (rank s' <= rank s)%nat /\ t_stop s' = t_stop s /\ t_stopper s' = t_stopper s.
Proof.
  induction 1 as [s|s s1 s2 Hstep _ IH]; intros Hinv; [done|].
  assert (tcp_inv s1 /\ (rank s1 <= rank s)%nat /\ t_stop s1 = t_stop s /\ t_stopper s1 = t_stopper s) as (Hinv1 & Hr & <- & <-).
  { destruct Hstep as [(fd & [(Hfd & Hnew & ->)|(Hin & Hne & ->)])|(l1 & slot & fd & l2 & Hl & ->)].
    - split; [by apply other_step_inv|by destruct s].
    - split; [by apply other_step_inv|by destruct s].
    - split; [by apply conn_step_inv|]. destruct s. cbn in Hl. subst. split_and!; try done.
      unfold rank. cbn. rewrite !sum_list_with_app. cbn. lia. }
  destruct (IH Hinv1) as (? & ? & ? & ?). split_and!; try done. lia.
Qed.

(** Unless the server is freed, a thread can move. *)
Lemma thread_can_move s : tcp_inv s -> t_stop s = true -> t_stopper s <> Freed -> exists s', thread_step s s'.
Proof.
  intros Hinv Hst Hf. pose proof Hinv as [_ Ha _ Hj Hsh _ _ Hst']. destruct s as [lfd fds active accepted rejected stop pc conns stopper open other shut fin].
  cbn in Hst, Hf, Ha, Hj, Hsh, Hst'. subst stop. destruct (decide (stopper = Joining)) as [->|Hnj].
  - destruct pc; try (eexists; split; [|left; exists None, true; split; [by intros ? [=]|reflexivity]]; unfold accept_step; repeat case_match; done).
    eexists. split; [|by right; right]. done.
  - assert (stopper <> NotCalled) as Hnc by by apply Hst'. assert (pc = Returned) as -> by (apply Hj; destruct stopper; set_solver).
    destruct stopper; try done; [eexists; split; [|by right; right]; done|]. cbn in Ha. rewrite Z.add_0_r in Ha.
    destruct conns as [|c conns].
    + eexists. split; [|by right; right]. cbn. rewrite Ha. done.
    + eexists. split; [|right; left; exists [], c, conns; split; [done|]; split; [|reflexivity]].
      * destruct c; cbn; [done|]. intros [= E1 E2 E3]. lia.
      * destruct c as [slot fd|]; [|done]. apply (Hsh ltac:(set_solver) slot). by left.
Qed.

(** C23: once [dns_tcp_server_stop] has set [stop], it completes under every
    scheduling of the accept thread, the connection threads and itself, even if
    no client ever leaves: as long as the server is not freed one of them can
    move, and after finitely many moves it is freed. A connection thread in
    its loop is counted on to leave it only when its descriptor was shut down
    (a blocked [recv] or [send] then returns); that the scan of [stop] reaches
    every such thread is part of what is proved. *)
Theorem stop_completes c open open' s0 s : dns_tcp_server_start c open = (Some s0, open') -> rtc tcp_step s0 s ->
  t_stop s = true -> surely_freed s.
Proof.
  intros H0%start_inv_Some Hr. pose proof (tcp_reach_inv _ _ Hr H0) as Hinv. clear - Hinv.
  remember (rank s) as n eqn:Hn. revert s Hn Hinv. induction n as [n IH] using lt_wf_ind. intros s -> Hinv Hst.
  destruct (decide (t_stopper s = Freed)) as [Hf|Hf]; [by apply freed_now|]. apply freed_later.
  - by apply thread_can_move.
  - intros s' (s1 & Ho & Ht). destruct (other_steps_keep _ _ Ho Hinv) as (Hinv1 & Hr1 & Hst1 & _).
    destruct (thread_step_rank s1 s' Hinv1 ltac:(congruence) Ht) as (Hlt & Hst' & Hinv'). eapply IH; [|done..]. lia.
Qed.

Lemma stop_completes_witness :
  surely_freed (Tcp 4 (5 :: replicate 127 EMPTY) 1 1 0 true LoopHead [Serving 0 5] Joining {[5; 4; 3]} {[4; 3]} [] 0).
Proof.
  apply (stop_completes (StartCalls true 4 0 0 0) {[3]} {[4; 3]} (started 4 {[3]})); [reflexivity| |reflexivity].
  eapply rtc_l; [by apply (step_accept None true)|].
  eapply rtc_l; [apply (step_accept (Some 5) true); intros fd [= <-]; split; [lia|set_solver]|].
  do 4 (eapply rtc_l; [by apply (step_accept None true)|]).
  eapply rtc_l; [apply step_stop|]. apply rtc_refl.
Defined.
