(* ===== verification/XskRing.v ===== *)
(** * The rings of AF_XDP, as libxdp gives them to the program

    The program reaches the four rings it shares with the kernel only through
    functions of libxdp, which is not part of this repository. [Rings] has these
    functions as parameters, and [RingLaws] what their documentation promises:
    a producer ring hands out free entries, which become visible to the kernel
    when they are submitted; a consumer ring shows the oldest entries, which
    leave it when they are released. The other end of each ring is the
    kernel's. Rings that are plain lists are an instance. *)

From stdpp Require Import prelude list.
From Stdlib Require Import ZArith Lia.
From S2P Require Import Prelude.

Local Open Scope Z_scope.

(** The functions return the ring they leave behind, with the indices they
    cache. *)
Class Rings (P C : Type -> Type) := {
  (** [xsk_prod_nb_free(r, nb)] *)
  prod_nb_free : forall {A}, P A -> Z -> Z * P A;
  (** [xsk_ring_prod__reserve(r, nb, &idx)]: the number reserved, and [idx] *)
  prod_reserve : forall {A}, P A -> Z -> Z * Z * P A;
  (** a store through [xsk_ring_prod__fill_addr] or [xsk_ring_prod__tx_desc] *)
  prod_write : forall {A}, P A -> Z -> A -> P A;
  (** [xsk_ring_prod__submit(r, nb)] *)
  prod_submit : forall {A}, P A -> Z -> P A;
  (** [xsk_ring_cons__peek(r, nb, &idx)]: the number of entries, and [idx] *)
  cons_peek : forall {A}, C A -> Z -> Z * Z * C A;
  (** a load through [xsk_ring_cons__rx_desc] or [xsk_ring_cons__comp_addr] *)
  cons_read : forall {A}, C A -> Z -> option A;
  (** [xsk_ring_cons__release(r, nb)] *)
  cons_release : forall {A}, C A -> Z -> C A;
  (** [xsk_umem__extract_addr(addr)] *)
  extract_addr : Z -> Z;
  (** The kernel takes the oldest submitted entry, and adds an entry. *)
  kern_take : forall {A}, P A -> option (A * P A);
  kern_put : forall {A}, C A -> A -> option (C A)
}.

(** Entries written at consecutive indices. *)
Fixpoint write_from `{Rings P C} {A} (r : P A) (idx : Z) (xs : list A) : P A :=
  match xs with
  | [] => r
  | x :: xs' => write_from (prod_write r idx x) (u32 (idx + 1)) xs'
  end.

(** Entries read at consecutive indices. *)
Fixpoint reads_from `{Rings P C} {A} (r : C A) (idx : Z) (xs : list A) : Prop :=
  match xs with
  | [] => True
  | x :: xs' => cons_read r idx = Some x /\ reads_from r (u32 (idx + 1)) xs'
  end.

Class RingLaws (P C : Type -> Type) `{Rings P C} := {
  (** Submitted and not taken by the kernel yet, and the ring's size. *)
  prod_items : forall {A}, P A -> list A;
  prod_size : forall {A}, P A -> Z;
  (** Put by the kernel and not released yet. A put counts from the time at
      which the consumer's cached producer index covers it: libxdp may peek
      fewer entries than are in shared memory. *)
  cons_items : forall {A}, C A -> list A;
  nb_free_law : forall A (r : P A) n, zlen (prod_items r) <= prod_size r ->
    let '(m, r') := prod_nb_free r n in
    prod_items r' = prod_items r /\ prod_size r' = prod_size r /\
    0 <= m <= prod_size r - zlen (prod_items r) /\ (m < n -> m = prod_size r - zlen (prod_items r));
  reserve_law : forall A (r : P A) n, 0 <= n <= prod_size r - zlen (prod_items r) ->
    exists idx r', prod_reserve r n = (n, idx, r') /\
      forall xs, zlen xs = n -> let r2 := prod_submit (write_from r' idx xs) n in
        prod_items r2 = prod_items r ++ xs /\ prod_size r2 = prod_size r;
  peek_law : forall A (r : C A) n, 0 <= n < 2 ^ 32 ->
    exists idx r', cons_peek r n = (Z.min n (zlen (cons_items r)), idx, r') /\
      cons_items r' = cons_items r /\ reads_from r' idx (ztake n (cons_items r)) /\
      cons_items (cons_release r' (Z.min n (zlen (cons_items r)))) = zdrop n (cons_items r);
  extract_law : forall a, 0 <= a < 2 ^ 48 -> extract_addr a = a;
  take_law : forall A (r r' : P A) x, kern_take r = Some (x, r') ->
    prod_items r = x :: prod_items r' /\ prod_size r' = prod_size r;
  put_law : forall A (r r' : C A) x, kern_put r x = Some r' -> cons_items r' = cons_items r ++ [x]
}.

(** ** Rings as lists *)

(** A producer ring: its size, the entries submitted, and those written since
    the last reservation. *)
Record list_prod (A : Type) := ListProd {
  lp_size : Z;
  lp_items : list A;
  lp_written : list A
}.
Arguments ListProd {A}.
Arguments lp_size {A}.
Arguments lp_items {A}.
Arguments lp_written {A}.

#[global] Instance list_rings : Rings list_prod list := {
  prod_nb_free A r n := (lp_size r - zlen (lp_items r), r);
  prod_reserve A r n :=
    if n <=? lp_size r - zlen (lp_items r) then (n, 0, ListProd (lp_size r) (lp_items r) []) else (0, 0, r);
  prod_write A r idx x := ListProd (lp_size r) (lp_items r) (lp_written r ++ [x]);
  prod_submit A r n := ListProd (lp_size r) (lp_items r ++ lp_written r) [];
  cons_peek A r n := (Z.min n (zlen r), 0, r);
  cons_read A r idx := r !! Z.to_nat idx;
  cons_release A r n := zdrop n r;
  extract_addr a := a mod 2 ^ 48;
  kern_take A r := match lp_items r with [] => None | x :: xs => Some (x, ListProd (lp_size r) xs (lp_written r)) end;
  kern_put A r x := Some (r ++ [x])
}.

Lemma list_write_from {A} (xs : list A) : forall r idx,
  write_from r idx xs = ListProd (lp_size r) (lp_items r) (lp_written r ++ xs).
Proof.
  induction xs as [|x xs IH]; intros r idx; cbn [write_from].
  - rewrite app_nil_r. by destruct r.
  - rewrite IH. cbn. by rewrite <- app_assoc.
Qed.

Lemma list_reads_from {A} (xs r : list A) : forall n, 0 <= n -> n + zlen xs < 2 ^ 32 -> xs `prefix_of` zdrop n r ->
  reads_from r n xs.
Proof.
  induction xs as [|x xs IH]; intros n Hn Hr [k Hk]; cbn [reads_from]; [done|].
  assert (r !! Z.to_nat n = Some x) as Hx.
  { replace (Z.to_nat n) with (Z.to_nat n + 0)%nat by lia. unfold zdrop in Hk. rewrite <- lookup_drop, Hk. done. }
  rewrite zlen_cons in Hr. pose proof (zlen_nonneg xs). split; [done|]. unfold u32. rewrite Z.mod_small by lia.
  apply IH; [lia..|]. exists k. apply lookup_zdrop_0 in Hx; [|done]. rewrite Hx in Hk. by injection Hk.
Qed.

#[global] Instance list_ring_laws : RingLaws list_prod list.
Proof.
  refine {| prod_items A r := lp_items r; prod_size A r := lp_size r; cons_items A r := r |}.
  - intros A r n Hle. cbn. split_and!; try done; lia.
  - intros A r n Hn. cbn. rewrite (proj2 (Z.leb_le _ _)) by lia. do 2 eexists. split; [done|]. intros xs Hxs.
    by rewrite list_write_from.
  - intros A r n Hn. exists 0, r. split_and!; [done..| |].
    + apply list_reads_from; [lia|rewrite zlen_ztake_min by lia; pose proof (zlen_nonneg r); lia|].
      exists (zdrop n r). symmetry. apply ztake_zdrop.
    + cbn. destruct (Z.min_spec n (zlen r)) as [[_ ->]|[Hge ->]]; [done|]. by rewrite !zdrop_all by lia.
  - intros a Ha. cbn. by apply Z.mod_small.
  - intros A [size items written] r' x. cbn. destruct items; [done|]. by intros [= <- <-].
  - intros A r r' x. cbn. by intros [= <-].
Defined.
