(* ===== verification/XskLoop.v ===== *)
(** * The packet loop (src/af_xdp_user.c, src/xsk_setup.h, src/xsk_setup.c)

    The frame allocator, the seeding of the pool, and the functions of the loop
    thread: [drain_rx] with [refill_fq], [drain_done_and_tx], [reclaim_tx], over
    any rings with the laws of XskRing.v. The kernel's side of the rings is a
    step relation: it fills frames of the fill ring with packets and sends those
    of the TX ring. *)

From stdpp Require Import prelude list gmap.
From Stdlib Require Import ZArith Lia.
From S2P Require Import Prelude DnsName DnsParse XdpKern XdpFrame XskRing.

Local Open Scope Z_scope.

Definition NUM_FRAMES : Z := 4096.
Definition INVALID_UMEM_FRAME : Z := 2 ^ 64 - 1.
Definition FILL_RING_FRAMES : Z := NUM_FRAMES / 2.
Definition RX_BATCH_SIZE : Z := 64.
Definition TX_BATCH_SIZE : Z := 64.
Definition MAX_PENDING : Z := 4096.

(** ** The frame allocator *)

(** [umem_frame_addr] and [umem_frame_free] *)
Record frame_pool := Pool {
  fp_addr : list Z;
  fp_free : Z
}.

Definition xsk_alloc_frame (p : frame_pool) : res (Z * frame_pool) :=
  if fp_free p =? 0 then Ok (INVALID_UMEM_FRAME, p) else
  let free := u32 (fp_free p - 1) in
  frame ← get8 (fp_addr p) free;
  addr ← put8 (fp_addr p) free INVALID_UMEM_FRAME;
  Ok (frame, Pool addr free).

(** A failing assertion is a fault. *)
Definition xsk_free_frame (p : frame_pool) (frame : Z) : res frame_pool :=
  if fp_free p <? NUM_FRAMES then
    addr ← put8 (fp_addr p) (fp_free p) frame;
    Ok (Pool addr (u32 (fp_free p + 1)))
  else Fault.

Definition xsk_free_frame_count (p : frame_pool) : Z := fp_free p.

(** [for (i = 0; i < NUM_FRAMES; i++) umem_frame_addr[i] = i * FRAME_SIZE] *)
Definition all_frames : list Z := (fun i => Z.of_nat i * FRAME_SIZE) <$> seq 0 (Z.to_nat NUM_FRAMES).
Definition seeded_pool : frame_pool := Pool all_frames NUM_FRAMES.

(** ** The socket *)

Record xsk_stats := XskStats {
  rx_packets : Z;
  rx_bytes : Z;
  tx_packets : Z;
  tx_bytes : Z;
  rx_dropped : Z;
  tx_no_slot : Z;
  tx_no_frame : Z;
  queue_full : Z
}.

Definition count_rx (s : xsk_stats) (len dropped full : Z) : xsk_stats :=
  XskStats (u64 (rx_packets s + 1)) (u64 (rx_bytes s + len)) (tx_packets s) (tx_bytes s)
    (u64 (rx_dropped s + dropped)) (tx_no_slot s) (tx_no_frame s) (u64 (queue_full s + full)).
Definition count_tx (s : xsk_stats) (len : Z) : xsk_stats :=
  XskStats (rx_packets s) (rx_bytes s) (u64 (tx_packets s + 1)) (u64 (tx_bytes s + len)) (rx_dropped s)
    (tx_no_slot s) (tx_no_frame s) (queue_full s).
Definition count_unsent (s : xsk_stats) (no_slot no_frame : Z) : xsk_stats :=
  XskStats (rx_packets s) (rx_bytes s) (tx_packets s) (tx_bytes s) (rx_dropped s)
    (u64 (tx_no_slot s + no_slot)) (u64 (tx_no_frame s + no_frame)) (queue_full s).

(** The pending queue, by value: its jobs, and whether it takes more. *)
Record pending := Pending {
  p_jobs : list dns_job;
  p_open : bool
}.

Definition push_pending (q : pending) (job : dns_job) : pending * bool :=
  if p_open q && (zlen (p_jobs q) <? MAX_PENDING) then (Pending (p_jobs q ++ [job]) true, true) else (q, false).

(** The jobs that fit in a batch of [room], without those that have no usable
    response, and the rest of the list. *)
Fixpoint take_batch (jobs : list dns_job) (room : nat) : list dns_job * list dns_job :=
  match jobs, room with
  | job :: jobs', S room' =>
      if (j_resp_len job =? 0) || (DNS_MAX_MSG_LEN <? j_resp_len job) then take_batch jobs' room
      else let '(batch, rest) := take_batch jobs' room' in (job :: batch, rest)
  | _, _ => ([], jobs)
  end.

Section loop.
Context {P C : Type -> Type} `{Rings P C}.

(** [struct xsk_socket_info] with the rings of its UMEM and the UMEM's frames,
    by their addresses. *)
Record xsk_socket_info := Xsk {
  x_rx : C (Z * Z);
  x_tx : P (Z * Z);
  x_fq : P Z;
  x_cq : C Z;
  x_pool : frame_pool;
  x_outstanding : Z;
  x_buffer : gmap Z (list Z);
  x_stats : xsk_stats
}.

Definition set_pool (x : xsk_socket_info) (p : frame_pool) : xsk_socket_info :=
  Xsk (x_rx x) (x_tx x) (x_fq x) (x_cq x) p (x_outstanding x) (x_buffer x) (x_stats x).
Definition set_fq (x : xsk_socket_info) (fq : P Z) (p : frame_pool) : xsk_socket_info :=
  Xsk (x_rx x) (x_tx x) fq (x_cq x) p (x_outstanding x) (x_buffer x) (x_stats x).
Definition set_rx (x : xsk_socket_info) (rx : C (Z * Z)) : xsk_socket_info :=
  Xsk rx (x_tx x) (x_fq x) (x_cq x) (x_pool x) (x_outstanding x) (x_buffer x) (x_stats x).
Definition set_cq (x : xsk_socket_info) (cq : C Z) (p : frame_pool) (outstanding : Z) : xsk_socket_info :=
  Xsk (x_rx x) (x_tx x) (x_fq x) cq p outstanding (x_buffer x) (x_stats x).
Definition set_tx (x : xsk_socket_info) (tx : P (Z * Z)) (outstanding : Z) : xsk_socket_info :=
  Xsk (x_rx x) tx (x_fq x) (x_cq x) (x_pool x) outstanding (x_buffer x) (x_stats x).
Definition set_stats (x : xsk_socket_info) (s : xsk_stats) : xsk_socket_info :=
  Xsk (x_rx x) (x_tx x) (x_fq x) (x_cq x) (x_pool x) (x_outstanding x) (x_buffer x) s.

Definition xsk_frame_base (addr : Z) : Z := Z.land (extract_addr addr) (u64 (Z.lnot (FRAME_SIZE - 1))).

(** The [len] bytes at [xsk_umem__get_data(buffer, addr)], which must lie in one
    frame. *)
Definition umem_read (buffer : gmap Z (list Z)) (addr len : Z) : res (list Z) :=
  let base := addr / FRAME_SIZE * FRAME_SIZE in
  match buffer !! base with
  | Some f => get_slice f (addr - base) len
  | None => Fault
  end.

(** *** Filling *)

(** [n] times [*xsk_ring_prod__fill_addr(&fq, idx++) = xsk_alloc_frame(xsk)] *)
Fixpoint fill_loop (n : nat) (fq : P Z) (idx : Z) (p : frame_pool) : res (P Z * frame_pool) :=
  match n with
  | O => Ok (fq, p)
  | S n' =>
      '(frame, p') ← xsk_alloc_frame p;
      fill_loop n' (prod_write fq idx frame) (u32 (idx + 1)) p'
  end.

Definition refill_fq (x : xsk_socket_info) (n : Z) : res xsk_socket_info :=
  let '(avail, fq) := prod_nb_free (x_fq x) n in
  let x := set_fq x fq (x_pool x) in
  let n := if avail <? n then avail else n in
  let n := if xsk_free_frame_count (x_pool x) <? n then xsk_free_frame_count (x_pool x) else n in
  if n =? 0 then Ok x else
  let '(k, idx, fq) := prod_reserve (x_fq x) n in
  if negb (k =? n) then Ok (set_fq x fq (x_pool x)) else
  '(fq, p) ← fill_loop (Z.to_nat n) fq idx (x_pool x);
  Ok (set_fq x (prod_submit fq n) p).

(** The end of [xsk_env_setup_socket], with the rings that libxdp has created;
    its error return is [Fail]. *)
Definition xsk_prime (x : xsk_socket_info) : res xsk_socket_info :=
  let x := set_pool x seeded_pool in
  let '(k, idx, fq) := prod_reserve (x_fq x) FILL_RING_FRAMES in
  if negb (k =? FILL_RING_FRAMES) then Fail else
  '(fq, p) ← fill_loop (Z.to_nat FILL_RING_FRAMES) fq idx (x_pool x);
  Ok (set_fq x (prod_submit fq FILL_RING_FRAMES) p).

(** *** Receiving *)

(** The loop of [drain_rx] over [n] descriptors. [env] gives what [malloc] and
    [now_ns] return for each of them. *)
Fixpoint rx_loop (n : nat) (env : nat -> option (list Z) * Z) (loop_idx idx : Z) (x : xsk_socket_info) (q : pending)
    : res (xsk_socket_info * pending) :=
  match n with
  | O => Ok (x, q)
  | S n' =>
      match cons_read (x_rx x) idx with
      | None => Fault
      | Some (addr, len) =>
          pkt ← umem_read (x_buffer x) addr len;
          job ← parse_frame (env 0%nat).1 (env 0%nat).2 pkt loop_idx;
          let '(q', dropped, full) :=
            match job with
            | None => (q, 1, 0)
            | Some job => let '(q', ok) := push_pending q job in (q', 0, if ok then 0 else 1)
            end in
          p ← xsk_free_frame (x_pool x) (xsk_frame_base addr);
          rx_loop n' (fun i => env (S i)) loop_idx (u32 (idx + 1))
            (set_pool (set_stats x (count_rx (x_stats x) len dropped full)) p) q'
      end
  end.

Definition drain_rx (env : nat -> option (list Z) * Z) (loop_idx : Z) (x : xsk_socket_info) (q : pending)
    : res (xsk_socket_info * pending) :=
  let '(rcvd, idx, rx) := cons_peek (x_rx x) RX_BATCH_SIZE in
  let x := set_rx x rx in
  if rcvd =? 0 then Ok (x, q) else
  '(x, q) ← rx_loop (Z.to_nat rcvd) env loop_idx idx x q;
  x ← refill_fq (set_rx x (cons_release (x_rx x) rcvd)) rcvd;
  Ok (x, q).

(** *** Sending *)

(** The loop that builds a frame for each of the jobs. *)
Fixpoint tx_loop (jobs : list dns_job) (idx : Z) (x : xsk_socket_info) : res xsk_socket_info :=
  match jobs with
  | [] => Ok x
  | job :: jobs' =>
      '(frame, p) ← xsk_alloc_frame (x_pool x);
      match x_buffer x !! frame with
      | None => Fault
      | Some buf =>
          '(buf', len) ← build_response_frame buf job;
          tx_loop jobs' (u32 (idx + 1))
            (Xsk (x_rx x) (prod_write (x_tx x) idx (frame, len)) (x_fq x) (x_cq x) p (x_outstanding x)
               (<[frame := buf']> (x_buffer x)) (count_tx (x_stats x) len))
      end
  end.

(** The first [want] jobs of a batch, in as many slots, if they can be reserved. *)
Definition tx_send (want : Z) (batch : list dns_job) (x : xsk_socket_info) : res xsk_socket_info :=
  let '(k, idx, tx) := prod_reserve (x_tx x) want in
  let x := set_tx x tx (x_outstanding x) in
  if negb (k =? want) then Ok x else
  x ← tx_loop (ztake want batch) idx x;
  Ok (set_tx x (prod_submit (x_tx x) want) (u32 (x_outstanding x + want))).

(** One batch: what is beyond the free slots and the free frames is dropped. *)
Definition tx_batch (batch : list dns_job) (x : xsk_socket_info) : res xsk_socket_info :=
  let want := zlen batch in
  let '(slots, tx) := prod_nb_free (x_tx x) want in
  let x := set_tx x tx (x_outstanding x) in
  let '(want, no_slot) := if slots <? want then (slots, want - slots) else (want, 0) in
  let free := xsk_free_frame_count (x_pool x) in
  let '(want, no_frame) := if free <? want then (free, want - free) else (want, 0) in
  let x := set_stats x (count_unsent (x_stats x) no_slot no_frame) in
  if want =? 0 then Ok x else tx_send want batch x.

(** The outer loop over the drained list. Every round takes a job from it. *)
Fixpoint tx_rounds (fuel : nat) (jobs : list dns_job) (x : xsk_socket_info) : res xsk_socket_info :=
  match jobs with
  | [] => Ok x
  | _ =>
      match fuel with
      | O => Diverge
      | S fuel' =>
          let '(batch, rest) := take_batch jobs (Z.to_nat TX_BATCH_SIZE) in
          if zlen batch =? 0 then tx_rounds fuel' rest x else
          x ← tx_batch batch x;
          tx_rounds fuel' rest x
      end
  end.

(** [jobs] is the list [queue_drain] has detached. *)
Definition drain_done_and_tx (jobs : list dns_job) (x : xsk_socket_info) : res xsk_socket_info :=
  tx_rounds (length jobs) jobs x.

(** The loop of [reclaim_tx] over [n] completions. *)
Fixpoint reclaim_loop (n : nat) (cq : C Z) (idx : Z) (p : frame_pool) : res frame_pool :=
  match n with
  | O => Ok p
  | S n' =>
      match cons_read cq idx with
      | None => Fault
      | Some addr =>
          p' ← xsk_free_frame p (xsk_frame_base addr);
          reclaim_loop n' cq (u32 (idx + 1)) p'
      end
  end.

Definition reclaim_tx (x : xsk_socket_info) : res xsk_socket_info :=
  if x_outstanding x =? 0 then Ok x else
  let '(completed, idx, cq) := cons_peek (x_cq x) TX_BATCH_SIZE in
  let x := set_cq x cq (x_pool x) (x_outstanding x) in
  if completed =? 0 then Ok x else
  p ← reclaim_loop (Z.to_nat completed) (x_cq x) idx (x_pool x);
  Ok (set_cq x (cons_release (x_cq x) completed) p
    (u32 (x_outstanding x - (if completed <? x_outstanding x then completed else x_outstanding x)))).
End loop.

(** ** Lemmas: the allocator *)

(** The free frames, the last freed at the end. *)
Definition pool_is (p : frame_pool) (l : list Z) : Prop :=
  fp_free p = zlen l /\ zlen (fp_addr p) = NUM_FRAMES /\ l `prefix_of` fp_addr p.

Lemma pool_alloc p l a : pool_is p (l ++ [a]) -> exists p', xsk_alloc_frame p = Ok (a, p') /\ pool_is p' l.
Proof.
  intros (Hf & Hn & k & Hk). unfold xsk_alloc_frame. rewrite Hf, zlen_app, zlen_cons, zlen_nil.
  pose proof (zlen_nonneg l). rewrite (proj2 (Z.eqb_neq _ _)) by lia.
  assert (zlen l + (1 + 0) + zlen k = NUM_FRAMES) as Hlen by (rewrite <- Hn, Hk; zl). unfold NUM_FRAMES in Hlen.
  assert (u32 (zlen l + (1 + 0) - 1) = zlen l + 0) as -> by (unfold u32; rewrite Z.mod_small; zl). rewrite Hk, <- app_assoc.
  rewrite get8_app_r by lia. cbn [app]. rewrite get8_cons_0, Ok_bind. rewrite put8_Ok by zl. rewrite Ok_bind. eexists. split; [done|].
  rewrite Z.add_0_r, ztake_app_eq by done. split_and!; cbn [fp_free fp_addr]; [done| |by eexists].
  rewrite (zdrop_app_add 1 l (a :: k)) by lia. change (zdrop 1 (a :: k)) with k. zl. unfold NUM_FRAMES. lia.
Qed.

Lemma pool_free p l a : pool_is p l -> zlen l < NUM_FRAMES -> exists p', xsk_free_frame p a = Ok p' /\ pool_is p' (l ++ [a]).
Proof.
  intros (Hf & Hn & k & Hk) Hlt. unfold xsk_free_frame. rewrite Hf, (proj2 (Z.ltb_lt _ _)) by lia. pose proof (zlen_nonneg l).
  rewrite put8_Ok by lia. rewrite Ok_bind. eexists. split; [done|]. destruct k as [|b k]; [rewrite Hk, app_nil_r in Hn; lia|].
  rewrite Hk, ztake_app_eq by done. rewrite (zdrop_app_add 1 l (b :: k)) by lia. change (zdrop 1 (b :: k)) with k.
  split_and!; cbn [fp_free fp_addr].
  - unfold u32. rewrite Z.mod_small by (unfold NUM_FRAMES in *; lia). zl.
  - rewrite <- Hn, Hk. zl.
  - exists k. by rewrite <- app_assoc.
Qed.

Lemma all_frames_spec a : a ∈ all_frames <-> exists i, 0 <= i < NUM_FRAMES /\ a = i * FRAME_SIZE.
Proof.
  unfold all_frames, NUM_FRAMES. rewrite list_elem_of_fmap. split.
  - intros (i & -> & Hi%elem_of_seq). exists (Z.of_nat i). split; [lia|done].
  - intros (i & Hi & ->). exists (Z.to_nat i). split; [by rewrite Z2Nat.id by lia|]. apply elem_of_seq. lia.
Qed.

Lemma zlen_all_frames : zlen all_frames = NUM_FRAMES.
Proof. unfold all_frames. rewrite zlen_fmap. unfold zlen. rewrite length_seq. done. Qed.

Lemma NoDup_all_frames : NoDup all_frames.
Proof.
  unfold all_frames. apply NoDup_fmap_2_strong; [|apply NoDup_ListNoDup, seq_NoDup]. intros i j _ _. unfold FRAME_SIZE. lia.
Qed.

Lemma seeded_pool_is : pool_is seeded_pool all_frames.
Proof. split_and!; cbn [seeded_pool fp_free fp_addr]; [by rewrite zlen_all_frames|apply zlen_all_frames|done]. Qed.

Section loop_lemmas.
Context {P C : Type -> Type} `{RingLaws P C}.
Implicit Types x : xsk_socket_info (P := P) (C := C).

(** The frame an address lies in. *)
Definition base_of (addr : Z) : Z := addr / FRAME_SIZE * FRAME_SIZE.

Lemma frame_base_of addr : 0 <= addr < 2 ^ 48 -> xsk_frame_base addr = base_of addr.
Proof.
  intros Ha. unfold xsk_frame_base, base_of. rewrite extract_law by done. unfold FRAME_SIZE.
  change (u64 (Z.lnot (4096 - 1))) with (Z.shiftl (Z.ones 52) 12). apply Z.bits_inj'. intros n Hn.
  rewrite Z.land_spec, Z.shiftl_spec by done. change 4096 with (2 ^ 12). destruct (Z_lt_le_dec n 12) as [Hlt|Hge].
  - rewrite (Z.testbit_neg_r (Z.ones 52)), Z.mul_pow2_bits_low by lia. apply andb_false_r.
  - rewrite Z.mul_pow2_bits, Z.div_pow2_bits by lia. replace (n - 12 + 12) with n by lia.
    destruct (Z_lt_le_dec n 48) as [Hn'|Hn']; [rewrite Z.ones_spec_low by lia; apply andb_true_r|].
    rewrite (Z.bits_above_log2 addr n); [done|lia|]. destruct (decide (addr = 0)) as [->|Hz]; [cbn; lia|].
    apply Z.log2_lt_pow2; [lia|]. apply (Z.lt_le_trans _ (2 ^ 48)); [lia|]. apply Z.pow_le_mono_r; lia.
Qed.

Lemma fill_loop_spec xs : forall (fq : P Z) idx p l, pool_is p (l ++ rev xs) ->
  exists p', fill_loop (length xs) fq idx p = Ok (write_from fq idx xs, p') /\ pool_is p' l.
Proof.
  induction xs as [|a xs IH]; intros fq idx p l Hp; cbn [length fill_loop write_from rev] in *.
  - rewrite app_nil_r in Hp. by exists p.
  - rewrite app_assoc in Hp. destruct (pool_alloc _ _ _ Hp) as (p1 & -> & Hp1). rewrite Ok_bind. by apply IH.
Qed.

Lemma refill_spec x xs l : pool_is (x_pool x) (l ++ rev xs) ->
  zlen xs + zlen (prod_items (x_fq x)) <= prod_size (x_fq x) ->
  exists fq p, refill_fq x (zlen xs) = Ok (set_fq x fq p) /\ pool_is p l /\
    prod_items fq = prod_items (x_fq x) ++ xs /\ prod_size fq = prod_size (x_fq x).
Proof.
  intros Hp Hroom. pose proof (zlen_nonneg xs). unfold refill_fq.
  assert (zlen (prod_items (x_fq x)) <= prod_size (x_fq x)) as Hle by lia.
  pose proof (nb_free_law _ (x_fq x) (zlen xs) Hle) as Hfree. destruct (prod_nb_free (x_fq x) (zlen xs)) as [m fq].
  destruct Hfree as (Hi & Hs & Hm & Hmn). assert (zlen xs <= m) by (destruct (Z_lt_le_dec m (zlen xs)); [rewrite Hmn; lia|done]).
  rewrite (proj2 (Z.ltb_ge m (zlen xs))) by lia. cbn [set_fq x_pool x_fq]. unfold xsk_free_frame_count.
  pose proof Hp as (Hf & _). rewrite Hf, zlen_app. assert (zlen (rev xs) = zlen xs) as -> by (unfold zlen; by rewrite length_rev).
  rewrite (proj2 (Z.ltb_ge _ _)) by zl. destruct (Z.eqb_spec (zlen xs) 0) as [Hz|Hz].
  { destruct xs; [|zl]. exists fq, (x_pool x). rewrite app_nil_r in *. done. }
  destruct (reserve_law _ fq (zlen xs)) as (idx & r' & -> & Hsub); [rewrite Hi, Hs; lia|]. rewrite Z.eqb_refl. cbn [negb].
  replace (Z.to_nat (zlen xs)) with (length xs) by (unfold zlen; lia). destruct (fill_loop_spec xs r' idx _ _ Hp) as (p' & -> & Hp'). rewrite Ok_bind.
  destruct (Hsub xs eq_refl) as [Hi2 Hs2]. eexists _, p'. split; [reflexivity|]. rewrite Hi2, Hs2, Hi, Hs. done.
Qed.

Lemma reclaim_loop_spec as_ : forall (cq : C Z) idx p l, reads_from cq idx as_ -> pool_is p l ->
  zlen l + zlen as_ <= NUM_FRAMES ->
  exists p', reclaim_loop (length as_) cq idx p = Ok p' /\ pool_is p' (l ++ (xsk_frame_base <$> as_)).
Proof.
  induction as_ as [|a as_ IH]; intros cq idx p l Hr Hp Hn; cbn [length reclaim_loop reads_from] in *.
  - exists p. by rewrite app_nil_r.
  - destruct Hr as [-> Hr]. rewrite zlen_cons in Hn. pose proof (zlen_nonneg as_).
    destruct (pool_free p l (xsk_frame_base a) Hp) as (p1 & -> & Hp1); [lia|]. rewrite Ok_bind.
    destruct (IH cq (u32 (idx + 1)) p1 _ Hr Hp1) as (p' & -> & Hp'); [zl|]. exists p'. split; [done|].
    by rewrite <- app_assoc in Hp'.
Qed.

(** A descriptor of the RX ring: inside of one frame, which holds bytes. *)
Definition desc_ok (buffer : gmap Z (list Z)) (d : Z * Z) : Prop :=
  0 <= d.1 < 2 ^ 48 /\ 0 <= d.2 /\ d.1 - base_of d.1 + d.2 <= FRAME_SIZE /\
  exists f, buffer !! base_of d.1 = Some f /\ zlen f = FRAME_SIZE /\ bytes f.

(** What [parse_frame] makes of the packets of the descriptors [ds]. *)
Fixpoint parsed (env : nat -> option (list Z) * Z) (loop_idx : Z) (buffer : gmap Z (list Z)) (ds : list (Z * Z))
    (rs : list (option dns_job)) : Prop :=
  match ds, rs with
  | [], [] => True
  | d :: ds', r :: rs' =>
      (exists pkt, umem_read buffer d.1 d.2 = Ok pkt /\ parse_frame (env 0%nat).1 (env 0%nat).2 pkt loop_idx = Ok r) /\
      parsed (fun i => env (S i)) loop_idx buffer ds' rs'
  | _, _ => False
  end.

Definition push_all (q : pending) (jobs : list dns_job) : pending := foldl (fun q job => (push_pending q job).1) q jobs.

Lemma umem_read_ok buffer d : desc_ok buffer d ->
  exists pkt, umem_read buffer d.1 d.2 = Ok pkt /\ bytes pkt /\ zlen pkt = d.2 /\ zlen pkt < 2 ^ 32.
Proof.
  intros (Ha & Hl & Hend & f & Hf & Hlen & Hb). unfold umem_read. fold (base_of d.1). rewrite Hf.
  assert (0 <= d.1 - base_of d.1) by (unfold base_of, FRAME_SIZE; Z.to_euclidean_division_equations; lia).
  rewrite get_slice_in_range by lia. eexists. split; [done|]. rewrite zlen_slice by lia. unfold FRAME_SIZE in *.
  split_and!; [by apply bytes_ztake, bytes_zdrop|done|lia].
Qed.

Lemma rx_loop_spec ds : forall env loop_idx idx x q l, reads_from (x_rx x) idx ds -> Forall (desc_ok (x_buffer x)) ds ->
  pool_is (x_pool x) l -> zlen l + zlen ds <= NUM_FRAMES ->
  exists s p rs, rx_loop (length ds) env loop_idx idx x q = Ok (set_pool (set_stats x s) p, push_all q (omap id rs)) /\
    pool_is p (l ++ (base_of <$> ds.*1)) /\ parsed env loop_idx (x_buffer x) ds rs.
Proof.
  induction ds as [|[addr len] ds IH]; intros env loop_idx idx x q l Hr Hd Hp Hn; cbn [length rx_loop reads_from] in *.
  - exists (x_stats x), (x_pool x), []. rewrite app_nil_r. by destruct x.
  - destruct Hr as [-> Hr]. apply Forall_cons in Hd as [Hd Hds]. rewrite zlen_cons in Hn. pose proof (zlen_nonneg ds).
    destruct (umem_read_ok _ _ Hd) as (pkt & Hpkt & Hb & _ & Hlt). cbn [fst snd] in Hpkt. rewrite Hpkt, Ok_bind.
    pose proof (parse_frame_sound (env 0%nat).1 (env 0%nat).2 pkt loop_idx Hb Hlt) as Hparse.
    destruct (parse_frame _ _ _ _) as [r| | |] eqn:Er; try done. rewrite Ok_bind.
    assert (exists dropped full, match r with
      | None => (q, 1, 0)
      | Some job => let '(q', ok) := push_pending q job in (q', 0, if ok then 0 else 1)
      end = (push_all q (omap id [r]), dropped, full)) as (dropped & full & ->).
    { destruct r as [job|]; [|by do 2 eexists]. unfold push_all. cbn. destruct (push_pending q job). by do 2 eexists. }
    destruct (pool_free _ _ (xsk_frame_base addr) Hp) as (p1 & -> & Hp1); [lia|]. rewrite Ok_bind.
    destruct Hd as (Ha & _). rewrite frame_base_of in Hp1 by done.
    destruct (IH (fun i => env (S i)) loop_idx (u32 (idx + 1)) (set_pool (set_stats x (count_rx (x_stats x) len dropped full)) p1)
      (push_all q (omap id [r])) _ Hr Hds Hp1) as (s & p & rs & -> & Hp' & Hps); [zl|].
    exists s, p, (r :: rs). split_and!; [|by rewrite <- app_assoc in Hp'|cbn; split; [|done]; by exists pkt].
    unfold push_all. rewrite <- foldl_app. destruct r; done.
Qed.

(** A frame that carries the response of a job. *)
Definition carries (buffer : gmap Z (list Z)) (job : dns_job) (d : Z * Z) : Prop :=
  exists old f, zlen old = FRAME_SIZE /\ build_response_frame old job = Ok (f, d.2) /\ buffer !! d.1 = Some f.

Definition frames_ok (buffer : gmap Z (list Z)) : Prop :=
  forall a, a ∈ all_frames -> exists f, buffer !! a = Some f /\ zlen f = FRAME_SIZE.

Lemma tx_loop_spec jobs : forall fs idx x l, pool_is (x_pool x) (l ++ rev fs) -> length fs = length jobs -> NoDup fs ->
  (forall a, a ∈ fs -> a ∈ all_frames) -> frames_ok (x_buffer x) -> Forall job_ok jobs ->
  exists p buffer s ds, tx_loop jobs idx x =
      Ok (Xsk (x_rx x) (write_from (x_tx x) idx ds) (x_fq x) (x_cq x) p (x_outstanding x) buffer s) /\
    pool_is p l /\ ds.*1 = fs /\ Forall2 (carries buffer) jobs ds /\ frames_ok buffer /\
    (forall a, a ∉ fs -> buffer !! a = x_buffer x !! a) /\
    tx_no_slot s = tx_no_slot (x_stats x) /\ tx_no_frame s = tx_no_frame (x_stats x).
Proof.
  induction jobs as [|job jobs IH]; intros [|a fs] idx x l Hp Hlen Hnd Hin Hfo Hj; try done; cbn [tx_loop rev] in *.
  - exists (x_pool x), (x_buffer x), (x_stats x), []. rewrite app_nil_r in Hp. cbn [write_from]. split_and!; try done.
    by destruct x.
  - rewrite app_assoc in Hp. destruct (pool_alloc _ _ _ Hp) as (p1 & -> & Hp1). rewrite Ok_bind.
    apply NoDup_cons in Hnd as [Hna Hnd]. apply Forall_cons in Hj as [Hj Hjs].
    assert (a ∈ all_frames) as Ha by (apply Hin; by left). destruct (Hfo a Ha) as (old & -> & Hold).
    destruct (build_frame_spec old job Hj) as (c & rest & Hbuild & _ & _ & Hfl).
    { destruct Hj as (_ & _ & _ & _ & _ & _ & _ & _ & _ & _ & Hn). rewrite Hold. unfold L2L3L4_HLEN, sizeof_ethhdr, sizeof_iphdr,
        sizeof_udphdr, FRAME_SIZE, DNS_MAX_MSG_LEN in *. lia. }
    rewrite Hbuild, Ok_bind. set (f := frame_bytes _ ++ rest) in *. set (len := L2L3L4_HLEN + j_resp_len job) in *.
    set (x1 := Xsk _ _ _ _ _ _ _ _).
    destruct (IH fs (u32 (idx + 1)) x1 l) as (p & buffer & s & ds & -> & Hp' & Hds & Hc & Hfo' & Hout & Hs1 & Hs2);
      [exact Hp1|by injection Hlen|exact Hnd|intros b Hb; apply Hin; by right| |exact Hjs|].
    { intros b Hb. cbn [x1 x_buffer]. destruct (decide (b = a)) as [->|Hne].
      - exists f. rewrite lookup_insert_eq. split; [done|]. by rewrite Hfl.
      - rewrite lookup_insert_ne by done. by apply Hfo. }
    cbn [x1 x_rx x_tx x_fq x_cq x_outstanding x_buffer] in *. exists p, buffer, s, ((a, len) :: ds). cbn [write_from].
    split_and!; [done|done|cbn; by rewrite Hds| |done| |done|done].
    + constructor; [|done]. exists old, f. split_and!; [done|done|]. cbn [fst]. rewrite (Hout a Hna). by rewrite lookup_insert_eq.
    + intros b [Hne Hb]%not_elem_of_cons. rewrite (Hout b Hb). by rewrite lookup_insert_ne.
Qed.
End loop_lemmas.
