(* ===== verification/XskFrames.v ===== *)
(** * Frames between the program and the kernel

    The packet loop of XskLoop.v together with the kernel's end of the rings. In
    every interleaving each of the 4096 frames is in exactly one place, half of
    them stay on the receiving side, and the loop's functions never fail. *)

From stdpp Require Import prelude list gmap.
From Stdlib Require Import ZArith Lia.
From S2P Require Import Prelude DnsName DnsParse XdpKern XdpFrame XskRing XskLoop.

Local Open Scope Z_scope.

(** The list of all frames is used through its lemmas only. *)
#[local] Opaque all_frames.

Section frames.
Context {P C : Type -> Type} `{RingLaws P C}.
Implicit Types x : xsk_socket_info (P := P) (C := C).

(** ** Steps *)

(** The socket, and the frames the kernel has taken from the fill ring and from
    the TX ring. *)
Record xdp_system := XdpSystem {
  y_xsk : xsk_socket_info (P := P) (C := C);
  y_krx : list Z;
  y_ktx : list (Z * Z)
}.

(** The kernel takes a frame for reception; receives a packet into a frame it
    has; takes a frame to send; reports one as sent. *)
Inductive kernel_step : xdp_system -> xdp_system -> Prop :=
| kernel_fill rx tx fq cq p n buffer s krx ktx a fq' :
    kern_take fq = Some (a, fq') ->
    kernel_step (XdpSystem (Xsk rx tx fq cq p n buffer s) krx ktx)
      (XdpSystem (Xsk rx tx fq' cq p n buffer s) (a :: krx) ktx)
| kernel_receive rx tx fq cq p n buffer s l1 a l2 ktx addr len f rx' :
    kern_put rx (addr, len) = Some rx' -> base_of addr = a -> 0 <= len -> addr - a + len <= FRAME_SIZE ->
    zlen f = FRAME_SIZE -> bytes f ->
    kernel_step (XdpSystem (Xsk rx tx fq cq p n buffer s) (l1 ++ a :: l2) ktx)
      (XdpSystem (Xsk rx' tx fq cq p n (<[a := f]> buffer) s) (l1 ++ l2) ktx)
| kernel_send rx tx fq cq p n buffer s krx ktx d tx' :
    kern_take tx = Some (d, tx') ->
    kernel_step (XdpSystem (Xsk rx tx fq cq p n buffer s) krx ktx)
      (XdpSystem (Xsk rx tx' fq cq p n buffer s) krx (d :: ktx))
| kernel_complete rx tx fq cq p n buffer s krx l1 d l2 cq' :
    kern_put cq d.1 = Some cq' ->
    kernel_step (XdpSystem (Xsk rx tx fq cq p n buffer s) krx (l1 ++ d :: l2))
      (XdpSystem (Xsk rx tx fq cq' p n buffer s) krx (l1 ++ l2)).

(** The kernel, or a function of the loop: [drain_rx] with any pending queue,
    [drain_done_and_tx] with any finished jobs, [reclaim_tx]. *)
Inductive loop_step : xdp_system -> xdp_system -> Prop :=
| step_kernel y y' : kernel_step y y' -> loop_step y y'
| step_drain_rx env loop_idx x q x' q' krx ktx : drain_rx env loop_idx x q = Ok (x', q') ->
    loop_step (XdpSystem x krx ktx) (XdpSystem x' krx ktx)
| step_drain_done jobs x x' krx ktx : Forall job_ok jobs -> drain_done_and_tx jobs x = Ok x' ->
    loop_step (XdpSystem x krx ktx) (XdpSystem x' krx ktx)
| step_reclaim x x' krx ktx : reclaim_tx x = Ok x' -> loop_step (XdpSystem x krx ktx) (XdpSystem x' krx ktx).

(** ** Invariant *)

Definition rx_descs x : list (Z * Z) := cons_items (x_rx x).
Definition tx_descs x : list (Z * Z) := prod_items (x_tx x).

(** All places of frames, [l] being those of the pool. *)
Definition places (l : list Z) (y : xdp_system) : list Z :=
  l ++ prod_items (x_fq (y_xsk y)) ++ y_krx y ++ (base_of <$> (rx_descs (y_xsk y)).*1) ++
  (tx_descs (y_xsk y)).*1 ++ (y_ktx y).*1 ++ cons_items (x_cq (y_xsk y)).

Record sys_inv (l : list Z) (y : xdp_system) : Prop := SysInv {
  si_pool : pool_is (x_pool (y_xsk y)) l;
  si_places : places l y ≡ₚ all_frames;
  si_rx_side : zlen (prod_items (x_fq (y_xsk y))) + zlen (y_krx y) + zlen (rx_descs (y_xsk y)) = FILL_RING_FRAMES;
  si_tx_side : x_outstanding (y_xsk y) = zlen (tx_descs (y_xsk y)) + zlen (y_ktx y) + zlen (cons_items (x_cq (y_xsk y)));
  si_fq_size : FILL_RING_FRAMES <= prod_size (x_fq (y_xsk y));
  si_tx_size : zlen (tx_descs (y_xsk y)) <= prod_size (x_tx (y_xsk y));
  si_buffer : frames_ok (x_buffer (y_xsk y));
  si_rx : Forall (desc_ok (x_buffer (y_xsk y))) (rx_descs (y_xsk y))
}.

(** ** Lemmas *)

Lemma frame_bounds a : a ∈ all_frames -> 0 <= a < 2 ^ 48 /\ base_of a = a.
Proof.
  intros (i & Hi & ->)%all_frames_spec. unfold NUM_FRAMES, base_of, FRAME_SIZE in *. rewrite Z.div_mul by lia. lia.
Qed.

Lemma places_in l y a : places l y ≡ₚ all_frames -> a ∈ places l y -> a ∈ all_frames.
Proof. by intros <-. Qed.

Lemma places_NoDup l y : places l y ≡ₚ all_frames -> NoDup (places l y).
Proof. intros ->. apply NoDup_all_frames. Qed.

Lemma places_length l y : places l y ≡ₚ all_frames -> zlen (places l y) = NUM_FRAMES.
Proof. intros Hp. rewrite <- zlen_all_frames. unfold zlen. by rewrite Hp. Qed.

(** Writes to frames that no descriptor of the RX ring has. *)
Lemma desc_ok_other buffer buffer' ds : (forall a, a ∈ base_of <$> ds.*1 -> buffer' !! a = buffer !! a) ->
  Forall (desc_ok buffer) ds -> Forall (desc_ok buffer') ds.
Proof.
  intros Hsame Hd. rewrite Forall_forall in *. intros d Hin. destruct (Hd d Hin) as (Ha & Hl & He & f & Hf & Hlen & Hb).
  split_and!; [lia..| |]; [done|]. exists f. split; [|done]. rewrite Hsame; [done|].
  by apply list_elem_of_fmap_2, list_elem_of_fmap_2.
Qed.

Lemma drain_rx_spec env loop_idx l x q krx ktx : sys_inv l (XdpSystem x krx ktx) ->
  let ds := ztake RX_BATCH_SIZE (rx_descs x) in
  exists rx fq p s rs, drain_rx env loop_idx x q =
      Ok (Xsk rx (x_tx x) fq (x_cq x) p (x_outstanding x) (x_buffer x) s, push_all q (omap id rs)) /\
    parsed env loop_idx (x_buffer x) ds rs /\ pool_is p l /\ cons_items rx = zdrop RX_BATCH_SIZE (rx_descs x) /\
    prod_items fq = prod_items (x_fq x) ++ rev (base_of <$> ds.*1) /\ prod_size fq = prod_size (x_fq x).
Proof.
  intros [Hp Hpl Hrs Hts Hfs Htz Hb Hrx] ds. cbn [y_xsk y_krx y_ktx] in *. unfold drain_rx.
  destruct (peek_law _ (x_rx x) RX_BATCH_SIZE) as (idx & rx & -> & Hi & Hr & Hrel); [done|]. fold (rx_descs x) in *.
  fold ds in Hr. assert (zlen ds = Z.min RX_BATCH_SIZE (zlen (rx_descs x))) as Hds by (apply zlen_ztake_min; done).
  rewrite <- Hds in *. pose proof (places_length _ _ Hpl) as Hlen. unfold places in Hlen. cbn [y_xsk y_krx y_ktx] in Hlen.
  destruct (Z.eqb_spec (zlen ds) 0) as [Hz|Hz].
  { assert (rx_descs x = []) as E1.
    { destruct (rx_descs x); [done|]. rewrite zlen_cons in Hds. pose proof (zlen_nonneg l0). unfold RX_BATCH_SIZE in *. lia. }
    exists rx, (x_fq x), (x_pool x), (x_stats x), []. unfold ds. rewrite E1 in Hi |- *. rewrite Hi, app_nil_r. by destruct x. }
  replace (Z.to_nat (zlen ds)) with (length ds) by (unfold zlen; lia).
  destruct (rx_loop_spec ds env loop_idx idx (set_rx x rx) q l) as (s & p & rs & -> & Hp' & Hps); [done| |done|zl|].
  { apply Forall_take, Hrx. }
  rewrite Ok_bind. set (x1 := set_rx _ _).
  destruct (refill_spec x1 (rev (base_of <$> ds.*1)) l) as (fq & p' & Hre & Hp'' & Hfi & Hfz).
  { rewrite rev_involutive. exact Hp'. }
  { cbn [x1 set_rx set_pool set_stats x_fq]. unfold zlen at 1. rewrite length_rev, !length_fmap. fold (zlen ds). zl. }
  assert (zlen (rev (base_of <$> ds.*1)) = zlen ds) as E1 by (unfold zlen; by rewrite length_rev, !length_fmap).
  rewrite E1 in Hre. rewrite Hre, Ok_bind. eexists (cons_release rx (zlen ds)), fq, p', s, rs. by split_and!.
Qed.

(** ** Reception *)

Lemma drain_rx_inv env loop_idx l x q krx ktx : sys_inv l (XdpSystem x krx ktx) ->
  returns (drain_rx env loop_idx x q) (fun '(x', _) => sys_inv l (XdpSystem x' krx ktx)).
Proof.
  intros Hinv. destruct (drain_rx_spec env loop_idx l x q krx ktx Hinv) as (rx & fq & p & s & rs & -> & _ & Hp & Hi & Hf & Hz).
  destruct Hinv as [_ Hpl Hrs Hts Hfs Htz Hb Hrx]. cbn [returns]. cbn [y_xsk y_krx y_ktx] in *. unfold rx_descs, tx_descs in *.
  split; cbn [y_xsk y_krx y_ktx x_pool x_rx x_fq x_tx x_cq x_buffer x_outstanding]; unfold rx_descs, tx_descs;
    cbn [x_rx x_tx]; rewrite ?Hi, ?Hf, ?Hz; try done.
  - rewrite <- Hpl. unfold places, rx_descs, tx_descs. cbn [y_xsk y_krx y_ktx x_fq x_rx x_tx x_cq]. rewrite Hi, Hf.
    rewrite <- (ztake_zdrop RX_BATCH_SIZE (cons_items (x_rx x))) at 3. rewrite !fmap_app. rewrite <- Permutation_rev. solve_Permutation.
  - rewrite <- Hrs. rewrite <- (ztake_zdrop RX_BATCH_SIZE (cons_items (x_rx x))) at 3. rewrite !zlen_app.
    assert (zlen (rev (base_of <$> (ztake RX_BATCH_SIZE (cons_items (x_rx x))).*1)) = zlen (ztake RX_BATCH_SIZE (cons_items (x_rx x)))) as ->
      by (unfold zlen; by rewrite length_rev, !length_fmap). lia.
  - by apply Forall_drop.
Qed.

(** ** Completions *)

Lemma reclaim_inv l x krx ktx : sys_inv l (XdpSystem x krx ktx) ->
  exists x', reclaim_tx x = Ok x' /\ sys_inv (l ++ (if x_outstanding x =? 0 then [] else ztake TX_BATCH_SIZE (cons_items (x_cq x)))) (XdpSystem x' krx ktx) /\
    x_stats x' = x_stats x.
Proof.
  intros Hinv. unfold reclaim_tx. destruct (Z.eqb_spec (x_outstanding x) 0) as [Hz|Hz]; [exists x; by rewrite app_nil_r|].
  pose proof Hinv as [Hp Hpl Hrs Hts Hfs Htz Hb Hrx]. cbn [y_xsk y_krx y_ktx] in *.
  destruct (peek_law _ (x_cq x) TX_BATCH_SIZE) as (idx & cq & -> & Hi & Hr & Hrel); [done|].
  set (ds := ztake TX_BATCH_SIZE (cons_items (x_cq x))) in *.
  assert (zlen ds = Z.min TX_BATCH_SIZE (zlen (cons_items (x_cq x)))) as Hds by (apply zlen_ztake_min; done). rewrite <- Hds in *.
  pose proof (places_length _ _ Hpl) as Hlen. unfold places in Hlen. cbn [y_xsk y_krx y_ktx] in Hlen.
  assert (forall a, a ∈ ds -> a ∈ all_frames) as Hin.
  { intros a Ha. eapply places_in; [exact Hpl|]. unfold places. cbn [y_xsk]. rewrite !elem_of_app. do 6 right.
    unfold ds, ztake in Ha. by eapply elem_of_take in Ha as (i & Ha%list_elem_of_lookup_2 & _). }
  destruct (Z.eqb_spec (zlen ds) 0) as [Hdz|Hdz].
  { assert (ds = []) as -> by (destruct ds; [done|zl]). rewrite app_nil_r. eexists. split; [reflexivity|]. split; [|done].
    split; cbn; unfold places, rx_descs, tx_descs; cbn; rewrite ?Hi; try done. }
  replace (Z.to_nat (zlen ds)) with (length ds) by (unfold zlen; lia). cbn [set_cq x_cq x_pool].
  destruct (reclaim_loop_spec ds cq idx (x_pool x) l Hr Hp) as (p & -> & Hp'); [zl|]. rewrite Ok_bind.
  assert (xsk_frame_base <$> ds = ds) as Ebase.
  { rewrite <- (list_fmap_id ds) at 2. apply list_fmap_ext. intros i a Ha%list_elem_of_lookup_2.
    destruct (frame_bounds a (Hin a Ha)) as [Hb1 Hb2]. by rewrite frame_base_of. }
  rewrite Ebase in Hp'. eexists. split; [reflexivity|]. split; [|done]. cbn [set_cq x_outstanding].
  assert (zlen ds <= x_outstanding x) by (unfold tx_descs in *; zl).
  assert ((if zlen ds <? x_outstanding x then zlen ds else x_outstanding x) = zlen ds) as -> by (case_test; lia).
  assert (0 <= x_outstanding x < 2 ^ 32) by (unfold NUM_FRAMES in *; zl).
  split; cbn; unfold rx_descs, tx_descs in *; cbn; try done.
  - rewrite <- Hpl. unfold places, rx_descs, tx_descs. cbn. rewrite Hrel. rewrite <- (ztake_zdrop TX_BATCH_SIZE (cons_items (x_cq x))) at 2.
    fold ds. solve_Permutation.
  - rewrite Hrel. unfold u32. rewrite Z.mod_small by zl. rewrite Hts.
    rewrite <- (ztake_zdrop TX_BATCH_SIZE (cons_items (x_cq x))) at 1. fold ds. zl.
Qed.

(** ** Transmission *)

(** The jobs [drain_done_and_tx] has a response for. *)
Definition sendable (job : dns_job) : Prop := j_resp_len job <> 0 /\ j_resp_len job <= DNS_MAX_MSG_LEN.

#[global] Instance sendable_dec job : Decision (sendable job).
Proof. unfold sendable. apply _. Defined.

Lemma take_batch_spec jobs : forall room, let '(batch, rest) := take_batch jobs room in
  filter sendable jobs = batch ++ filter sendable rest /\ (length rest <= length jobs)%nat /\
  (jobs <> [] -> room <> 0%nat -> (length rest < length jobs)%nat) /\ rest `suffix_of` jobs.
Proof.
  induction jobs as [|job jobs IH]; intros room; cbn [take_batch]; [by split_and!|].
  destruct room as [|room]; [by split_and!|]. rewrite filter_cons. unfold sendable at 1.
  destruct ((j_resp_len job =? 0) || (DNS_MAX_MSG_LEN <? j_resp_len job)) eqn:Et.
  - specialize (IH (S room)). destruct (take_batch jobs (S room)) as [batch rest]. destruct IH as (E1 & Hl & _ & Hs).
    apply orb_true_iff in Et. rewrite decide_False by (intros [? ?]; destruct Et as [Et%Z.eqb_eq|Et%Z.ltb_lt]; lia). split_and!; [done|cbn; lia|cbn; lia|by apply suffix_cons_r].
  - specialize (IH room). destruct (take_batch jobs room) as [batch rest]. destruct IH as (E1 & Hl & _ & Hs).
    apply orb_false_iff in Et as [Et1%Z.eqb_neq Et2%Z.ltb_ge]. rewrite decide_True by done. rewrite E1. split_and!; [done|cbn; lia|cbn; lia|by apply suffix_cons_r].
Qed.

Definition unsent (s : xsk_stats) : Z := tx_no_slot s + tx_no_frame s.

(** What sending [jobs] does, of which it sends [sent]: their frames are the
    descriptors [ds] added to the TX ring, and frames outside of the pool are
    left alone. *)
Definition sent_as (l : list Z) x x' (jobs sent : list dns_job) (ds : list (Z * Z)) : Prop :=
  tx_descs x' = tx_descs x ++ ds /\ Forall2 (carries (x_buffer x')) sent ds /\ sent `sublist_of` jobs /\
  (forall d, d ∈ ds -> d.1 ∈ l) /\ (forall a, a ∉ l -> x_buffer x' !! a = x_buffer x !! a) /\
  u64 (unsent (x_stats x') + zlen sent) = u64 (unsent (x_stats x) + zlen jobs) /\
  prod_size (x_tx x') = prod_size (x_tx x) /\
  (zlen jobs <= prod_size (x_tx x) - zlen (tx_descs x) -> zlen jobs <= zlen l -> sent = jobs).

(** The counters of reception. *)
Definition rx_counts (s : xsk_stats) : Z * Z * Z * Z := (rx_packets s, rx_bytes s, rx_dropped s, queue_full s).

(** [n] packets counted as sent. *)
Definition counts_tx x x' (n : Z) : Prop :=
  u64 (tx_packets (x_stats x')) = u64 (tx_packets (x_stats x) + n) /\ rx_counts (x_stats x') = rx_counts (x_stats x).

Lemma counts_tx_0 x : counts_tx x x 0.
Proof. split; [by rewrite Z.add_0_r|done]. Qed.

Lemma counts_tx_trans x x1 x2 n m : counts_tx x x1 n -> counts_tx x1 x2 m -> counts_tx x x2 (n + m).
Proof. intros [E1 E2] [F1 F2]. split; [|congruence]. by rewrite F1, (u64_shift _ _ m E1), Z.add_assoc. Qed.

Lemma tx_loop_counts jobs : forall idx x x', tx_loop jobs idx x = Ok x' -> counts_tx x x' (zlen jobs).
Proof.
  induction jobs as [|job jobs IH]; intros idx x x' Hx; cbn [tx_loop] in Hx.
  - injection Hx as <-. apply counts_tx_0.
  - apply bind_Ok in Hx as ([frame p] & _ & Hx). destruct (x_buffer x !! frame) as [buf|]; [|done].
    apply bind_Ok in Hx as ([buf' len] & _ & Hx). rewrite zlen_cons. eapply counts_tx_trans; [|by eapply IH].
    split; [|done]. cbn. apply u64_u64.
Qed.

Lemma count_unsent_sum s a b : u64 (unsent (count_unsent s a b)) = u64 (unsent s + (a + b)).
Proof.
  unfold unsent, count_unsent. cbn [tx_no_slot tx_no_frame]. rewrite u64_wrapped, Z.add_comm, u64_wrapped. f_equal. lia.
Qed.

(** The numbers of [tx_batch]: what is wanted is cut to slots and to frames. *)
Lemma tx_batch_want n slots free : 0 <= n -> 0 <= slots -> 0 <= free ->
  let '(want1, no_slot) := if slots <? n then (slots, n - slots) else (n, 0) in
  let '(want, no_frame) := if free <? want1 then (free, want1 - free) else (want1, 0) in
  0 <= want <= n /\ want <= slots /\ want <= free /\ no_slot + no_frame + want = n /\ (n <= slots -> n <= free -> want = n).
Proof. intros. repeat case_test; lia. Qed.

Lemma places_fresh l y a : places l y ≡ₚ all_frames -> a ∈ l ->
  (a ∉ (tx_descs (y_xsk y)).*1) /\ (a ∉ (base_of <$> (rx_descs (y_xsk y)).*1)) /\ a ∈ all_frames.
Proof.
  intros Hp Ha. pose proof (places_NoDup _ _ Hp) as Hnd. unfold places in Hnd. apply NoDup_app in Hnd as (_ & Hd & _).
  specialize (Hd a Ha). rewrite !elem_of_app in Hd. split_and!; [tauto..|].
  eapply places_in; [exact Hp|]. apply elem_of_app. by left.
Qed.

(** Sending [want] jobs of a batch, which have slots and frames. *)
Lemma tx_send_spec l x batch want krx ktx : sys_inv l (XdpSystem x krx ktx) -> Forall job_ok batch ->
  0 <= want <= zlen batch -> want <= prod_size (x_tx x) - zlen (tx_descs x) -> want <= zlen l ->
  exists x' ds, let l' := ztake (zlen l - want) l in
    tx_send want batch x = Ok x' /\ sys_inv l' (XdpSystem x' krx ktx) /\ zlen ds = want /\
    tx_descs x' = tx_descs x ++ ds /\ Forall2 (carries (x_buffer x')) (ztake want batch) ds /\ (forall d, d ∈ ds -> d.1 ∈ l) /\
    (forall a, a ∉ l -> x_buffer x' !! a = x_buffer x !! a) /\ unsent (x_stats x') = unsent (x_stats x) /\
    prod_size (x_tx x') = prod_size (x_tx x) /\ counts_tx x x' want.
Proof.
  intros Hinv Hj Hwb Hws Hwf. pose proof Hinv as [Hp Hpl Hrs Hts Hfs Htz Hb Hrx]. cbn [y_xsk y_krx y_ktx] in *. unfold tx_send.
  destruct (reserve_law _ (x_tx x) want) as (idx & tx' & -> & Hsub); [unfold tx_descs in *; lia|].
  rewrite Z.eqb_refl. cbn [negb]. set (n := zlen l - want). pose proof (ztake_zdrop n l) as El.
  set (fs := rev (zdrop n l)). assert (zlen (zdrop n l) = want) as Hfl by (rewrite zlen_zdrop; lia).
  assert (forall a, a ∈ fs -> a ∈ l) as Hfsl.
  { intros a Ha. rewrite <- El. apply elem_of_app. right. unfold fs in Ha. by rewrite <- Permutation_rev in Ha. }
  destruct (tx_loop_spec (ztake want batch) fs idx (set_tx x tx' (x_outstanding x)) (ztake n l))
    as (p & buffer & s & ds & Hloop & Hp' & Hds & Hc & Hfo & Hout & Hs1 & Hs2).
  { unfold fs. rewrite rev_involutive, El. exact Hp. }
  { unfold fs. rewrite length_rev. pose proof (zlen_ztake want batch Hwb) as E2. unfold zlen in E2, Hfl. lia. }
  { unfold fs. rewrite <- Permutation_rev.
    pose proof (places_NoDup _ _ Hpl) as Hnd. unfold places in Hnd. apply NoDup_app in Hnd as (Hnd & _). rewrite <- El in Hnd.
    by apply NoDup_app in Hnd as (_ & _ & Hnd). }
  { intros a Ha. by apply (places_fresh l (XdpSystem x krx ktx) a Hpl), Hfsl. }
  { exact Hb. }
  { by apply Forall_take. }
  pose proof (tx_loop_counts _ _ _ _ Hloop) as Hcnt. rewrite zlen_ztake in Hcnt by lia.
  rewrite Hloop, Ok_bind. cbn [set_tx x_rx x_tx x_fq x_cq x_outstanding x_buffer x_stats] in *.
  assert (zlen ds = want) as Hdl.
  { rewrite <- Hfl. apply (f_equal length) in Hds. rewrite length_fmap in Hds. unfold fs in Hds. rewrite length_rev in Hds. unfold zlen. lia. }
  destruct (Hsub ds Hdl) as [Hi2 Hz2]. eexists _, ds. cbv zeta. split; [reflexivity|].
  assert (forall a, a ∉ l -> buffer !! a = x_buffer x !! a) as Hout' by (intros a Ha; apply Hout; auto).
  pose proof (places_length _ _ Hpl) as Hlen. unfold places in Hlen. cbn [y_xsk y_krx y_ktx] in Hlen.
  split_and!; [|done|unfold tx_descs; cbn; by rewrite Hi2|exact Hc| |exact Hout'|unfold unsent; cbn; by rewrite Hs1, Hs2|cbn; by rewrite Hz2|exact Hcnt].
  - split; unfold places, rx_descs, tx_descs in *; cbn; rewrite ?Hi2, ?Hz2; try done.
    + rewrite <- Hpl. rewrite fmap_app, Hds. unfold fs. rewrite <- Permutation_rev. rewrite <- El at 3. solve_Permutation.
    + unfold u32. rewrite Z.mod_small by (unfold NUM_FRAMES in *; zl). zl.
    + rewrite zlen_app, Hdl. lia.
    + eapply desc_ok_other; [|exact Hrx]. intros a Ha. apply Hout'. intros Hal.
      by apply (places_fresh l (XdpSystem x krx ktx) a Hpl) in Hal as (_ & Hn & _).
  - intros d Hd. apply Hfsl. rewrite <- Hds. by apply list_elem_of_fmap_2.
Qed.

Lemma tx_batch_spec l x batch krx ktx : sys_inv l (XdpSystem x krx ktx) -> Forall job_ok batch ->
  exists x' l' sent ds, tx_batch batch x = Ok x' /\ sys_inv l' (XdpSystem x' krx ktx) /\ sent_as l x x' batch sent ds /\
    l' `prefix_of` l /\ zlen l' = zlen l - zlen ds /\ counts_tx x x' (zlen sent).
Proof.
  intros Hinv Hj. pose proof Hinv as [Hp Hpl Hrs Hts Hfs Htz Hb Hrx]. cbn [y_xsk y_krx y_ktx] in *. unfold tx_batch.
  pose proof (nb_free_law _ (x_tx x) (zlen batch) Htz) as Hnb. destruct (prod_nb_free (x_tx x) (zlen batch)) as [slots tx].
  destruct Hnb as (Hi & Hz & Hm & Hmn). cbn [set_tx x_pool x_outstanding x_stats]. unfold xsk_free_frame_count.
  pose proof Hp as (Hfree & _). rewrite Hfree.
  pose proof (tx_batch_want (zlen batch) slots (zlen l) (zlen_nonneg _) ltac:(lia) (zlen_nonneg _)) as Hw.
  destruct (if slots <? zlen batch then _ else _) as [want1 no_slot]. destruct (if zlen l <? want1 then _ else _) as [want no_frame].
  destruct Hw as (Hwb & Hws & Hwf & Hsum & Hall).
  assert (zlen batch <= prod_size (x_tx x) - zlen (tx_descs x) -> zlen batch <= zlen l -> want = zlen batch) as Hroom.
  { intros Hr1 Hr2. apply Hall; [|done]. destruct (Z_lt_le_dec slots (zlen batch)) as [Hlt|?]; [|done]. rewrite (Hmn Hlt). done. }
  set (x1 := set_stats _ _).
  assert (sys_inv l (XdpSystem x1 krx ktx)) as Hinv1 by (split; cbn; unfold places, rx_descs, tx_descs in *; cbn; rewrite ?Hi, ?Hz; done).
  assert (tx_descs x1 = tx_descs x) as Ht1 by (unfold tx_descs; cbn; by rewrite Hi).
  assert (u64 (unsent (x_stats x1)) = u64 (unsent (x_stats x) + (no_slot + no_frame))) as Hu by apply count_unsent_sum.
  destruct (Z.eqb_spec want 0) as [Hw0|Hw0].
  { exists x1, l, [], []. split; [reflexivity|]. split; [exact Hinv1|]. split; [|split_and!; [done|by rewrite zlen_nil, Z.sub_0_r|split; [by rewrite Z.add_0_r|done]]]. unfold sent_as. split_and!.
    - by rewrite Ht1, app_nil_r.
    - constructor.
    - apply sublist_nil_l.
    - by intros d Hd%elem_of_nil.
    - done.
    - rewrite zlen_nil, Z.add_0_r, Hu. f_equal. lia.
    - done.
    - intros Hr1 Hr2. specialize (Hroom Hr1 Hr2). destruct batch; [done|zl]. }
  destruct (tx_send_spec l x1 batch want krx ktx Hinv1 Hj Hwb) as (x' & ds & E1 & Hinv' & Hdl & Htx & Hc & Hd & Hout & Hus & Hsz & Hcnt);
    [rewrite Ht1; cbn; rewrite Hz; unfold tx_descs; lia|done|].
  exists x', (ztake (zlen l - want) l), (ztake want batch), ds. split; [exact E1|]. split; [exact Hinv'|].
  split; [|split_and!; [eexists; symmetry; apply ztake_zdrop|rewrite Hdl, zlen_ztake; lia|rewrite zlen_ztake by done; exact Hcnt]]. unfold sent_as. split_and!; try done.
  - by rewrite Htx, Ht1.
  - apply sublist_take.
  - rewrite Hus, zlen_ztake by done. etrans; [apply u64_shift, Hu|]. f_equal. lia.
  - by rewrite Hsz.
  - intros Hr1 Hr2. apply ztake_all. rewrite (Hroom Hr1 Hr2). lia.
Qed.

Lemma sent_as_nil l x jobs : jobs = [] -> sent_as l x x jobs [] [].
Proof. intros ->. unfold sent_as. rewrite app_nil_r. split_and!; try done. by intros d Hd%elem_of_nil. Qed.

(** Two rounds in a row: frames handed to the kernel are not written again. *)
Lemma sent_as_trans l l1 x x1 x2 krx ktx b1 b2 s1 s2 d1 d2 : sent_as l x x1 b1 s1 d1 -> sys_inv l1 (XdpSystem x1 krx ktx) ->
  l1 `prefix_of` l -> zlen l1 = zlen l - zlen d1 -> sent_as l1 x1 x2 b2 s2 d2 -> sent_as l x x2 (b1 ++ b2) (s1 ++ s2) (d1 ++ d2).
Proof.
  intros (Ht1 & Hc1 & Hs1 & Hl1 & Ho1 & Hu1 & Hz1 & Hr1) Hinv [k Hk] Hlen (Ht2 & Hc2 & Hs2 & Hl2 & Ho2 & Hu2 & Hz2 & Hr2).
  assert (forall a, a ∈ l1 -> a ∈ l) as Hsub by (intros a Ha; rewrite Hk; apply elem_of_app; by left).
  unfold sent_as. split_and!.
  - by rewrite Ht2, Ht1, app_assoc.
  - apply Forall2_app; [|done].
    assert (Forall (fun d => d.1 ∉ l1) d1) as Hd1.
    { apply Forall_forall. intros d Hd Hin. apply (places_fresh l1 (XdpSystem x1 krx ktx) d.1 (si_places _ _ Hinv)) in Hin as (Hn & _).
      apply Hn. cbn [y_xsk]. rewrite Ht1, fmap_app. apply elem_of_app. right. by apply list_elem_of_fmap_2. }
    clear - Hc1 Hd1 Ho2. induction Hc1 as [|job d s1 d1 (old & f & Hold & Hbuild & Hf) _ IH]; [constructor|].
    apply Forall_cons in Hd1 as [Hd Hd1]. constructor; [|by apply IH]. exists old, f. by rewrite Ho2.
  - by apply sublist_app.
  - intros d [Hd|Hd]%elem_of_app; [by apply Hl1|]. by apply Hsub, Hl2.
  - intros a Ha. rewrite Ho2 by auto. by apply Ho1.
  - rewrite !zlen_app. replace (unsent (x_stats x2) + (zlen s1 + zlen s2)) with (unsent (x_stats x2) + zlen s2 + zlen s1) by lia.
    rewrite (u64_shift _ _ _ Hu2). replace (unsent (x_stats x1) + zlen b2 + zlen s1) with (unsent (x_stats x1) + zlen s1 + zlen b2) by lia.
    rewrite (u64_shift _ _ _ Hu1). f_equal. lia.
  - congruence.
  - rewrite zlen_app. intros Hroom Hfree. pose proof (zlen_nonneg b1). pose proof (zlen_nonneg b2).
    assert (s1 = b1) as -> by (apply Hr1; lia). assert (zlen d1 = zlen b1) as Hd by (unfold zlen; by rewrite (Forall2_length _ _ _ Hc1)).
    f_equal. apply Hr2; [rewrite Hz1, Ht1, zlen_app; lia|lia].
Qed.

Lemma tx_rounds_spec krx ktx fuel : forall jobs x l, (length jobs <= fuel)%nat -> sys_inv l (XdpSystem x krx ktx) -> Forall job_ok jobs ->
  exists x' l' sent ds, tx_rounds fuel jobs x = Ok x' /\ sys_inv l' (XdpSystem x' krx ktx) /\
    sent_as l x x' (filter sendable jobs) sent ds /\ counts_tx x x' (zlen sent).
Proof.
  induction fuel as [|fuel IH]; intros [|job jobs] x l Hf Hinv Hj; cbn [tx_rounds]; try (cbn in Hf; lia);
    try (exists x, l, [], []; split_and!; [done|done|by apply sent_as_nil|apply counts_tx_0]).
  pose proof (take_batch_spec (job :: jobs) (Z.to_nat TX_BATCH_SIZE)) as Hb.
  destruct (take_batch (job :: jobs) (Z.to_nat TX_BATCH_SIZE)) as [batch rest]. destruct Hb as (Ef & _ & Hlt & Hsuf).
  specialize (Hlt ltac:(done) ltac:(done)).
  assert (Forall job_ok rest) as Hrest by (destruct Hsuf as [k Ek]; rewrite Ek in Hj; by apply Forall_app in Hj as [_ Hj]).
  assert (Forall job_ok batch) as Hbatch.
  { apply Forall_forall. intros j Hin. rewrite Forall_forall in Hj. apply Hj. assert (j ∈ filter sendable (job :: jobs)) as Hin'.
    { rewrite Ef. apply elem_of_app. by left. } by apply list_elem_of_filter in Hin' as [_ ?]. }
  rewrite Ef. destruct (Z.eqb_spec (zlen batch) 0) as [Hz|Hz].
  { destruct batch; [|zl]. apply IH; [cbn in *; lia|done..]. }
  destruct (tx_batch_spec l x batch krx ktx Hinv Hbatch) as (x1 & l1 & s1 & d1 & -> & Hinv1 & Hs1 & Hpre & Hl1 & Hc1). rewrite Ok_bind.
  destruct (IH rest x1 l1) as (x2 & l2 & s2 & d2 & -> & Hinv2 & Hs2 & Hc2); [cbn in *; lia|done..|].
  exists x2, l2, (s1 ++ s2), (d1 ++ d2). split_and!; [done|done|by eapply sent_as_trans|]. rewrite zlen_app. by eapply counts_tx_trans.
Qed.

(** ** The kernel *)

Lemma kernel_step_inv y y' : kernel_step y y' -> forall l, sys_inv l y -> sys_inv l y'.
Proof.
  intros Hstep l [Hp Hpl Hrs Hts Hfs Htz Hb Hrx]. unfold places, rx_descs, tx_descs in *.
  destruct Hstep as [rx tx fq cq p n buffer s krx ktx a fq' Ht|rx tx fq cq p n buffer s l1 a l2 ktx addr len f rx' Hput Hbase Hlen Hend Hf Hfb
    |rx tx fq cq p n buffer s krx ktx d tx' Ht|rx tx fq cq p n buffer s krx l1 d l2 cq' Hput];
    cbn [y_xsk y_krx y_ktx x_rx x_tx x_fq x_cq x_pool x_outstanding x_buffer] in *.
  - apply take_law in Ht as [Hi Hz]. split; cbn; unfold places, rx_descs, tx_descs; cbn; rewrite ?Hz; try done.
    + rewrite <- Hpl, Hi. solve_Permutation.
    + rewrite Hi in Hrs. zl.
  - apply put_law in Hput as Hi. assert (a ∈ all_frames) as Ha by (rewrite <- Hpl; rewrite !elem_of_app; right; right; left; right; by left).
    destruct (frame_bounds a Ha) as [Hab _]. split; cbn; unfold places, rx_descs, tx_descs; cbn; rewrite ?Hi; try done.
    + rewrite <- Hpl, !fmap_app. cbn. rewrite Hbase. solve_Permutation.
    + zl.
    + intros b Hbin. destruct (decide (b = a)) as [->|Hne]; [exists f; by rewrite lookup_insert_eq|].
      rewrite lookup_insert_ne by done. by apply Hb.
    + apply Forall_app. split.
      * eapply desc_ok_other; [|exact Hrx]. intros b Hbin. rewrite lookup_insert_ne; [done|]. intros <-.
        assert (NoDup all_frames) as Hnd by apply NoDup_all_frames. rewrite <- Hpl in Hnd.
        apply NoDup_app in Hnd as (_ & _ & Hnd). apply NoDup_app in Hnd as (_ & _ & Hnd). apply NoDup_app in Hnd as (_ & Hd & _).
        apply (Hd a); [apply elem_of_app; right; by left|]. apply elem_of_app. by left.
      * constructor; [|constructor]. unfold desc_ok. cbn [fst snd]. rewrite Hbase, lookup_insert_eq.
        assert (a <= addr < a + FRAME_SIZE) by (rewrite <- Hbase; unfold base_of, FRAME_SIZE; Z.to_euclidean_division_equations; lia).
        assert (a + FRAME_SIZE <= 2 ^ 48).
        { apply all_frames_spec in Ha as (i & Hi' & ->). unfold NUM_FRAMES, FRAME_SIZE in *. lia. }
        split; [lia|]. split; [done|]. split; [done|]. by exists f.
  - apply take_law in Ht as [Hi Hz]. split; cbn; unfold places, rx_descs, tx_descs; cbn; rewrite ?Hz; try done.
    + rewrite <- Hpl, Hi. cbn. solve_Permutation.
    + rewrite Hi in Hts. zl.
    + rewrite Hi in Htz. zl.
  - apply put_law in Hput as Hi. split; cbn; unfold places, rx_descs, tx_descs; cbn; rewrite ?Hi; try done.
    + rewrite <- Hpl, !fmap_app. cbn. solve_Permutation.
    + zl.
Qed.

(** ** Reachable states *)

(** A socket as [xsk_socket__create] leaves it: empty rings, a fill ring with
    room for the frames of reception, and a UMEM of 4096 frames. *)
Record fresh_socket x : Prop := FreshSocket {
  fs_rx : cons_items (x_rx x) = [];
  fs_tx : prod_items (x_tx x) = [];
  fs_fq : prod_items (x_fq x) = [];
  fs_cq : cons_items (x_cq x) = [];
  fs_fq_size : FILL_RING_FRAMES <= prod_size (x_fq x);
  fs_tx_size : 0 <= prod_size (x_tx x);
  fs_outstanding : x_outstanding x = 0;
  fs_buffer : frames_ok (x_buffer x)
}.

Lemma prime_inv x : fresh_socket x -> exists x0 l, xsk_prime x = Ok x0 /\ sys_inv l (XdpSystem x0 [] []) /\ rx_descs x0 = [].
Proof.
  intros [Hrx Htx Hfq Hcq Hfs Hts Ho Hb]. unfold xsk_prime. cbn [set_pool x_fq x_pool].
  destruct (reserve_law _ (x_fq x) FILL_RING_FRAMES) as (idx & fq & -> & Hsub); [rewrite Hfq; change (zlen (@nil Z)) with 0; split; [done|lia]|].
  rewrite Z.eqb_refl. cbn [negb]. set (l := ztake FILL_RING_FRAMES all_frames). set (top := zdrop FILL_RING_FRAMES all_frames).
  assert (all_frames = l ++ top) as El by (symmetry; apply ztake_zdrop).
  assert (zlen top = FILL_RING_FRAMES) as Htop by (unfold top; rewrite zlen_zdrop; pose proof zlen_all_frames as E1; change FILL_RING_FRAMES with 2048 in *; unfold NUM_FRAMES in *; lia).
  destruct (fill_loop_spec (rev top) fq idx seeded_pool l) as (p & Hfill & Hp).
  { rewrite rev_involutive, <- El. apply seeded_pool_is. }
  assert (zlen (rev top) = FILL_RING_FRAMES) as Hrt by (unfold zlen in *; by rewrite length_rev).
  assert (length (rev top) = Z.to_nat FILL_RING_FRAMES) as E1 by (unfold zlen in Hrt; lia).
  rewrite E1 in Hfill. rewrite Hfill, Ok_bind. destruct (Hsub (rev top) Hrt) as [Hi Hz]. eexists _, l. split; [reflexivity|].
  clearbody l top. split; [|exact Hrx]. split; unfold places, rx_descs, tx_descs; cbn [y_xsk y_krx y_ktx set_fq set_pool x_rx x_tx x_fq x_cq x_pool x_outstanding x_buffer];
    rewrite ?Hrx, ?Htx, ?Hi, ?Hfq, ?Hcq, ?Hz; [exact Hp| |by rewrite app_nil_l, Hrt|exact Ho|exact Hfs|exact Hts|exact Hb|constructor].
  rewrite El, <- Permutation_rev, app_nil_l. cbn [fmap list_fmap app]. by rewrite !app_nil_r.
Qed.

Lemma loop_step_inv y y' : loop_step y y' -> forall l, sys_inv l y -> exists l', sys_inv l' y'.
Proof.
  destruct 1 as [y y' Hk|env loop_idx x q x' q' krx ktx Hd|jobs x x' krx ktx Hj Hd|x x' krx ktx Hd]; intros l Hinv.
  - exists l. by eapply kernel_step_inv.
  - exists l. pose proof (drain_rx_inv env loop_idx l x q krx ktx Hinv) as Hr. by rewrite Hd in Hr.
  - destruct (tx_rounds_spec krx ktx (length jobs) jobs x l) as (x1 & l1 & sent & ds & E1 & Hinv1 & _); [done..|].
    unfold drain_done_and_tx in Hd. rewrite E1 in Hd. injection Hd as <-. by exists l1.
  - destruct (reclaim_inv l x krx ktx Hinv) as (x1 & E1 & Hinv1 & _). rewrite E1 in Hd. injection Hd as <-. by eexists.
Qed.

Lemma loop_reach_inv y y' : rtc loop_step y y' -> forall l, sys_inv l y -> exists l', sys_inv l' y'.
Proof.
  induction 1 as [y|y y1 y2 Hstep _ IH]; intros l Hinv; [by exists l|].
  destruct (loop_step_inv _ _ Hstep l Hinv) as [l1 Hinv1]. by apply (IH l1).
Qed.

(** States the loop of a fresh socket reaches. *)
Definition loop_reaches x y : Prop := exists x0, xsk_prime x = Ok x0 /\ rtc loop_step (XdpSystem x0 [] []) y.

Lemma reached_inv x y : fresh_socket x -> loop_reaches x y -> exists l, sys_inv l y.
Proof.
  intros Hx (x0 & Hx0 & Hr). destruct (prime_inv x Hx) as (x1 & l & E1 & Hinv & _). rewrite E1 in Hx0. injection Hx0 as ->.
  by eapply loop_reach_inv.
Qed.

(** ** Properties *)

(** C15: whatever the kernel and the loop do in turn from a primed socket, each
    of the 4096 frames is in exactly one place (pool, four rings, kernel), so
    that no frame is lost, freed twice or sent while it is free; 2048 frames
    always stay on the side of reception, so that the fill ring never runs dry;
    [outstanding_tx] counts the frames being sent; and the functions of the loop
    neither fail an assertion nor touch memory outside of a frame. *)
Theorem frames_conserved x y : fresh_socket x -> loop_reaches x y ->
  exists l, pool_is (x_pool (y_xsk y)) l /\ places l y ≡ₚ all_frames /\ NoDup (places l y) /\
    zlen (prod_items (x_fq (y_xsk y))) + zlen (y_krx y) + zlen (rx_descs (y_xsk y)) = FILL_RING_FRAMES /\
    x_outstanding (y_xsk y) = zlen (tx_descs (y_xsk y)) + zlen (y_ktx y) + zlen (cons_items (x_cq (y_xsk y))) /\
    (forall env loop_idx q, returns (drain_rx env loop_idx (y_xsk y) q) (fun _ => True)) /\
    (forall jobs, Forall job_ok jobs -> returns (drain_done_and_tx jobs (y_xsk y)) (fun _ => True)) /\
    returns (reclaim_tx (y_xsk y)) (fun _ => True).
Proof.
  intros Hx Hr. destruct (reached_inv x y Hx Hr) as [l Hinv]. exists l. pose proof Hinv as [Hp Hpl Hrs Hts _ _ _ _].
  destruct y as [x1 krx ktx]. split_and!; try done.
  - by apply places_NoDup.
  - intros env loop_idx q. eapply returns_mono; [by apply (drain_rx_inv env loop_idx l x1 q krx ktx)|done].
  - intros jobs Hj. destruct (tx_rounds_spec krx ktx (length jobs) jobs x1 l) as (x2 & _ & _ & _ & E1 & _); [done..|].
    unfold drain_done_and_tx. cbn [y_xsk]. by rewrite E1.
  - destruct (reclaim_inv l x1 krx ktx Hinv) as (x2 & E1 & _). cbn [y_xsk]. by rewrite E1.
Qed.

(** in every such state [drain_rx] takes the oldest packets of the RX ring,
    at most 64; each that [parse_frame] accepts is pushed to the pending queue
    in the order of arrival, as long as the queue takes jobs; and the fill ring
    gets exactly as many frames as were taken. *)
Theorem drain_rx_exact x y env loop_idx q : fresh_socket x -> loop_reaches x y ->
  let ds := ztake RX_BATCH_SIZE (rx_descs (y_xsk y)) in
  exists x' rs, drain_rx env loop_idx (y_xsk y) q = Ok (x', push_all q (omap id rs)) /\
    parsed env loop_idx (x_buffer (y_xsk y)) ds rs /\ rx_descs x' = zdrop RX_BATCH_SIZE (rx_descs (y_xsk y)) /\
    prod_items (x_fq x') = prod_items (x_fq (y_xsk y)) ++ rev (base_of <$> ds.*1) /\
    tx_descs x' = tx_descs (y_xsk y) /\ x_buffer x' = x_buffer (y_xsk y).
Proof.
  intros Hx Hr. destruct (reached_inv x y Hx Hr) as [l Hinv]. destruct y as [x1 krx ktx].
  destruct (drain_rx_spec env loop_idx l x1 q krx ktx Hinv) as (rx & fq & p & s & rs & E1 & Hps & _ & Hi & Hf & _).
  cbn [y_xsk]. rewrite E1. by eexists _, rs.
Qed.

(** C16: in every such state [drain_done_and_tx] sends, in their order, finished
    jobs that have a response: each goes out in a frame of its own from the
    pool, which holds exactly what [build_response_frame] writes for it; frames
    that are not free are not touched; and each job that is not sent is counted
    in [tx_no_slot] or [tx_no_frame], which happens only when the ring or the
    pool has less room than there are responses. *)
Theorem responses_sent x y jobs : fresh_socket x -> loop_reaches x y -> Forall job_ok jobs ->
  exists x' l sent ds, drain_done_and_tx jobs (y_xsk y) = Ok x' /\ pool_is (x_pool (y_xsk y)) l /\
    tx_descs x' = tx_descs (y_xsk y) ++ ds /\ Forall2 (carries (x_buffer x')) sent ds /\
    sent `sublist_of` filter sendable jobs /\ (forall d, d ∈ ds -> d.1 ∈ l) /\
    (forall a, a ∉ l -> x_buffer x' !! a = x_buffer (y_xsk y) !! a) /\
    u64 (unsent (x_stats x') + zlen sent) = u64 (unsent (x_stats (y_xsk y)) + zlen (filter sendable jobs)) /\
    prod_size (x_tx x') = prod_size (x_tx (y_xsk y)) /\
    (zlen (filter sendable jobs) <= prod_size (x_tx (y_xsk y)) - zlen (tx_descs (y_xsk y)) ->
     zlen (filter sendable jobs) <= zlen l -> sent = filter sendable jobs).
Proof.
  intros Hx Hr Hj. destruct (reached_inv x y Hx Hr) as [l Hinv]. destruct y as [x1 krx ktx].
  destruct (tx_rounds_spec krx ktx (length jobs) jobs x1 l) as (x' & l' & sent & ds & E1 & _ & Hs & _); [done..|].
  exists x', l, sent, ds. split; [exact E1|]. split; [apply Hinv|exact Hs].
Qed.
End frames.

(** ** A concrete socket *)

(** A socket over rings that are lists. *)
Definition sample_socket : xsk_socket_info (P := list_prod) (C := list) :=
  Xsk [] (ListProd 2048 [] []) (ListProd 2048 [] []) [] (Pool [] 0) 0
    (gset_to_gmap (replicate (Z.to_nat FRAME_SIZE) 0) (list_to_set all_frames)) (XskStats 0 0 0 0 0 0 0 0).

Lemma sample_socket_fresh : fresh_socket sample_socket.
Proof.
  split; try done. intros a Ha. exists (replicate (Z.to_nat FRAME_SIZE) 0). split.
  - apply lookup_gset_to_gmap_Some. split; [|done]. by apply elem_of_list_to_set.
  - unfold zlen. by rewrite length_replicate.
Qed.

(** The kernel takes a frame of the primed socket and receives a packet. *)
Lemma sample_kernel : exists x0 y1 y2 d, xsk_prime sample_socket = Ok x0 /\ kernel_step (XdpSystem x0 [] []) y1 /\ kernel_step y1 y2 /\
  rx_descs x0 = [] /\ rx_descs (y_xsk y1) = [] /\ rx_descs (y_xsk y2) = [d].
Proof.
  destruct (prime_inv sample_socket sample_socket_fresh) as (x0 & l & Hx0 & Hinv & Hrx). pose proof Hinv as [_ Hpl Hrs _ _ _ _ _].
  destruct x0 as [rx tx fq cq p n buffer s]. unfold rx_descs in *. cbn [y_xsk y_krx y_ktx x_fq x_rx] in *.
  change (rx = []) in Hrx. subst rx.
  destruct (lp_items fq) as [|a items] eqn:Efq.
  { cbn in Hrs. rewrite Efq in Hrs. discriminate Hrs. }
  assert (a ∈ all_frames) as Ha.
  { eapply places_in; [exact Hpl|]. unfold places. cbn. rewrite Efq. apply elem_of_app. right. by left. }
  destruct (frame_bounds a Ha) as [_ Hbase].
  do 4 eexists. split; [exact Hx0|]. split; [apply kernel_fill; cbn; rewrite Efq; reflexivity|]. split.
  - apply (kernel_receive _ _ _ _ _ _ _ _ [] a [] _ a 60 (replicate (Z.to_nat FRAME_SIZE) 0)); [reflexivity|exact Hbase|done| | |].
    + unfold FRAME_SIZE. lia.
    + unfold zlen. by rewrite length_replicate.
    + apply Forall_replicate. unfold byte. lia.
  - split_and!; reflexivity.
Qed.

Lemma sample_reached : exists y, loop_reaches sample_socket y /\ zlen (rx_descs (y_xsk y)) = 1.
Proof.
  destruct sample_kernel as (x0 & y1 & y2 & d & Hx0 & H1 & H2 & _ & _ & Hd). exists y2. rewrite Hd. split; [|done]. exists x0. split; [done|].
  eapply rtc_l; [by apply step_kernel|]. eapply rtc_l; [by apply step_kernel|]. apply rtc_refl.
Qed.

Lemma frames_conserved_witness : exists y, zlen (rx_descs (y_xsk y)) = 1 /\
  exists l, pool_is (x_pool (y_xsk y)) l /\ places (P := list_prod) (C := list) l y ≡ₚ all_frames /\ NoDup (places l y) /\
    zlen (prod_items (x_fq (y_xsk y))) + zlen (y_krx y) + zlen (rx_descs (y_xsk y)) = FILL_RING_FRAMES /\
    x_outstanding (y_xsk y) = zlen (tx_descs (y_xsk y)) + zlen (y_ktx y) + zlen (cons_items (x_cq (y_xsk y))) /\
    (forall env loop_idx q, returns (drain_rx env loop_idx (y_xsk y) q) (fun _ => True)) /\
    (forall jobs, Forall job_ok jobs -> returns (drain_done_and_tx jobs (y_xsk y)) (fun _ => True)) /\
    returns (reclaim_tx (y_xsk y)) (fun _ => True).
Proof.
  destruct sample_reached as (y & Hy & Hn). exists y. split; [exact Hn|].
  exact (frames_conserved sample_socket y sample_socket_fresh Hy).
Defined.

Lemma drain_rx_exact_witness : exists y, zlen (rx_descs (P := list_prod) (C := list) (y_xsk y)) = 1 /\
  let ds := ztake RX_BATCH_SIZE (rx_descs (y_xsk y)) in
  exists x' rs, drain_rx (fun _ => (None, 0)) 0 (y_xsk y) (Pending [] true) = Ok (x', push_all (Pending [] true) (omap id rs)) /\
    parsed (fun _ => (None, 0)) 0 (x_buffer (y_xsk y)) ds rs /\ rx_descs x' = zdrop RX_BATCH_SIZE (rx_descs (y_xsk y)) /\
    prod_items (x_fq x') = prod_items (x_fq (y_xsk y)) ++ rev (base_of <$> ds.*1) /\
    tx_descs x' = tx_descs (y_xsk y) /\ x_buffer x' = x_buffer (y_xsk y).
Proof.
  destruct sample_reached as (y & Hy & Hn). exists y. split; [exact Hn|].
  exact (drain_rx_exact sample_socket y (fun _ => (None, 0)) 0 (Pending [] true) sample_socket_fresh Hy).
Defined.

(** A finished job with a response of 12 bytes. *)
Definition sample_done : dns_job :=
  DnsJob 0 [1; 2; 3; 4; 5; 6] [7; 8; 9; 10; 11; 12] [10; 0; 0; 2] [10; 0; 0; 1] [4; 210] 0 64 [] 12
    (replicate (Z.to_nat DNS_MAX_MSG_LEN) 0) 0.

Lemma responses_sent_witness : exists y, loop_reaches sample_socket y /\
  exists x' l sent ds, drain_done_and_tx [sample_done] (y_xsk y) = Ok x' /\ pool_is (x_pool (y_xsk y)) l /\
    tx_descs x' = tx_descs (y_xsk y) ++ ds /\ Forall2 (carries (x_buffer x')) sent ds /\
    sent `sublist_of` filter sendable [sample_done] /\ (forall d, d ∈ ds -> d.1 ∈ l) /\
    (forall a, a ∉ l -> x_buffer x' !! a = x_buffer (y_xsk y) !! a) /\
    u64 (unsent (x_stats x') + zlen sent) = u64 (unsent (x_stats (y_xsk y)) + zlen (filter sendable [sample_done])) /\
    prod_size (x_tx x') = prod_size (x_tx (y_xsk y)) /\
    (zlen (filter sendable [sample_done]) <= prod_size (x_tx (y_xsk y)) - zlen (tx_descs (y_xsk y)) ->
     zlen (filter sendable [sample_done]) <= zlen l -> sent = filter sendable [sample_done]).
Proof.
  destruct sample_reached as (y & Hy & _). exists y. split; [exact Hy|].
  apply (responses_sent sample_socket y [sample_done] sample_socket_fresh Hy).
  constructor; [|constructor]. unfold job_ok, byte, bytes, DNS_MAX_MSG_LEN.
  split_and!; try reflexivity; try (repeat constructor; lia); cbn [sample_done j_tos j_ttl j_resp_len]; lia.
Defined.
