(* ===== verification/XskSetup.v ===== *)
(** * AF_XDP sockets: setup and teardown (src/xsk_setup.c, and the setup and
      teardown of src/af_xdp_user.c's main)

    What the program owns while it brings its sockets up: the XDP program and
    its attachment, and for each receive queue a packet buffer, a UMEM, a socket
    and two structures. Each call of libxdp, libbpf and the C library is given by
    its outcome. Releasing what is not there, a UMEM that a socket still uses, or
    a buffer that a UMEM still uses, is a fault. *)

From stdpp Require Import prelude list gmap.
From Stdlib Require Import ZArith Lia.
From S2P Require Import Prelude DnsCache XdpKern XdpFrame XskLoop.

Local Open Scope Z_scope.

Definition IF_NAMESIZE : Z := 16.
Definition MAX_XSKS : Z := 16.
Definition ENODEV : Z := 19.
Definition ENOMEM : Z := 12.
Definition EINVAL : Z := 22.
Definition ENOSPC : Z := 28.
Definition ENOENT : Z := 2.
Definition EOPNOTSUPP : Z := 95.

(** ** What is owned *)

(** A loaded program; a packet buffer; [struct xsk_umem_info] and the UMEM of
    its field; [struct xsk_socket_info] and the socket of its field. A UMEM uses
    its buffer. A socket uses its UMEM; it is bound with or without zero-copy,
    and may be registered in the xskmap, at its queue. *)
Inductive xobj :=
| OProg
| OBuffer
| OUmem (buffer : loc)
| OUmemInfo (umem : option loc)
| OSocket (umem : loc) (zerocopy : bool) (registered : option Z)
| OXsk (xsk : option loc)
| OEventfd.

#[global] Instance xobj_eq_dec : EqDecision xobj.
Proof. solve_decision. Defined.

Record owned_world := World {
  w_heap : gmap loc xobj;
  w_attached : gset loc
}.

(** What an object keeps in use. *)
Definition holds (o : xobj) : list loc :=
  match o with
  | OUmem b => [b]
  | OSocket u _ _ => [u]
  | _ => []
  end.

Definition in_use (h : gmap loc xobj) (l : loc) : bool := negb (bool_decide (map_Forall (fun _ o => l ∉ holds o) h)).

(** [l] is released: it must be there, of the kind [k], and not in use. *)
Definition release (w : owned_world) (l : loc) (k : xobj -> bool) : res owned_world :=
  match w_heap w !! l with
  | Some o => if k o && negb (in_use (w_heap w) l) then Ok (World (delete l (w_heap w)) (w_attached w)) else Fault
  | None => Fault
  end.

Definition is_prog (o : xobj) : bool := match o with OProg => true | _ => false end.
Definition is_buffer (o : xobj) : bool := match o with OBuffer => true | _ => false end.
Definition is_umem (o : xobj) : bool := match o with OUmem _ => true | _ => false end.
Definition is_umem_info (o : xobj) : bool := match o with OUmemInfo _ => true | _ => false end.
Definition is_socket (o : xobj) : bool := match o with OSocket _ _ _ => true | _ => false end.
Definition is_xsk (o : xobj) : bool := match o with OXsk _ => true | _ => false end.
Definition is_eventfd (o : xobj) : bool := match o with OEventfd => true | _ => false end.

(** [env->umem->umem] and [env->xsk->xsk] *)
Definition umem_of (w : owned_world) (ui : loc) : res loc :=
  match w_heap w !! ui with Some (OUmemInfo (Some u)) => Ok u | _ => Fault end.
Definition socket_of (w : owned_world) (x : loc) : res loc :=
  match w_heap w !! x with Some (OXsk (Some s)) => Ok s | _ => Fault end.

(** ** [struct xsk_env] *)

Record xsk_env := XskEnv {
  e_ifname : list Z;
  e_ifindex : Z;
  e_queue_id : Z;
  e_prog : option loc;
  e_attach_mode : Z;
  e_xsk_map_fd : Z;
  e_stats_map_fd : Z;
  e_custom_prog : bool;
  e_packet_buffer : option loc;
  e_packet_buffer_size : Z;
  e_zerocopy : bool;
  e_owns_prog : bool;
  e_umem : option loc;
  e_xsk : option loc
}.

(** [memset(env, 0, sizeof( *env))] *)
Definition zeroed_env : xsk_env := XskEnv [] 0 0 None 0 0 0 false None 0 false false None None.

(** What the calls of [xsk_env_load_program] return: [if_nametoindex], the error
    of [xdp_program__create], [xdp_program__attach], and the descriptors of the
    two maps, if they are found. *)
Record load_calls := LoadCalls {
  lc_ifindex : Z;
  lc_create : Z;
  lc_attach : Z;
  lc_xsks_map : option Z;
  lc_stats_map : option Z
}.

(** What the calls of [xsk_env_setup_socket] return: whether the allocations
    succeed, [xsk_umem__create], [xsk_socket__create] at first and again,
    [xsk_socket__update_xskmap], and whether the fill ring has the room. *)
Record setup_calls := SetupCalls {
  sc_memalign : bool;
  sc_umem_calloc : bool;
  sc_umem : Z;
  sc_xsk_calloc : bool;
  sc_socket : Z;
  sc_socket_retry : Z;
  sc_update : Z;
  sc_reserve : bool
}.

Section setup.
(** Where new objects are put. *)
Context (alloc : gset loc -> loc).

Definition new (w : owned_world) (o : xobj) : loc * owned_world :=
  let l := alloc (dom (w_heap w)) in (l, World (<[l := o]> (w_heap w)) (w_attached w)).

(** A store through a pointer to an object of the program's own. *)
Definition store (w : owned_world) (l : loc) (o : xobj) : owned_world := World (<[l := o]> (w_heap w)) (w_attached w).

Definition attach (w : owned_world) (p : loc) : owned_world := World (w_heap w) ({[p]} ∪ w_attached w).
Definition detach (w : owned_world) (p : loc) : owned_world := World (w_heap w) (w_attached w ∖ {[p]}).

(** The result is the return value, [*env] and what is owned then. *)
Definition xsk_env_load_program (w : owned_world) (ifname : list Z) (bpf_obj : bool) (mode : Z) (c : load_calls)
    : res (Z * xsk_env * owned_world) :=
  let env ifindex prog map_fd stats_fd custom owns :=
    XskEnv (snprintf_s IF_NAMESIZE ifname) ifindex 0 prog mode map_fd stats_fd custom None 0 false owns None None in
  if lc_ifindex c =? 0 then Ok (- ENODEV, env 0 None (-1) (-1) false false, w) else
  let i := lc_ifindex c in
  if negb bpf_obj then Ok (0, env i None (-1) (-1) false true, w) else
  if negb (lc_create c =? 0) then Ok (lc_create c, env i None (-1) (-1) false false, w) else
  let '(p, w) := new w OProg in
  if negb (lc_attach c =? 0) then
    w ← release w p is_prog;
    Ok (lc_attach c, env i None (-1) (-1) false false, w)
  else
  let w := attach w p in
  let undo map_fd :=
    let w := detach w p in
    w ← release w p is_prog;
    Ok (- EINVAL, env i None map_fd (-1) false false, w) in
  match lc_xsks_map c with
  | None => undo (-1)
  | Some fd =>
      if fd <? 0 then undo fd else
      let stats_fd := match lc_stats_map c with Some f => f | None => -1 end in
      Ok (0, env i (Some p) fd stats_fd true true, w)
  end.

(** [configure_umem]: the new [struct xsk_umem_info], or nothing. *)
Definition configure_umem (w : owned_world) (buffer : loc) (c : setup_calls) : res (option loc * owned_world) :=
  if negb (sc_umem_calloc c) then Ok (None, w) else
  let '(ui, w) := new w (OUmemInfo None) in
  if negb (sc_umem c =? 0) then
    w ← release w ui is_umem_info;
    Ok (None, w)
  else
    let '(u, w) := new w (OUmem buffer) in
    Ok (Some ui, store w ui (OUmemInfo (Some u))).

Definition set_setup (env : xsk_env) (queue_id : Z) (buffer : option loc) (size : Z) (zc : bool) (umem xsk : option loc) : xsk_env :=
  XskEnv (e_ifname env) (e_ifindex env) queue_id (e_prog env) (e_attach_mode env) (e_xsk_map_fd env) (e_stats_map_fd env)
    (e_custom_prog env) buffer size zc (e_owns_prog env) umem xsk.

(** From the labels [err_umem], [err_xsk] and [err_sock] on. *)
Definition err_umem (w : owned_world) (ui buffer : loc) : res owned_world :=
  u ← umem_of w ui;
  w ← release w u is_umem;
  w ← release w ui is_umem_info;
  release w buffer is_buffer.

Definition err_xsk (w : owned_world) (x ui buffer : loc) : res owned_world :=
  w ← release w x is_xsk;
  err_umem w ui buffer.

Definition err_sock (w : owned_world) (x ui buffer : loc) : res owned_world :=
  s ← socket_of w x;
  w ← release w s is_socket;
  err_xsk w x ui buffer.

Definition xsk_env_setup_socket (w : owned_world) (env : xsk_env) (queue_id : Z) (want_zerocopy : bool) (c : setup_calls)
    : res (Z * xsk_env * owned_world) :=
  let size := NUM_FRAMES * FRAME_SIZE in
  let zc0 := e_zerocopy env in
  if negb (sc_memalign c) then Ok (- ENOMEM, set_setup env queue_id (e_packet_buffer env) size zc0 (e_umem env) (e_xsk env), w) else
  let '(b, w) := new w OBuffer in
  '(ui, w) ← configure_umem w b c;
  match ui with
  | None =>
      w ← release w b is_buffer;
      Ok (- EINVAL, set_setup env queue_id None size zc0 None (e_xsk env), w)
  | Some ui =>
      if negb (sc_xsk_calloc c) then
        w ← err_umem w ui b;
        Ok (- ENOMEM, set_setup env queue_id None size zc0 None (e_xsk env), w)
      else
      let '(x, w) := new w (OXsk None) in
      u ← umem_of w ui;
      let '(ret, bound_zc, zc) :=
        if (sc_socket c =? - EOPNOTSUPP) && want_zerocopy then (sc_socket_retry c, false, false)
        else (sc_socket c, want_zerocopy, want_zerocopy && (sc_socket c =? 0)) in
      if negb (ret =? 0) then
        w ← err_xsk w x ui b;
        Ok (ret, set_setup env queue_id None size zc None (e_xsk env), w)
      else
      let '(s, w) := new w (OSocket u bound_zc None) in
      let w := store w x (OXsk (Some s)) in
      if e_custom_prog env && negb (sc_update c =? 0) then
        w ← err_sock w x ui b;
        Ok (sc_update c, set_setup env queue_id None size zc None (e_xsk env), w)
      else
      let w := if e_custom_prog env then store w s (OSocket u bound_zc (Some queue_id)) else w in
      if negb (sc_reserve c) then
        w ← err_sock w x ui b;
        Ok (- ENOSPC, set_setup env queue_id None size zc None (e_xsk env), w)
      else Ok (0, set_setup env queue_id (Some b) size zc (Some ui) (Some x), w)
  end.

Definition xsk_env_is_zerocopy (env : xsk_env) : bool := e_zerocopy env.

Definition xsk_env_clone_program (src : xsk_env) : xsk_env :=
  XskEnv (snprintf_s IF_NAMESIZE (e_ifname src)) (e_ifindex src) 0 None (e_attach_mode src) (e_xsk_map_fd src)
    (e_stats_map_fd src) (e_custom_prog src) None 0 false false None None.

Definition xsk_env_teardown (w : owned_world) (env : xsk_env) : res (xsk_env * owned_world) :=
  w ← match e_xsk env with
      | Some x => s ← socket_of w x; w ← release w s is_socket; release w x is_xsk
      | None => Ok w
      end;
  w ← match e_umem env with
      | Some ui => u ← umem_of w ui; w ← release w u is_umem; release w ui is_umem_info
      | None => Ok w
      end;
  w ← match e_packet_buffer env with Some b => release w b is_buffer | None => Ok w end;
  '(prog, w) ← match e_prog env with
      | Some p => if e_owns_prog env then w ← release (detach w p) p is_prog; Ok (None, w) else Ok (Some p, w)
      | None => Ok (None, w)
      end;
  Ok (XskEnv (e_ifname env) (e_ifindex env) (e_queue_id env) prog (e_attach_mode env) (e_xsk_map_fd env) (e_stats_map_fd env)
        (e_custom_prog env) None (e_packet_buffer_size env) (e_zerocopy env) (e_owns_prog env) None None, w).

(** ** [main] of af_xdp_user.c *)

(** [struct loop_ctx], but for its done queue and its thread. *)
Record loop_ctx := LoopCtx {
  lp_env : xsk_env;
  lp_eventfd : option loc;
  lp_idx : Z;
  lp_queue_id : Z
}.

(** A loop of the zeroed array after [main] has set its [done_eventfd] to -1;
    [None] is the descriptor -1, which the teardown does not close. *)
Definition unused_loop : loop_ctx := LoopCtx zeroed_env None 0 0.

(** The setup of loop [i], whose calls return [c]; [ok] is whether [eventfd]
    succeeds. The flag of the result is false where the code jumps to
    [err_teardown]. *)
Definition setup_loop (w : owned_world) (env0 : xsk_env) (i queue_id : Z) (want_zerocopy ok : bool) (c : setup_calls)
    : res (bool * loop_ctx * owned_world) :=
  let env := if 0 <? i then xsk_env_clone_program env0 else env0 in
  if negb ok then Ok (false, LoopCtx env None i queue_id, w) else
  let '(fd, w) := new w OEventfd in
  '(ret, env, w) ← xsk_env_setup_socket w env queue_id want_zerocopy c;
  Ok (ret =? 0, LoopCtx env (Some fd) i queue_id, w).

(** The loop over the queues, for the calls of each; what is left of the array
    is unused. *)
Fixpoint setup_loops (w : owned_world) (env0 : xsk_env) (i first_q : Z) (want_zerocopy : bool) (calls : list (bool * setup_calls))
    : res (bool * list loop_ctx * owned_world) :=
  match calls with
  | [] => Ok (true, [], w)
  | (ok, c) :: calls' =>
      '(good, lp, w) ← setup_loop w env0 i (first_q + i) want_zerocopy ok c;
      if good : bool then
        '(good, lps, w) ← setup_loops w env0 (i + 1) first_q want_zerocopy calls';
        Ok (good, lp :: lps, w)
      else Ok (false, lp :: replicate (length calls') unused_loop, w)
  end.

(** The label [err_teardown]. *)
Fixpoint teardown_loops (w : owned_world) (loops : list loop_ctx) : res owned_world :=
  match loops with
  | [] => Ok w
  | lp :: loops' =>
      w ← (if bool_decide (is_Some (e_xsk (lp_env lp))) || bool_decide (is_Some (e_prog (lp_env lp)))
           then '(_, w) ← xsk_env_teardown w (lp_env lp); Ok w else Ok w);
      w ← match lp_eventfd lp with Some fd => release w fd is_eventfd | None => Ok w end;
      teardown_loops w loops'
  end.

(** The setup for the queues of [calls], and the teardown: at once when a setup
    fails, or when the threads have ended, which acquire and release nothing of
    it. *)
Definition af_xdp_main (w : owned_world) (ifname : list Z) (bpf_obj : bool) (mode first_q : Z) (want_zerocopy : bool)
    (lc : load_calls) (calls : list (bool * setup_calls)) : res (Z * owned_world) :=
  '(ret, env0, w) ← xsk_env_load_program w ifname bpf_obj mode lc;
  if negb (ret =? 0) then Ok (1, w) else
  '(_, loops, w) ← setup_loops w env0 0 first_q want_zerocopy calls;
  w ← teardown_loops w loops;
  Ok (0, w).

(** ** Lemmas *)

Hypothesis alloc_fresh : forall X, alloc X ∉ X.

(** Nothing in [h] uses an object outside of [h]. *)
Definition closed (h : gmap loc xobj) : Prop := forall l o k, h !! l = Some o -> k ∈ holds o -> is_Some (h !! k).

(** The heap is the objects [L] and, apart from them, [h]. *)
Record heap_is (w : owned_world) (L : list (loc * xobj)) (h : gmap loc xobj) : Prop := HeapIs {
  hi_heap : w_heap w = list_to_map L ∪ h;
  hi_nodup : NoDup L.*1;
  hi_apart : forall l, l ∈ L.*1 -> h !! l = None;
  hi_closed : closed h
}.

Lemma heap_is_start w : closed (w_heap w) -> heap_is w [] (w_heap w).
Proof. intros Hc. split; [by rewrite list_to_map_nil, (left_id_L ∅ (∪))|constructor|by intros l ?%elem_of_nil|done]. Qed.

Lemma heap_is_end w h : heap_is w [] h -> w_heap w = h.
Proof. intros [-> _ _ _]. by rewrite list_to_map_nil, (left_id_L ∅ (∪)). Qed.

Lemma heap_lookup w L1 l o L2 h : heap_is w (L1 ++ (l, o) :: L2) h -> w_heap w !! l = Some o.
Proof.
  intros [-> Hnd _ _]. apply lookup_union_Some_l, elem_of_list_to_map_1; [done|]. apply elem_of_app. right. by left.
Qed.

Lemma new_is w L h o : heap_is w L h ->
  exists l w', new w o = (l, w') /\ heap_is w' ((l, o) :: L) h /\ w_attached w' = w_attached w /\ h !! l = None.
Proof.
  intros [Hh Hnd Ha Hc]. set (l := alloc (dom (w_heap w))). eexists l, _. pose proof (alloc_fresh (dom (w_heap w))) as Hf. fold l in Hf.
  apply not_elem_of_dom in Hf. rewrite Hh in Hf. apply lookup_union_None in Hf as [Hf1 Hf2].
  apply not_elem_of_list_to_map in Hf1. split; [done|]. split; [|done]. split; cbn.
  - fold l. by rewrite Hh, insert_union_l.
  - by constructor.
  - intros k [->|Hk]%elem_of_cons; auto.
  - done.
Qed.

Lemma list_to_map_middle (L1 : list (loc * xobj)) l o L2 : NoDup (L1 ++ (l, o) :: L2).*1 ->
  list_to_map (M := gmap loc xobj) (L1 ++ (l, o) :: L2) = <[l := o]> (list_to_map (L1 ++ L2)) /\
  (l ∉ (L1 ++ L2).*1) /\ NoDup (L1 ++ L2).*1.
Proof.
  intros Hnd. assert (L1 ++ (l, o) :: L2 ≡ₚ (l, o) :: L1 ++ L2) as Hp by (symmetry; apply Permutation_middle).
  split.
  - rewrite (list_to_map_proper _ _ Hnd Hp). done.
  - rewrite Hp in Hnd. by apply NoDup_cons in Hnd.
Qed.

Lemma store_is w L1 l o o' L2 h : heap_is w (L1 ++ (l, o) :: L2) h -> heap_is (store w l o') (L1 ++ (l, o') :: L2) h.
Proof.
  intros [Hh Hnd Ha Hc]. assert ((L1 ++ (l, o') :: L2).*1 = (L1 ++ (l, o) :: L2).*1) as E1 by by rewrite !fmap_app.
  split; rewrite ?E1; try done. cbn. rewrite Hh, insert_union_l. f_equal.
  rewrite (proj1 (list_to_map_middle L1 l o L2 Hnd)), (proj1 (list_to_map_middle L1 l o' L2 ltac:(by rewrite E1))).
  by rewrite insert_insert_eq.
Qed.

(** An object of [L] that none of [L] keeps in use can be released. *)
Lemma release_is w L1 l o L2 h k : heap_is w (L1 ++ (l, o) :: L2) h -> k o = true ->
  (forall i q, (i, q) ∈ L1 ++ (l, o) :: L2 -> l ∉ holds q) ->
  exists w', release w l k = Ok w' /\ heap_is w' (L1 ++ L2) h /\ w_attached w' = w_attached w.
Proof.
  intros Hi Hk Hfree. pose proof Hi as [Hh Hnd Ha Hc]. unfold release. rewrite (heap_lookup _ _ _ _ _ _ Hi), Hk.
  assert (h !! l = None) as Hl by (apply Ha; rewrite fmap_app; apply elem_of_app; right; by left).
  assert (in_use (w_heap w) l = false) as ->.
  { unfold in_use. rewrite bool_decide_eq_true_2; [done|]. intros i q Hq. rewrite Hh in Hq.
    apply lookup_union_Some_raw in Hq as [Hq|[_ Hq]].
    - apply elem_of_list_to_map_2 in Hq. by apply (Hfree i).
    - intros Hin. destruct (Hc i q l Hq Hin) as [? E1]. congruence. }
  cbn [negb andb]. eexists. split; [reflexivity|]. split; [|done].
  destruct (list_to_map_middle L1 l o L2 Hnd) as (E1 & Hnl & Hnd'). split; cbn; try done.
  - rewrite Hh, E1, <- insert_union_l, delete_insert_eq. apply delete_id. apply lookup_union_None. split; [|done].
    by apply not_elem_of_list_to_map.
  - intros i Hin. apply Ha. rewrite fmap_app in *. apply elem_of_app in Hin. apply elem_of_app.
    destruct Hin; [by left|right; by right].
Qed.

(** Shows that a location is not in use among a list of objects. *)
Ltac not_held Hi :=
  let Hnd := fresh in pose proof (hi_nodup _ _ _ Hi) as Hnd; cbn [fmap list_fmap fst app] in Hnd;
  let i := fresh in let q := fresh in let Hin := fresh in intros i q Hin; cbn [app] in Hin;
  repeat (apply elem_of_cons in Hin as [[= -> ->]|Hin]); try (by apply elem_of_nil in Hin); cbn [holds];
  rewrite ?NoDup_cons in Hnd; set_solver.

(** Releases the object of kind [k] after those of [L1]. *)
Ltac release_after L1 k Hi :=
  let w' := fresh "w" in let Hi' := fresh "Hi" in let Ha := fresh "Ha" in
  edestruct (release_is _ L1 _ _ _ _ k Hi) as (w' & -> & Hi' & Ha); [reflexivity|not_held Hi|];
  cbn [app] in Hi'; rewrite ?Ok_bind.

(** The objects of a socket. *)
Definition umem_objects (b ui u : loc) : list (loc * xobj) := [(u, OUmem b); (ui, OUmemInfo (Some u)); (b, OBuffer)].
Definition socket_objects (b ui u x s : loc) (zc : bool) (reg : option Z) : list (loc * xobj) :=
  (s, OSocket u zc reg) :: (x, OXsk (Some s)) :: umem_objects b ui u.

Lemma err_umem_spec w b ui u h : heap_is w (umem_objects b ui u) h ->
  exists w', err_umem w ui b = Ok w' /\ heap_is w' [] h /\ w_attached w' = w_attached w.
Proof.
  intros Hi. unfold err_umem, umem_of. rewrite (heap_lookup w [(u, OUmem b)] ui (OUmemInfo (Some u)) [(b, OBuffer)] h Hi), Ok_bind.
  unfold umem_objects in Hi. release_after (@nil (loc * xobj)) is_umem Hi. release_after (@nil (loc * xobj)) is_umem_info Hi0. release_after (@nil (loc * xobj)) is_buffer Hi1.
  eexists. split; [reflexivity|]. split; [done|congruence].
Qed.

Lemma err_xsk_spec w b ui u x o h : heap_is w ((x, OXsk o) :: umem_objects b ui u) h ->
  exists w', err_xsk w x ui b = Ok w' /\ heap_is w' [] h /\ w_attached w' = w_attached w.
Proof.
  intros Hi. unfold err_xsk. unfold umem_objects in Hi. release_after (@nil (loc * xobj)) is_xsk Hi.
  destruct (err_umem_spec _ b ui u h Hi0) as (w' & -> & Hi' & Ha'). eexists. split; [reflexivity|]. split; [done|congruence].
Qed.

Lemma err_sock_spec w b ui u x s zc reg h : heap_is w (socket_objects b ui u x s zc reg) h ->
  exists w', err_sock w x ui b = Ok w' /\ heap_is w' [] h /\ w_attached w' = w_attached w.
Proof.
  intros Hi. unfold err_sock, socket_of. rewrite (heap_lookup w [(s, _)] x (OXsk (Some s)) _ h Hi), Ok_bind.
  unfold socket_objects, umem_objects in Hi. release_after (@nil (loc * xobj)) is_socket Hi.
  destruct (err_xsk_spec _ b ui u x (Some s) h Hi0) as (w' & -> & Hi' & Ha'). eexists. split; [reflexivity|]. split; [done|congruence].
Qed.

(** What an environment owns for its socket, and for its program. *)
Definition socket_part (env : xsk_env) (L : list (loc * xobj)) : Prop :=
  (e_xsk env = None /\ e_umem env = None /\ e_packet_buffer env = None /\ L = []) \/
  (exists b ui u x s reg, e_xsk env = Some x /\ e_umem env = Some ui /\ e_packet_buffer env = Some b /\
     reg = (if e_custom_prog env then Some (e_queue_id env) else None) /\
     L = socket_objects b ui u x s (e_zerocopy env) reg).

Definition program_part (env : xsk_env) (L : list (loc * xobj)) : Prop :=
  match e_prog env with
  | Some p => e_owns_prog env = true /\ L = [(p, OProg)]
  | None => L = []
  end.

(** What [xsk_env_setup_socket] does not touch. *)
Definition same_program (env env' : xsk_env) : Prop :=
  e_ifindex env' = e_ifindex env /\ e_prog env' = e_prog env /\ e_owns_prog env' = e_owns_prog env /\
  e_custom_prog env' = e_custom_prog env /\ e_xsk_map_fd env' = e_xsk_map_fd env.

Definition no_socket (env : xsk_env) : Prop := e_xsk env = None /\ e_umem env = None /\ e_packet_buffer env = None.

(** Nothing is left of a failed setup. *)
Lemma setup_failed ret env env' w w' h : ret <> 0 -> heap_is w' [] h -> w_attached w' = w_attached w ->
  same_program env env' -> no_socket env' ->
  exists r e v, Ok (ret, env', w') = Ok (r, e, v) /\ w_attached v = w_attached w /\ same_program env e /\
    exists L, heap_is v L h /\ socket_part e L /\ (r = 0 <-> L <> []).
Proof.
  intros Hr Hi Ha Hp (Hx & Hu & Hb). exists ret, env', w'. split; [done|]. split; [congruence|]. split; [done|].
  exists []. split; [done|]. split; [left; by split_and!|done].
Qed.

Ltac failed_setup := eapply setup_failed; [done|eassumption|congruence|by split_and!|by split_and!].

Lemma setup_spec w env q want_zc c h : heap_is w [] h -> no_socket env ->
  exists ret env' w', xsk_env_setup_socket w env q want_zc c = Ok (ret, env', w') /\ w_attached w' = w_attached w /\
    same_program env env' /\ exists L, heap_is w' L h /\ socket_part env' L /\ (ret = 0 <-> L <> []).
Proof.
  intros Hi (Hx & Hu & Hb). unfold xsk_env_setup_socket. destruct (sc_memalign c); cbn [negb]; [|failed_setup].
  destruct (new_is w [] h OBuffer Hi) as (b & w1 & -> & Hi1 & Hw1 & _).
  unfold configure_umem. destruct (sc_umem_calloc c); cbn [negb]; cycle 1.
  { rewrite Ok_bind. release_after (@nil (loc * xobj)) is_buffer Hi1. failed_setup. }
  destruct (new_is w1 _ h (OUmemInfo None) Hi1) as (ui & w2 & -> & Hi2 & Hw2 & _).
  destruct (Z.eqb_spec (sc_umem c) 0) as [Hu0|Hu0]; cbn [negb]; cycle 1.
  { release_after (@nil (loc * xobj)) is_umem_info Hi2. release_after (@nil (loc * xobj)) is_buffer Hi0.
    failed_setup. }
  destruct (new_is w2 _ h (OUmem b) Hi2) as (u & w3 & -> & Hi3 & Hw3 & _). rewrite Ok_bind.
  apply (store_is _ [(u, _)] ui _ (OUmemInfo (Some u))) in Hi3. cbn [app] in Hi3. set (w3' := store _ _ _) in *. assert (w_attached w3' = w_attached w) as Hw3' by (cbn; congruence). clearbody w3'.
  fold (umem_objects b ui u) in Hi3. destruct (sc_xsk_calloc c); cbn [negb]; cycle 1.
  { destruct (err_umem_spec _ _ _ _ _ Hi3) as (w' & -> & Hi' & Ha). rewrite Ok_bind. failed_setup. }
  destruct (new_is w3' _ h (OXsk None) Hi3) as (x & w4 & -> & Hi4 & Hw4 & _).
  unfold umem_of. rewrite (heap_lookup w4 [(x, _); (u, _)] ui (OUmemInfo (Some u)) [(b, OBuffer)] h Hi4), Ok_bind.
  assert (exists ret bzc zc, (if (sc_socket c =? - EOPNOTSUPP) && want_zc then (sc_socket_retry c, false, false)
    else (sc_socket c, want_zc, want_zc && (sc_socket c =? 0))) = (ret, bzc, zc) /\ (ret = 0 -> bzc = zc)) as (ret & bzc & zc & -> & Hzc).
  { case_match; [by eexists _, _, _|]. eexists _, _, _. split; [done|]. intros ->. by rewrite andb_true_r. }
  destruct (Z.eqb_spec ret 0) as [Hr|Hr]; cbn [negb]; cycle 1.
  { destruct (err_xsk_spec _ _ _ _ _ _ _ Hi4) as (w' & -> & Hi' & Ha). rewrite Ok_bind. failed_setup. }
  destruct (new_is w4 _ h (OSocket u bzc None) Hi4) as (s & w5 & -> & Hi5 & Hw5 & _).
  apply (store_is _ [(s, _)] x _ (OXsk (Some s))) in Hi5. cbn [app] in Hi5. set (w6 := store _ _ _) in *. assert (w_attached w6 = w_attached w) as Hw6 by (cbn; congruence). clearbody w6.
  destruct (e_custom_prog env && negb (sc_update c =? 0)) eqn:Eup.
  { destruct (err_sock_spec _ _ _ _ _ _ _ _ _ Hi5) as (w' & -> & Hi' & Ha). rewrite Ok_bind. assert (sc_update c <> 0) by (intros E1; by rewrite E1, andb_false_r in Eup).
    failed_setup. }
  set (reg := if e_custom_prog env then Some q else None).
  assert (heap_is (if e_custom_prog env then store w6 s (OSocket u bzc (Some q)) else w6) (socket_objects b ui u x s bzc reg) h) as Hi6.
  { unfold reg. destruct (e_custom_prog env); [|done]. by apply (store_is _ [] s _ (OSocket u bzc (Some q))) in Hi5. }
  set (w7 := if e_custom_prog env then _ else w6) in *.
  assert (w_attached w7 = w_attached w) as Ha7 by (unfold w7; by destruct (e_custom_prog env)).
  destruct (sc_reserve c); cbn [negb]; cycle 1.
  { destruct (err_sock_spec _ _ _ _ _ _ _ _ _ Hi6) as (w' & -> & Hi' & Ha). rewrite Ok_bind. failed_setup. }
  eexists _, _, w7. split; [reflexivity|]. split; [done|]. split; [done|]. eexists. split; [exact Hi6|]. split; [|done].
  right. exists b, ui, u, x, s, reg. split_and!; try done. cbn [set_setup e_zerocopy]. by rewrite Hzc.
Qed.

(** The end of [xsk_env_teardown]: the program, if the environment owns one. *)
Lemma teardown_program w0 w env L h : program_part env L -> heap_is w L h -> w_attached w = w_attached w0 ->
  exists w', (match e_prog env with
      | Some p => if e_owns_prog env then w ← release (detach w p) p is_prog; Ok (None, w) else Ok (Some p, w)
      | None => Ok (None, w)
      end) = Ok (None, w') /\ heap_is w' [] h /\
    w_attached w' = match e_prog env with Some p => w_attached w0 ∖ {[p]} | None => w_attached w0 end.
Proof.
  unfold program_part. destruct (e_prog env) as [p|]; [|intros -> Hi Ha; by exists w]. intros [-> ->] Hi Ha.
  assert (heap_is (detach w p) [(p, OProg)] h) as Hi' by (by destruct Hi).
  release_after (@nil (loc * xobj)) is_prog Hi'. eexists. split; [reflexivity|]. split; [done|]. rewrite Ha0. cbn. by rewrite Ha.
Qed.

Lemma teardown_spec w env L1 L2 h : socket_part env L1 -> program_part env L2 -> heap_is w (L1 ++ L2) h ->
  exists env' w', xsk_env_teardown w env = Ok (env', w') /\ heap_is w' [] h /\ no_socket env' /\ e_prog env' = None /\
    w_attached w' = match e_prog env with Some p => w_attached w ∖ {[p]} | None => w_attached w end.
Proof.
  intros H1 H2 Hi. unfold xsk_env_teardown.
  destruct H1 as [(-> & -> & -> & ->)|(b & ui & u & x & s & reg & -> & -> & -> & _ & ->)].
  { rewrite !Ok_bind. destruct (teardown_program w w env L2 h H2 Hi eq_refl) as (w' & -> & Hi' & Ha). by eexists _, w'. }
  unfold socket_of. rewrite (heap_lookup w [(s, _)] x (OXsk (Some s)) _ h Hi), Ok_bind.
  unfold socket_objects, umem_objects in Hi. cbn [app] in Hi.
  assert (L2 = [] \/ exists p, L2 = [(p, OProg)]) as HL2.
  { unfold program_part in H2. destruct (e_prog env) as [p|]; [right; exists p; tauto|by left]. }
  destruct HL2 as [E2|[p E2]]; rewrite E2 in Hi, H2; release_after (@nil (loc * xobj)) is_socket Hi; release_after (@nil (loc * xobj)) is_xsk Hi0;
    unfold umem_of; erewrite (heap_lookup _ [(u, _)] ui (OUmemInfo (Some u)) _ h Hi1); rewrite Ok_bind;
    release_after (@nil (loc * xobj)) is_umem Hi1; release_after (@nil (loc * xobj)) is_umem_info Hi2;
    release_after (@nil (loc * xobj)) is_buffer Hi3;
    match goal with Hi : heap_is ?w1 _ _ |- _ =>
      destruct (teardown_program w w1 env _ h H2 Hi ltac:(congruence)) as (w' & -> & Hi' & Ha') end;
    by eexists _, w'.
Qed.

(** ** Several environments *)

Definition selfclosed (L : list (loc * xobj)) : Prop := forall l o k, (l, o) ∈ L -> k ∈ holds o -> k ∈ L.*1.

Lemma selfclosed_app L L' : selfclosed L -> selfclosed L' -> selfclosed (L ++ L').
Proof.
  intros H1 H2 l o k Hin Hk. rewrite fmap_app. apply elem_of_app. apply elem_of_app in Hin as [Hin|Hin]; [left; by eapply H1|right; by eapply H2].
Qed.

Lemma socket_part_closed env L : socket_part env L -> selfclosed L.
Proof.
  intros [(_ & _ & _ & ->)|(b & ui & u & x & s & reg & _ & _ & _ & _ & ->)] l o k Hin Hk; [by apply elem_of_nil in Hin|].
  unfold socket_objects, umem_objects in *. repeat (apply elem_of_cons in Hin as [[= -> ->]|Hin]); cbn in *; set_solver.
Qed.

Lemma closed_union L h : selfclosed L -> closed h -> closed (list_to_map L ∪ h).
Proof.
  intros HL Hh l o k Hl Hk. apply lookup_union_Some_raw in Hl as [Hl|[_ Hl]].
  - apply elem_of_list_to_map_2 in Hl. specialize (HL l o k Hl Hk). apply lookup_union_is_Some. left.
    destruct (list_to_map L !! k) eqn:E1; [done|]. by apply not_elem_of_list_to_map in E1.
  - apply lookup_union_is_Some. right. by eapply Hh.
Qed.

(** The objects [L'] as a part of the rest. *)
Lemma heap_focus w L L' h : heap_is w (L ++ L') h -> selfclosed L' -> heap_is w L (list_to_map L' ∪ h).
Proof.
  intros [Hh Hnd Ha Hc] HL. rewrite fmap_app in Hnd, Ha. apply NoDup_app in Hnd as (Hnd & Hd & Hnd'). split; [|done| |by apply closed_union].
  - rewrite Hh, list_to_map_app. symmetry. apply (assoc_L (∪)).
  - intros l Hl. apply lookup_union_None. split; [apply not_elem_of_list_to_map; auto|]. apply Ha, elem_of_app. by left.
Qed.

Lemma heap_unfocus w L L' h : heap_is w L (list_to_map L' ∪ h) -> NoDup L'.*1 -> (forall l, l ∈ L'.*1 -> h !! l = None) ->
  closed h -> heap_is w (L ++ L') h.
Proof.
  intros [Hh Hnd Ha _] Hnd' Ha' Hc. split; rewrite ?fmap_app; [| | |done].
  - rewrite Hh, list_to_map_app. apply (assoc_L (∪)).
  - apply NoDup_app. split_and!; [done| |done]. intros l Hl Hl'. specialize (Ha l Hl). apply lookup_union_None in Ha as [Ha _].
    by apply not_elem_of_list_to_map in Ha.
  - intros l [Hl|Hl]%elem_of_app; [|by apply Ha']. specialize (Ha l Hl). by apply lookup_union_None in Ha as [_ Ha].
Qed.

Lemma heap_is_perm w L L' h : L ≡ₚ L' -> heap_is w L h -> heap_is w L' h.
Proof.
  intros Hp [Hh Hnd Ha Hc]. split; [|by rewrite <- Hp|intros l; rewrite <- Hp; apply Ha|done].
  by rewrite Hh, (list_to_map_proper _ _ Hnd Hp).
Qed.

Definition event_part (lp : loop_ctx) (L : list (loc * xobj)) : Prop :=
  L = match lp_eventfd lp with Some fd => [(fd, OEventfd)] | None => [] end.

(** What the loops own, in their order. *)
Fixpoint loops_own (lps : list loop_ctx) (L : list (loc * xobj)) : Prop :=
  match lps with
  | [] => L = []
  | lp :: lps' => exists Ls Lp Le L', L = (Ls ++ Lp ++ Le) ++ L' /\ socket_part (lp_env lp) Ls /\ program_part (lp_env lp) Lp /\
      event_part lp Le /\ loops_own lps' L'
  end.

Lemma single_closed L : (forall l o, (l, o) ∈ L -> holds o = []) -> selfclosed L.
Proof. intros HL l o k Hin Hk. rewrite (HL l o Hin) in Hk. by apply elem_of_nil in Hk. Qed.

Lemma program_part_closed env L : program_part env L -> selfclosed L.
Proof.
  intros H1. apply single_closed. intros l o Hin. unfold program_part in H1. destruct (e_prog env) as [p|]; [destruct H1 as [_ ->]|subst L].
  - by apply list_elem_of_singleton in Hin as [= -> ->].
  - by apply elem_of_nil in Hin.
Qed.

Lemma event_part_closed lp L : event_part lp L -> selfclosed L.
Proof.
  unfold event_part. intros ->. apply single_closed. intros l o Hin. destruct (lp_eventfd lp); [|by apply elem_of_nil in Hin].
  by apply list_elem_of_singleton in Hin as [= -> ->].
Qed.

Lemma loops_own_closed lps : forall L, loops_own lps L -> selfclosed L.
Proof.
  induction lps as [|lp lps IH]; intros L; cbn [loops_own]; [intros ->; intros l o k ?%elem_of_nil; done|].
  intros (Ls & Lp & Le & L' & -> & Hs & Hp & He & Hl).
  apply selfclosed_app; [|by apply IH]. apply selfclosed_app; [by eapply socket_part_closed|].
  apply selfclosed_app; [by eapply program_part_closed|by eapply event_part_closed].
Qed.

Lemma unused_own n : loops_own (replicate n unused_loop) [].
Proof. induction n as [|n IH]; cbn; [done|]. exists [], [], [], []. split_and!; try done. by left. Qed.

Lemma teardown_loops_spec lps : forall w L h, loops_own lps L -> heap_is w L h ->
  exists w', teardown_loops w lps = Ok w' /\ heap_is w' [] h /\
    w_attached w' = w_attached w ∖ list_to_set (omap (fun lp => e_prog (lp_env lp)) lps).
Proof.
  induction lps as [|lp lps IH]; intros w L h; cbn [loops_own teardown_loops].
  - intros -> Hi. exists w. split_and!; [done..|]. cbn. set_solver.
  - intros (Ls & Lp & Le & L' & -> & Hs & Hp & He & Hl) Hi. pose proof (loops_own_closed _ _ Hl) as Hcl.
    pose proof Hi as [_ Hnd0 Hap0 Hcl0]. rewrite fmap_app in Hnd0, Hap0. apply NoDup_app in Hnd0 as (_ & _ & Hnd0).
    apply heap_focus in Hi; [|done]. rewrite app_assoc in Hi. pose proof (event_part_closed _ _ He) as Hce.
    pose proof (heap_focus _ _ _ _ Hi Hce) as Hi1. set (h1 := list_to_map Le ∪ _) in *.
    assert (exists w1, (if bool_decide (is_Some (e_xsk (lp_env lp))) || bool_decide (is_Some (e_prog (lp_env lp)))
        then '(_, w) ← xsk_env_teardown w (lp_env lp); Ok w else Ok w) = Ok w1 /\ heap_is w1 [] h1 /\
        w_attached w1 = match e_prog (lp_env lp) with Some p => w_attached w ∖ {[p]} | None => w_attached w end) as (w1 & -> & Hi2 & Ha1).
    { destruct (bool_decide (is_Some (e_xsk (lp_env lp))) || bool_decide (is_Some (e_prog (lp_env lp)))) eqn:Et.
      - destruct (teardown_spec w (lp_env lp) Ls Lp h1 Hs Hp Hi1) as (env' & w1 & -> & Hi2 & _ & _ & Ha). by exists w1.
      - apply orb_false_iff in Et as [Et1%bool_decide_eq_false_1 Et2%bool_decide_eq_false_1].
        apply eq_None_not_Some in Et1, Et2. exists w. split; [done|]. rewrite Et2. split; [|done].
        unfold program_part in Hp. rewrite Et2 in Hp. subst Lp.
        destruct Hs as [(_ & _ & _ & ->)|(? & ? & ? & ? & ? & ? & E1 & _)]; [done|congruence]. }
    rewrite Ok_bind. pose proof (hi_nodup _ _ _ Hi) as Hnd. rewrite fmap_app in Hnd. apply NoDup_app in Hnd as (_ & _ & Hnd).
    assert (heap_is w1 Le (list_to_map L' ∪ h)) as Hi3.
    { apply (heap_unfocus w1 [] Le) in Hi2; [done|done| |apply Hi]. intros l Hl'. apply (hi_apart _ _ _ Hi). rewrite fmap_app. apply elem_of_app. by right. }
    assert (exists w2, match lp_eventfd lp with Some fd => release w1 fd is_eventfd | None => Ok w1 end = Ok w2 /\
        heap_is w2 [] (list_to_map L' ∪ h) /\ w_attached w2 = w_attached w1) as (w2 & -> & Hi4 & Ha2).
    { unfold event_part in He. subst Le. destruct (lp_eventfd lp) as [fd|]; [|by exists w1].
      release_after (@nil (loc * xobj)) is_eventfd Hi3. by eexists. }
    assert (heap_is w2 L' h) as Hi5.
    { apply (heap_unfocus w2 [] L') in Hi4; [done..| |done]. intros l Hl'. apply Hap0, elem_of_app. by right. }
    rewrite Ok_bind. destruct (IH w2 L' h Hl Hi5) as (w' & -> & Hi' & Ha'). exists w'. split_and!; [done..|].
    rewrite Ha', Ha2, Ha1. cbn [omap list_omap]. destruct (e_prog (lp_env lp)); cbn; set_solver.
Qed.

(** ** Setup of the loops *)

Lemma clone_no_socket env : no_socket (xsk_env_clone_program env) /\ e_prog (xsk_env_clone_program env) = None.
Proof. done. Qed.

Lemma setup_loop_spec w env0 i q want_zc ok c : let env := if 0 <? i then xsk_env_clone_program env0 else env0 in
  no_socket env -> closed (w_heap w) ->
  exists good lp w' Ls Le, setup_loop w env0 i q want_zc ok c = Ok (good, lp, w') /\ heap_is w' (Ls ++ Le) (w_heap w) /\
    socket_part (lp_env lp) Ls /\ event_part lp Le /\ same_program env (lp_env lp) /\ w_attached w' = w_attached w.
Proof.
  intros env Hn Hc. unfold setup_loop. fold env. pose proof (heap_is_start w Hc) as Hi. destruct ok; cbn [negb]; cycle 1.
  { eexists _, _, w, [], []. split; [reflexivity|]. destruct Hn as (? & ? & ?). split_and!; try done. left. by split_and!. }
  destruct (new_is w [] (w_heap w) OEventfd Hi) as (fd & w1 & -> & Hi1 & Ha1 & Hfd).
  assert (selfclosed [(fd, OEventfd)]) as Hse by (apply single_closed; by intros l o [= -> ->]%list_elem_of_singleton).
  destruct (setup_spec w1 env q want_zc c (list_to_map [(fd, OEventfd)] ∪ w_heap w)) as (ret & env' & w' & -> & Ha & Hsame & L & Hi' & Hs & _); [|done|].
  { by apply (heap_focus w1 [] [(fd, OEventfd)]). }
  rewrite Ok_bind. eexists _, _, w', L, [(fd, OEventfd)]. split; [reflexivity|]. split_and!; try done; [|congruence].
  apply heap_unfocus; [done|apply NoDup_singleton| |done]. by intros l ->%list_elem_of_singleton.
Qed.

(** The loops of [lps] own [L] apart from [h], and have no program. *)
Definition loops_set_up (r : res (bool * list loop_ctx * owned_world)) (w : owned_world) (h : gmap loc xobj)
    (first : list loop_ctx) : Prop :=
  exists good lps w' L, r = Ok (good, first ++ lps, w') /\ heap_is w' L h /\ loops_own (first ++ lps) L /\
    w_attached w' = w_attached w /\ omap (fun lp => e_prog (lp_env lp)) lps = [].

(** The setup of further loops after one that owns [Ls ++ Lp ++ Le]. *)
Lemma setup_rest (good : bool) lp w env0 i first_q want_zc calls Ls Lp Le h : heap_is w (Ls ++ Lp ++ Le) h ->
  socket_part (lp_env lp) Ls -> program_part (lp_env lp) Lp -> event_part lp Le ->
  (forall w, closed (w_heap w) -> loops_set_up (setup_loops w env0 i first_q want_zc calls) w (w_heap w) []) ->
  loops_set_up (if good then '(good, lps, w) ← setup_loops w env0 i first_q want_zc calls; Ok (good, lp :: lps, w)
    else Ok (false, lp :: replicate (length calls) unused_loop, w)) w h [lp].
Proof.
  intros Hi Hs Hp He Hrest.
  assert (selfclosed (Ls ++ Lp ++ Le)) as Hcl.
  { apply selfclosed_app; [by eapply socket_part_closed|].
    apply selfclosed_app; [by eapply program_part_closed|by eapply event_part_closed]. }
  destruct good.
  - assert (closed (w_heap w)) as Hc1 by (rewrite (hi_heap _ _ _ Hi); apply closed_union; [done|apply Hi]).
    destruct (Hrest w Hc1) as (good & lps & w' & L & -> & Hi' & Hl & Ha' & Ho). rewrite Ok_bind.
    eexists good, lps, w', ((Ls ++ Lp ++ Le) ++ L). split; [reflexivity|]. split_and!; [|by exists Ls, Lp, Le, L|done..].
    rewrite (hi_heap _ _ _ Hi) in Hi'. destruct Hi as [_ Hnd Hap Hch]. apply heap_unfocus in Hi'; [|done..].
    eapply heap_is_perm; [|exact Hi']. apply Permutation_app_comm.
  - eexists false, _, w, ((Ls ++ Lp ++ Le) ++ []). split; [reflexivity|]. split_and!; [by rewrite app_nil_r| |done|].
    + exists Ls, Lp, Le, []. split_and!; try done. apply unused_own.
    + clear. by induction (length calls).
Qed.

Lemma setup_loops_spec calls : forall env0 i first_q want_zc w, 0 < i -> closed (w_heap w) ->
  loops_set_up (setup_loops w env0 i first_q want_zc calls) w (w_heap w) [].
Proof.
  induction calls as [|[ok c] calls IH]; intros env0 i first_q want_zc w Hpos Hc; cbn [setup_loops].
  { exists true, [], w, []. split_and!; try done. by apply heap_is_start. }
  destruct (setup_loop_spec w env0 i (first_q + i) want_zc ok c) as (good & lp & w1 & Ls & Le & -> & Hi & Hs & He & Hsame & Ha).
  { rewrite (proj2 (Z.ltb_lt _ _)) by done. apply clone_no_socket. }
  { done. }
  rewrite (proj2 (Z.ltb_lt _ _)) in Hsame by done. destruct Hsame as (_ & Hp & _). change (e_prog (lp_env lp) = None) in Hp.
  rewrite Ok_bind. destruct (setup_rest good lp w1 env0 (i + 1) first_q want_zc calls Ls [] Le (w_heap w)) as (g & lps & w' & L & -> & Hi' & Hl & Ha' & Ho);
    [done|done|unfold program_part; by rewrite Hp|done|intros w2 Hc2; apply IH; [lia|done]|].
  exists g, (lp :: lps), w', L. split_and!; try done; [congruence|]. cbn. by rewrite Hp.
Qed.

(** Nothing more and nothing less is owned. *)
Lemma heap_back w w' : heap_is w' [] (w_heap w) -> w_attached w' = w_attached w -> w' = w.
Proof. intros Hi Ha. apply heap_is_end in Hi. destruct w, w'. cbn in *. congruence. Qed.

Lemma load_spec w ifname bpf_obj mode c : closed (w_heap w) -> w_attached w ⊆ dom (w_heap w) ->
  exists ret env w', xsk_env_load_program w ifname bpf_obj mode c = Ok (ret, env, w') /\ no_socket env /\
    (ret <> 0 -> w' = w) /\
    (ret = 0 -> exists L, heap_is w' L (w_heap w) /\ program_part env L /\
       w_attached w' ∖ list_to_set (option_list (e_prog env)) = w_attached w).
Proof.
  intros Hc Hsub. pose proof (heap_is_start w Hc) as Hi. unfold xsk_env_load_program.
  destruct (Z.eqb_spec (lc_ifindex c) 0) as [_|_]; [by do 3 eexists|]. destruct bpf_obj; cbn [negb]; cycle 1.
  { do 3 eexists. split; [reflexivity|]. split_and!; try done. intros _. exists []. split_and!; try done. cbn. set_solver. }
  destruct (Z.eqb_spec (lc_create c) 0) as [_|Hcr]; cbn [negb]; [|by do 3 eexists].
  destruct (new_is w [] (w_heap w) OProg Hi) as (p & w1 & -> & Hi1 & Ha1 & Hp).
  assert (p ∉ w_attached w) as Hpa by (intros Hin; apply Hsub, elem_of_dom in Hin; destruct Hin; congruence).
  destruct (Z.eqb_spec (lc_attach c) 0) as [_|Hat]; cbn [negb]; cycle 1.
  { release_after (@nil (loc * xobj)) is_prog Hi1. do 3 eexists. split; [reflexivity|]. split_and!; try done.
    intros _. apply heap_back; [done|congruence]. }
  assert (exists w', release (detach (attach w1 p) p) p is_prog = Ok w' /\ w' = w) as (w' & Hundo & Ew).
  { assert (heap_is (detach (attach w1 p) p) [(p, OProg)] (w_heap w)) as Hi2 by (by destruct Hi1).
    release_after (@nil (loc * xobj)) is_prog Hi2. eexists. split; [reflexivity|].
    apply heap_back; [done|]. rewrite Ha. cbn. rewrite Ha1. set_solver. }
  destruct (lc_xsks_map c) as [fd|]; [|rewrite Hundo, Ew; by do 3 eexists]. destruct (fd <? 0); [rewrite Hundo, Ew; by do 3 eexists|].
  do 3 eexists. split; [reflexivity|]. split_and!; try done. intros _. exists [(p, OProg)]. split_and!.
  - by destruct Hi1.
  - by split.
  - cbn. rewrite Ha1. set_solver.
Qed.

(** ** Properties *)

(** for every combination of results of the library calls,
    [xsk_env_setup_socket] releases no object twice and none that is in use.
    When it fails, what is owned is exactly what was owned before and the
    environment has no dangling pointer. When it succeeds, the environment owns
    one buffer, one UMEM and one socket, [zerocopy] tells how the socket was
    really bound, and with the program's own filter the socket is registered for
    its queue; [xsk_env_teardown] then restores what was owned before. *)
Theorem setup_releases w env q want_zc c : closed (w_heap w) -> no_socket env -> e_prog env = None ->
  exists ret env' w', xsk_env_setup_socket w env q want_zc c = Ok (ret, env', w') /\ w_attached w' = w_attached w /\
    (ret <> 0 -> w' = w /\ no_socket env') /\
    (ret = 0 -> exists b ui u x s env2 w2, e_packet_buffer env' = Some b /\ e_umem env' = Some ui /\ e_xsk env' = Some x /\
       w_heap w' !! x = Some (OXsk (Some s)) /\
       w_heap w' !! s = Some (OSocket u (e_zerocopy env') (if e_custom_prog env then Some (e_queue_id env') else None)) /\
       xsk_env_teardown w' env' = Ok (env2, w2) /\ w2 = w /\ no_socket env2).
Proof.
  intros Hc Hn Hp. destruct (setup_spec w env q want_zc c (w_heap w) (heap_is_start w Hc) Hn)
    as (ret & env' & w' & E1 & Ha & Hsame & L & Hi & Hs & Hr). exists ret, env', w'. split; [done|]. split; [done|].
  destruct Hsame as (_ & Hp' & _ & Hcu & _). split; intros Hret.
  - destruct Hs as [(Hx & Hu & Hb & ->)|(b & ui & u & x & s & reg & _ & _ & _ & _ & ->)]; [|by destruct Hret, (proj2 Hr)].
    split; [by apply heap_back|by split_and!].
  - assert (program_part env' []) as Hpp by (unfold program_part; by rewrite Hp', Hp).
    destruct (teardown_spec w' env' L [] (w_heap w) Hs Hpp ltac:(by rewrite app_nil_r)) as (env2 & w2 & Et & Hi2 & Hn2 & _ & Ha2).
    rewrite Hp', Hp in Ha2. destruct Hs as [(Hx & Hu & Hb & ->)|(b & ui & u & x & s & reg & Hx & Hu & Hb & Ereg & ->)]; [by apply Hr in Hret|].
    exists b, ui, u, x, s, env2, w2. rewrite Hcu in Ereg. subst reg. split_and!; try done.
    + by apply (heap_lookup _ [_] x _ _ _ Hi).
    + by apply (heap_lookup _ [] s _ _ _ Hi).
    + apply heap_back; [done|congruence].
Qed.

(** C17: whichever of the calls of the setup fail, and when none does, [main] of
    af_xdp_user.c ends with the program detached and with every descriptor,
    UMEM, socket and allocation of its setup released exactly once: what is
    owned is what was owned at the start. *)
Theorem main_releases_all w ifname bpf_obj mode first_q want_zc lc call calls : closed (w_heap w) ->
  w_attached w ⊆ dom (w_heap w) ->
  exists code, af_xdp_main w ifname bpf_obj mode first_q want_zc lc (call :: calls) = Ok (code, w).
Proof.
  intros Hc Hsub. unfold af_xdp_main.
  destruct (load_spec w ifname bpf_obj mode lc Hc Hsub) as (ret & env0 & w1 & -> & Hn & Hfail & Hgood). rewrite Ok_bind.
  destruct (Z.eqb_spec ret 0) as [Hr|Hr]; cbn [negb]; [|rewrite (Hfail Hr); by eexists].
  destruct (Hgood Hr) as (Lp & Hi & Hpp & Hat). clear Hfail Hgood. destruct call as [ok c]. cbn [setup_loops].
  pose proof (program_part_closed _ _ Hpp) as Hpc.
  assert (closed (w_heap w1)) as Hc1 by (rewrite (hi_heap _ _ _ Hi); by apply closed_union).
  destruct (setup_loop_spec w1 env0 0 (first_q + 0) want_zc ok c Hn Hc1) as (good & lp & w2 & Ls & Le & -> & Hi2 & Hs & He & Hsame & Ha2).
  rewrite Ok_bind. destruct Hsame as (_ & Hp & Ho & _). cbn [Z.ltb Z.compare] in Hp, Ho.
  assert (heap_is w2 (Ls ++ Lp ++ Le) (w_heap w)) as Hi3.
  { rewrite (hi_heap _ _ _ Hi) in Hi2. destruct Hi as [_ Hnd Hap _]. apply heap_unfocus in Hi2; [|done..].
    eapply heap_is_perm; [|exact Hi2]. solve_Permutation. }
  destruct (setup_rest good lp w2 env0 (0 + 1) first_q want_zc calls Ls Lp Le (w_heap w)) as (g & lps & w3 & L & -> & Hi4 & Hl & Ha3 & Hnone);
    [done|done|unfold program_part in *; by rewrite Hp, Ho|done|intros w' Hc'; by apply setup_loops_spec|].
  rewrite Ok_bind. destruct (teardown_loops_spec _ _ _ _ Hl Hi4) as (w4 & -> & Hi5 & Ha5). rewrite Ok_bind. exists 0. f_equal. f_equal.
  apply heap_back; [done|]. rewrite Ha5, Ha3, Ha2, <- Hat. f_equal. f_equal.
  rewrite omap_app, Hnone, app_nil_r. cbn. rewrite Hp. by destruct (e_prog env0).
Qed.
End setup.

(** A second queue whose socket needs the fallback to copy mode. *)
Definition sample_calls : setup_calls := SetupCalls true true 0 true (- EOPNOTSUPP) 0 0 true.

Lemma setup_releases_witness :
  let w := World {[1%positive := OProg]} {[1%positive]} in
  let env := XskEnv [] 2 0 None 0 5 6 true None 0 false false None None in
  exists ret env' w', xsk_env_setup_socket fresh w env 1 true sample_calls = Ok (ret, env', w') /\ w_attached w' = w_attached w /\
    (ret <> 0 -> w' = w /\ no_socket env') /\
    (ret = 0 -> exists b ui u x s env2 w2, e_packet_buffer env' = Some b /\ e_umem env' = Some ui /\ e_xsk env' = Some x /\
       w_heap w' !! x = Some (OXsk (Some s)) /\
       w_heap w' !! s = Some (OSocket u (e_zerocopy env') (if e_custom_prog env then Some (e_queue_id env') else None)) /\
       xsk_env_teardown w' env' = Ok (env2, w2) /\ w2 = w /\ no_socket env2).
Proof.
  apply (setup_releases fresh is_fresh (World {[1%positive := OProg]} {[1%positive]})
    (XskEnv [] 2 0 None 0 5 6 true None 0 false false None None) 1 true sample_calls).
  - intros l o k Hl Hk. cbn [w_heap] in Hl. apply lookup_singleton_Some in Hl as [_ <-]. by apply elem_of_nil in Hk.
  - done.
  - done.
Defined.

(** The setup of the sample succeeds, in copy mode. *)
Example sample_setup_copies :
  match xsk_env_setup_socket fresh (World {[1%positive := OProg]} {[1%positive]})
    (XskEnv [] 2 0 None 0 5 6 true None 0 false false None None) 1 true sample_calls with
  | Ok (ret, env, w) => ret = 0 /\ xsk_env_is_zerocopy env = false /\ size (w_heap w) = 6%nat
  | _ => False
  end.
Proof. vm_compute. auto. Qed.

(** Two queues, of which the second cannot be registered. *)
Lemma main_releases_all_witness :
  exists code, af_xdp_main fresh (World ∅ ∅) [101; 116; 104] true 0 0 true (LoadCalls 2 0 0 (Some 5) None)
    [(true, sample_calls); (true, SetupCalls true true 0 true 0 0 (-1) true)] = Ok (code, World ∅ ∅).
Proof.
  apply (main_releases_all fresh is_fresh (World ∅ ∅) [101; 116; 104] true 0 0 true (LoadCalls 2 0 0 (Some 5) None)
    (true, sample_calls) [(true, SetupCalls true true 0 true 0 0 (-1) true)]).
  - intros l o k Hl. cbn [w_heap] in Hl. by rewrite lookup_empty in Hl.
  - done.
Defined.
