(* ===== verification/XdpServer.v ===== *)
(** * The AF_XDP server (src/af_xdp_user.c: loop_main, worker_main, the queues
      between them)

    One thread for each receive queue runs the functions of XskLoop.v on its own
    socket; the workers share one pending queue and hand each answered job to
    the done queue of the loop it came from. The theorem follows a packet from
    the RX ring of a queue to the TX ring of the same queue, in every
    interleaving of loops, workers and the kernel. *)

From stdpp Require Import prelude list gmap.
From Stdlib Require Import ZArith Lia.
From S2P Require Import Prelude DnsName DnsParse DnsBuild Backend ResolverStub XdpKern XdpFrame XskRing XskLoop XskFrames XskSetup.

Local Open Scope Z_scope.

#[local] Opaque all_frames.

Section xdp_server.
Context {P C : Type -> Type} `{RingLaws P C} {E B : Type} `{BackendLaws E B}.

(** ** State *)

(** A loop: its socket with the kernel's end, the jobs [drain_rx] has made of a
    batch and not pushed yet, and [done_q]. *)
Record rx_loop_state := RxLoop {
  r_sys : xdp_system (P := P) (C := C);
  r_hand : list dns_job;
  r_done : list dns_job
}.

(** The loops, [pending_q], the jobs workers have, [resolved_ok] and
    [resolved_drop]; and the history: the packets the kernel has put on the RX
    ring of a queue, and those it has taken from its TX ring. *)
Record xdp_server := XdpServer {
  v_loops : list rx_loop_state;
  v_pending : pending;
  v_busy : list dns_job;
  v_ok : Z;
  v_drop : Z;
  v_in : list (nat * list Z);
  v_out : list (nat * list Z)
}.

Definition set_loop (i : nat) (lp : rx_loop_state) (s : xdp_server) : xdp_server :=
  XdpServer (<[i := lp]> (v_loops s)) (v_pending s) (v_busy s) (v_ok s) (v_drop s) (v_in s) (v_out s).

Definition xdp_start (xs : list (xsk_socket_info (P := P) (C := C))) : xdp_server :=
  XdpServer ((fun x => RxLoop (XdpSystem x [] []) [] []) <$> xs) (Pending [] true) [] 0 0 [] [].

(** ** Steps *)

(** The bytes a descriptor refers to. *)
Definition packet (buffer : gmap Z (list Z)) (d : Z * Z) : list Z :=
  match umem_read buffer d.1 d.2 with Ok p => p | _ => [] end.

(** The packets a move of the kernel puts on the RX ring, and takes from the TX
    ring. *)
Definition arrived (y y' : xdp_system (P := P) (C := C)) : list (list Z) :=
  packet (x_buffer (y_xsk y')) <$> zdrop (zlen (rx_descs (y_xsk y))) (rx_descs (y_xsk y')).
Definition departed (y y' : xdp_system (P := P) (C := C)) : list (list Z) :=
  packet (x_buffer (y_xsk y)) <$> ztake (zlen (tx_descs (y_xsk y)) - zlen (tx_descs (y_xsk y'))) (tx_descs (y_xsk y)).

Definition log_kernel (i : nat) (lp : rx_loop_state) (y' : xdp_system) (s : xdp_server) : xdp_server :=
  XdpServer (<[i := RxLoop y' (r_hand lp) (r_done lp)]> (v_loops s)) (v_pending s) (v_busy s) (v_ok s) (v_drop s)
    (v_in s ++ (pair i <$> arrived (r_sys lp) y')) (v_out s ++ (pair i <$> departed (r_sys lp) y')).

(** [drain_rx] of loop [i], but for its pushes: between them workers and other
    loops take the mutex of [pending_q], while the rest of it touches only what
    belongs to the loop. A queue of its own collects the jobs, at most 64. *)
Definition loop_receive (env : nat -> option (list Z) * Z) (i : nat) (s : xdp_server) : res xdp_server :=
  match v_loops s !! i with
  | None => Fault
  | Some (RxLoop (XdpSystem x krx ktx) hand done) =>
      '(x', q) ← drain_rx env (Z.of_nat i) x (Pending [] true);
      Ok (set_loop i (RxLoop (XdpSystem x' krx ktx) (hand ++ p_jobs q) done) s)
  end.

Definition count_full (s : xsk_stats) : xsk_stats :=
  XskStats (rx_packets s) (rx_bytes s) (tx_packets s) (tx_bytes s) (rx_dropped s) (tx_no_slot s) (tx_no_frame s) (u64 (queue_full s + 1)).

(** One of its pushes: a job the queue refuses is freed. *)
Definition loop_push (i : nat) (s : xdp_server) : res xdp_server :=
  match v_loops s !! i with
  | Some (RxLoop (XdpSystem x krx ktx) (job :: hand) done) =>
      let '(q, ok) := push_pending (v_pending s) job in
      let x' := if ok : bool then x else set_stats x (count_full (x_stats x)) in
      Ok (XdpServer (<[i := RxLoop (XdpSystem x' krx ktx) hand done]> (v_loops s)) q (v_busy s) (v_ok s) (v_drop s) (v_in s) (v_out s))
  | _ => Fault
  end.

(** [drain_done_and_tx] and [reclaim_tx] of loop [i]. *)
Definition loop_transmit (i : nat) (s : xdp_server) : res xdp_server :=
  match v_loops s !! i with
  | None => Fault
  | Some (RxLoop (XdpSystem x krx ktx) hand done) =>
      x' ← drain_done_and_tx done x;
      Ok (set_loop i (RxLoop (XdpSystem x' krx ktx) hand []) s)
  end.
Definition loop_reclaim (i : nat) (s : xdp_server) : res xdp_server :=
  match v_loops s !! i with
  | None => Fault
  | Some (RxLoop (XdpSystem x krx ktx) hand done) =>
      x' ← reclaim_tx x;
      Ok (set_loop i (RxLoop (XdpSystem x' krx ktx) hand done) s)
  end.

(** A worker pops a job. *)
Definition worker_take (s : xdp_server) : option xdp_server :=
  match p_jobs (v_pending s) with
  | [] => None
  | job :: jobs => Some (XdpServer (v_loops s) (Pending jobs (p_open (v_pending s))) (job :: v_busy s) (v_ok s) (v_drop s) (v_in s) (v_out s))
  end.

(** The rest of its round, with the job [n] of the busy ones and the backend in
    the state [st]; the done queues have no bound and are never shut down. *)
Definition worker_finish (e : E) (st : B) (n : nat) (s : xdp_server) : res xdp_server :=
  match v_busy s !! n with
  | None => Fault
  | Some job =>
      '(_, r) ← worker_resolve e st job;
      let busy := delete n (v_busy s) in
      match r with
      | None => Ok (XdpServer (v_loops s) (v_pending s) busy (v_ok s) (u64 (v_drop s + 1)) (v_in s) (v_out s))
      | Some job' =>
          let i := Z.to_nat (j_loop_idx job') in
          match v_loops s !! i with
          | None => Fault
          | Some lp => Ok (XdpServer (<[i := RxLoop (r_sys lp) (r_hand lp) (r_done lp ++ [job'])]> (v_loops s)) (v_pending s) busy
                         (u64 (v_ok s + 1)) (v_drop s) (v_in s) (v_out s))
          end
      end
  end.

(** [queue_shutdown(&pending_q)] *)
Definition close_pending (s : xdp_server) : xdp_server :=
  XdpServer (v_loops s) (Pending (p_jobs (v_pending s)) false) (v_busy s) (v_ok s) (v_drop s) (v_in s) (v_out s).

(** The moves of kernel, loops and workers. A loop's thread ends its pushes
    before it goes on. The backend is shared with other threads, so that a call
    may find it in any of its states. *)
Inductive xdp_step : xdp_server -> xdp_server -> Prop :=
| xdp_kernel i lp y' s : v_loops s !! i = Some lp -> kernel_step (r_sys lp) y' -> xdp_step s (log_kernel i lp y' s)
| xdp_receive env i lp s s' : v_loops s !! i = Some lp -> r_hand lp = [] ->
    (forall k resp, (env k).1 = Some resp -> zlen resp = DNS_MAX_MSG_LEN) ->
    loop_receive env i s = Ok s' -> xdp_step s s'
| xdp_push i s s' : loop_push i s = Ok s' -> xdp_step s s'
| xdp_transmit i lp s s' : v_loops s !! i = Some lp -> r_hand lp = [] -> loop_transmit i s = Ok s' -> xdp_step s s'
| xdp_reclaim i lp s s' : v_loops s !! i = Some lp -> r_hand lp = [] -> loop_reclaim i s = Ok s' -> xdp_step s s'
| xdp_take s s' : worker_take s = Some s' -> xdp_step s s'
| xdp_finish e st n s s' : b_env_ok e -> b_ok st -> worker_finish e st n s = Ok s' -> xdp_step s s'
| xdp_close s : xdp_step s (close_pending s).

(** ** The way of a packet *)

(** Where a packet is: received, a job, an answered job, or its reply. *)
Inductive stage :=
| Received (pkt : list Z)
| Asked (job : dns_job)
| Done (job : dns_job)
| Reply (pkt : list Z).

Definition asked (job : dns_job) : nat * stage := (Z.to_nat (j_loop_idx job), Asked job).

Definition loop_work (i : nat) (lp : rx_loop_state) : list (nat * stage) :=
  let x := y_xsk (r_sys lp) in
  (pair i ∘ Received ∘ packet (x_buffer x) <$> rx_descs x) ++ (asked <$> r_hand lp) ++ (pair i ∘ Done <$> r_done lp) ++
  (pair i ∘ Reply ∘ packet (x_buffer x) <$> tx_descs x).

(** All that is under way, and what has been sent. *)
Definition work (s : xdp_server) : list (nat * stage) :=
  concat (imap loop_work (v_loops s)) ++ (asked <$> p_jobs (v_pending s)) ++ (asked <$> v_busy s) ++
  ((fun o => (o.1, Reply o.2)) <$> v_out s).

(** A stage of the packet [o.2] of queue [o.1]. *)
Definition replies_to (o : list Z) (pkt : list Z) : Prop :=
  exists F G, dns_frame F pkt /\ o = frame_bytes G /\ answers F G.

Definition origin (w : nat * stage) (o : nat * list Z) : Prop :=
  w.1 = o.1 /\ bytes o.2 /\ zlen o.2 < 2 ^ 32 /\
  match w.2 with
  | Received pkt => pkt = o.2
  | Asked job => exists F resp now, dns_frame F o.2 /\ zlen resp = DNS_MAX_MSG_LEN /\ job = job_of F resp now (Z.of_nat w.1)
  | Done job => exists F, dns_frame F o.2 /\ answered F job
  | Reply pkt => replies_to pkt o.2
  end.

(** Each stage has a packet of its own. *)
Definition matched (W : list (nat * stage)) (ins : list (nat * list Z)) : Prop :=
  exists os, Forall2 origin W os /\ os ⊆+ ins.

(** Stages that go on, or are dropped. *)
Definition advance (W W' : list (nat * stage)) : Prop :=
  exists W0, W0 ⊆+ W /\ Forall2 (fun a b => forall o, origin a o -> origin b o) W0 W'.

(** ** Lemmas: stages *)

Lemma advance_app W1 W1' W2 W2' : advance W1 W1' -> advance W2 W2' -> advance (W1 ++ W2) (W1' ++ W2').
Proof.
  intros (A & HA & H1') (A2 & HA2 & H2'). exists (A ++ A2). split; [by apply submseteq_app|by apply Forall2_app].
Qed.

Lemma advance_sub W W' : W' ⊆+ W -> advance W W'.
Proof. intros Hs. exists W'. split; [done|]. by apply Forall_Forall2_diag, Forall_true. Qed.

Lemma advance_refl W : advance W W.
Proof. by apply advance_sub. Qed.

Lemma advance_perm A A' W W' : W ≡ₚ A -> W' ≡ₚ A' -> advance A A' -> advance W W'.
Proof.
  intros HW HW' (W0 & Hs & Hf). symmetry in HW'. assert (Forall2 (flip (fun a b => forall o, origin a o -> origin b o)) A' W0) as Hf' by by apply Forall2_flip.
  destruct (Permutation_Forall2 HW' Hf') as (W1 & Hp & Hf1). exists W1. split; [by rewrite HW, <- Hp|by apply Forall2_flip].
Qed.

#[local] Instance advance_proper : Proper ((≡ₚ) ==> (≡ₚ) ==> iff) advance.
Proof. intros W1 W2 HW W1' W2' HW'. split; by apply advance_perm. Qed.

Lemma advance_one a b W W' : (forall o, origin a o -> origin b o) -> advance W W' -> advance (a :: W) (b :: W').
Proof. intros Hab (W0 & Hs & HW). exists (a :: W0). split; [by apply submseteq_skip|by constructor]. Qed.

Lemma advance_drop a W W' : advance W W' -> advance (a :: W) W'.
Proof. intros (W0 & Hs & HW). exists W0. split; [|done]. by apply submseteq_cons. Qed.

Lemma matched_advance W W' ins : advance W W' -> matched W ins -> matched W' ins.
Proof.
  intros (W0 & (K & HK)%submseteq_Permutation & HW) (os & Hos & Hin).
  destruct (Permutation_Forall2 HK Hos) as (os' & Hp & Hos'). apply Forall2_app_inv_l in Hos' as (o1 & o2 & Ho1 & Ho2 & ->).
  exists o1. split.
  - clear - Ho1 HW. revert o1 Ho1. induction HW as [|a b W0 W' Hab _ IH]; intros o1 Ho1; inversion Ho1; subst; constructor; auto.
  - etrans; [|exact Hin]. rewrite Hp. apply submseteq_inserts_r. done.
Qed.

Lemma matched_perm W W' ins : W ≡ₚ W' -> matched W ins -> matched W' ins.
Proof. intros Hp. apply matched_advance, advance_sub. by rewrite Hp. Qed.

(** A part of the stages goes on, the rest stays. *)
Lemma matched_frame Wf A A' W W' ins : W ≡ₚ Wf ++ A -> W' ≡ₚ Wf ++ A' -> advance A A' -> matched W ins -> matched W' ins.
Proof.
  intros HW HW' Ha Hm. eapply matched_perm; [symmetry; exact HW'|]. eapply matched_advance; [|exact (matched_perm _ _ _ HW Hm)].
  apply advance_app; [apply advance_refl|done].
Qed.

(** New packets. *)
Lemma matched_new_list i W ins ps : Forall (fun p => bytes p /\ zlen p < 2 ^ 32) ps -> matched W ins ->
  matched (W ++ (pair i ∘ Received <$> ps)) (ins ++ (pair i <$> ps)).
Proof.
  intros Hps (os & Hos & Hin). exists (os ++ (pair i <$> ps)). split; [|by apply submseteq_app]. apply Forall2_app; [done|].
  apply Forall2_fmap, Forall_Forall2_diag. eapply Forall_impl; [exact Hps|]. intros p []. by split_and!.
Qed.

Lemma matched_origin W ins w : matched W ins -> w ∈ W -> exists o, origin w o /\ o ∈ ins.
Proof.
  intros (os & Hos & Hin) Hw. apply list_elem_of_lookup in Hw as [k Hk]. destruct (Forall2_lookup_l _ _ _ _ _ Hos Hk) as (o & Ho & Hw).
  exists o. split; [done|]. eapply elem_of_submseteq; [|exact Hin]. by eapply list_elem_of_lookup_2.
Qed.

Lemma concat_imap_nil {X Y} (xs : list X) : forall f : nat -> X -> list Y, (forall i x, x ∈ xs -> f i x = []) -> concat (imap f xs) = [].
Proof.
  induction xs as [|x xs IH]; intros f Hf; [done|]. cbn [imap concat]. rewrite Hf by by left. cbn [app]. apply IH. intros i y Hy.
  unfold compose. apply Hf. by right.
Qed.

(** The stages of one loop among all. *)
Lemma work_loop loops i lp : loops !! i = Some lp -> exists Wf, concat (imap loop_work loops) ≡ₚ Wf ++ loop_work i lp /\
  forall lp', concat (imap loop_work (<[i := lp']> loops)) ≡ₚ Wf ++ loop_work i lp'.
Proof.
  intros Hi. pose proof (lookup_lt_Some _ _ _ Hi) as Hlt.
  exists (concat (imap loop_work (take i loops)) ++ concat (imap (fun n => loop_work (i + S n)) (drop (S i) loops))).
  assert (forall lp', concat (imap loop_work (take i loops ++ lp' :: drop (S i) loops)) ≡ₚ
    (concat (imap loop_work (take i loops)) ++ concat (imap (fun n => loop_work (i + S n)) (drop (S i) loops))) ++ loop_work i lp') as Hp.
  { intros lp'. rewrite imap_app, concat_app. cbn [imap concat]. rewrite length_take_le by lia. rewrite Nat.add_0_r. solve_Permutation. }
  split; [|intros lp'; rewrite insert_take_drop by done; apply Hp]. rewrite <- (take_drop_middle _ _ _ Hi) at 1. apply Hp.
Qed.

(** ** Lemmas: what advances *)

Lemma packet_same buffer buffer' (ds : list (Z * Z)) : (forall d, d ∈ ds -> buffer' !! base_of d.1 = buffer !! base_of d.1) ->
  packet buffer' <$> ds = packet buffer <$> ds.
Proof.
  intros Hs. apply list_fmap_ext. intros k d Hd%list_elem_of_lookup_2. unfold packet, umem_read. fold (base_of d.1). by rewrite Hs.
Qed.

Lemma push_all_open jobs : forall q, p_open q = true -> zlen (p_jobs q) + zlen jobs <= MAX_PENDING ->
  push_all q jobs = Pending (p_jobs q ++ jobs) true.
Proof.
  induction jobs as [|job jobs IH]; intros [js open] Ho Hl; cbn [p_jobs p_open] in *; subst open; unfold push_all in *; cbn [foldl].
  - by rewrite app_nil_r.
  - unfold push_pending at 2. cbn [p_open p_jobs andb]. rewrite zlen_cons in Hl. pose proof (zlen_nonneg jobs).
    rewrite (proj2 (Z.ltb_lt _ _)) by lia. cbn [fst]. rewrite IH; cbn [p_jobs p_open]; [by rewrite <- app_assoc|done|zl].
Qed.

Lemma parsed_length env i buffer ds : forall rs, parsed env i buffer ds rs -> zlen (omap id rs) <= zlen ds.
Proof.
  revert env. induction ds as [|d ds IH]; intros env [|r rs] Hp; try done. destruct Hp as [_ Hp%IH]. destruct r; cbn; zl.
Qed.

(** A received packet becomes a job of its loop. *)
Lemma parse_origin malloc now pkt i job o : (i < 256)%nat -> (forall resp, malloc = Some resp -> zlen resp = DNS_MAX_MSG_LEN) ->
  parse_frame malloc now pkt (Z.of_nat i) = Ok (Some job) -> origin (i, Received pkt) o -> origin (asked job) o.
Proof.
  intros Hi Hm Hp (Ho & Hb & Hl & E1). cbn [fst snd] in *. subst pkt. pose proof (parse_frame_sound malloc now o.2 (Z.of_nat i) Hb Hl) as Hs.
  rewrite Hp in Hs. destruct (Hs job eq_refl) as (F & resp & Hresp & HF & ->). unfold asked. cbn [job_of j_loop_idx].
  assert (Z.to_nat (u8 (Z.of_nat i)) = i) as -> by (unfold u8; rewrite Z.mod_small by lia; lia).
  split_and!; [done..|]. cbn [fst snd]. exists F, resp, now. auto.
Qed.

Lemma parsed_advance i buffer ds : (i < 256)%nat -> forall env rs, parsed env (Z.of_nat i) buffer ds rs ->
  (forall k resp, (env k).1 = Some resp -> zlen resp = DNS_MAX_MSG_LEN) ->
  advance (pair i ∘ Received ∘ packet buffer <$> ds) (asked <$> omap id rs).
Proof.
  intros Hi. induction ds as [|d ds IH]; intros env [|r rs] Hp Henv; try done; [apply advance_refl|].
  destruct Hp as [(pkt & Hpkt & Hr) Hp]. assert (packet buffer d = pkt) as E1 by (unfold packet; by rewrite Hpkt).
  specialize (IH _ _ Hp (fun k => Henv (S k))). destruct r as [job|]; cbn [omap list_omap id fmap list_fmap].
  - apply advance_one; [|done]. intros o. unfold compose. rewrite E1. apply (parse_origin (env 0%nat).1 (env 0%nat).2); [done|apply Henv|done].
  - by apply advance_drop.
Qed.

(** A frame that carries the response of an answered job is its reply. *)
Lemma carries_origin i buffer job d o : base_of d.1 = d.1 -> carries buffer job d -> origin (i, Done job) o ->
  origin (i, Reply (packet buffer d)) o.
Proof.
  intros Hd (old & f & Hold & Hbuild & Hf) (Ho & Hb & Hl & F & HF & Hans). split_and!; [done..|]. cbn [fst snd].
  destruct (proj2 (proj2 Hans) old Hold) as (G & rest & Hbuild' & Hlen & HG). rewrite Hbuild' in Hbuild.
  exists F, G. split_and!; [done| |done]. unfold packet, umem_read. fold (base_of d.1). rewrite Hd, Hf, Z.sub_diag.
  injection Hbuild as <- <-. pose proof (zlen_nonneg (frame_bytes G)). pose proof (zlen_nonneg rest). rewrite get_slice_in_range by zl.
  by rewrite zdrop_0, ztake_app_eq.
Qed.

Lemma carries_advance i buffer sent ds : (forall d, d ∈ ds -> base_of d.1 = d.1) -> Forall2 (carries buffer) sent ds ->
  advance (pair i ∘ Done <$> sent) (pair i ∘ Reply ∘ packet buffer <$> ds).
Proof.
  intros Hd Hc. induction Hc as [|job d sent ds Hc _ IH]; [apply advance_refl|]. cbn [fmap list_fmap]. apply advance_one.
  - intros o. apply carries_origin; [|done]. apply Hd. by left.
  - apply IH. intros d' Hd'. apply Hd. by right.
Qed.

(** ** Lemmas: the frames of a loop *)

(** Frames on the RX ring, the TX ring or being sent are neither free nor with
    the kernel for reception. *)
Lemma frames_apart l y d : sys_inv l y -> d ∈ rx_descs (y_xsk y) ++ tx_descs (y_xsk y) ++ y_ktx y ->
  (base_of d.1 ∉ l) /\ (base_of d.1 ∉ y_krx y) /\ (d ∈ tx_descs (y_xsk y) ++ y_ktx y -> base_of d.1 = d.1).
Proof.
  intros [_ Hpl _ _ _ _ _ _] Hd.
  assert (d ∈ tx_descs (y_xsk y) ++ y_ktx y -> d.1 ∈ all_frames) as Hf.
  { intros Hin. eapply places_in; [exact Hpl|]. unfold places. rewrite !elem_of_app. apply elem_of_app in Hin as [Hin|Hin];
      apply (list_elem_of_fmap_2 fst) in Hin; tauto. }
  assert (d ∈ tx_descs (y_xsk y) ++ y_ktx y -> base_of d.1 = d.1) as Hb by (intros Hin%Hf; by apply frame_bounds).
  assert (base_of d.1 ∈ (base_of <$> (rx_descs (y_xsk y)).*1) ++ (tx_descs (y_xsk y)).*1 ++ (y_ktx y).*1 ++ cons_items (x_cq (y_xsk y))) as Hin.
  { rewrite !elem_of_app. apply elem_of_app in Hd as [Hd|Hd]; [left; by apply list_elem_of_fmap_2, list_elem_of_fmap_2|]. rewrite Hb by done.
    apply elem_of_app in Hd as [Hd|Hd]; apply (list_elem_of_fmap_2 fst) in Hd; tauto. }
  pose proof (places_NoDup _ _ Hpl) as Hnd. unfold places in Hnd. apply NoDup_app in Hnd as (_ & Hd1 & Hnd).
  apply NoDup_app in Hnd as (_ & _ & Hnd). apply NoDup_app in Hnd as (_ & Hd2 & _). split_and!; [|intros Ha; by apply (Hd2 _ Ha)|done].
  intros Ha. apply (Hd1 _ Ha). apply elem_of_app. right. apply elem_of_app. by right.
Qed.

(** What the functions of the loop leave alone. *)
Lemma tx_loop_rx jobs : forall idx x x' , tx_loop (P := P) (C := C) jobs idx x = Ok x' -> x_rx x' = x_rx x.
Proof.
  induction jobs as [|job jobs IH]; intros idx x x' Hx; cbn [tx_loop] in Hx; [by injection Hx as ->|].
  apply bind_Ok in Hx as ([frame p] & _ & Hx). case_match; [|done]. apply bind_Ok in Hx as ([buf' len] & _ & Hx). by apply IH in Hx.
Qed.

Lemma tx_batch_rx batch x x' : tx_batch (P := P) (C := C) batch x = Ok x' -> x_rx x' = x_rx x.
Proof.
  unfold tx_batch, tx_send. intros Hx. repeat case_match; try (by injection Hx as <-);
    apply bind_Ok in Hx as (x1 & Hx1%tx_loop_rx & Hx); by injection Hx as <-.
Qed.

Lemma tx_rounds_rx fuel : forall jobs x x', tx_rounds (P := P) (C := C) fuel jobs x = Ok x' -> x_rx x' = x_rx x.
Proof.
  induction fuel as [|fuel IH]; intros [|job jobs] x x' Hx; cbn [tx_rounds] in Hx; try (by injection Hx as ->); [done|].
  destruct (take_batch _ _) as [batch rest]. case_match; [by apply IH in Hx|]. apply bind_Ok in Hx as (x1 & Hx1%tx_batch_rx & Hx%IH). congruence.
Qed.

Lemma prime_keeps x x' : xsk_prime (P := P) (C := C) x = Ok x' -> x_tx x' = x_tx x.
Proof.
  unfold xsk_prime. intros Hx. destruct (prod_reserve _ _) as [[k idx] fq]. destruct (negb _); [discriminate Hx|].
  apply bind_Ok in Hx as ([? ?] & _ & Hx). injection Hx as <-. reflexivity.
Qed.

Lemma reclaim_keeps x x' : reclaim_tx (P := P) (C := C) x = Ok x' -> x_rx x' = x_rx x /\ x_tx x' = x_tx x /\ x_buffer x' = x_buffer x.
Proof.
  unfold reclaim_tx. intros Hx. repeat case_match; try (by injection Hx as <-); apply bind_Ok in Hx as (? & _ & Hx); by injection Hx as <-.
Qed.

(** The work of a loop when only its socket changes, outside of the frames it
    needs. *)
Lemma loop_work_same i y y' hand done : rx_descs (y_xsk y') = rx_descs (y_xsk y) -> tx_descs (y_xsk y') = tx_descs (y_xsk y) ->
  x_buffer (y_xsk y') = x_buffer (y_xsk y) -> loop_work i (RxLoop y' hand done) = loop_work i (RxLoop y hand done).
Proof. intros E1 E2 E3. unfold loop_work. cbn [r_sys r_hand r_done]. by rewrite E1, E2, E3. Qed.

Lemma kernel_work i hand done l y y' : kernel_step y y' -> sys_inv l y ->
  loop_work i (RxLoop y' hand done) ++ (pair i ∘ Reply <$> departed y y') ≡ₚ
    loop_work i (RxLoop y hand done) ++ (pair i ∘ Received <$> arrived y y') /\
  Forall (fun p => bytes p /\ zlen p < 2 ^ 32) (arrived y y') /\
  (forall d, d ∈ y_ktx y' -> packet (x_buffer (y_xsk y')) d ∈ departed y y' \/
     d ∈ y_ktx y /\ packet (x_buffer (y_xsk y')) d = packet (x_buffer (y_xsk y)) d).
Proof.
  intros Hk Hinv. pose proof (kernel_step_inv _ _ Hk l Hinv) as Hinv'. pose proof (si_rx _ _ Hinv') as Hrx'. unfold arrived, departed.
  destruct Hk as [rx tx fq cq p n buffer s krx ktx a fq' Ht|rx tx fq cq p n buffer s l1 a l2 ktx addr len f rx' Hput Hbase Hlen Hend Hf Hfb
    |rx tx fq cq p n buffer s krx ktx d tx' Ht|rx tx fq cq p n buffer s krx l1 d l2 cq' Hput];
    unfold loop_work, rx_descs, tx_descs in *; cbn [r_sys r_hand r_done y_xsk y_krx y_ktx x_rx x_tx x_fq x_cq x_buffer] in *.
  - rewrite Z.sub_diag, zdrop_all by lia. cbn. rewrite !app_nil_r. split_and!; [done|constructor|]. intros d Hd. by right.
  - apply put_law in Hput as Hi. rewrite Hi in *. rewrite Z.sub_diag, zdrop_app_eq by done. cbn [fmap list_fmap].
    assert (forall d, d ∈ cons_items rx ++ prod_items tx ++ ktx -> <[a:=f]> buffer !! base_of d.1 = buffer !! base_of d.1) as Hsame.
    { intros d Hd. apply lookup_insert_ne. destruct (frames_apart l _ d Hinv Hd) as (_ & Hn & _). intros E1. apply Hn. rewrite <- E1. cbn.
      apply elem_of_app. right. by left. }
    assert (packet (<[a:=f]> buffer) <$> cons_items rx ++ prod_items tx ++ ktx = packet buffer <$> cons_items rx ++ prod_items tx ++ ktx)
      as Hp by by apply packet_same. rewrite !fmap_app in Hp. apply app_inj_1 in Hp as [Hp1 Hp]; [|by rewrite !length_fmap].
    apply app_inj_1 in Hp as [Hp2 Hp3]; [|by rewrite !length_fmap]. split_and!.
    + rewrite fmap_app, !list_fmap_compose, Hp1, Hp2. cbn. rewrite app_nil_r. solve_Permutation.
    + constructor; [|constructor]. apply Forall_app in Hrx' as [_ Hd]. apply Forall_cons in Hd as [Hd _].
      destruct (umem_read_ok _ _ Hd) as (pkt & Hpkt & Hb & _ & Hl). unfold packet. by rewrite Hpkt.
    + intros d Hd. right. split; [done|]. apply list_elem_of_lookup in Hd as [k Hd].
      pose proof (f_equal (fun ls => ls !! k) Hp3) as E1. cbn in E1. rewrite !list_lookup_fmap, Hd in E1. by injection E1.
  - apply take_law in Ht as [Hi _]. rewrite Hi, zlen_cons. replace (1 + zlen (prod_items tx') - zlen (prod_items tx')) with 1 by lia.
    rewrite zdrop_all by lia. change (ztake 1 (d :: prod_items tx')) with [d]. cbn [fmap list_fmap].
    split_and!; [rewrite !app_nil_r; cbn; solve_Permutation|constructor|]. intros d' [->|Hd]%elem_of_cons; [left; by left|by right].
  - rewrite Z.sub_diag, zdrop_all by lia. cbn. rewrite !app_nil_r. split_and!; [done|constructor|]. intros d' Hd. right. split; [|done].
    apply elem_of_app in Hd. apply elem_of_app. rewrite elem_of_cons. tauto.
Qed.

(** ** Invariant *)

Record xdp_inv (s : xdp_server) : Prop := XdpInv {
  xi_work : matched (work s) (v_in s);
  xi_loops : forall i lp, v_loops s !! i = Some lp -> exists l, sys_inv l (r_sys lp);
  xi_count : Z.of_nat (length (v_loops s)) <= MAX_XSKS;
  xi_range : Forall (fun o => (o.1 < length (v_loops s))%nat) (v_in s);
  xi_pending : zlen (p_jobs (v_pending s)) <= MAX_PENDING;
  xi_sending : forall i lp d, v_loops s !! i = Some lp -> d ∈ y_ktx (r_sys lp) -> (i, packet (x_buffer (y_xsk (r_sys lp))) d) ∈ v_out s
}.

(** A step that changes one loop, the pending queue and the busy jobs. *)
Lemma inv_update s s' i lp lp' : xdp_inv s -> v_loops s !! i = Some lp -> v_loops s' = <[i := lp']> (v_loops s) ->
  v_in s' = v_in s -> v_out s' = v_out s -> zlen (p_jobs (v_pending s')) <= MAX_PENDING ->
  (exists l, sys_inv l (r_sys lp')) -> y_ktx (r_sys lp') = y_ktx (r_sys lp) ->
  (packet (x_buffer (y_xsk (r_sys lp'))) <$> y_ktx (r_sys lp') = packet (x_buffer (y_xsk (r_sys lp))) <$> y_ktx (r_sys lp)) ->
  advance (loop_work i lp ++ (asked <$> p_jobs (v_pending s)) ++ (asked <$> v_busy s))
    (loop_work i lp' ++ (asked <$> p_jobs (v_pending s')) ++ (asked <$> v_busy s')) ->
  xdp_inv s'.
Proof.
  intros [Hw Hl Hc Hr Hp Hs] Hi El Ein Eout Hp' Hsys Ek Epk Hadv. split; rewrite ?El, ?Ein, ?Eout, ?length_insert; try done.
  - destruct (work_loop _ _ _ Hi) as (Wf & E1 & E2). unfold work in *. rewrite El, Eout.
    eapply matched_frame with (Wf := Wf ++ ((fun o => (o.1, Reply o.2)) <$> v_out s)); [| |exact Hadv|exact Hw].
    + rewrite E1. solve_Permutation.
    + rewrite E2. solve_Permutation.
  - intros k lpk Hk. apply list_lookup_insert_Some in Hk as [(<- & <- & _)|[_ Hk]]; [done|by eapply Hl].
  - intros k lpk d Hk Hd. apply list_lookup_insert_Some in Hk as [(<- & <- & _)|[_ Hk]]; [|by eapply Hs].
    rewrite Ek in Epk, Hd. apply list_elem_of_lookup in Hd as [n Hd]. pose proof (f_equal (fun ls => ls !! n) Epk) as E1. cbn in E1.
    rewrite !list_lookup_fmap, Hd in E1. injection E1 as ->. eapply Hs; [exact Hi|]. by eapply list_elem_of_lookup_2.
Qed.

Lemma kernel_inv i lp y' s : xdp_inv s -> v_loops s !! i = Some lp -> kernel_step (r_sys lp) y' -> xdp_inv (log_kernel i lp y' s).
Proof.
  intros [Hw Hl Hc Hr Hp Hs] Hi Hk. destruct (Hl i lp Hi) as [l Hsys]. pose proof (kernel_step_inv _ _ Hk l Hsys) as Hsys'.
  destruct lp as [y hand done]. cbn [r_sys] in *. destruct (kernel_work i hand done l y y' Hk Hsys) as (Hperm & Harr & Hktx).
  split; unfold log_kernel; cbn [v_loops v_pending v_in v_out r_sys r_hand r_done]; rewrite ?length_insert; try done.
  - apply (matched_new_list i _ _ (arrived y y') Harr) in Hw. eapply matched_perm; [|exact Hw]. unfold work. cbn [v_loops v_pending v_busy v_out].
    destruct (work_loop _ _ _ Hi) as (Wf & E1 & E2). rewrite E1, E2, !fmap_app, <- list_fmap_compose.
    change ((fun o : nat * list Z => (o.1, Reply o.2)) ∘ pair i) with (pair i ∘ Reply).
    set (A := loop_work i (RxLoop y hand done)) in *. set (A' := loop_work i (RxLoop y' hand done)) in *.
    transitivity (Wf ++ (A ++ (pair i ∘ Received <$> arrived y y')) ++ (asked <$> p_jobs (v_pending s)) ++ (asked <$> v_busy s) ++ ((fun o => (o.1, Reply o.2)) <$> v_out s));
      [solve_Permutation|]. rewrite <- Hperm. solve_Permutation.
  - intros k lpk Hk'. apply list_lookup_insert_Some in Hk' as [(<- & <- & _)|[_ Hk']]; [by exists l|by eapply Hl].
  - apply Forall_app. split; [done|]. apply Forall_fmap, Forall_true. intros p. cbn. by apply lookup_lt_Some in Hi.
  - intros k lpk d Hk' Hd. apply elem_of_app. apply list_lookup_insert_Some in Hk' as [(<- & <- & _)|[_ Hk']]; [|left; by eapply Hs].
    cbn [r_sys] in *. destruct (Hktx d Hd) as [Hin|[Hin ->]]; [right; by apply list_elem_of_fmap_2|left; exact (Hs i _ d Hi Hin)].
Qed.

Lemma loop_receive_inv env i s : xdp_inv s -> (exists lp, v_loops s !! i = Some lp) ->
  (forall k resp, (env k).1 = Some resp -> zlen resp = DNS_MAX_MSG_LEN) -> returns (loop_receive env i s) xdp_inv.
Proof.
  intros Hinv [lp Hi] Henv. pose proof Hinv as [Hw Hl Hc Hr Hp Hs]. destruct (Hl i lp Hi) as [l Hsys]. unfold loop_receive. rewrite Hi.
  destruct lp as [[x krx ktx] hand done]. cbn [r_sys] in Hsys. pose proof (lookup_lt_Some _ _ _ Hi) as Hlt. unfold MAX_XSKS in Hc.
  pose proof (drain_rx_inv env (Z.of_nat i) l x (Pending [] true) krx ktx Hsys) as Hsys'.
  destruct (drain_rx_spec env (Z.of_nat i) l x (Pending [] true) krx ktx Hsys) as (rx & fq & p & st & rs & E1 & Hps & _ & Hi' & _).
  rewrite E1 in Hsys' |- *. cbn [returns] in Hsys'. rewrite Ok_bind. cbn [returns].
  set (ds := ztake RX_BATCH_SIZE (rx_descs x)) in *.
  assert (zlen ds <= 64) as Hds by (unfold ds; rewrite zlen_ztake_min by done; unfold RX_BATCH_SIZE; lia).
  pose proof (parsed_length _ _ _ _ _ Hps) as Hrs. rewrite push_all_open; [|done|cbn [p_jobs]; rewrite zlen_nil; unfold MAX_PENDING; lia].
  cbn [p_jobs app]. eapply (inv_update s _ i _ _ Hinv Hi); cbn [set_loop v_loops v_pending v_busy v_in v_out]; try reflexivity; [done|by exists l|].
  apply advance_app; [|apply advance_refl]. unfold loop_work, rx_descs, tx_descs in *. cbn [r_sys r_hand r_done y_xsk x_rx x_tx x_buffer].
  rewrite Hi'. rewrite <- (ztake_zdrop RX_BATCH_SIZE (cons_items (x_rx x))) at 1. fold ds. rewrite !fmap_app.
  pose proof (parsed_advance i (x_buffer x) ds ltac:(lia) env rs Hps Henv) as Ha.
  set (T := pair i ∘ Reply ∘ packet (x_buffer x) <$> prod_items (x_tx x)). set (R := _ <$> zdrop _ _).
  eapply advance_perm with (A := (pair i ∘ Received ∘ packet (x_buffer x) <$> ds) ++ (R ++ (asked <$> hand) ++ (pair i ∘ Done <$> done) ++ T))
    (A' := (asked <$> omap id rs) ++ (R ++ (asked <$> hand) ++ (pair i ∘ Done <$> done) ++ T)).
  - solve_Permutation.
  - solve_Permutation.
  - by apply advance_app; [|apply advance_refl].
Qed.

Lemma push_inv i s s' : xdp_inv s -> loop_push i s = Ok s' -> xdp_inv s'.
Proof.
  intros Hinv Hs'. pose proof Hinv as [_ Hl _ _ Hp _]. unfold loop_push in Hs'.
  destruct (v_loops s !! i) as [[[x krx ktx] hand fin]|] eqn:Hi; [|done]. destruct hand as [|job hand]; [done|]. destruct (Hl i _ Hi) as [l Hsys].
  destruct (push_pending (v_pending s) job) as [q ok] eqn:Eq. injection Hs' as <-. unfold push_pending in Eq.
  eapply (inv_update s _ i _ _ Hinv Hi); cbn [v_loops v_pending v_busy v_in v_out r_sys y_ktx y_xsk]; try reflexivity.
  - destruct (_ && _) eqn:Ef; injection Eq as <- <-; [|done]. apply andb_true_iff in Ef as [_ Ef%Z.ltb_lt]. cbn [p_jobs]. zl.
  - exists l. destruct ok; [done|]. destruct Hsys. by split.
  - by destruct ok.
  - unfold loop_work. cbn [r_sys r_hand r_done y_xsk].
    assert (rx_descs (if ok then x else set_stats x (count_full (x_stats x))) = rx_descs x /\
      tx_descs (if ok then x else set_stats x (count_full (x_stats x))) = tx_descs x /\
      x_buffer (if ok then x else set_stats x (count_full (x_stats x))) = x_buffer x) as (-> & -> & ->) by by destruct ok.
    apply advance_sub. destruct (_ && _); injection Eq as <- <-; cbn [p_jobs]; rewrite ?fmap_app; cbn [fmap list_fmap].
    + apply Permutation_submseteq. solve_Permutation.
    + apply submseteq_app; [|done]. apply submseteq_app; [done|]. apply submseteq_app; [|done]. by apply submseteq_cons.
Qed.

Lemma done_jobs_ok s i lp : xdp_inv s -> v_loops s !! i = Some lp -> Forall job_ok (r_done lp).
Proof.
  intros [Hw _ _ _ _ _] Hi. apply Forall_forall. intros job Hj. destruct (work_loop _ _ _ Hi) as (Wf & E1 & _).
  destruct (matched_origin _ _ (i, Done job) Hw) as (o & (_ & _ & _ & F & _ & Hans) & _); [|apply Hans].
  unfold work. rewrite E1. apply elem_of_app. left. apply elem_of_app. right. unfold loop_work. rewrite !elem_of_app. do 2 right. left.
  apply list_elem_of_fmap. by exists job.
Qed.

Lemma transmit_inv i s : xdp_inv s -> (exists lp, v_loops s !! i = Some lp) -> returns (loop_transmit i s) xdp_inv.
Proof.
  intros Hinv [lp Hi]. pose proof (done_jobs_ok s i lp Hinv Hi) as Hj. pose proof Hinv as [Hw Hl Hc Hr Hp Hs].
  destruct (Hl i lp Hi) as [l Hsys]. unfold loop_transmit. rewrite Hi. destruct lp as [[x krx ktx] hand fin]. cbn [r_sys r_done] in *.
  destruct (tx_rounds_spec krx ktx (length fin) fin x l) as (x' & l' & sent & ds & E1 & Hsys' & Hsent & _); [done..|].
  unfold drain_done_and_tx. pose proof (tx_rounds_rx _ _ _ _ E1) as Erx. rewrite E1, Ok_bind. cbn [returns].
  destruct Hsent as (Etx & Hcar & Hsub & Hds & Hout & _).
  assert (forall d, d ∈ rx_descs x ++ tx_descs x ++ ktx -> x_buffer x' !! base_of d.1 = x_buffer x !! base_of d.1) as Hsame.
  { intros d Hd. apply Hout. by apply (frames_apart l _ d Hsys). }
  apply packet_same in Hsame. rewrite !fmap_app in Hsame. apply app_inj_1 in Hsame as [Hp1 Hsame]; [|by rewrite !length_fmap].
  apply app_inj_1 in Hsame as [Hp2 Hp3]; [|by rewrite !length_fmap].
  eapply (inv_update s _ i _ _ Hinv Hi); cbn [set_loop v_loops v_pending v_busy v_in v_out r_sys y_ktx y_xsk]; try done; [by exists l'|].
  apply advance_app; [|apply advance_refl]. unfold loop_work. cbn [r_sys r_hand r_done y_xsk].
  assert (rx_descs x' = rx_descs x) as -> by (unfold rx_descs; by rewrite Erx). rewrite Etx, fmap_app.
  rewrite !list_fmap_compose, Hp1, Hp2, <- !list_fmap_compose. cbn [fmap list_fmap app].
  apply advance_app; [apply advance_refl|]. apply advance_app; [apply advance_refl|]. apply advance_perm with
    (A := (pair i ∘ Done <$> fin) ++ (pair i ∘ Reply ∘ packet (x_buffer x) <$> tx_descs x))
    (A' := (pair i ∘ Reply ∘ packet (x_buffer x') <$> ds) ++ (pair i ∘ Reply ∘ packet (x_buffer x) <$> tx_descs x)); [done|apply Permutation_app_comm|].
  apply advance_app; [|apply advance_refl]. destruct (carries_advance i (x_buffer x') sent ds) as (W0 & HW0 & Hf); [|done|].
  - intros d Hd. destruct (frame_bounds d.1) as [_ Hb]; [|done]. eapply places_in; [exact (si_places _ _ Hsys)|].
    unfold places. apply elem_of_app. left. by apply Hds.
  - exists W0. split; [|done]. etrans; [exact HW0|]. apply fmap_submseteq, sublist_submseteq. etrans; [exact Hsub|]. apply sublist_filter.
Qed.

Lemma reclaim_loop_inv i s : xdp_inv s -> (exists lp, v_loops s !! i = Some lp) -> returns (loop_reclaim i s) xdp_inv.
Proof.
  intros Hinv [lp Hi]. pose proof Hinv as [Hw Hl Hc Hr Hp Hs]. destruct (Hl i lp Hi) as [l Hsys]. unfold loop_reclaim. rewrite Hi.
  destruct lp as [[x krx ktx] hand fin]. cbn [r_sys] in Hsys. destruct (reclaim_inv l x krx ktx Hsys) as (x' & E1 & Hsys' & _).
  destruct (reclaim_keeps _ _ E1) as (Erx & Etx & Ebuf). rewrite E1, Ok_bind. cbn [returns].
  apply (inv_update s _ i _ (RxLoop (XdpSystem x' krx ktx) hand fin) Hinv Hi); cbn [set_loop v_loops v_pending v_busy v_in v_out r_sys y_ktx y_xsk]; try done; [by eexists|by rewrite Ebuf|].
  rewrite (loop_work_same i (XdpSystem x krx ktx) (XdpSystem x' krx ktx)); [apply advance_refl|unfold rx_descs, tx_descs; cbn; congruence..].
Qed.

Lemma take_job_inv s s' : xdp_inv s -> worker_take s = Some s' -> xdp_inv s'.
Proof.
  intros [Hw Hl Hc Hr Hp Hs] Ht. unfold worker_take in Ht. destruct (p_jobs (v_pending s)) as [|job jobs] eqn:Ej; [done|]. injection Ht as <-.
  split; cbn [v_loops v_in v_out v_pending p_jobs]; try done; [|zl].
  eapply matched_perm; [|exact Hw]. unfold work. cbn [v_loops v_pending v_busy v_out p_jobs]. rewrite Ej. cbn [fmap list_fmap]. solve_Permutation.
Qed.

(** A worker's call on a job under way: it returns, and what it makes of the job
    is an answer to the same packet. *)
Lemma resolve_origin e st job s : xdp_inv s -> job ∈ v_busy s -> b_env_ok e -> b_ok st ->
  let i := Z.to_nat (j_loop_idx job) in (i < length (v_loops s))%nat /\
  returns (worker_resolve e st job) (fun '(_, r) => forall job', r = Some job' -> Z.to_nat (j_loop_idx job') = i /\
    forall o, origin (asked job) o -> origin (i, Done job') o).
Proof.
  intros [Hw _ Hc Hr _ _] Hj He Hst i. destruct (matched_origin _ _ (asked job) Hw) as (o & Ho & Hin).
  { unfold work. rewrite !elem_of_app. right. right. left. by apply list_elem_of_fmap_2. }
  rewrite Forall_forall in Hr. apply Hr in Hin. pose proof Ho as (Hio & _). change ((asked job).1) with i in Hio. rewrite <- Hio in Hin. split; [done|].
  assert (u8 (Z.of_nat i) = Z.of_nat i) as Hu by (unfold u8, MAX_XSKS in *; rewrite Z.mod_small; lia).
  assert (forall o', origin (asked job) o' -> returns (worker_resolve e st job) (fun '(_, r) => forall job', r = Some job' ->
    Z.to_nat (j_loop_idx job') = i /\ origin (i, Done job') o')) as Hall.
  { clear o Ho Hio. intros o (Hio & Hb & Hl & F & resp & now & HF & Hresp & Ejob). cbn [asked fst snd] in *. fold i in Hio, Ejob. rewrite Ejob.
    eapply returns_mono; [by apply (worker_answers e st F o.2 resp now)|]. intros [st' r] [_ Ha] job' Hr'. destruct (Ha job' Hr') as [Hans Hidx].
    rewrite Hidx, Hu, Nat2Z.id. split; [done|]. split_and!; [done..|]. by exists F. }
  specialize (Hall o Ho) as Hret. destruct (worker_resolve e st job) as [[st' r]| | |]; try done. intros job' Hjob'. split; [by apply Hret|].
  intros o' Ho'. by apply (Hall o' Ho').
Qed.

Lemma finish_inv e st n s : xdp_inv s -> b_env_ok e -> b_ok st -> (n < length (v_busy s))%nat -> returns (worker_finish e st n s) xdp_inv.
Proof.
  intros Hinv He Hst [job Hn]%lookup_lt_is_Some_2. unfold worker_finish. rewrite Hn.
  destruct (resolve_origin e st job s Hinv (list_elem_of_lookup_2 _ _ _ Hn) He Hst) as [[lp Hi]%lookup_lt_is_Some_2 Hret].
  pose proof (delete_Permutation _ _ _ Hn) as Hdel. set (D := delete n (v_busy s)) in *. clearbody D. pose proof Hinv as [_ Hl _ _ Hp _].
  eapply returns_bind_intro; [exact Hret|]. intros [st' [job'|]] Hjob; cbn [returns] in *.
  - destruct (Hjob job' eq_refl) as [-> Ho]. rewrite Hi. cbn [returns].
    apply (inv_update s _ _ _ (RxLoop (r_sys lp) (r_hand lp) (r_done lp ++ [job'])) Hinv Hi); try done; [by apply Hl in Hi|].
    cbn [v_pending v_busy]. unfold loop_work. cbn [r_sys r_hand r_done]. rewrite Hdel. cbn [fmap list_fmap]. rewrite fmap_app. cbn [fmap list_fmap].
    set (i := Z.to_nat _) in *. set (X := _ <$> rx_descs _). set (Y := _ <$> tx_descs _).
    apply advance_perm with (A := asked job :: (X ++ (asked <$> r_hand lp) ++ (pair i ∘ Done <$> r_done lp) ++ Y ++
        (asked <$> p_jobs (v_pending s)) ++ (asked <$> D)))
      (A' := (i, Done job') :: (X ++ (asked <$> r_hand lp) ++ (pair i ∘ Done <$> r_done lp) ++ Y ++
        (asked <$> p_jobs (v_pending s)) ++ (asked <$> D))).
    + solve_Permutation.
    + cbn. solve_Permutation.
    + apply advance_one; [done|apply advance_refl].
  - apply (inv_update s _ _ _ lp Hinv Hi); try done; [cbn; by rewrite list_insert_id|by apply Hl in Hi|].
    cbn [v_pending v_busy]. apply advance_app; [apply advance_refl|]. apply advance_app; [apply advance_refl|].
    apply advance_sub. rewrite Hdel. by apply submseteq_cons.
Qed.

Lemma xdp_step_inv s s' : xdp_step s s' -> xdp_inv s -> xdp_inv s'.
Proof.
  intros Hstep Hinv. destruct Hstep as [i lp y' s Hi Hk|env i lp s s' Hi _ Henv Hs|i s s' Hs|i lp s s' Hi _ Hs|i lp s s' Hi _ Hs
    |s s' Hs|e st n s s' He Hst Hs|s].
  - by apply kernel_inv.
  - pose proof (loop_receive_inv env i s Hinv (ex_intro _ _ Hi) Henv) as Hr. by rewrite Hs in Hr.
  - by eapply push_inv.
  - pose proof (transmit_inv i s Hinv (ex_intro _ _ Hi)) as Hr. by rewrite Hs in Hr.
  - pose proof (reclaim_loop_inv i s Hinv (ex_intro _ _ Hi)) as Hr. by rewrite Hs in Hr.
  - by eapply take_job_inv.
  - assert (n < length (v_busy s))%nat as Hn.
    { apply lookup_lt_is_Some. unfold worker_finish in Hs. destruct (v_busy s !! n); [by eexists|done]. }
    pose proof (finish_inv e st n s Hinv He Hst Hn) as Hr. by rewrite Hs in Hr.
  - by destruct Hinv.
Qed.

(** The server as [main] starts it: at most 16 sockets, each fresh and primed. *)
Definition xdp_reaches (xs : list (xsk_socket_info (P := P) (C := C))) (s : xdp_server) : Prop :=
  zlen xs <= MAX_XSKS /\ Forall fresh_socket xs /\
  exists xs0, Forall2 (fun x x0 => xsk_prime x = Ok x0) xs xs0 /\ rtc xdp_step (xdp_start xs0) s.

Lemma xdp_reach_inv xs s : xdp_reaches xs s -> xdp_inv s.
Proof.
  intros (Hlen & Hf & xs0 & Hprime & Hr).
  assert (Forall (fun x0 => (exists l, sys_inv l (XdpSystem x0 [] [])) /\ rx_descs x0 = [] /\ tx_descs x0 = []) xs0) as Hx0s.
  { clear - Hf Hprime. induction Hprime as [|x x0 xs xs0 Hx _ IH]; [constructor|]. apply Forall_cons in Hf as [Hx' Hf]. constructor; [|by apply IH].
    destruct (prime_inv x Hx') as (x1 & l & E1 & Hinv & Hrx). rewrite Hx in E1. injection E1 as ->. split_and!; [by exists l|done|].
    apply prime_keeps in Hx. unfold tx_descs. rewrite Hx. apply Hx'. }
  assert (xdp_inv (xdp_start xs0)) as Hi.
  { split; cbn -[zlen MAX_PENDING MAX_XSKS].
    - exists []. split; [|done]. unfold work. cbn. rewrite app_nil_r. rewrite concat_imap_nil; [constructor|].
      intros i lp (x0 & -> & Hx0)%list_elem_of_fmap. rewrite Forall_forall in Hx0s. destruct (Hx0s x0 Hx0) as (_ & Erx & Etx).
      unfold loop_work. cbn. by rewrite Erx, Etx.
    - intros i lp Hlp. rewrite list_lookup_fmap in Hlp. destruct (xs0 !! i) as [x0|] eqn:Ex; [|done]. injection Hlp as <-.
      by apply (Forall_lookup_1 _ _ _ _ Hx0s Ex).
    - rewrite length_fmap, <- (Forall2_length _ _ _ Hprime). done.
    - constructor.
    - done.
    - intros i lp d Hlp Hd. rewrite list_lookup_fmap in Hlp. destruct (xs0 !! i); [|done]. injection Hlp as <-. by apply elem_of_nil in Hd. }
  clear - Hr Hi. induction Hr as [s|s s1 s2 Hs _ IH]; [done|]. by eapply IH, xdp_step_inv.
Qed.

(** ** Properties *)

(** C2: the whole AF_XDP server, with up to 16 queues, any number of workers and
    every backend that keeps the contract of dns_iface.h, in every interleaving
    of its threads with the kernel: each packet that goes out on a queue is a
    reply to a packet that came in on the same queue, with addresses exchanged
    and a response to its message, and no packet is answered twice; a frame
    holds its reply unchanged until the kernel has sent it; at most 4096 jobs
    wait; and no function of a loop and no round of a worker faults: each is
    able to complete. *)
Theorem replies_match_packets xs s : xdp_reaches xs s ->
  (exists ins, Forall2 (fun o i => o.1 = i.1 /\ replies_to o.2 i.2) (v_out s) ins /\ ins ⊆+ v_in s) /\
  (forall i lp d, v_loops s !! i = Some lp -> d ∈ y_ktx (r_sys lp) -> (i, packet (x_buffer (y_xsk (r_sys lp))) d) ∈ v_out s) /\
  zlen (p_jobs (v_pending s)) <= MAX_PENDING /\
  (forall i, (i < length (v_loops s))%nat ->
     (forall env, (forall k resp, (env k).1 = Some resp -> zlen resp = DNS_MAX_MSG_LEN) -> returns (loop_receive env i s) (fun _ => True)) /\
     returns (loop_transmit i s) (fun _ => True) /\ returns (loop_reclaim i s) (fun _ => True)) /\
  (forall e st n, b_env_ok e -> b_ok st -> (n < length (v_busy s))%nat -> returns (worker_finish e st n s) (fun _ => True)).
Proof.
  intros Hr. pose proof (xdp_reach_inv xs s Hr) as Hinv. pose proof Hinv as [Hw _ _ _ Hp Hs]. split_and!; [|done|done| |].
  - apply (matched_advance _ ((fun o => (o.1, Reply o.2)) <$> v_out s)) in Hw as (os & Hos & Hin).
    + exists os. split; [|done]. rewrite Forall2_fmap_l in Hos. eapply Forall2_impl; [exact Hos|]. by intros o i (Ei & _ & _ & Hrep).
    + apply advance_sub. unfold work. do 3 apply submseteq_inserts_l. done.
  - intros i Hi%lookup_lt_is_Some_2. split_and!.
    + intros env Henv. eapply returns_mono; [by apply loop_receive_inv|done].
    + eapply returns_mono; [by apply transmit_inv|done].
    + eapply returns_mono; [by apply reclaim_loop_inv|done].
  - intros e st n He Hst Hn. eapply returns_mono; [by apply finish_inv|done].
Qed.
End xdp_server.

(** ** A concrete server *)

(** The kernel has received a packet on the only queue. *)
Lemma sample_server_reached : exists s, xdp_reaches (E := unit) (B := stub) [sample_socket] s /\ zlen (v_in s) = 1.
Proof.
  destruct sample_kernel as (x0 & y1 & y2 & d & Hx0 & H1 & H2 & E0 & E1 & E2). eexists. split.
  - split; [done|]. split; [constructor; [apply sample_socket_fresh|constructor]|]. eexists. split; [constructor; [exact Hx0|constructor]|].
    eapply rtc_l; [eapply (xdp_kernel 0); [reflexivity|exact H1]|].
    eapply rtc_l; [eapply (xdp_kernel 0); [reflexivity|exact H2]|apply rtc_refl].
  - unfold log_kernel, arrived. cbn [v_in r_sys y_xsk]. by rewrite E0, E1, E2.
Qed.

Lemma replies_match_packets_witness : exists s : xdp_server (P := list_prod) (C := list), zlen (v_in s) = 1 /\
  (exists ins, Forall2 (fun o i => o.1 = i.1 /\ replies_to o.2 i.2) (v_out s) ins /\ ins ⊆+ v_in s) /\
  (forall i lp d, v_loops s !! i = Some lp -> d ∈ y_ktx (r_sys lp) -> (i, packet (x_buffer (y_xsk (r_sys lp))) d) ∈ v_out s) /\
  zlen (p_jobs (v_pending s)) <= MAX_PENDING /\
  (forall i, (i < length (v_loops s))%nat ->
     (forall env, (forall k resp, (env k).1 = Some resp -> zlen resp = DNS_MAX_MSG_LEN) -> returns (loop_receive env i s) (fun _ => True)) /\
     returns (loop_transmit i s) (fun _ => True) /\ returns (loop_reclaim i s) (fun _ => True)) /\
  (forall (e : unit) (st : stub) n, b_env_ok e -> b_ok st -> (n < length (v_busy s))%nat -> returns (worker_finish e st n s) (fun _ => True)).
Proof.
  destruct sample_server_reached as (s & Hs & Hin). exists s. split; [exact Hin|].
  exact (replies_match_packets [sample_socket] s Hs).
Defined.

(** A packet's way through the program, with the stub backend: the frame at 0
    holds a query, the one at 4096 is free. *)
Definition sample_rx_socket : xsk_socket_info (P := list_prod) (C := list) :=
  Xsk [(0, zlen sample_frame)] (ListProd 2048 [] []) (ListProd 2048 [] []) [] (Pool [4096; INVALID_UMEM_FRAME] 1) 0
    {[0 := sample_frame ++ replicate (Z.to_nat (FRAME_SIZE - zlen sample_frame)) 0; 4096 := replicate (Z.to_nat FRAME_SIZE) 0]}
    (XskStats 0 0 0 0 0 0 0 0).

Definition sample_round : res (list (list Z)) :=
  s ← loop_receive (fun _ => (Some (replicate 1500 0), 5)) 0 (xdp_start (P := list_prod) (C := list) [sample_rx_socket]);
  s ← loop_push 0 s;
  match worker_take s with
  | None => Fail
  | Some s =>
      s ← worker_finish tt (Stub [10; 0; 0; 1] 0) 0 s;
      s ← loop_transmit 0 s;
      Ok (lp ← v_loops s; packet (x_buffer (y_xsk (r_sys lp))) <$> lp_items (x_tx (y_xsk (r_sys lp))))
  end.

Example sample_round_replies : sample_round = Ok [
  [7; 8; 9; 10; 11; 12; 1; 2; 3; 4; 5; 6; 8; 0] ++
  [69; 0; 0; 61; 0; 0; 64; 0; 64; 17; 38; 174; 10; 0; 0; 1; 10; 0; 0; 2] ++ [0; 53; 16; 146; 0; 41; 0; 0] ++
  [0; 7; 129; 128; 0; 1; 0; 1; 0; 0; 0; 0; 0; 0; 1; 0; 1; 192; 12; 0; 1; 0; 1; 0; 0; 1; 44; 0; 4; 10; 0; 0; 1]].
Proof. vm_compute. reflexivity. Qed.
