(* ===== verification/XdpReport.v ===== *)
(** * The report of the AF_XDP server (src/af_xdp_user.c: print_stats,
      src/dns_tcp.c: dns_tcp_server_stats)

    What the server prints when it ends, and that its numbers add up: every
    packet the kernel delivered is in exactly one of the counters or still
    under way. Counters wrap at 64 bits, so the equations are modulo 2^64. *)

From stdpp Require Import prelude list gmap.
From Stdlib Require Import ZArith Lia Morphisms.
From S2P Require Import Prelude DnsName DnsParse DnsBuild Backend ResolverStub XdpKern XdpFrame XskRing XskLoop XskFrames XskSetup XdpServer.

Local Open Scope Z_scope.

#[local] Opaque all_frames.

(** ** Arithmetic modulo 2^64 *)

Definition eq64 (a b : Z) : Prop := exists k, a = b + k * 2 ^ 64.
Infix "≡₆₄" := eq64 (at level 70).

#[global] Instance eq64_equiv : Equivalence eq64.
Proof.
  split; [intros a; exists 0; lia|intros a b [k ->]; exists (- k); lia|intros a b c [k ->] [l ->]; exists (k + l); lia].
Qed.

#[global] Instance eq64_add : Proper (eq64 ==> eq64 ==> eq64) Z.add.
Proof. intros a b [k ->] c d [l ->]. exists (k + l). lia. Qed.

#[global] Instance eq64_sub : Proper (eq64 ==> eq64 ==> eq64) Z.sub.
Proof. intros a b [k ->] c d [l ->]. exists (k - l). lia. Qed.

Lemma eq64_eq a b : a = b -> a ≡₆₄ b.
Proof. by intros ->. Qed.

Lemma eq64_u64 a b : a ≡₆₄ b <-> u64 a = u64 b.
Proof.
  unfold u64. split; [intros [k ->]; by rewrite Z.mod_add|]. intros E1. exists (a / 2 ^ 64 - b / 2 ^ 64).
  pose proof (Z.div_mod a (2 ^ 64) ltac:(lia)). pose proof (Z.div_mod b (2 ^ 64) ltac:(lia)). lia.
Qed.

Lemma eq64_wrap a : u64 a ≡₆₄ a.
Proof. apply eq64_u64, u64_u64. Qed.

(** ** print_stats *)

Section report.
Context {P C : Type -> Type} `{RingLaws P C}.

Definition zero_stats : xsk_stats := XskStats 0 0 0 0 0 0 0 0.

(** [t.rx_packets += s->rx_packets] and the other fields. *)
Definition add_stats (t s : xsk_stats) : xsk_stats :=
  XskStats (u64 (rx_packets t + rx_packets s)) (u64 (rx_bytes t + rx_bytes s)) (u64 (tx_packets t + tx_packets s))
    (u64 (tx_bytes t + tx_bytes s)) (u64 (rx_dropped t + rx_dropped s)) (u64 (tx_no_slot t + tx_no_slot s))
    (u64 (tx_no_frame t + tx_no_frame s)) (u64 (queue_full t + queue_full s)).

(** One round of the summing loop; a loop without a socket is skipped. *)
Definition add_loop (acc : xsk_stats * Z) (x : option (xsk_socket_info (P := P) (C := C))) : xsk_stats * Z :=
  match x with
  | None => acc
  | Some x => (add_stats acc.1 (x_stats x), u32 (acc.2 + xsk_free_frame_count (x_pool x)))
  end.

Record tcp_counters := TcpCounters {
  tc_accepted : Z;
  tc_rejected : Z;
  tc_queries : Z;
  tc_answered : Z
}.

(** The four output parameters; without a server they keep their value. *)
Definition dns_tcp_server_stats (srv : option tcp_counters) (out : tcp_counters) : tcp_counters :=
  match srv with
  | None => out
  | Some c => c
  end.

(** The numbers printed: the totals, the free frames and all frames, the
    workers' counters, the mode (zero-copy, busy-poll), a line per queue if
    there are several (its number, its CPU, and what it received and sent), the
    counters of the XDP program if they could be read, and those of the TCP
    server. *)
Record report := Report {
  rp_total : xsk_stats;
  rp_frames_free : Z;
  rp_frames : Z;
  rp_ok : Z;
  rp_drop : Z;
  rp_mode : bool * bool;
  rp_queues : list (Z * Z * Z * Z);
  rp_kern : option (list Z);
  rp_tcp : tcp_counters
}.

(** [who] gives the queue and the CPU of each loop, [mode] is
    [xsk_env_is_zerocopy] of the first one and the option of busy polling, and
    [kern] is what [xsk_env_read_kern_stats] returns and stores. *)
Definition print_stats (who : nat -> Z * Z) (mode : bool * bool) (loops : list (option (xsk_socket_info (P := P) (C := C))))
    (ok drop : Z) (kern : Z * list Z) (tcp : option tcp_counters) : report :=
  let '(t, frames_free) := fold_left add_loop loops (zero_stats, 0) in
  Report t frames_free (NUM_FRAMES * zlen loops) ok drop mode
    (if 1 <? zlen loops
     then omap id (imap (fun i => fmap (fun x => (who i, rx_packets (x_stats x), tx_packets (x_stats x)))) loops) else [])
    (if kern.1 =? 0 then Some kern.2 else None)
    (dns_tcp_server_stats tcp (TcpCounters 0 0 0 0)).

(** A field that [add_stats] sums. *)
Definition summed (f : xsk_stats -> Z) : Prop := f zero_stats = 0 /\ forall t s, f (add_stats t s) = u64 (f t + f s).

Lemma total_field f (xs : list (xsk_socket_info (P := P) (C := C))) : summed f ->
  f (fold_left add_loop (Some <$> xs) (zero_stats, 0)).1 ≡₆₄ sum_over (f ∘ x_stats) xs.
Proof.
  intros [Hz Hf]. assert (forall acc, f (fold_left add_loop (Some <$> xs) acc).1 ≡₆₄ f acc.1 + sum_over (f ∘ x_stats) xs) as Hall.
  { induction xs as [|x xs IH]; intros acc; cbn [fmap list_fmap fold_left sum_over]; [apply eq64_eq; lia|].
    rewrite IH. cbn [add_loop fst]. rewrite Hf, eq64_wrap. apply eq64_eq. unfold compose. lia. }
  rewrite Hall. cbn [fst]. by rewrite Hz.
Qed.

(** The free frames of up to 16 sockets add up without wrapping. *)
Lemma total_frames (xs : list (xsk_socket_info (P := P) (C := C))) : zlen xs <= MAX_XSKS ->
  (forall x, x ∈ xs -> 0 <= fp_free (x_pool x) <= NUM_FRAMES) ->
  (fold_left add_loop (Some <$> xs) (zero_stats, 0)).2 = sum_over (fp_free ∘ x_pool) xs /\
  0 <= sum_over (fp_free ∘ x_pool) xs <= NUM_FRAMES * zlen xs.
Proof.
  intros Hl Hx. assert (forall acc, 0 <= acc.2 -> acc.2 + NUM_FRAMES * zlen xs < 2 ^ 32 ->
    (fold_left add_loop (Some <$> xs) acc).2 = acc.2 + sum_over (fp_free ∘ x_pool) xs /\
    0 <= sum_over (fp_free ∘ x_pool) xs <= NUM_FRAMES * zlen xs) as Hall.
  { clear Hl. induction xs as [|x xs IH]; intros acc Hacc Hb; cbn [fmap list_fmap fold_left sum_over]; [unfold zlen; cbn; lia|].
    rewrite zlen_cons in *. pose proof (Hx x ltac:(by left)) as Hf. pose proof (zlen_nonneg xs). unfold NUM_FRAMES in *.
    assert (add_loop acc (Some x) = (add_stats acc.1 (x_stats x), acc.2 + fp_free (x_pool x))) as ->.
    { unfold add_loop, xsk_free_frame_count, u32. by rewrite Z.mod_small by lia. }
    destruct (IH ltac:(intros; apply Hx; by right) (add_stats acc.1 (x_stats x), acc.2 + fp_free (x_pool x))) as [E2 E3]; cbn [snd] in *; [lia..|].
    rewrite E2. unfold compose in *. lia. }
  destruct (Hall (zero_stats, 0)) as [E1 E2]; cbn [snd]; [lia|unfold NUM_FRAMES, MAX_XSKS in *; lia|]. by rewrite E1.
Qed.
End report.

(** ** Lemmas: what the functions of a loop count *)

Section account.
Context {P C : Type -> Type} `{RingLaws P C} {E B : Type} `{BackendLaws E B}.
Implicit Types (x : xsk_socket_info (P := P) (C := C)) (lp : rx_loop_state (P := P) (C := C)) (s : xdp_server (P := P) (C := C)).

(** Packets neither dropped nor refused. *)
Definition kept (st : xsk_stats) : Z := rx_packets st - rx_dropped st - queue_full st.

(** The counters of transmission. *)
Definition tx_counts (st : xsk_stats) : Z * Z * Z := (tx_packets st, tx_no_slot st, tx_no_frame st).

Lemma rx_loop_counts n : forall env i idx x q x' q', rx_loop n env i idx x q = Ok (x', q') ->
  rx_packets (x_stats x') ≡₆₄ rx_packets (x_stats x) + Z.of_nat n /\
  kept (x_stats x') - zlen (p_jobs q') ≡₆₄ kept (x_stats x) - zlen (p_jobs q) /\
  tx_counts (x_stats x') = tx_counts (x_stats x).
Proof.
  induction n as [|n IH]; intros env i idx x q x' q' Hx; cbn [rx_loop] in Hx.
  - injection Hx as <- <-. split_and!; [apply eq64_eq; lia|done|done].
  - destruct (cons_read (x_rx x) idx) as [[addr len]|]; [|done].
    apply bind_Ok in Hx as (pkt & _ & Hx). apply bind_Ok in Hx as (job & _ & Hx).
    assert (exists q1 dropped full, match job with None => (q, 1, 0)
      | Some job => let '(q', ok) := push_pending q job in (q', 0, if ok : bool then 0 else 1) end = (q1, dropped, full) /\
      1 - dropped - full = zlen (p_jobs q1) - zlen (p_jobs q)) as (q1 & dropped & full & Em & Hq).
    { destruct job as [job|]; [|exists q, 1, 0; split; [done|lia]]. unfold push_pending.
      destruct (p_open q && _); do 3 eexists; (split; [done|]); cbn [p_jobs]; [zl|lia]. }
    rewrite Em in Hx. apply bind_Ok in Hx as (p & _ & Hx). destruct (IH _ _ _ _ _ _ _ Hx) as (E1 & E2 & E3).
    cbn [set_pool set_stats x_stats] in *. unfold kept, count_rx in *. cbn [rx_packets rx_dropped queue_full] in *. split_and!; [| |done].
    + rewrite E1, eq64_wrap. apply eq64_eq. lia.
    + rewrite E2, !eq64_wrap. apply eq64_eq. lia.
Qed.

Lemma refill_stats x n x' : refill_fq x n = Ok x' -> x_stats x' = x_stats x /\ x_rx x' = x_rx x.
Proof.
  unfold refill_fq. intros Hx. destruct (prod_nb_free _ _) as [avail fq]. destruct (_ =? 0); [by injection Hx as <-|].
  destruct (prod_reserve _ _) as [[k idx] fq']. destruct (negb _); [by injection Hx as <-|].
  apply bind_Ok in Hx as ([fq2 p] & _ & Hx). by injection Hx as <-.
Qed.

(** [drain_rx] counts every packet it takes from the ring. *)
Lemma drain_rx_counts env i x q x' q' : drain_rx env i x q = Ok (x', q') ->
  rx_packets (x_stats x') ≡₆₄ rx_packets (x_stats x) + zlen (ztake RX_BATCH_SIZE (rx_descs x)) /\
  kept (x_stats x') - zlen (p_jobs q') ≡₆₄ kept (x_stats x) - zlen (p_jobs q) /\
  tx_counts (x_stats x') = tx_counts (x_stats x).
Proof.
  unfold drain_rx. intros Hx. destruct (peek_law _ (x_rx x) RX_BATCH_SIZE) as (idx & rx & Hp & _); [done|]. rewrite Hp in Hx.
  fold (rx_descs x) in Hx. rewrite <- (zlen_ztake_min RX_BATCH_SIZE (rx_descs x)) in Hx by done. set (ds := ztake _ _) in *.
  destruct (Z.eqb_spec (zlen ds) 0) as [Hz|Hz].
  - injection Hx as <- <-. rewrite Hz. split_and!; [apply eq64_eq; cbn; lia|done|done].
  - apply bind_Ok in Hx as ([x1 q1] & Hl & Hx). apply rx_loop_counts in Hl as (E1 & E2 & E3).
    apply bind_Ok in Hx as (x2 & Hr & Hx). injection Hx as <- <-. apply refill_stats in Hr as [-> _]. cbn [set_rx x_stats] in *.
    rewrite Z2Nat.id in E1 by apply zlen_nonneg. done.
Qed.

(** The kernel moves descriptors, and the history with them. *)
Lemma kernel_counts (y y' : xdp_system (P := P) (C := C)) : kernel_step y y' ->
  x_stats (y_xsk y') = x_stats (y_xsk y) /\
  zlen (rx_descs (y_xsk y')) = zlen (rx_descs (y_xsk y)) + zlen (arrived y y') /\
  zlen (tx_descs (y_xsk y)) = zlen (tx_descs (y_xsk y')) + zlen (departed y y').
Proof.
  intros Hk. assert (x_stats (y_xsk y') = x_stats (y_xsk y) /\ zlen (rx_descs (y_xsk y)) <= zlen (rx_descs (y_xsk y')) /\
    zlen (tx_descs (y_xsk y')) <= zlen (tx_descs (y_xsk y))) as (E1 & E2 & E3).
  { destruct Hk as [? ? ? ? ? ? ? ? ? ? a fq' Ht|? ? ? ? ? ? ? ? ? ? ? ? ? ? ? rx' Hput|? ? ? ? ? ? ? ? ? ? d tx' Ht|? ? ? ? ? ? ? ? ? ? ? ? ? Hput];
      unfold rx_descs, tx_descs; cbn [y_xsk x_rx x_tx x_stats]; (split; [done|]); try lia.
    - apply put_law in Hput as ->. zl.
    - apply take_law in Ht as [-> _]. zl. }
  split; [done|]. unfold arrived, departed. rewrite !zlen_fmap.
  pose proof (zlen_nonneg (rx_descs (y_xsk y))). pose proof (zlen_nonneg (tx_descs (y_xsk y'))).
  rewrite zlen_zdrop, zlen_ztake by lia. lia.
Qed.

(** ** The account *)

Definition lp_stats lp : xsk_stats := x_stats (y_xsk (r_sys lp)).

(** What a loop contributes to the jobs handed on, to the jobs answered, to the
    packets received and to those sent. *)
Definition w_handed lp : Z := kept (lp_stats lp) - zlen (r_hand lp).
Definition w_answered lp : Z := tx_packets (lp_stats lp) + unsent (lp_stats lp) + zlen (r_done lp).
Definition w_received lp : Z := rx_packets (lp_stats lp) + zlen (rx_descs (y_xsk (r_sys lp))).
Definition w_sent lp : Z := tx_packets (lp_stats lp) - zlen (tx_descs (y_xsk (r_sys lp))).

Definition under_way s : Z := zlen (p_jobs (v_pending s)) + zlen (v_busy s).

Record account s : Prop := Account {
  ac_handed : sum_over w_handed (v_loops s) ≡₆₄ under_way s + v_ok s + v_drop s;
  ac_answered : sum_over w_answered (v_loops s) ≡₆₄ v_ok s;
  ac_received : sum_over w_received (v_loops s) ≡₆₄ zlen (v_in s);
  ac_sent : sum_over w_sent (v_loops s) ≡₆₄ zlen (v_out s)
}.

(** A step that changes one loop. *)
Lemma account_step s s' i lp lp' a b c d : account s -> v_loops s !! i = Some lp -> v_loops s' = <[i := lp']> (v_loops s) ->
  w_handed lp' ≡₆₄ w_handed lp + a -> under_way s' + v_ok s' + v_drop s' ≡₆₄ under_way s + v_ok s + v_drop s + a ->
  w_answered lp' ≡₆₄ w_answered lp + b -> v_ok s' ≡₆₄ v_ok s + b ->
  w_received lp' ≡₆₄ w_received lp + c -> zlen (v_in s') = zlen (v_in s) + c ->
  w_sent lp' ≡₆₄ w_sent lp + d -> zlen (v_out s') = zlen (v_out s) + d -> account s'.
Proof.
  intros [A1 A2 A3 A4] Hi El Q1 Q1' Q2 Q2' Q3 Q3' Q4 Q4'. split; rewrite El, (sum_insert _ _ _ _ _ Hi).
  - rewrite Q1, Q1', <- A1. apply eq64_eq. lia.
  - rewrite Q2, Q2', <- A2. apply eq64_eq. lia.
  - rewrite Q3, Q3', <- A3. apply eq64_eq. lia.
  - rewrite Q4, Q4', <- A4. apply eq64_eq. lia.
Qed.

(** What a loop holds changes, but not its contribution. *)
Ltac same_weight := unfold w_handed, w_answered, w_received, w_sent, lp_stats; cbn [r_sys r_hand r_done y_xsk].

Lemma receive_account env i s s' lp : account s -> xdp_inv s -> v_loops s !! i = Some lp -> loop_receive env i s = Ok s' -> account s'.
Proof.
  intros Ha Hinv Hi Hs. unfold loop_receive in Hs. rewrite Hi in Hs. destruct lp as [[x krx ktx] hand fin].
  destruct (xi_loops _ Hinv i _ Hi) as [l Hsys]. cbn [r_sys] in Hsys. apply bind_Ok in Hs as ([x' q] & Hd & Hs). injection Hs as <-.
  pose proof (drain_rx_counts _ _ _ _ _ _ Hd) as (E1 & E2 & E3).
  destruct (drain_rx_spec env (Z.of_nat i) l x (Pending [] true) krx ktx Hsys) as (rx & fq & p & st & rs & Hd' & _ & _ & Hrx & _).
  rewrite Hd in Hd'. injection Hd' as -> _. cbn [x_stats p_jobs] in *. change (zlen (@nil dns_job)) with 0 in E2.
  eapply (account_step s _ i _ _ 0 0 0 0 Ha Hi); [reflexivity|..]; same_weight; cbn [x_stats x_rx x_tx rx_descs tx_descs set_loop under_way v_pending v_busy v_ok v_drop v_in v_out];
    try (apply eq64_eq; unfold under_way; cbn; lia); try lia.
  - rewrite zlen_app. replace (kept st - (zlen hand + zlen (p_jobs q))) with (kept st - zlen (p_jobs q) - zlen hand) by lia.
    rewrite E2. apply eq64_eq. lia.
  - injection E3 as E3 E4 E5. unfold unsent. rewrite E3, E4, E5. apply eq64_eq. lia.
  - unfold rx_descs in *. cbn [x_rx] in *. rewrite E1, Hrx. apply eq64_eq.
    rewrite <- (ztake_zdrop RX_BATCH_SIZE (cons_items (x_rx x))) at 3. rewrite zlen_app. lia.
  - injection E3 as E3 _ _. rewrite E3. apply eq64_eq. unfold tx_descs. cbn [x_tx]. lia.
Qed.

Lemma push_account i s s' : account s -> loop_push i s = Ok s' -> account s'.
Proof.
  intros Ha Hs. unfold loop_push in Hs. destruct (v_loops s !! i) as [[[x krx ktx] hand fin]|] eqn:Hi; [|done].
  destruct hand as [|job hand]; [done|]. unfold push_pending in Hs. destruct (p_open (v_pending s) && _); injection Hs as <-.
  - eapply (account_step s _ i _ _ 1 0 0 0 Ha Hi); [reflexivity|..]; same_weight; unfold under_way; cbn [v_pending p_jobs v_busy v_ok v_drop v_in v_out];
      rewrite ?zlen_cons, ?zlen_app, ?zlen_cons; try lia; apply eq64_eq; zl.
  - eapply (account_step s _ i _ _ 0 0 0 0 Ha Hi); [reflexivity|..]; same_weight; unfold under_way; cbn [v_pending p_jobs v_busy v_ok v_drop v_in v_out];
      rewrite ?zlen_cons; try lia; try (apply eq64_eq; unfold unsent, rx_descs, tx_descs; cbn; lia).
    unfold kept, count_full. cbn [set_stats x_stats rx_packets rx_dropped queue_full]. rewrite eq64_wrap. apply eq64_eq. lia.
Qed.

Lemma done_sendable s i lp : xdp_inv s -> v_loops s !! i = Some lp -> filter sendable (r_done lp) = r_done lp.
Proof.
  intros Hinv Hi. apply filter_id. intros job Hj. destruct (work_loop _ _ _ Hi) as (Wf & E1 & _).
  destruct (matched_origin _ _ (i, Done job) (xi_work _ Hinv)) as (o & (_ & _ & _ & F & _ & Hok & Hne & _) & _).
  - unfold work. rewrite E1. apply elem_of_app. left. apply elem_of_app. right. unfold loop_work. rewrite !elem_of_app. do 2 right. left.
    apply list_elem_of_fmap. by exists job.
  - split; [done|]. apply Hok.
Qed.

Lemma transmit_account i s s' lp : account s -> xdp_inv s -> v_loops s !! i = Some lp -> loop_transmit i s = Ok s' -> account s'.
Proof.
  intros Ha Hinv Hi Hs. unfold loop_transmit in Hs. rewrite Hi in Hs. pose proof (done_sendable s i lp Hinv Hi) as Hall.
  pose proof (done_jobs_ok s i lp Hinv Hi) as Hj. destruct lp as [[x krx ktx] hand fin]. cbn [r_done] in Hall, Hj.
  destruct (xi_loops _ Hinv i _ Hi) as [l Hsys]. cbn [r_sys] in Hsys. apply bind_Ok in Hs as (x' & Hd & Hs). injection Hs as <-.
  destruct (tx_rounds_spec krx ktx (length fin) fin x l) as (x1 & l' & sent & ds & Hd' & _ & Hsent & Hcnt & Hrx); [done..|].
  pose proof (tx_rounds_rx _ _ _ _ Hd') as Erx. unfold drain_done_and_tx in Hd. rewrite Hd in Hd'. injection Hd' as <-.
  destruct Hsent as (Etx & Hc & _ & _ & _ & Hu & _). rewrite Hall in Hu. apply eq64_u64 in Hu, Hcnt.
  pose proof (Forall2_length _ _ _ Hc) as Hlen. injection Hrx as R1 _ R2 R3.
  eapply (account_step s _ i _ _ 0 0 0 0 Ha Hi); [reflexivity|..]; same_weight; cbn [set_loop under_way v_pending v_busy v_ok v_drop v_in v_out];
    try (apply eq64_eq; unfold under_way; cbn; lia); try lia.
  - unfold kept. rewrite R1, R2, R3. apply eq64_eq. lia.
  - change (zlen (@nil dns_job)) with 0. rewrite Hcnt.
    replace (tx_packets (x_stats x) + zlen sent + unsent (x_stats x') + 0) with (tx_packets (x_stats x) + (unsent (x_stats x') + zlen sent)) by lia.
    rewrite Hu. apply eq64_eq. lia.
  - unfold rx_descs. rewrite Erx, R1. apply eq64_eq. lia.
  - rewrite Hcnt, Etx. apply eq64_eq. rewrite zlen_app. unfold zlen at 1 3. rewrite Hlen. lia.
Qed.

Lemma reclaim_account i s s' lp : account s -> xdp_inv s -> v_loops s !! i = Some lp -> loop_reclaim i s = Ok s' -> account s'.
Proof.
  intros Ha Hinv Hi Hs. unfold loop_reclaim in Hs. rewrite Hi in Hs. destruct lp as [[x krx ktx] hand fin].
  destruct (xi_loops _ Hinv i _ Hi) as [l Hsys]. cbn [r_sys] in Hsys. apply bind_Ok in Hs as (x' & Hd & Hs). injection Hs as <-.
  destruct (reclaim_inv l x krx ktx Hsys) as (x1 & Hd' & _ & Est). rewrite Hd in Hd'. injection Hd' as <-.
  destruct (reclaim_keeps _ _ Hd) as (Erx & Etx & _).
  eapply (account_step s _ i _ _ 0 0 0 0 Ha Hi); [reflexivity|..]; same_weight; unfold rx_descs, tx_descs; rewrite ?Est, ?Erx, ?Etx;
    cbn [set_loop v_in v_out]; try lia; apply eq64_eq; unfold under_way; cbn; lia.
Qed.

Lemma kernel_account i lp y' s : account s -> v_loops s !! i = Some lp -> kernel_step (r_sys lp) y' -> account (log_kernel i lp y' s).
Proof.
  intros Ha Hi Hk. destruct (kernel_counts _ _ Hk) as (Est & Erx & Etx).
  eapply (account_step s _ i _ _ 0 0 (zlen (arrived (r_sys lp) y')) (zlen (departed (r_sys lp) y')) Ha Hi); [reflexivity|..]; same_weight;
    unfold log_kernel; cbn [under_way v_pending v_busy v_ok v_drop v_in v_out]; rewrite ?zlen_app, ?zlen_fmap, ?Est; try done;
    apply eq64_eq; unfold under_way; cbn [v_pending v_busy v_ok v_drop]; lia.
Qed.

Lemma take_account s s' : account s -> worker_take s = Some s' -> account s'.
Proof.
  intros [A1 A2 A3 A4] Ht. unfold worker_take in Ht. destruct (p_jobs (v_pending s)) as [|job jobs] eqn:Ej; [done|]. injection Ht as <-.
  split; cbn [v_loops v_ok v_drop v_in v_out]; [|done..]. rewrite A1. apply eq64_eq. unfold under_way. cbn [v_pending p_jobs v_busy]. rewrite Ej. zl.
Qed.

Lemma finish_account e st n s s' : account s -> worker_finish e st n s = Ok s' -> account s'.
Proof.
  intros Ha Hs. unfold worker_finish in Hs. destruct (v_busy s !! n) as [job|] eqn:Hn; [|done].
  apply bind_Ok in Hs as ([st' r] & _ & Hs). pose proof (delete_Permutation _ _ _ Hn) as Hdel. apply Permutation_length in Hdel.
  set (D := delete n (v_busy s)) in *. assert (zlen (v_busy s) = zlen D + 1) as Hb by (unfold zlen; cbn in Hdel; lia). clearbody D.
  destruct r as [job'|].
  - destruct (v_loops s !! Z.to_nat (j_loop_idx job')) as [lp|] eqn:Hi; [|done]. injection Hs as <-.
    eapply (account_step s _ _ _ _ 0 1 0 0 Ha Hi); [reflexivity|..]; same_weight; unfold under_way; cbn [v_pending v_busy v_ok v_drop v_in v_out];
      rewrite ?zlen_app, ?eq64_wrap; try lia; apply eq64_eq; change (zlen [job']) with 1; lia.
  - injection Hs as <-. destruct Ha as [A1 A2 A3 A4]. split; unfold under_way in *; cbn [v_loops v_pending v_busy v_ok v_drop v_in v_out]; [|done..].
    rewrite A1, eq64_wrap. apply eq64_eq. lia.
Qed.

Lemma xdp_step_account s s' : xdp_step s s' -> xdp_inv s -> account s -> account s'.
Proof.
  intros Hstep Hinv Ha. destruct Hstep as [i lp y' s Hi Hk|env i lp s s' Hi _ Henv Hs|i s s' Hs|i lp s s' Hi _ Hs|i lp s s' Hi _ Hs
    |s s' Hs|e st n s s' He Hst Hs|s].
  - by apply kernel_account.
  - by eapply receive_account.
  - by eapply push_account.
  - by eapply transmit_account.
  - by eapply reclaim_account.
  - by eapply take_account.
  - by eapply finish_account.
  - destruct Ha. by split.
Qed.

(** ** The state at the start *)

Lemma prime_stats x x0 : xsk_prime x = Ok x0 -> x_stats x0 = x_stats x /\ x_rx x0 = x_rx x /\ x_tx x0 = x_tx x.
Proof.
  unfold xsk_prime. intros Hx. destruct (prod_reserve _ _) as [[k idx] fq]. destruct (negb _); [discriminate Hx|].
  apply bind_Ok in Hx as ([? ?] & _ & Hx). injection Hx as <-. by split_and!.
Qed.

Lemma start_account xs xs0 : Forall fresh_socket xs -> Forall (fun x => x_stats x = zero_stats) xs ->
  Forall2 (fun x x0 => xsk_prime x = Ok x0) xs xs0 -> account (xdp_start xs0).
Proof.
  intros Hf Hz Hp. assert (Forall (fun x => x_stats x = zero_stats /\ rx_descs x = [] /\ tx_descs x = []) xs0) as Hx.
  { induction Hp as [|x x0 xs xs0 Hx _ IH]; [constructor|]. apply Forall_cons in Hf as [Hf Hfs]. apply Forall_cons in Hz as [Hz Hzs].
    constructor; [|by apply IH]. apply prime_stats in Hx as (E1 & E2 & E3). unfold rx_descs, tx_descs. rewrite E1, E2, E3.
    split_and!; [done|apply Hf|apply Hf]. }
  rewrite Forall_forall in Hx. unfold xdp_start. split; cbn [v_loops v_pending v_busy v_ok v_drop v_in v_out under_way p_jobs]; apply eq64_eq;
    (rewrite sum_zero; [done|]); intros lp (x & -> & Hin)%list_elem_of_fmap; apply Hx in Hin as (E1 & E2 & E3); same_weight;
    rewrite E1, ?E2, ?E3; done.
Qed.

Lemma reached_account xs s : xdp_reaches xs s -> Forall (fun x => x_stats x = zero_stats) xs -> account s /\ xdp_inv s.
Proof.
  intros Hr Hz. split; [|by eapply xdp_reach_inv]. pose proof Hr as (Hlen & Hf & xs0 & Hp & Hrun).
  assert (account (xdp_start xs0)) as Ha by by eapply start_account.
  assert (xdp_inv (xdp_start xs0)) as Hi by (apply (xdp_reach_inv xs); split_and!; [done..|]; exists xs0; split; [done|apply rtc_refl]).
  clear - Hrun Ha Hi. induction Hrun as [s|s s1 s2 Hs _ IH]; [done|]. apply IH; [by eapply xdp_step_account|by eapply xdp_step_inv].
Qed.

(** The sockets of the loops. *)
Definition sockets s : list (option (xsk_socket_info (P := P) (C := C))) := (fun lp => Some (y_xsk (r_sys lp))) <$> v_loops s.

Lemma report_field f who mode s ok drop kern tcp : summed f ->
  f (rp_total (print_stats who mode (sockets s) ok drop kern tcp)) ≡₆₄ sum_over (fun lp => f (lp_stats lp)) (v_loops s).
Proof.
  intros Hf. unfold print_stats, sockets. rewrite (list_fmap_compose (fun lp => y_xsk (r_sys lp)) Some).
  pose proof (total_field f ((fun lp => y_xsk (r_sys lp)) <$> v_loops s) Hf) as E1. rewrite sum_fmap in E1. unfold compose in E1.
  destruct (fold_left add_loop _ _) as [t free]. exact E1.
Qed.

Lemma report_frames who mode s ok drop kern tcp : xdp_inv s ->
  let r := print_stats who mode (sockets s) ok drop kern tcp in
  rp_frames_free r = sum_over (fun lp => fp_free (x_pool (y_xsk (r_sys lp)))) (v_loops s) /\ 0 <= rp_frames_free r <= rp_frames r.
Proof.
  intros Hinv. unfold print_stats, sockets. rewrite (list_fmap_compose (fun lp => y_xsk (r_sys lp)) Some).
  destruct (total_frames ((fun lp => y_xsk (r_sys lp)) <$> v_loops s)) as [E1 E2].
  - rewrite zlen_fmap. apply (xi_count _ Hinv).
  - intros x (lp & -> & (i & Hi)%list_elem_of_lookup)%list_elem_of_fmap. destruct (xi_loops _ Hinv i lp Hi) as [l Hs].
    destruct (si_pool _ _ Hs) as (-> & Hn & k & Hk). rewrite <- Hn, Hk. zl.
  - rewrite sum_fmap in E1, E2. unfold compose in E1, E2. destruct (fold_left add_loop _ _) as [t free]. cbn [snd] in E1.
    cbn [rp_frames_free rp_frames]. rewrite !zlen_fmap in *. lia.
Qed.

(** ** Theorems *)

(** C3: The report of the AF_XDP server accounts for every packet, in every
    interleaving of kernel, loops and workers (modulo 2^64, the width of the
    counters): the packets the kernel delivered are those counted as received
    and those still on the RX rings; each received packet was dropped as
    unparseable, refused by the full queue, dropped by the resolver, answered,
    or is a job under way; each answered job was sent, counted as unsent for
    want of a slot or a frame, or waits on a done queue; and each packet
    counted as sent has left or is on a TX ring. The free frames never exceed
    all frames. After the shutdown of [main], when no job is under way, the
    printed numbers therefore add up exactly. *)
Theorem report_adds_up who mode xs s kern tcp : xdp_reaches xs s -> Forall (fun x => x_stats x = zero_stats) xs ->
  let r := print_stats who mode (sockets s) (v_ok s) (v_drop s) kern tcp in
  let t := rp_total r in
  let all (f : rx_loop_state -> Z) := sum_over f (v_loops s) in
  zlen (v_in s) ≡₆₄ rx_packets t + all (fun lp => zlen (rx_descs (y_xsk (r_sys lp)))) /\
  rx_packets t ≡₆₄ rx_dropped t + queue_full t + rp_drop r + rp_ok r + (all (fun lp => zlen (r_hand lp)) + under_way s) /\
  rp_ok r ≡₆₄ tx_packets t + tx_no_slot t + tx_no_frame t + all (fun lp => zlen (r_done lp)) /\
  tx_packets t ≡₆₄ zlen (v_out s) + all (fun lp => zlen (tx_descs (y_xsk (r_sys lp)))) /\
  0 <= rp_frames_free r <= rp_frames r.
Proof.
  intros Hr Hz r t all. destruct (reached_account xs s Hr Hz) as [[A1 A2 A3 A4] Hinv].
  assert (forall f, summed f -> f t ≡₆₄ sum_over (fun lp => f (lp_stats lp)) (v_loops s)) as Ht by (intros f Hf; by apply report_field).
  pose proof (Ht rx_packets ltac:(by split)) as T1. pose proof (Ht rx_dropped ltac:(by split)) as T2.
  pose proof (Ht queue_full ltac:(by split)) as T3. pose proof (Ht tx_packets ltac:(by split)) as T4.
  pose proof (Ht tx_no_slot ltac:(by split)) as T5. pose proof (Ht tx_no_frame ltac:(by split)) as T6.
  assert (rp_ok r = v_ok s /\ rp_drop r = v_drop s) as [Eok Edrop] by (unfold r, print_stats; by destruct (fold_left add_loop _ _)).
  pose proof (report_frames who mode s (v_ok s) (v_drop s) kern tcp Hinv) as [_ Hfr].
  assert (sum_over w_handed (v_loops s) = all (fun lp => rx_packets (lp_stats lp)) - all (fun lp => rx_dropped (lp_stats lp)) -
    all (fun lp => queue_full (lp_stats lp)) - all (fun lp => zlen (r_hand lp))) as S1 by (unfold all; by rewrite <- !sum_sub).
  assert (sum_over w_answered (v_loops s) = all (fun lp => tx_packets (lp_stats lp)) + (all (fun lp => tx_no_slot (lp_stats lp)) +
    all (fun lp => tx_no_frame (lp_stats lp))) + all (fun lp => zlen (r_done lp))) as S2 by (unfold all; by rewrite <- !sum_add).
  assert (sum_over w_received (v_loops s) = all (fun lp => rx_packets (lp_stats lp)) + all (fun lp => zlen (rx_descs (y_xsk (r_sys lp))))) as S3
    by (unfold all; by rewrite <- sum_add).
  assert (sum_over w_sent (v_loops s) = all (fun lp => tx_packets (lp_stats lp)) - all (fun lp => zlen (tx_descs (y_xsk (r_sys lp))))) as S4
    by (unfold all; by rewrite <- sum_sub).
  rewrite S1 in A1. rewrite S2 in A2. rewrite S3 in A3. rewrite S4 in A4. fold (all (fun lp => rx_packets (lp_stats lp))) in T1.
  fold (all (fun lp => rx_dropped (lp_stats lp))) in T2. fold (all (fun lp => queue_full (lp_stats lp))) in T3.
  fold (all (fun lp => tx_packets (lp_stats lp))) in T4. fold (all (fun lp => tx_no_slot (lp_stats lp))) in T5.
  fold (all (fun lp => tx_no_frame (lp_stats lp))) in T6. rewrite Eok, Edrop. clearbody all t. split_and!; [| | | |apply Hfr|apply Hfr].
  - by rewrite T1.
  - rewrite T1, T2, T3. set (D := all (fun lp => rx_dropped (lp_stats lp))) in *. set (Q := all (fun lp => queue_full (lp_stats lp))) in *.
    set (h := all (fun lp => zlen (r_hand lp))) in *.
    replace (D + Q + v_drop s + v_ok s + (h + under_way s)) with (under_way s + v_ok s + v_drop s + (D + Q + h)) by lia.
    rewrite <- A1. apply eq64_eq. lia.
  - rewrite T4, T5, T6, <- A2. apply eq64_eq. lia.
  - rewrite T4, <- A4. apply eq64_eq. lia.
Qed.
End account.

(** ** A concrete run *)

Lemma report_adds_up_witness : exists s : xdp_server (P := list_prod) (C := list), zlen (v_in s) = 1 /\
  let r := print_stats (fun i => (Z.of_nat i, 0)) (true, false) (sockets s) (v_ok s) (v_drop s) (0, []) None in
  let t := rp_total r in
  let all (f : rx_loop_state -> Z) := sum_over f (v_loops s) in
  zlen (v_in s) ≡₆₄ rx_packets t + all (fun lp => zlen (rx_descs (y_xsk (r_sys lp)))) /\
  rx_packets t ≡₆₄ rx_dropped t + queue_full t + rp_drop r + rp_ok r + (all (fun lp => zlen (r_hand lp)) + under_way s) /\
  rp_ok r ≡₆₄ tx_packets t + tx_no_slot t + tx_no_frame t + all (fun lp => zlen (r_done lp)) /\
  tx_packets t ≡₆₄ zlen (v_out s) + all (fun lp => zlen (tx_descs (y_xsk (r_sys lp)))) /\
  0 <= rp_frames_free r <= rp_frames r.
Proof.
  destruct sample_server_reached as (s & Hs & Hin). exists s. split; [exact Hin|].
  apply (report_adds_up (E := unit) (B := stub) (fun i => (Z.of_nat i, 0)) (true, false) [sample_socket] s (0, []) None Hs). constructor; [reflexivity|constructor].
Defined.

(** The packet of the sample round, once its reply is on the TX ring. *)
Example sample_report :
  (s ← loop_receive (fun _ => (Some (replicate 1500 0), 5)) 0 (xdp_start (P := list_prod) (C := list) [sample_rx_socket]);
   s ← loop_push 0 s;
   match worker_take s with
   | None => Fail
   | Some s =>
       s ← worker_finish tt (Stub [10; 0; 0; 1] 0) 0 s;
       s ← loop_transmit 0 s;
       Ok (print_stats (fun i => (Z.of_nat i, 0)) (true, false) (sockets s) (v_ok s) (v_drop s) (0, [3; 1]) None)
   end) = Ok (Report (XskStats 1 (zlen sample_frame) 1 75 0 0 0 0) 0 4096 1 0 (true, false) [] (Some [3; 1]) (TcpCounters 0 0 0 0)).
Proof. vm_compute. reflexivity. Qed.
