(* ===== verification/LoopWake.v ===== *)
(** * How a worker wakes a packet loop (src/af_xdp_user.c: loop_main,
      drain_eventfd, kick_tx, and the notification of queue_push)

    A worker that finishes a job pushes it on the done queue of the loop, and
    only then, outside of the mutex, adds to the loop's eventfd. The loop sleeps
    in [poll] on its socket and the eventfd, empties the eventfd, and only then
    takes the finished jobs. The state machine interleaves the two, with
    signals, packets, timeouts and errors of [poll]; critical sections of the
    queue are one step. The call that tells the kernel of new fill frames, and
    what the loop does with packets and frames, leave this state alone; they are
    the subject of XdpServer.v. It ends with the flush that [main] makes when all
    threads are gone. *)

From stdpp Require Import prelude list relations.
From Stdlib Require Import ZArith Lia.
From S2P Require Import Prelude.

Local Open Scope Z_scope.

(** ** State *)

(** The largest value of an eventfd. *)
Definition EVENTFD_MAX : Z := 2 ^ 64 - 2.

(** Where [loop_main] is: at [while (!global_exit)], in [poll], before each of
    its calls, in the flush after the loop, or at its end. *)
Inductive loop_pc :=
| LoopHead | InPoll | AtEventfd | AtRx | AtDone | AtReclaim | FlushDone | FlushReclaim | LoopEnded.

#[global] Instance loop_pc_eq_dec : EqDecision loop_pc.
Proof. solve_decision. Defined.

(** A worker outside of [queue_push], or past its unlock and before its write. *)
Inductive worker_pc := WFree | WNotify.

(** Jobs are their numbers; [k_sent] are those that were taken for
    transmission, [k_pushed] all that workers pushed. *)
Record wake := Wake {
  k_busy_poll : bool;
  k_exit : bool;
  k_efd : Z;
  k_done : list nat;
  k_sent : list nat;
  k_pushed : list nat;
  k_pc : loop_pc;
  k_workers : list worker_pc
}.

Definition wake_start (busy_poll : bool) (workers : nat) : wake :=
  Wake busy_poll false 0 [] [] [] LoopHead (replicate workers WFree).

Definition set_pc (pc : loop_pc) (s : wake) : wake :=
  Wake (k_busy_poll s) (k_exit s) (k_efd s) (k_done s) (k_sent s) (k_pushed s) pc (k_workers s).

(** ** Operations *)

(** What [poll] returns: the eventfd or the socket is readable, the timeout has
    passed, a signal came, another error. *)
Inductive poll_result := PollEventfd | PollSocket | PollTimeout | PollIntr | PollError.

(** [poll] reports a readable eventfd, and does not time out then. *)
Definition poll_may (r : poll_result) (s : wake) : bool :=
  match r with
  | PollEventfd => 0 <? k_efd s
  | PollTimeout => k_efd s =? 0
  | PollSocket | PollIntr | PollError => true
  end.

(** [read(fd, &v, sizeof(v))] of a non-blocking eventfd. *)
Definition drain_eventfd (s : wake) : wake :=
  Wake (k_busy_poll s) (k_exit s) 0 (k_done s) (k_sent s) (k_pushed s) (k_pc s) (k_workers s).

(** [queue_drain(&lp->done_q)] in [drain_done_and_tx] *)
Definition take_done (s : wake) : wake :=
  Wake (k_busy_poll s) (k_exit s) (k_efd s) [] (k_sent s ++ k_done s) (k_pushed s) (k_pc s) (k_workers s).

(** The next step of [loop_main]; [r] is the answer of [poll]. *)
Definition loop_main (r : poll_result) (s : wake) : wake :=
  match k_pc s with
  | LoopHead =>
      if k_exit s then set_pc FlushDone s
      else if k_busy_poll s then set_pc AtEventfd s else set_pc InPoll s
  | InPoll =>
      match r with
      | PollEventfd | PollSocket | PollTimeout => set_pc AtEventfd s
      | PollIntr => set_pc LoopHead s
      | PollError => set_pc FlushDone s
      end
  | AtEventfd => set_pc AtRx (drain_eventfd s)
  | AtRx => set_pc AtDone s
  | AtDone => set_pc AtReclaim (take_done s)
  | AtReclaim => set_pc LoopHead s
  | FlushDone => set_pc FlushReclaim (take_done s)
  | FlushReclaim => set_pc LoopEnded s
  | LoopEnded => s
  end.

(** The critical section of [queue_push] by worker [w]; done queues are not
    bounded and never shut down. *)
Definition push_done (w job : nat) (s : wake) : wake :=
  Wake (k_busy_poll s) (k_exit s) (k_efd s) (k_done s ++ [job]) (k_sent s) (k_pushed s ++ [job]) (k_pc s)
    (<[w := WNotify]> (k_workers s)).

(** [write(q->notify_fd, &one, sizeof(one))], which fails if the counter would
    pass its maximum. *)
Definition notify (w : nat) (s : wake) : wake :=
  Wake (k_busy_poll s) (k_exit s) (if k_efd s + 1 <=? EVENTFD_MAX then k_efd s + 1 else k_efd s) (k_done s)
    (k_sent s) (k_pushed s) (k_pc s) (<[w := WFree]> (k_workers s)).

(** [on_signal] *)
Definition on_signal (s : wake) : wake :=
  Wake (k_busy_poll s) true (k_efd s) (k_done s) (k_sent s) (k_pushed s) (k_pc s) (k_workers s).

Inductive wake_step : wake -> wake -> Prop :=
| wake_loop r s : (k_pc s = InPoll -> poll_may r s = true) -> wake_step s (loop_main r s)
| wake_push w job s : k_workers s !! w = Some WFree -> wake_step s (push_done w job s)
| wake_notify w s : k_workers s !! w = Some WNotify -> wake_step s (notify w s)
| wake_signal s : wake_step s (on_signal s)
| wake_flush s : k_pc s = LoopEnded -> Forall (eq WFree) (k_workers s) -> wake_step s (take_done s).

(** A worker has pushed a job and not written to the eventfd. *)
Definition notifying (s : wake) : Prop := WNotify ∈ k_workers s.

(** Between the read of the eventfd and the take of the finished jobs. *)
Definition about_to_take (pc : loop_pc) : Prop :=
  match pc with AtRx | AtDone | FlushDone | FlushReclaim | LoopEnded => True | _ => False end.

Record wake_inv (s : wake) : Prop := WakeInv {
  wi_efd : 0 <= k_efd s <= EVENTFD_MAX;
  wi_jobs : k_pushed s = k_sent s ++ k_done s;
  wi_wake : k_done s <> [] -> about_to_take (k_pc s) \/ 0 < k_efd s \/ notifying s
}.

(** ** TX wake-ups *)

(** [kick_tx]: whether it makes the system call, for [outstanding_tx], the
    option and the flag in the ring. *)
Definition kick_tx (outstanding : Z) (need_wakeup flag : bool) : bool :=
  if outstanding =? 0 then false else negb need_wakeup || flag.

(** ** Lemmas *)

Lemma loop_main_inv r s : (k_pc s = InPoll -> poll_may r s = true) -> wake_inv s -> wake_inv (loop_main r s).
Proof.
  intros Hp [He Hj Hw]. unfold loop_main, set_pc, drain_eventfd, take_done.
  destruct (k_pc s) eqn:Epc; [destruct (k_exit s); [|destruct (k_busy_poll s)]|destruct r|..];
    split; cbn [k_efd k_pushed k_sent k_done k_pc k_workers]; rewrite ?app_nil_r; try done; try (unfold EVENTFD_MAX; lia);
    intros Hd; rewrite ?Epc; cbn [about_to_take]; try (by left); try (destruct (Hw Hd) as [[]|?]; by right).
Qed.

Lemma wake_step_inv s s' : wake_step s s' -> wake_inv s -> wake_inv s'.
Proof.
  intros Hs Hinv. destruct Hs as [r s Hp|w job s Hw|w s Hw|s|s Hpc _].
  - by apply loop_main_inv.
  - destruct Hinv as [He Hj _]. split; cbn [push_done k_efd k_pushed k_sent k_done k_pc k_workers]; [done|by rewrite Hj, app_assoc|].
    intros _. do 2 right. apply list_elem_of_lookup. exists w. apply list_lookup_insert_eq. by eapply lookup_lt_Some.
  - destruct Hinv as [He Hj Hk]. split; cbn [notify k_efd k_pushed k_sent k_done k_pc k_workers]; [case_test; lia|done|].
    intros Hd. right. left. unfold EVENTFD_MAX in *. case_test; lia.
  - destruct Hinv. by split.
  - destruct Hinv as [He Hj Hk]. split; cbn [take_done k_efd k_pushed k_sent k_done k_pc]; [done|by rewrite app_nil_r|done].
Qed.

Lemma wake_reach_inv b n s : rtc wake_step (wake_start b n) s -> wake_inv s.
Proof.
  intros Hr. assert (wake_inv (wake_start b n)) as Hi by (split; cbn; unfold EVENTFD_MAX; [lia|done|done]).
  remember (wake_start b n) as s0 eqn:E. clear E. induction Hr as [s|s s1 s2 Hs _ IH]; [done|]. by eapply IH, wake_step_inv.
Qed.

(** Five steps of the loop from [poll]. *)
Definition round (s : wake) : wake :=
  Nat.iter 4 (loop_main PollTimeout) (loop_main PollEventfd s).

Lemma round_takes s : k_pc s = InPoll ->
  round s = Wake (k_busy_poll s) (k_exit s) 0 [] (k_sent s ++ k_done s) (k_pushed s) LoopHead (k_workers s).
Proof. intros Hpc. unfold round. destruct s. cbn [k_pc] in Hpc. by subst. Qed.

(** ** Theorems *)

(** C25: No wake-up is lost. In every interleaving, finished jobs are taken in
    the order in which they were pushed, each once; and while the loop sleeps in
    [poll], a finished job on its queue means that the eventfd is readable or
    that the worker is about to write to it, so that [poll] does not run into
    its timeout; the loop's next round then takes every job, without waiting
    for a packet. A full eventfd does no harm, as it is readable. After the
    loop has ended, the flush of [main] leaves no job behind. *)
Theorem no_lost_wakeup busy workers s : rtc wake_step (wake_start busy workers) s ->
  k_pushed s = k_sent s ++ k_done s /\
  (k_pc s = InPoll -> k_done s <> [] -> ~ notifying s ->
     poll_may PollTimeout s = false /\ poll_may PollEventfd s = true /\
     k_done (round s) = [] /\ k_sent (round s) = k_pushed s /\ rtc wake_step s (round s)) /\
  (k_pc s = LoopEnded -> k_sent (take_done s) = k_pushed s).
Proof.
  intros Hr. destruct (wake_reach_inv _ _ _ Hr) as [He Hj Hw]. split_and!; [done| |done].
  intros Hpc Hd Hn. destruct (Hw Hd) as [Ht|[Hp|?]]; [by rewrite Hpc in Ht| |done].
  rewrite (round_takes s Hpc). split_and!; [unfold poll_may; lia|unfold poll_may; lia|done|done|].
  rewrite <- (round_takes s Hpc). unfold round. cbn [Nat.iter].
  eapply rtc_l; [apply (wake_loop PollEventfd); intros _; unfold poll_may; lia|].
  destruct s as [b x efd dn sn pu pc ws]. cbn [k_pc] in Hpc. subst pc. cbn.
  do 4 (eapply rtc_l; [apply (wake_loop PollTimeout); discriminate|]; cbn). apply rtc_refl.
Qed.

(** Worker 0 pushes job 7 while the loop is about to sleep, and writes. *)
Definition sample_wake : wake := notify 0 (push_done 0 7 (loop_main PollTimeout (wake_start false 1))).

Lemma no_lost_wakeup_witness : k_pc sample_wake = InPoll /\ k_done sample_wake <> [] /\
  k_pushed sample_wake = k_sent sample_wake ++ k_done sample_wake /\
  (k_pc sample_wake = InPoll -> k_done sample_wake <> [] -> ~ notifying sample_wake ->
     poll_may PollTimeout sample_wake = false /\ poll_may PollEventfd sample_wake = true /\
     k_done (round sample_wake) = [] /\ k_sent (round sample_wake) = k_pushed sample_wake /\ rtc wake_step sample_wake (round sample_wake)) /\
  (k_pc sample_wake = LoopEnded -> k_sent (take_done sample_wake) = k_pushed sample_wake).
Proof.
  split; [reflexivity|]. split; [discriminate|]. apply (no_lost_wakeup false 1 sample_wake). unfold sample_wake.
  eapply rtc_l; [apply (wake_loop PollTimeout); discriminate|].
  eapply rtc_l; [apply (wake_push 0 7); reflexivity|]. eapply rtc_l; [apply (wake_notify 0); reflexivity|apply rtc_refl].
Defined.

(** A kernel that sleeps while frames wait is called: it sets the flag of the
    ring if the option was given, and has no flag to set otherwise. *)
Theorem kick_tx_wakes outstanding need_wakeup flag asleep :
  outstanding <> 0 -> flag = need_wakeup && asleep -> asleep = true -> kick_tx outstanding need_wakeup flag = true.
Proof. intros Ho -> ->. unfold kick_tx. rewrite (proj2 (Z.eqb_neq _ _) Ho). by destruct need_wakeup. Qed.

Lemma kick_tx_wakes_witness : kick_tx 3 false false = true /\ kick_tx 3 true true = true.
Proof. split; [apply (kick_tx_wakes 3 false false true)|apply (kick_tx_wakes 3 true true true)]; done. Defined.
