(* ===== verification/XdpConfig.v ===== *)
(** * Start-up of the AF_XDP server (src/af_xdp_user.c: options, main,
      nic_rx_queues, check_queue_config) and its kernel counters
      (src/xsk_setup.c: xsk_env_read_kern_stats)

    From the options that [getopt_long] has found to the queues that are served,
    and from the counters of each CPU to the reported totals. *)

From stdpp Require Import prelude list.
From Stdlib Require Import ZArith Lia.
From S2P Require Import Prelude XdpKern DnsCache XskSetup.

Local Open Scope Z_scope.

Definition MAX_WORKERS : Z := 32.
Definition DEFAULT_WORKERS : Z := 8.
Definition XDP_MODE_NATIVE : Z := 1.
Definition XDP_MODE_SKB : Z := 2.
Definition INT_MAX : Z := 2 ^ 31 - 1.
Definition INT_MIN : Z := - 2 ^ 31.

Definition in_int (z : Z) : bool := (INT_MIN <=? z) && (z <=? INT_MAX).

(** ** Options *)

(** [atoi]: white space, a sign, digits. A value outside of [int] is undefined. *)
Fixpoint skip_space (s : list Z) : list Z :=
  match s with
  | c :: s' => if (c =? 32) || ((9 <=? c) && (c <=? 13)) then skip_space s' else s
  | [] => []
  end.

Fixpoint digits (s : list Z) (acc : Z) : Z :=
  match s with
  | c :: s' => if (48 <=? c) && (c <=? 57) then digits s' (acc * 10 + (c - 48)) else acc
  | [] => acc
  end.

Definition atoi (s : list Z) : res Z :=
  let v := match skip_space s with
           | 45 :: s' => - digits s' 0
           | 43 :: s' => digits s' 0
           | s' => digits s' 0
           end in
  if in_int v then Ok v else Fault.

(** [opt] and [num_workers] *)
Record xdp_opts := XdpOpts {
  o_queue_id : Z;
  o_nqueues : Z;
  o_pin : bool;
  o_zerocopy : bool;
  o_need_wakeup : bool;
  o_busy_poll : bool;
  o_verbose : bool;
  o_allow_multiqueue : bool;
  o_ifname : option (list Z);
  o_bpf_obj : list Z;
  o_progname : option (list Z);
  o_mode : Z;
  o_workers : Z
}.

(** "af_xdp_kern.o" *)
Definition default_bpf_obj : list Z := [97; 102; 95; 120; 100; 112; 95; 107; 101; 114; 110; 46; 111].

Definition default_opts : xdp_opts :=
  XdpOpts 0 1 true true true false false false None default_bpf_obj None XDP_MODE_NATIVE DEFAULT_WORKERS.

(** [main] goes on with its options, or returns a code. *)
Inductive outcome := Run (o : xdp_opts) | Exit (code : Z).

(** The [switch] of [main], for one result of [getopt_long] with [optarg]. *)
Definition apply_option (o : xdp_opts) (c : Z) (optarg : list Z) : res outcome :=
  let '(XdpOpts q n pin zc wake busy verb multi ifname obj prog mode workers) := o in
  match c with
  | 100 => Ok (Run (XdpOpts q n pin zc wake busy verb multi (Some optarg) obj prog mode workers))
  | 81 => v ← atoi optarg; Ok (Run (XdpOpts v n pin zc wake busy verb multi ifname obj prog mode workers))
  | 110 => v ← atoi optarg; Ok (Run (XdpOpts q v pin zc wake busy verb multi ifname obj prog mode workers))
  | 3 => Ok (Run (XdpOpts q n false zc wake busy verb multi ifname obj prog mode workers))
  | 119 => v ← atoi optarg; Ok (Run (XdpOpts q n pin zc wake busy verb multi ifname obj prog mode v))
  | 1 => Ok (Run (XdpOpts q n pin zc wake busy verb multi ifname optarg prog mode workers))
  | 2 => Ok (Run (XdpOpts q n pin zc wake busy verb multi ifname obj (Some optarg) mode workers))
  | 83 => Ok (Run (XdpOpts q n pin zc wake busy verb multi ifname obj prog XDP_MODE_SKB workers))
  | 99 => Ok (Run (XdpOpts q n pin false wake busy verb multi ifname obj prog mode workers))
  | 98 => Ok (Run (XdpOpts q n pin zc wake true verb multi ifname obj prog mode workers))
  | 87 => Ok (Run (XdpOpts q n pin zc false busy verb multi ifname obj prog mode workers))
  | 118 => Ok (Run (XdpOpts q n pin zc wake busy true multi ifname obj prog mode workers))
  | 77 => Ok (Run (XdpOpts q n pin zc wake busy verb true ifname obj prog mode workers))
  | 104 => Ok (Exit 0)
  | _ => Ok (Exit 1)
  end.

Fixpoint parse_options (o : xdp_opts) (found : list (Z * list Z)) : res outcome :=
  match found with
  | [] => Ok (Run o)
  | (c, optarg) :: found' =>
      r ← apply_option o c optarg;
      match r with
      | Run o' => parse_options o' found'
      | Exit code => Ok (Exit code)
      end
  end.

(** ** Queues *)

(** [strncmp(name, "rx-", 3) == 0] *)
Definition is_rx (name : list Z) : bool := bool_decide (ztake 3 name = [114; 120; 45]).

(** [entries]: what [readdir] gives, if the directory can be opened. *)
Definition nic_rx_queues (entries : option (list (list Z))) : Z :=
  match entries with
  | None => -1
  | Some es => let n := zlen (filter is_rx es) in if n =? 0 then -1 else n
  end.

Definition check_queue_config (entries : option (list (list Z))) (allow : bool) (first_q nq_want : Z) : res Z :=
  let nq := nic_rx_queues entries in
  if nq <? 0 then Ok 0 else
  if negb (in_int (first_q + nq_want)) then Fault else
  if nq <? first_q + nq_want then Ok (-1) else
  if nq_want =? nq then Ok 0 else
  if allow then Ok 0 else Ok (-1).

(** The bounds [main] puts on a number. *)
Definition bounded (lo hi v : Z) : Z :=
  let v := if v <? lo then lo else v in
  if hi <? v then hi else v.

(** [main] from its options to the check of the queues. *)
Definition configure (entries : option (list (list Z))) (found : list (Z * list Z)) : res outcome :=
  r ← parse_options default_opts found;
  match r with
  | Exit code => Ok (Exit code)
  | Run (XdpOpts q n pin zc wake busy verb multi ifname obj prog mode workers) =>
      match ifname with
      | None => Ok (Exit 1)
      | Some _ =>
          let workers := bounded 1 MAX_WORKERS workers in
          let n := bounded 1 MAX_XSKS n in
          c ← check_queue_config entries multi q n;
          if negb (c =? 0) then Ok (Exit 1)
          else Ok (Run (XdpOpts q n pin zc wake busy verb multi ifname obj prog mode workers))
      end
  end.

(** The queue of loop [i]: [lp->queue_id = opt.queue_id + i]. *)
Definition loop_queue (o : xdp_opts) (i : Z) : Z := o_queue_id o + i.

(** ** The counters of the filter *)

(** [for (c = 0; c < ncpus; c++) out[key] += percpu[c]] *)
Fixpoint sum_percpu (percpu : list Z) (acc : Z) : Z :=
  match percpu with
  | [] => acc
  | v :: percpu' => sum_percpu percpu' (u64 (acc + v))
  end.

(** [lookup]: what [bpf_map_lookup_elem] gives for a key, one value per CPU;
    [mem]: whether [calloc] succeeds. The result is the code and [out]. *)
Definition xsk_env_read_kern_stats (env : xsk_env) (ncpus : Z) (mem : bool) (lookup : nat -> option (list Z)) (out : list Z)
    : Z * list Z :=
  if (e_stats_map_fd env <? 0) || (ncpus <=? 0) then (- ENOENT, out) else
  if negb mem then (- ENOMEM, out) else
  (0, (fun key => match lookup key with Some percpu => sum_percpu percpu 0 | None => 0 end) <$> seq 0 7).

(** The map [xdp_dns_stats] with the copies [cpus]. *)
Definition lookup_percpu (cpus : list (list Z)) (key : nat) : option (list Z) := Some ((fun stats => stats !!! key) <$> cpus).

(** ** Lemmas *)

Lemma bounded_range lo hi v : lo <= hi -> lo <= bounded lo hi v <= hi.
Proof. intros. unfold bounded. repeat case_test; lia. Qed.

Lemma check_accepts entries allow first_q n : check_queue_config entries allow first_q n = Ok 0 ->
  nic_rx_queues entries < 0 \/ (first_q + n <= nic_rx_queues entries /\ (n = nic_rx_queues entries \/ allow = true)).
Proof.
  unfold check_queue_config. intros E1. repeat (case_test_in E1; try discriminate E1); try (left; lia); right; split; try lia; auto.
Qed.

Lemma configure_runs entries found o : configure entries found = Ok (Run o) ->
  1 <= o_nqueues o <= MAX_XSKS /\ 1 <= o_workers o <= MAX_WORKERS /\ is_Some (o_ifname o) /\
  check_queue_config entries (o_allow_multiqueue o) (o_queue_id o) (o_nqueues o) = Ok 0.
Proof.
  unfold configure. destruct (parse_options default_opts found) as [[[]|code]| | |]; try done. cbn.
  destruct o_ifname0 as [name|]; [|done].
  destruct (check_queue_config _ _ _ _) as [c| | |] eqn:Ec; try done. cbn.
  destruct (Z.eqb_spec c 0) as [->|]; cbn; [|done]. intros [= <-]. cbn [o_nqueues o_workers o_ifname o_allow_multiqueue o_queue_id].
  pose proof (bounded_range 1 MAX_XSKS o_nqueues0 ltac:(done)). pose proof (bounded_range 1 MAX_WORKERS o_workers0 ltac:(done)).
  split_and!; try lia; [done|exact Ec].
Qed.

Lemma sum_percpu_u64 percpu : forall acc, 0 <= acc < 2 ^ 64 -> sum_percpu percpu acc = u64 (acc + foldr Z.add 0 percpu).
Proof.
  induction percpu as [|v percpu IH]; intros acc Ha; cbn [sum_percpu foldr].
  - unfold u64. by rewrite Z.add_0_r, Z.mod_small.
  - rewrite IH by (unfold u64; apply Z.mod_pos_bound; lia). rewrite u64_wrapped. f_equal. lia.
Qed.

Lemma foldr_lookup_sum (cpus : list (list Z)) (key : nat) :
  foldr Z.add 0 ((fun s => s !!! key) <$> cpus) = foldr (fun s acc => s !!! key + acc) 0 cpus.
Proof. induction cpus as [|s cpus IH]; cbn; [done|]. by rewrite IH. Qed.

(** The sum over the CPUs of the sums over the keys is the sum the other way
    round. *)
Lemma sum_columns (cpus : list (list Z)) : Forall (fun s => length s = 7%nat) cpus ->
  foldr Z.add 0 ((fun key => foldr (fun s acc => s !!! key + acc) 0 cpus) <$> seq 1 6) =
  foldr (fun s acc => others_of s + acc) 0 cpus.
Proof.
  induction 1 as [|s cpus Hs _ IH]; [done|]. cbn [seq fmap list_fmap foldr] in *. rewrite <- IH.
  do 7 (destruct s as [|? s]; [done|]). destruct s; [|done]. unfold others_of. cbn. lia.
Qed.

Lemma u64_foldr_sums (f g : list Z -> Z) (cpus : list (list Z)) : Forall (fun s => u64 (f s) = u64 (g s)) cpus ->
  u64 (foldr (fun s acc => f s + acc) 0 cpus) = u64 (foldr (fun s acc => g s + acc) 0 cpus).
Proof.
  induction 1 as [|s cpus Hs _ IH]; [done|]. cbn [foldr]. rewrite (u64_shift _ _ _ Hs), Z.add_comm, (u64_shift _ _ _ IH). f_equal. lia.
Qed.

Lemma u64_foldr (xs : list Z) : u64 (foldr Z.add 0 (u64 <$> xs)) = u64 (foldr Z.add 0 xs).
Proof.
  induction xs as [|x xs IH]; [done|]. cbn [fmap list_fmap foldr]. rewrite u64_wrapped, Z.add_comm, (u64_shift _ _ _ IH). f_equal. lia.
Qed.

(** ** Properties *)

(** C28: when [main] goes on, it serves 1 to 16 queues with 1 to 32 workers; the
    index of each loop fits the byte in which a job carries it, so that a worker
    returns the job to its own loop. For a first queue that is not negative and
    a card whose queues can be counted, every loop has a queue of the card, and
    without --allow-multiqueue every queue of the card has a loop. *)
Theorem queue_config_sound entries found o : configure entries found = Ok (Run o) ->
  1 <= o_nqueues o <= MAX_XSKS /\ 1 <= o_workers o <= MAX_WORKERS /\
  (forall i, 0 <= i < o_nqueues o -> u8 i = i) /\
  (0 <= nic_rx_queues entries -> 0 <= o_queue_id o ->
     (forall i, 0 <= i < o_nqueues o -> 0 <= loop_queue o i < nic_rx_queues entries) /\
     (o_allow_multiqueue o = false -> forall k, 0 <= k < nic_rx_queues entries ->
        exists i, 0 <= i < o_nqueues o /\ loop_queue o i = k)).
Proof.
  intros (Hn & Hw & _ & Hc%check_accepts)%configure_runs. unfold MAX_XSKS, MAX_WORKERS, loop_queue in *. split; [done|]. split; [done|]. split.
  - intros i Hi. unfold u8. apply Z.mod_small. lia.
  - intros Hnq Hq. destruct Hc as [?|[Hle Hall]]; [lia|]. split; [lia|]. intros Ha k Hk. destruct Hall as [Hall|Hall]; [|congruence].
    exists k. lia.
Qed.

(** --dev eth0 --queues 2 on a card with two queues *)
Lemma queue_config_sound_witness :
  let o := XdpOpts 0 2 true true true false false false (Some [101; 116; 104; 48]) default_bpf_obj None XDP_MODE_NATIVE 8 in
  let entries := Some [[114; 120; 45; 48]; [114; 120; 45; 49]; [116; 120; 45; 48]] in
  1 <= o_nqueues o <= MAX_XSKS /\ 1 <= o_workers o <= MAX_WORKERS /\
  (forall i, 0 <= i < o_nqueues o -> u8 i = i) /\
  (0 <= nic_rx_queues entries -> 0 <= o_queue_id o ->
     (forall i, 0 <= i < o_nqueues o -> 0 <= loop_queue o i < nic_rx_queues entries) /\
     (o_allow_multiqueue o = false -> forall k, 0 <= k < nic_rx_queues entries ->
        exists i, 0 <= i < o_nqueues o /\ loop_queue o i = k)).
Proof.
  apply (queue_config_sound _ [(100, [101; 116; 104; 48]); (110, [50])]).
  vm_compute. reflexivity.
Defined.

(** With --queue -1 --queues 2 the check takes a card with two queues as served,
    although the queues asked for are -1 and 0. *)
Example negative_queue_accepted :
  let entries := Some [[114; 120; 45; 48]; [114; 120; 45; 49]] in
  exists o, configure entries [(100, [101]); (81, [45; 49]); (110, [50])] = Ok (Run o) /\
    o_allow_multiqueue o = false /\ nic_rx_queues entries = 2 /\ loop_queue o 0 = -1 /\ loop_queue o 1 = 0.
Proof. eexists. split; [vm_compute; reflexivity|]. by vm_compute. Qed.

(** the report is the sum over the CPUs: when each CPU has run the filter on
    a sequence of packets from zeroed counters, the reported total is the number
    of all packets, and the six classes add up to it, modulo 2^64. *)
Theorem reported_counters_add_up redirect_map env ncpus pktss cpus out :
  0 <= e_stats_map_fd env -> 0 < ncpus -> Forall (Forall (fun p => bytes p.1)) pktss ->
  Forall2 (fun pkts stats => xdp_run redirect_map (replicate 7 0) pkts = Ok stats) pktss cpus ->
  exists report, xsk_env_read_kern_stats env ncpus true (lookup_percpu cpus) out = (0, report) /\ length report = 7%nat /\
    total_of report = u64 (foldr (fun pkts acc => zlen pkts + acc) 0 pktss) /\ u64 (others_of report) = total_of report.
Proof.
  intros Hfd Hcpu Hb Hruns. unfold xsk_env_read_kern_stats. rewrite (proj2 (Z.ltb_ge _ _)), (proj2 (Z.leb_gt _ _)) by lia. cbn [orb negb].
  eexists. split; [reflexivity|]. split; [by rewrite length_fmap, length_seq|].
  assert (Forall2 (fun pkts s => length s = 7%nat /\ total_of s = u64 (zlen pkts) /\ u64 (others_of s) = total_of s) pktss cpus) as Hs.
  { clear - Hb Hruns. induction Hruns as [|pkts stats pktss cpus Hr _ IH]; [constructor|]. apply Forall_cons in Hb as [Hp Hb].
    constructor; [|by apply IH]. destruct (run_sums redirect_map pkts Hp (replicate 7 0)) as (s & Hr' & [Hl _] & T & O).
    - split; [done|]. apply Forall_replicate. lia.
    - rewrite Hr in Hr'. injection Hr' as ->. split_and!; [done|done|]. by rewrite O, T. }
  assert (Forall (fun s => length s = 7%nat) cpus) as Hlen by (clear - Hs; induction Hs; constructor; naive_solver).
  unfold lookup_percpu. set (col := fun key => foldr (fun s acc => s !!! key + acc) 0 cpus).
  assert ((fun key : nat => sum_percpu ((fun s : list Z => s !!! key) <$> cpus) 0) <$> seq 0 7 = u64 <$> (col <$> seq 0 7)) as ->.
  { rewrite <- list_fmap_compose. apply list_fmap_ext. intros i key _. cbn. rewrite sum_percpu_u64 by lia. by rewrite foldr_lookup_sum. }
  assert (u64 (col 0%nat) = u64 (foldr (fun pkts acc => zlen pkts + acc) 0 pktss)) as Htot.
  { unfold col. clear - Hs. induction Hs as [|pkts s pktss cpus (_ & T & _) _ IH]; [done|]. cbn [foldr].
    change (s !!! 0%nat) with (total_of s). rewrite T, u64_wrapped, Z.add_comm, (u64_shift _ _ _ IH). f_equal. lia. }
  split; [exact Htot|]. change (total_of (u64 <$> (col <$> seq 0 7))) with (u64 (col 0%nat)).
  change (others_of (u64 <$> (col <$> seq 0 7))) with (foldr Z.add 0 (u64 <$> (col <$> seq 1 6))).
  rewrite u64_foldr. unfold col. rewrite sum_columns by done. apply (u64_foldr_sums others_of (fun s => s !!! 0%nat)).
  clear - Hs. induction Hs as [|pkts s pktss cpus (_ & T & O) _ IH]; constructor; [|done].
  change (s !!! 0%nat) with (total_of s). by rewrite O, T, u64_u64.
Qed.

(** Two CPUs, of which one has seen nothing. *)
Lemma reported_counters_add_up_witness :
  let env := XskEnv [] 2 0 None 0 5 6 true None 0 false false None None in
  let pktss := [[(sample_frame, 0); ([1; 2; 3], 1)]; []] in
  exists report, xsk_env_read_kern_stats env 2 true (lookup_percpu [[2; 0; 0; 0; 1; 0; 1]; replicate 7 0]) [] = (0, report) /\
    length report = 7%nat /\ total_of report = u64 (foldr (fun pkts acc => zlen pkts + acc) 0 pktss) /\
    u64 (others_of report) = total_of report.
Proof.
  apply (reported_counters_add_up (fun _ _ => XDP_PASS) (XskEnv [] 2 0 None 0 5 6 true None 0 false false None None) 2
    [[(sample_frame, 0); ([1; 2; 3], 1)]; []] [[2; 0; 0; 0; 1; 0; 1]; replicate 7 0] []).
  - cbn. lia.
  - lia.
  - repeat constructor; lia.
  - repeat constructor.
Defined.
