(* ===== verification/LoadGen.v ===== *)
(** * The load generator (src/loadgen.c)

    [build_query]; the loop that keeps queries outstanding: the names and the
    datagrams it sends, and how replies are matched to the times at which their
    queries were sent; the options, the report and the exit code of [main].
    Whether the socket could be connected is an input; the printed rates, which
    are floating point numbers, are left out. *)

From stdpp Require Import prelude list sorting.
From Stdlib Require Import ZArith Lia.
From S2P Require Import Prelude DnsName DnsParse DnsBuild.

Local Open Scope Z_scope.

Definition MAX_ID : Z := 65536.

(** ** [build_query] *)

(** The [while ( *p )] loop; there is a label for each of the string's dots. *)
Fixpoint label_loop (fuel : nat) (p b : list Z) (o : Z) : res (list Z * Z) :=
  match fuel with
  | O => Diverge
  | S fuel' =>
      match p with
      | [] => Ok (b, o)
      | _ :: _ =>
          let '(lab, dot) := strchr_dot p in
          let l := zlen lab in
          b ← put8 b o (u8 l);
          b ← put_bytes b (o + 1) lab;
          match dot with
          | None => Ok (b, o + 1 + l)
          | Some rest => label_loop fuel' rest b (o + 1 + l)
          end
      end
  end.

Definition build_query (b : list Z) (id : Z) (name : list Z) : res (list Z * Z) :=
  b ← put8 b 0 (u8 (Z.shiftr id 8));
  b ← put8 b 1 (u8 id);
  b ← put8 b 2 1;
  b ← put8 b 3 0;
  b ← put8 b 4 0;
  b ← put8 b 5 1;
  b ← put8 b 6 0;
  b ← put8 b 7 0;
  b ← put8 b 8 0;
  b ← put8 b 9 0;
  b ← put8 b 10 0;
  b ← put8 b 11 0;
  let p := cstr name in
  '(b, o) ← label_loop (S (length p)) p b 12;
  b ← put8 b o 0;
  b ← put8 b (o + 1) 0;
  b ← put8 b (o + 2) 1;
  b ← put8 b (o + 3) 0;
  b ← put8 b (o + 4) 1;
  Ok (b, o + 5).

(** ** The loop of [main] *)

(** The name of query number [sent], in an array of 64 bytes: "q%d.example.com"
    with the option [-u], and "www.example.com" otherwise. *)
Definition query_name (unique : bool) (sent : Z) : list Z :=
  ztake 63 (if unique then [113] ++ decimal sent ++ example_com else [119; 119; 119] ++ example_com).

(** The bytes handed to [send]; [buf] has 512 bytes, of which those that
    [build_query] does not write are not sent. *)
Definition query_datagram (unique : bool) (sent : Z) : res (list Z) :=
  '(buf, n) ← build_query (replicate 512 0) (u16 (Z.rem sent MAX_ID)) (query_name unique sent);
  Ok (ztake n buf).

(** [sent], [got], [outstanding], [nlat], [send_fail], [last_progress], the two
    arrays, and the datagrams that [send] has taken. *)
Record gen := Gen {
  g_sent : Z;
  g_got : Z;
  g_outstanding : Z;
  g_nlat : Z;
  g_send_fail : Z;
  g_last_progress : Z;
  g_sent_at : list Z;
  g_lat : list Z;
  g_wire : list (list Z)
}.

Definition gen_init (total t0 : Z) : gen :=
  Gen 0 0 0 0 0 t0 (replicate (Z.to_nat MAX_ID) 0) (replicate (Z.to_nat total) 0) [].

(** What [send] gives: success, EAGAIN or ENOBUFS, another error. *)
Inductive send_result := SendOk | SendAgain | SendError.

(** What one round of the outer loop gets: the results and times of its
    attempts to send; what each [recv] gives, a datagram of at least 12 bytes
    or less with the time of its arrival, or nothing; and the time of the test
    at its end. *)
Record round_events := RoundEvents {
  re_sends : nat -> send_result * Z;
  re_recv : nat -> option (list Z * Z);
  re_now : Z
}.

(** The inner [while], from attempt [i] on. *)
Fixpoint send_phase (fuel : nat) (unique : bool) (total conc : Z) (sends : nat -> send_result * Z) (i : nat) (g : gen) : res gen :=
  match fuel with
  | O => Diverge
  | S fuel' =>
      if (g_sent g <? total) && (g_outstanding g <? conc) then
        let '(r, now) := sends i in
        let id := u16 (Z.rem (g_sent g) MAX_ID) in
        d ← query_datagram unique (g_sent g);
        sent_at ← put8 (g_sent_at g) id now;
        match r with
        | SendOk => send_phase fuel' unique total conc sends (S i)
            (Gen (g_sent g + 1) (g_got g) (g_outstanding g + 1) (g_nlat g) (g_send_fail g) (g_last_progress g) sent_at (g_lat g)
               (g_wire g ++ [d]))
        | SendError => send_phase fuel' unique total conc sends (S i)
            (Gen (g_sent g + 1) (g_got g) (g_outstanding g) (g_nlat g) (g_send_fail g + 1) (g_last_progress g) sent_at (g_lat g)
               (g_wire g))
        | SendAgain =>
            Ok (Gen (g_sent g) (g_got g) (g_outstanding g) (g_nlat g) (g_send_fail g) (g_last_progress g) sent_at (g_lat g) (g_wire g))
        end
      else Ok g
  end.

(** An attempt that is not the last one raises [sent]. *)
Definition send_fuel (total : Z) (g : gen) : nat := S (Z.to_nat (total - g_sent g)).

(** The inner [for (;;)], from the [recv] number [i] on; it diverges when
    datagrams keep coming for longer than it is followed. *)
Fixpoint recv_phase (fuel : nat) (ds : nat -> option (list Z * Z)) (i : nat) (g : gen) : res gen :=
  match fuel with
  | O => Diverge
  | S fuel' =>
      match ds i with
      | None => Ok g
      | Some (buf, now) =>
          if zlen buf <? 12 then Ok g else
          b0 ← get8 buf 0;
          b1 ← get8 buf 1;
          let id := u16 (Z.lor (Z.shiftl b0 8) b1) in
          t ← get8 (g_sent_at g) id;
          '(sent_at, lat, nlat) ←
            (if negb (t =? 0) then
               lat ← put8 (g_lat g) (g_nlat g) (u64 (now - t));
               sent_at ← put8 (g_sent_at g) id 0;
               Ok (sent_at, lat, g_nlat g + 1)
             else Ok (g_sent_at g, g_lat g, g_nlat g));
          recv_phase fuel' ds (S i) (Gen (g_sent g) (g_got g + 1) (g_outstanding g - 1) nlat (g_send_fail g) now sent_at lat (g_wire g))
      end
  end.

(** One round of the outer [while]; the flag tells whether the loop breaks. *)
Definition round (patience : nat) (unique : bool) (total conc timeout_ms : Z) (ev : round_events) (g : gen) : res (gen * bool) :=
  g ← send_phase (send_fuel total g) unique total conc (re_sends ev) 0 g;
  g ← recv_phase patience (re_recv ev) 0 g;
  if u64 timeout_ms <? u64 (re_now ev - g_last_progress g) / 1000000 then
    if total <=? g_sent g then Ok (g, true)
    else Ok (Gen (g_sent g) (g_got g) 0 (g_nlat g) (g_send_fail g) (re_now ev) (g_sent_at g) (g_lat g) (g_wire g), false)
  else Ok (g, false).

(** The first [k] rounds, from round [i] on, or fewer if [got] reaches [total]
    or a round breaks before; the flag tells whether the loop is over. *)
Fixpoint rounds (k patience : nat) (unique : bool) (total conc timeout_ms : Z) (evs : nat -> round_events) (i : nat) (g : gen)
    : res (gen * bool) :=
  match k with
  | O => Ok (g, negb (g_got g <? total))
  | S k' =>
      if g_got g <? total then
        '(g, stop) ← round patience unique total conc timeout_ms (evs i) g;
        if stop : bool then Ok (g, true) else rounds k' patience unique total conc timeout_ms evs (S i) g
      else Ok (g, true)
  end.

(** The whole loop, followed for [fuel] rounds. *)
Definition load_loop (fuel patience : nat) (unique : bool) (total conc timeout_ms : Z) (evs : nat -> round_events) (g : gen) : res gen :=
  '(g, over) ← rounds fuel patience unique total conc timeout_ms evs 0 g;
  if over : bool then Ok g else Diverge.

(** ** Options *)

(** The options of [main]; [lo_server] is the text of the address. *)
Record load_opts := LoadOpts {
  lo_server : list Z;
  lo_port : Z;
  lo_total : Z;
  lo_conc : Z;
  lo_timeout_ms : Z;
  lo_unique : bool
}.

(** "127.0.0.1", port 53, 10000 queries, 100 at a time, 3 seconds. *)
Definition default_load_opts : load_opts :=
  LoadOpts [49; 50; 55; 46; 48; 46; 48; 46; 49] 53 10000 100 3000 false.

(** What [getopt] finds, with the value [atoi] gives; [OptOther] is any other
    letter. *)
Inductive load_opt :=
| OptServer (text : list Z)
| OptPort (v : Z)
| OptQueries (v : Z)
| OptConcurrency (v : Z)
| OptTimeout (v : Z)
| OptUnique
| OptOther.

(** [None]: the usage message, and exit code 1. *)
Fixpoint load_options (found : list load_opt) (o : load_opts) : option load_opts :=
  match found with
  | [] => Some o
  | OptServer text :: found' => load_options found' (LoadOpts text (lo_port o) (lo_total o) (lo_conc o) (lo_timeout_ms o) (lo_unique o))
  | OptPort v :: found' => load_options found' (LoadOpts (lo_server o) v (lo_total o) (lo_conc o) (lo_timeout_ms o) (lo_unique o))
  | OptQueries v :: found' => load_options found' (LoadOpts (lo_server o) (lo_port o) v (lo_conc o) (lo_timeout_ms o) (lo_unique o))
  | OptConcurrency v :: found' => load_options found' (LoadOpts (lo_server o) (lo_port o) (lo_total o) v (lo_timeout_ms o) (lo_unique o))
  | OptTimeout v :: found' => load_options found' (LoadOpts (lo_server o) (lo_port o) (lo_total o) (lo_conc o) v (lo_unique o))
  | OptUnique :: found' => load_options found' (LoadOpts (lo_server o) (lo_port o) (lo_total o) (lo_conc o) (lo_timeout_ms o) true)
  | OptOther :: _ => None
  end.

(** ** The report *)

Definition cmp_u64 (x y : Z) : Z := if x <? y then -1 else if y <? x then 1 else 0.

(** The lines of the report, without the rates. *)
Record load_report := LoadReport {
  lr_sent : Z;
  lr_got : Z;
  lr_lost : Z;
  lr_send_fail : Z;
  lr_latency : option (Z * Z * Z * Z * Z)
}.

Section report.
(** [qsort] with a comparison, on the elements it is given. *)
Context (qsort : (Z -> Z -> Z) -> list Z -> list Z).

(** Minimum, median, 95th and 99th percentile, maximum, in nanoseconds. The
    products with 0.95 and 0.99, rounded to a double and then down, are those of
    the decimal fractions. *)
Definition latency_line (nlat : Z) (lat : list Z) : res (option (Z * Z * Z * Z * Z)) :=
  let lat := qsort cmp_u64 (ztake nlat lat) ++ zdrop nlat lat in
  if nlat =? 0 then Ok None else
  mn ← get8 lat 0;
  p50 ← get8 lat (nlat / 2);
  p95 ← get8 lat (nlat * 95 / 100);
  p99 ← get8 lat (nlat * 99 / 100);
  mx ← get8 lat (nlat - 1);
  Ok (Some (mn, p50, p95, p99, mx)).

(** The end of [main], and its exit code. *)
Definition load_finish (g : gen) : res (load_report * Z) :=
  line ← latency_line (g_nlat g) (g_lat g);
  let lost := g_sent g - g_got g in
  Ok (LoadReport (g_sent g) (g_got g) lost (g_send_fail g) line,
      if Z.quot (g_sent g) 100 <? lost then 1 else 0).

(** [main]: [connected] tells whether the socket could be made, the address
    was good and [connect] succeeded. *)
Definition load_main (fuel patience : nat) (found : list load_opt) (connected : bool) (t0 : Z) (evs : nat -> round_events)
    : res (option load_report * Z) :=
  match load_options found default_load_opts with
  | None => Ok (None, 1)
  | Some o =>
      if negb connected then Ok (None, 1) else
      g ← load_loop fuel patience (lo_unique o) (lo_total o) (lo_conc o) (lo_timeout_ms o) evs (gen_init (lo_total o) t0);
      '(r, code) ← load_finish g;
      Ok (Some r, code)
  end.
End report.

(** [v] is the element of rank [k], from 0, among [l]. *)
Definition has_rank (k v : Z) (l : list Z) : Prop :=
  v ∈ l /\ k < zlen (filter (fun x => x <= v) l) /\ zlen l - k <= zlen (filter (fun x => v <= x) l).

(** ** Lemmas: ranks *)

Lemma has_rank_perm k v l l' : l ≡ₚ l' -> has_rank k v l -> has_rank k v l'.
Proof. intros Hp (H1 & H2 & H3). unfold has_rank, zlen in *. rewrite <- !Hp. auto. Qed.

(** An element of a sorted list has its index as rank. *)
Lemma sorted_rank l k v : StronglySorted Z.le l -> l !! k = Some v -> has_rank (Z.of_nat k) v l.
Proof.
  intros Hs Hk. pose proof (list_elem_of_lookup_2 _ _ _ Hk) as Hin. rewrite <- (take_drop_middle l k v Hk) in Hs |- *.
  apply lookup_lt_Some in Hk as Hlt. assert (Forall (fun x => x <= v) (take k l) /\ Forall (fun x => v <= x) (drop (S k) l)) as [Hle Hge].
  { clear Hk Hin. generalize dependent (take k l). intros pre. induction pre as [|a pre IH]; intros Hs; cbn in Hs.
    - apply StronglySorted_inv in Hs as [_ Hs]. split; [constructor|done].
    - apply StronglySorted_inv in Hs as [Hs Ha]. destruct (IH Hs) as [IH1 IH2]. split; [|done]. constructor; [|done].
      rewrite Forall_app, Forall_cons in Ha. apply Ha. }
  split_and!.
  - apply elem_of_app. right. by left.
  - rewrite filter_app, filter_cons_True by lia. rewrite zlen_app, zlen_cons.
    assert (filter (fun x => x <= v) (take k l) = take k l) as ->.
    { clear -Hle. induction Hle as [|a pre Ha _ IH]; [done|]. by rewrite filter_cons_True, IH. }
    unfold zlen at 1. rewrite length_take_le by lia. pose proof (zlen_nonneg (filter (fun x => x <= v) (drop (S k) l))). lia.
  - rewrite filter_app, filter_cons_True by lia. rewrite !zlen_app, !zlen_cons.
    assert (filter (fun x => v <= x) (drop (S k) l) = drop (S k) l) as ->.
    { clear -Hge. induction Hge as [|a pre Ha _ IH]; [done|]. by rewrite filter_cons_True, IH. }
    unfold zlen at 1. rewrite length_take_le by lia. pose proof (zlen_nonneg (filter (fun x => v <= x) (take k l))). lia.
Qed.

Lemma cmp_u64_le x y : cmp_u64 x y <= 0 <-> x <= y.
Proof. unfold cmp_u64. destruct (Z.ltb_spec x y), (Z.ltb_spec y x); lia. Qed.

Lemma sorted_le l : StronglySorted (fun x y => cmp_u64 x y <= 0) l -> StronglySorted Z.le l.
Proof.
  induction 1 as [|x l _ IH Hx]; constructor; [done|]. eapply Forall_impl; [exact Hx|]. intros y. apply cmp_u64_le.
Qed.

(** ** Lemmas: queries *)

Lemma put8_seq {B} out p p' bs v (f : list Z -> res B) : p' = p + zlen bs ->
  (b ← put_bytes out p bs; c ← put8 b p' v; f c) = (c ← put_bytes out p (bs ++ [v]); f c).
Proof. intros ->. rewrite put_bytes_app. destruct (put_bytes out p bs) as [b| | |]; try done. rewrite !Ok_bind. apply put_bytes_1_bind. Qed.

Lemma label_loop_spec fuel : forall p b o, (length p < fuel)%nat -> Forall (fun l => zlen l <= 63) (loop_labels p) ->
  label_loop fuel p b o =
  (b' ← put_bytes b o (lab_bytes (loop_labels p)); Ok (b', o + zlen (lab_bytes (loop_labels p)))).
Proof.
  induction fuel as [|fuel IH]; intros p b o Hf Hl; [lia|]. cbn [label_loop]. destruct p as [|c p].
  { cbn. by rewrite Z.add_0_r. }
  remember (c :: p) as q eqn:Eq. assert (q <> []) as Hq by by subst q. rewrite loop_labels_unfold in Hl |- * by done.
  destruct (strchr_dot q) as [lab [rest|]] eqn:Es.
  - apply Forall_cons in Hl as [Hlab Hl]. apply strchr_dot_rest_length in Es. pose proof (zlen_nonneg lab).
    assert (u8 (zlen lab) = zlen lab) as -> by (unfold u8; apply Z.mod_small; lia).
    rewrite put_bytes_1_bind, put_bytes_seq by (rewrite zlen_cons, zlen_nil; lia). cbn [app].
    rewrite lab_bytes_cons, zlen_app, put_bytes_app. destruct (put_bytes b o (zlen lab :: lab)) as [b1| | |]; try done.
    rewrite !Ok_bind, IH, zlen_cons by (done || lia).
    replace (o + 1 + zlen lab) with (o + (1 + zlen lab)) by lia. destruct (put_bytes b1 _ _); try done. rewrite !Ok_bind. f_equal. f_equal. lia.
  - apply Forall_cons in Hl as [Hlab _]. pose proof (zlen_nonneg lab).
    assert (u8 (zlen lab) = zlen lab) as -> by (unfold u8; apply Z.mod_small; lia).
    rewrite put_bytes_1_bind, put_bytes_seq by (rewrite zlen_cons, zlen_nil; lia). cbn [app]. unfold lab_bytes. cbn [map concat].
    rewrite app_nil_r, zlen_cons. destruct (put_bytes b o (zlen lab :: lab)); try done. rewrite !Ok_bind. do 2 f_equal; lia.
Qed.

(** [build_query] writes the same bytes as [dns_build_query] for an A query
    with RD and without EDNS, for every name that can be encoded (other than
    ".") and that fits. *)
Lemma build_query_matches b id name w : zlen b < 2 ^ 64 -> 0 <= id < 65536 -> encode_spec name = Some w -> cstr name <> [46] ->
  DNS_HDR_LEN + zlen w + 4 <= zlen b ->
  build_query b id name = dns_build_query id name DNS_TYPE_A true 0 b.
Proof.
  intros Hb Hid Hw Hdot Hfit. rewrite build_query_spec by done. unfold query_bytes. rewrite Hw.
  assert (Forall (fun l => zlen l <= 63) (loop_labels (cstr name)) /\ w = lab_bytes (loop_labels (cstr name)) ++ [0]) as [Hl ->].
  { unfold encode_spec in Hw. case_match; [|done]. injection Hw as <-. apply andb_true_iff in H as [Hok _].
    assert (text_labels (cstr name) = loop_labels (cstr name)) as E1.
    { unfold text_labels, loop_labels. rewrite (bool_decide_eq_false_2 (cstr name = [46])) by done. by rewrite orb_false_r. }
    rewrite E1 in *. split; [|done]. apply Forall_forall. intros l Hin. rewrite forallb_forall in Hok.
    apply list_elem_of_In, Hok, label_ok_iff in Hin. lia. }
  set (ls := lab_bytes _) in *. set (h := header_bytes id _ 1 0 0 _). rewrite zlen_app, zlen_cons, zlen_nil in Hfit. unfold DNS_HDR_LEN in Hfit.
  assert (h = [u8 (Z.shiftr id 8); u8 id; 1; 0; 0; 1; 0; 0; 0; 0; 0; 0]) as Eh.
  { unfold h, header_bytes, be16, u8. rewrite Z.shiftr_div_pow2 by lia. done. }
  unfold build_query. rewrite put_bytes_1_bind. rewrite !put8_seq by done. cbn [app]. rewrite <- Eh.
  assert (zlen h = 12) as Hh by done. pose proof (zlen_nonneg ls).
  assert (zlen (h ++ (ls ++ [0]) ++ be16 DNS_TYPE_A ++ be16 DNS_CLASS_IN ++ []) = 12 + zlen ls + 5) as Hlen by zl.
  change (if 0 =? 0 then [] else opt_bytes 0 false) with (@nil Z). rewrite !Hlen, (proj2 (Z.leb_le _ _)) by lia. rewrite (put_bytes_app h).
  destruct (put_bytes b 0 h) as [b1| | |] eqn:E1; try done. rewrite !Ok_bind, label_loop_spec by (done || lia). fold ls.
  rewrite <- app_assoc, (put_bytes_app ls), Hh. change (0 + 12) with 12. 
  destruct (put_bytes b1 12 ls) as [b2| | |]; try done. rewrite !Ok_bind, put_bytes_1_bind.
  rewrite !put8_seq by (zl). cbn [app]. change (be16 DNS_TYPE_A ++ be16 DNS_CLASS_IN ++ []) with [0; 1; 0; 1]. cbn [app].
  by destruct (put_bytes b2 (12 + zlen ls) _).
Qed.

(** What the server reads in the datagram of query [i]: an A query with id
    [i mod 65536] that asks for recursion. *)
Definition query_for (unique : bool) (i : Z) (d : list Z) : Prop :=
  dns_parse_query d = Ok (DnsQueryInfo (DnsHeader (i mod 65536) DNS_FLAG_RD 1 0 0 0)
    (DnsQuestion (query_name unique i) DNS_TYPE_A DNS_CLASS_IN DNS_HDR_LEN (zlen d - DNS_HDR_LEN)) true false 0 0 false).

(** The first label of a name. *)
Definition query_label (unique : bool) (i : Z) : list Z := if unique then [113] ++ decimal i else [119; 119; 119].

Lemma query_label_ok unique i : Forall (fun c => 48 <= c <= 57 \/ 97 <= c <= 122) (query_label unique i) /\ 1 <= zlen (query_label unique i) <= 11.
Proof.
  destruct unique; cbn [query_label]; [|split; [repeat (apply Forall_cons_2; [lia|]); apply Forall_nil_2|vm_compute; split; congruence]].
  destruct (decimal_digits i) as [Hd Hl]. split; [constructor; [lia|]; eapply Forall_impl; [exact Hd|]; cbn; lia|zl].
Qed.

Lemma query_name_eq unique i : query_name unique i = query_label unique i ++ example_com.
Proof.
  destruct (query_label_ok unique i) as [_ Hl]. unfold query_name. destruct unique; cbn [query_label] in *; [|done].
  rewrite app_assoc. apply ztake_all. rewrite zlen_app. change (zlen example_com) with 12. lia.
Qed.

Lemma query_name_chars unique i : Forall (fun c => c = 46 \/ 48 <= c <= 57 \/ 97 <= c <= 122) (query_name unique i).
Proof.
  rewrite query_name_eq. apply Forall_app. split; [|unfold example_com; repeat (apply Forall_cons_2; [lia|]); apply Forall_nil_2].
  eapply Forall_impl; [apply query_label_ok|]. cbn. lia.
Qed.

Lemma query_name_cstr unique i : cstr (query_name unique i) = query_name unique i.
Proof. apply cstr_no_nul. eapply Forall_impl; [apply query_name_chars|]. cbn. lia. Qed.

Lemma query_name_fold unique i : strip_dot (fold_case (query_name unique i)) = query_name unique i.
Proof.
  unfold fold_case. rewrite query_name_cstr. assert (tolower <$> query_name unique i = query_name unique i) as ->.
  { induction (query_name_chars unique i) as [|c l Hc _ IH]; [done|]. cbn [fmap list_fmap]. f_equal; [|exact IH].
    unfold tolower. destruct (Z.leb_spec 65 c), (Z.leb_spec c 90); cbn; lia. }
  unfold strip_dot. rewrite query_name_eq, last_app. done.
Qed.

Lemma query_name_encode unique i : exists w, encode_spec (query_name unique i) = Some w /\ zlen w <= 25.
Proof.
  destruct (query_label_ok unique i) as [Hc Hl]. set (lab := query_label unique i) in *.
  assert (text_labels (cstr (query_name unique i)) = [lab; [101; 120; 97; 109; 112; 108; 101]; [99; 111; 109]]) as E.
  { rewrite query_name_cstr, query_name_eq. fold lab. unfold text_labels.
    assert (split_dots (lab ++ example_com) = [lab; [101; 120; 97; 109; 112; 108; 101]; [99; 111; 109]]) as ->.
    { unfold example_com. rewrite split_dots_app, (split_dots_label lab); [done|]. eapply Forall_impl; [exact Hc|]. cbn. lia. }
    assert (12 < zlen (lab ++ example_com)) as Hlong by (rewrite zlen_app; change (zlen example_com) with 12; lia).
    rewrite !bool_decide_eq_false_2; [done|discriminate|..]; intros E; rewrite E in Hlong; done. }
  eexists. split; [apply encode_spec_Some; split_and!; [|reflexivity|]|]; rewrite E.
  - repeat constructor; try lia; zl.
  - unfold wire_of, lab_bytes, DNS_MAX_NAME. cbn [map concat]. zl.
  - unfold wire_of, lab_bytes. cbn [map concat]. zl.
Qed.

Lemma query_datagram_ok unique i : 0 <= i -> exists d, query_datagram unique i = Ok d /\ query_for unique i d.
Proof.
  intros Hi. destruct (query_name_encode unique i) as (w & Hw & Hlw).
  assert (u16 (Z.rem i MAX_ID) = i mod 65536) as Hid by (unfold MAX_ID, u16; rewrite Z.rem_mod_nonneg, Z.mod_mod by lia; done).
  pose proof (Z.mod_pos_bound i 65536 ltac:(lia)) as Hb. unfold query_datagram. rewrite Hid.
  assert (zlen (replicate 512 0) = 512) as H512 by done. set (buf := replicate 512 0) in *. clearbody buf.
  rewrite (build_query_matches buf _ _ w); [|lia|done|done| |unfold DNS_HDR_LEN; lia].
  2:{ rewrite query_name_cstr, query_name_eq. intros E%(f_equal zlen). rewrite zlen_app in E.
      destruct (query_label_ok unique i) as [_ Hl]. change (zlen example_com) with 12 in E. change (zlen [46]) with 1 in E. lia. }
  rewrite build_query_spec by lia.
  assert (exists m, query_bytes (i mod 65536) (query_name unique i) DNS_TYPE_A true 0 = Some m /\ zlen m <= 512) as (m & Hm & Hlm).
  { unfold query_bytes. rewrite Hw. eexists. split; [done|]. rewrite !zlen_app. change (zlen (header_bytes _ _ _ _ _ _)) with 12. 
    change (zlen (be16 _)) with 2. change (zlen (if 0 =? 0 then _ else _)) with 0. lia. }
  rewrite Hm, (proj2 (Z.leb_le _ _)) by lia.
  destruct (put_bytes_append m buf 0 []) as (buf' & -> & _ & Hpre & _); [done..|lia|]. rewrite !Ok_bind.
  rewrite Z.add_0_l in Hpre. rewrite Hpre. exists m. split; [done|]. unfold query_for.
  rewrite (parse_built_query _ _ _ _ _ _ Hm); [|eapply Forall_impl; [apply query_name_chars|]; unfold byte; lia|lia|done|done].
  cbn. rewrite query_name_fold, Z.sub_0_r. done.
Qed.

(** ** Lemmas: the loop *)

(** The entries of [sent_at] that wait for a reply. *)
Definition waiting (sent_at : list Z) : Z := zlen (filter (fun t => t <> 0) sent_at).

Lemma waiting_set l i v l' : put8 l i v = Ok l' ->
  zlen l' = zlen l /\ exists t, get8 l i = Ok t /\ waiting l' = waiting l - (if t =? 0 then 0 else 1) + (if v =? 0 then 0 else 1).
Proof.
  unfold put8. destruct ((0 <=? i) && (i <? zlen l)) eqn:Et; [|done]. intros [= <-]. apply andb_true_iff in Et as [Hi%Z.leb_le Hlt%Z.ltb_lt].
  split; [apply zlen_insert|]. destruct (get8_in_range l i) as [t Ht]; [lia|]. exists t. split; [done|]. apply get8_Ok in Ht as [_ Ht].
  rewrite (insert_take_drop l (Z.to_nat i) v) by (unfold zlen in Hlt; lia).
  assert (waiting l = waiting (take (Z.to_nat i) l ++ t :: drop (S (Z.to_nat i)) l)) as -> by (by rewrite take_drop_middle).
  unfold waiting. rewrite !filter_app, !filter_cons. repeat case_decide; rewrite ?zlen_app, ?zlen_cons;
    destruct (Z.eqb_spec t 0), (Z.eqb_spec v 0); try done; lia.
Qed.

Lemma put8_room l i v : 0 <= i < zlen l -> exists l', put8 l i v = Ok l'.
Proof. intros Hi. rewrite put8_Ok by done. by eexists. Qed.

(** The datagrams sent are those of a strictly increasing sequence of queries
    counted as sent, whose other ones are counted as failed. *)
Definition wire_ok (unique : bool) (g : gen) : Prop :=
  exists ks, StronglySorted Z.lt ks /\ Forall (fun i => 0 <= i < g_sent g) ks /\ Forall2 (query_for unique) ks (g_wire g) /\
    zlen ks + g_send_fail g = g_sent g.

(** Latencies recorded and replies waited for belong to queries counted as
    sent. *)
Definition gen_ok (unique : bool) (total : Z) (g : gen) : Prop :=
  zlen (g_sent_at g) = MAX_ID /\ zlen (g_lat g) = total /\ 0 <= g_nlat g <= g_got g /\ 0 <= g_sent g <= total /\
  g_nlat g + waiting (g_sent_at g) <= g_sent g /\ wire_ok unique g.

Lemma sorted_snoc (ks : list Z) i : StronglySorted Z.lt ks -> Forall (fun j => j < i) ks -> StronglySorted Z.lt (ks ++ [i]).
Proof.
  induction 1 as [|j ks _ IH Hj]; intros Hi; cbn [app]; [repeat constructor|]. apply Forall_cons in Hi as [Hji Hi].
  constructor; [by apply IH|]. apply Forall_app. split; [done|]. by constructor.
Qed.

Lemma wire_sent unique g d sent_at out last : 0 <= g_sent g -> wire_ok unique g -> query_for unique (g_sent g) d ->
  wire_ok unique (Gen (g_sent g + 1) (g_got g) out (g_nlat g) (g_send_fail g) last sent_at (g_lat g) (g_wire g ++ [d])).
Proof.
  intros H0 (ks & Hs & Hr & Hw & Hn) Hd. exists (ks ++ [g_sent g]). cbn [g_sent g_wire g_send_fail]. split_and!.
  - apply sorted_snoc; [done|]. eapply Forall_impl; [exact Hr|]. cbn. lia.
  - apply Forall_app. split; [eapply Forall_impl; [exact Hr|]; cbn; lia|]. constructor; [lia|constructor].
  - apply Forall2_app; [done|]. by constructor.
  - zl.
Qed.

Lemma wire_failed unique g sent_at out last : wire_ok unique g ->
  wire_ok unique (Gen (g_sent g + 1) (g_got g) out (g_nlat g) (g_send_fail g + 1) last sent_at (g_lat g) (g_wire g)).
Proof.
  intros (ks & Hs & Hr & Hw & Hn). exists ks. cbn [g_sent g_wire g_send_fail]. split_and!; [done| |done|lia].
  eapply Forall_impl; [exact Hr|]. cbn. lia.
Qed.

Lemma send_phase_ok unique total conc sends : (forall i, (sends i).1 <> SendAgain) -> forall fuel i g, gen_ok unique total g ->
  (send_fuel total g <= fuel)%nat -> returns (send_phase fuel unique total conc sends i g) (gen_ok unique total).
Proof.
  intros Hno. induction fuel as [|fuel IH]; intros i g Hg Hf; [unfold send_fuel in Hf; lia|]. cbn [send_phase]. case_match eqn:Et; [|done].
  apply andb_true_iff in Et as [Hs%Z.ltb_lt _]. pose proof Hg as (Hsa & Hla & Hn & Hse & Hw & Hwire).
  specialize (Hno i). destruct (sends i) as [r now]. cbn in Hno.
  destruct (query_datagram_ok unique (g_sent g)) as (d & -> & Hd); [lia|]. rewrite Ok_bind.
  destruct (put8_room (g_sent_at g) (u16 (Z.rem (g_sent g) MAX_ID)) now) as [l' Hl'].
  { rewrite Hsa. unfold u16, MAX_ID. apply Z.mod_pos_bound. lia. }
  rewrite Hl', Ok_bind. apply waiting_set in Hl' as (Hlen & t & _ & Hw').
  assert (waiting l' <= waiting (g_sent_at g) + 1) by (rewrite Hw'; repeat case_match; lia).
  unfold send_fuel in Hf. destruct r; [|done|]; (apply IH; [|unfold send_fuel; cbn; lia]);
    unfold gen_ok; (split_and!; cbn; [congruence|congruence|lia..|]); [by apply wire_sent; [lia|..]|by apply wire_failed].
Qed.

Lemma recv_phase_ok unique total ds k : forall fuel i g, gen_ok unique total g -> (i <= k < i + fuel)%nat -> ds k = None ->
  returns (recv_phase fuel ds i g) (gen_ok unique total).
Proof.
  induction fuel as [|fuel IH]; intros i g Hg Hi Hk; [lia|]. cbn [recv_phase].
  destruct (ds i) as [[buf now]|] eqn:Ed; [|done]. assert (i <> k) by congruence. case_test; [done|].
  destruct (get8_in_range buf 0) as [b0 ->]; [lia|]. destruct (get8_in_range buf 1) as [b1 ->]; [lia|]. rewrite !Ok_bind.
  set (id := u16 _). pose proof Hg as (Hsa & Hla & Hn & Hse & Hw & Hwire).
  assert (0 <= id < zlen (g_sent_at g)) as Hid by (rewrite Hsa; unfold id, u16, MAX_ID; apply Z.mod_pos_bound; lia).
  destruct (get8_in_range (g_sent_at g) id Hid) as [t Ht]. rewrite Ht, Ok_bind. destruct (Z.eqb_spec t 0) as [Hz|Hz]; cbn [negb].
  { rewrite Ok_bind. apply IH; [|lia|done]. unfold gen_ok. cbn. split_and!; done || lia. }
  destruct (put8_room (g_sent_at g) id 0 Hid) as [l' Hl']. pose proof (waiting_set _ _ _ _ Hl') as (Hlen & t' & Ht' & Hw').
  rewrite Ht in Ht'. injection Ht' as <-. rewrite (proj2 (Z.eqb_neq t 0) Hz) in Hw'. cbn in Hw'.
  assert (0 <= waiting l') by apply zlen_nonneg.
  destruct (put8_room (g_lat g) (g_nlat g) (u64 (now - t))) as [lat Hlat]; [lia|].
  pose proof (waiting_set _ _ _ _ Hlat) as (Hll & _). rewrite Hlat, Hl', !Ok_bind. apply IH; [|lia|done]. unfold gen_ok. cbn.
  split_and!; try congruence; [lia..|exact Hwire].
Qed.

(** No attempt to send is told to come back later, and the datagrams of a round
    come to an end. *)
Definition round_quiet (patience : nat) (ev : round_events) : Prop :=
  (forall i, (re_sends ev i).1 <> SendAgain) /\ exists j, (j < patience)%nat /\ re_recv ev j = None.

Lemma rounds_ok patience unique total conc timeout_ms evs : (forall i, round_quiet patience (evs i)) ->
  forall k i g, gen_ok unique total g -> returns (rounds k patience unique total conc timeout_ms evs i g)
    (fun '(g', over) => gen_ok unique total g' /\ (over = true -> total <= g_got g' \/ g_sent g' = total)).
Proof.
  intros Hq. induction k as [|k IH]; intros i g Hg; cbn [rounds].
  { split; [done|]. intros Ho%negb_true_iff%Z.ltb_ge. by left. }
  destruct (Z.ltb_spec (g_got g) total); [|split; [done|by left]].
  assert (returns (round patience unique total conc timeout_ms (evs i) g) (fun '(g', stop) => gen_ok unique total g' /\
    (stop = true -> g_sent g' = total))) as Hround.
  { destruct (Hq i) as (Hno & j & Hj & Hend). unfold round. eapply returns_bind_intro; [by apply send_phase_ok|]. intros g1 Hg1.
    eapply returns_bind_intro; [by apply (recv_phase_ok unique total _ j); [|lia|]|]. intros g2 Hg2.
    pose proof Hg2 as (_ & _ & _ & Hs & _). repeat case_test; cbn; (split; [done|]); try done. intros _. lia. }
  eapply returns_bind_intro; [exact Hround|]. intros [g' stop] [Hg' Hst]. destruct stop; [|by apply IH].
  split; [done|]. right. auto.
Qed.

Lemma gen_init_ok unique total t0 : 0 <= total -> gen_ok unique total (gen_init total t0).
Proof.
  intros Ht. unfold gen_ok, gen_init. cbn [g_sent_at g_lat g_nlat g_got g_sent]. unfold zlen. rewrite !length_replicate.
  assert (waiting (replicate (Z.to_nat MAX_ID) 0) = 0) as ->.
  { unfold waiting. generalize (Z.to_nat MAX_ID). intros n. induction n as [|n IH]; [done|]. cbn [replicate]. rewrite filter_cons, decide_False by auto. exact IH. }
  split_and!; try (unfold MAX_ID; lia). exists []. split_and!; [constructor..|done].
Qed.

(** ** Properties *)

(** C39: As long as [send] never reports EAGAIN or ENOBUFS and the datagrams
    of each round come to an end, the load generator never leaves a buffer or
    an array, however many rounds it makes and whatever datagrams arrive. After
    each number of rounds, what it has sent are A queries that the server's
    parser reads as such, with recursion desired, no EDNS, the name and the id
    of their number; each number is sent at most once and in order, and those
    [send] failed on are counted as errors. No more latencies are recorded than
    queries were counted as sent, and none for a query that is not waited for.
    The loop is over only when as many replies as queries have come or all
    queries were counted as sent. That it comes to an end is not claimed. *)
Theorem load_sends_queries k patience unique total conc timeout_ms evs t0 : 0 <= total ->
  (forall i, round_quiet patience (evs i)) ->
  returns (rounds k patience unique total conc timeout_ms evs 0 (gen_init total t0)) (fun '(g, over) =>
    wire_ok unique g /\ 0 <= g_nlat g <= g_got g /\ 0 <= g_sent g <= total /\ g_nlat g + waiting (g_sent_at g) <= g_sent g /\
    (over = true -> total <= g_got g \/ g_sent g = total)).
Proof.
  intros Ht Hq. eapply returns_mono; [apply rounds_ok; [done|by apply gen_init_ok]|].
  intros [g over] [(_ & _ & ? & ? & ? & ?) ?]. auto.
Qed.

(** The events of a list of rounds: each with the results of its first attempts
    to send, its datagrams and its time; in later ones nothing comes. *)
Definition events_of (rs : list (list (send_result * Z) * list (list Z * Z) * Z)) (i : nat) : round_events :=
  match rs !! i with
  | Some (sends, ds, now) => RoundEvents (fun j => default (SendOk, now) (sends !! j)) (fun j => ds !! j) now
  | None => RoundEvents (fun _ => (SendOk, 0)) (fun _ => None) 0
  end.

Lemma load_sends_queries_witness :
  let evs := events_of [([(SendOk, 5)], [([0; 0; 129; 128; 0; 1; 0; 0; 0; 0; 0; 0], 9)], 10); ([(SendError, 12)], [], 20)] in
  returns (rounds 2 9 true 2 1 3000 evs 0 (gen_init 2 1)) (fun '(g, over) =>
    wire_ok true g /\ 0 <= g_nlat g <= g_got g /\ 0 <= g_sent g <= 2 /\ g_nlat g + waiting (g_sent_at g) <= g_sent g /\
    (over = true -> 2 <= g_got g \/ g_sent g = 2)).
Proof.
  apply (load_sends_queries 2 9 true 2 1 3000); [lia|]. intros [|[|i]].
  - split; [|by exists 1%nat; split; [lia|]]. intros [|[|i]]; cbn; discriminate.
  - split; [|by exists 0%nat; split; [lia|]]. intros [|[|i]]; cbn; discriminate.
  - split; [done|]. exists 0%nat. split; [lia|done].
Defined.

(** With a concurrency of 0 or less nothing is ever sent, and as long as
    nothing arrives the loop goes on forever: the timeout only ends it when all
    queries were sent. *)
Theorem load_without_concurrency_never_ends fuel patience unique total conc timeout_ms evs t0 :
  conc <= 0 -> 0 < total -> (forall i, re_recv (evs i) 0%nat = None) -> (0 < patience)%nat ->
  load_loop fuel patience unique total conc timeout_ms evs (gen_init total t0) = Diverge.
Proof.
  intros Hc Ht Hno Hp. unfold load_loop.
  assert (forall k i g, g_sent g = 0 -> g_got g = 0 -> g_outstanding g = 0 ->
    exists g', rounds k patience unique total conc timeout_ms evs i g = Ok (g', false)) as Hrun.
  { induction k as [|k IH]; intros i g Hs Hg Ho; cbn [rounds]; rewrite Hg, (proj2 (Z.ltb_lt _ _)) by lia; [by exists g|].
    unfold round, send_fuel. cbn [send_phase]. rewrite Ho, (proj2 (Z.ltb_ge 0 conc)), andb_false_r, Ok_bind by lia.
    destruct patience as [|p]; [lia|]. cbn [recv_phase]. rewrite Hno, Ok_bind. case_test; rewrite ?Hs.
    - rewrite (proj2 (Z.leb_gt _ _)), Ok_bind by lia. by apply IH.
    - rewrite Ok_bind. by apply IH. }
  destruct (Hrun fuel 0%nat (gen_init total t0)) as [g' ->]; done.
Qed.

Lemma load_without_concurrency_never_ends_witness :
  load_loop 1000 1 false 10000 0 3000 (fun i => RoundEvents (fun _ => (SendOk, 0)) (fun _ => None) (50000000 * Z.of_nat i)) (gen_init 10000 0) = Diverge.
Proof. apply load_without_concurrency_never_ends; [lia|lia|intros i; reflexivity|lia]. Defined.

(** When [send] has reported EAGAIN the time of the unsent query stays in
    [sent_at]: a datagram with its id is recorded as its reply, and with two
    queries in all the third latency is written behind the end of [lat]. *)
Theorem load_latencies_overflow :
  let reply id := [0; id; 129; 128; 0; 1; 0; 0; 0; 0; 0; 0] in
  rounds 2 9 false 2 10 3000
    (events_of [([(SendAgain, 1)], [(reply 0, 2)], 3); ([(SendOk, 4); (SendOk, 5)], [(reply 0, 6); (reply 1, 7)], 8)]) 0 (gen_init 2 0) = Fault.
Proof. vm_compute. reflexivity. Qed.

(** The latency line of the load generator is right for every [qsort] that
    returns the elements in an order consistent with its comparison: the read
    indices lie inside of the array, and the five numbers are the recorded
    latencies of rank 0, n/2, 95n/100, 99n/100 and n-1. *)
Theorem load_percentiles (qsort : (Z -> Z -> Z) -> list Z -> list Z) nlat lat :
  (forall l, qsort cmp_u64 l ≡ₚ l /\ StronglySorted (fun x y => cmp_u64 x y <= 0) (qsort cmp_u64 l)) ->
  0 < nlat <= zlen lat ->
  exists mn p50 p95 p99 mx, latency_line qsort nlat lat = Ok (Some (mn, p50, p95, p99, mx)) /\
    let recorded := ztake nlat lat in
    has_rank 0 mn recorded /\ has_rank (nlat / 2) p50 recorded /\ has_rank (nlat * 95 / 100) p95 recorded /\
    has_rank (nlat * 99 / 100) p99 recorded /\ has_rank (nlat - 1) mx recorded.
Proof.
  intros Hq Hn. destruct (Hq (ztake nlat lat)) as [Hp Hs]. unfold latency_line. set (s := qsort cmp_u64 (ztake nlat lat)) in *.
  assert (StronglySorted Z.le s) as Hs' by by apply sorted_le.
  assert (zlen s = nlat) as Hl by (unfold zlen; rewrite Hp; change (zlen (ztake nlat lat) = nlat); apply zlen_ztake; lia).
  rewrite (proj2 (Z.eqb_neq _ _)) by lia.
  assert (forall k, 0 <= k < nlat -> exists v, get8 (s ++ zdrop nlat lat) k = Ok v /\ has_rank k v (ztake nlat lat)) as Hget.
  { intros k Hk. destruct (get8_in_range s k) as [v Hv]; [lia|]. exists v. rewrite get8_app_l by lia. split; [done|].
    apply get8_Ok in Hv as [_ Hv]. apply (has_rank_perm k v s); [done|]. rewrite <- (Z2Nat.id k) by lia. by apply sorted_rank. }
  destruct (Hget 0) as (mn & -> & Hmn); [lia|].
  destruct (Hget (nlat / 2)) as (p50 & -> & H50); [Z.to_euclidean_division_equations; lia|].
  destruct (Hget (nlat * 95 / 100)) as (p95 & -> & H95); [Z.to_euclidean_division_equations; lia|].
  destruct (Hget (nlat * 99 / 100)) as (p99 & -> & H99); [Z.to_euclidean_division_equations; lia|].
  destruct (Hget (nlat - 1)) as (mx & -> & Hmx); [lia|]. rewrite !Ok_bind. by exists mn, p50, p95, p99, mx.
Qed.

(** Sorting by merging is such a [qsort]. *)
Definition merge_qsort (cmp : Z -> Z -> Z) (l : list Z) : list Z := merge_sort (H := fun x y => decide (cmp x y <= 0)) (fun x y => cmp x y <= 0) l.

Lemma merge_qsort_ok l : merge_qsort cmp_u64 l ≡ₚ l /\ StronglySorted (fun x y => cmp_u64 x y <= 0) (merge_qsort cmp_u64 l).
Proof.
  split; [apply merge_sort_Permutation|]. apply StronglySorted_merge_sort.
  - intros x y z. rewrite !cmp_u64_le. lia.
  - intros x y. rewrite !cmp_u64_le. lia.
Qed.

Lemma load_percentiles_witness :
  exists mn p50 p95 p99 mx, latency_line merge_qsort 4 [30; 10; 40; 20; 0] = Ok (Some (mn, p50, p95, p99, mx)) /\
    let recorded := ztake 4 [30; 10; 40; 20; 0] in
    has_rank 0 mn recorded /\ has_rank (4 / 2) p50 recorded /\ has_rank (4 * 95 / 100) p95 recorded /\
    has_rank (4 * 99 / 100) p99 recorded /\ has_rank (4 - 1) mx recorded.
Proof. apply (load_percentiles merge_qsort 4 [30; 10; 40; 20; 0]); [exact merge_qsort_ok|vm_compute; split; congruence]. Defined.

(** A run with one reply of two queries: half of them lost, so that the exit
    code is 1. *)
Example load_main_sample :
  load_main merge_qsort 9 9 [OptQueries 2; OptConcurrency 1] true 1
    (events_of [([(SendOk, 5)], [([0; 0; 129; 128; 0; 1; 0; 0; 0; 0; 0; 0], 9)], 10); ([(SendOk, 12)], [], 4000000000)]) =
  Ok (Some (LoadReport 2 1 1 0 (Some (4, 4, 4, 4, 4))), 1).
Proof. vm_compute. reflexivity. Qed.
