(* ===== verification/BenchBloom.v ===== *)
(** * The benchmark of the filter (src/bench_bloom.c)

    Threads look up names in a cache that holds half of its capacity; a share
    of the names is cold. The options, the counts of the report and their
    meaning are modelled: the hits depend on the random names alone, whatever
    the build and the order of the threads' lookups. The times and the rates
    printed, which are floating point numbers, are not. *)

From stdpp Require Import prelude list gmap.
From Stdlib Require Import ZArith Lia.
From S2P Require Import Prelude DnsName DnsParse DnsBuild DnsBloom DnsCache CacheLinks CacheRefine CacheTheorems.

Local Open Scope Z_scope.

Definition LIVE_ENTRIES : Z := CACHE_CAPACITY / 2.
Definition NAME_POOL : Z := 8192.

(** The generator's next state, which is also the number it returns. *)
Definition xrand (s : Z) : Z :=
  let x := Z.lxor s (u32 (Z.shiftl s 13)) in
  let x := Z.lxor x (Z.shiftr x 17) in
  Z.lxor x (u32 (Z.shiftl x 5)).

(** ** Names *)

(** [snprintf] with a size of 64. *)
Definition live_name (i : Z) : list Z := ztake 63 ([108; 105; 118; 101] ++ decimal i ++ example_com).
Definition cold_name (i : Z) : list Z := ztake 63 ([99; 111; 108; 100] ++ decimal i ++ example_com).

Definition bench_name (cold_pct r : Z) : list Z :=
  if r mod 100 <? cold_pct then cold_name (Z.lxor r 1542469173) else live_name (r mod LIVE_ENTRIES).

(** The loop of [build_names] over [n] more names. *)
Fixpoint names_loop (n : nat) (seed cold_pct : Z) : list (list Z) :=
  match n with
  | O => []
  | S n' => let r := xrand seed in bench_name cold_pct r :: names_loop n' r cold_pct
  end.

(** [mem]: whether [calloc] succeeds. *)
Definition build_names (mem : bool) (id cold_pct : Z) : option (list (list Z)) :=
  if mem then Some (names_loop (Z.to_nat NAME_POOL) (Z.lxor 2654435769 (u32 id)) cold_pct) else None.

(** ** The run *)

Section bench.
Context {F : Type} `{Filter F} (calloc : gset loc -> option loc).

Definition live_answer (name : list Z) : dns_answer := DnsAnswer DNS_TYPE_A 86400 [10; 0; 0; 1] name.

(** The loop of [populate] from entry [i] on; [now] gives the cache's clock. *)
Fixpoint populate_loop (n : nat) (i : Z) (now : Z -> Z) (c : cache F) : res (cache F) :=
  match n with
  | O => Ok c
  | S n' =>
      c ← dns_cache_put calloc 0 (now i) (live_name i) DNS_TYPE_A [live_answer (live_name i)] 1 DNS_RCODE_NOERROR c;
      populate_loop n' (i + 1) now c
  end.

Definition populate (now : Z -> Z) (c : cache F) : res (cache F) := populate_loop (Z.to_nat LIVE_ENTRIES) 0 now c.

(** [struct worker], with the position of its loop. *)
Record worker := Worker {
  w_names : list (list Z);
  w_pos : Z;
  w_hits : Z
}.

(** One iteration of [run] in thread [k]. The lookup is one step: for its
    result that is no loss (CacheThreads.v), for the statistics of the filter
    it is (BloomStats.v). *)
Definition run_iter (k : nat) (now : Z) (c : cache F) (w : worker) : res (cache F * worker) :=
  match w_names w !! Z.to_nat (Z.land (w_pos w) (NAME_POOL - 1)) with
  | None => Fault
  | Some name =>
      '(c, r) ← dns_cache_get k now name DNS_TYPE_A DNS_MAX_ANSWERS c;
      Ok (c, Worker (w_names w) (w_pos w + 1) (match r with Some _ => w_hits w + 1 | None => w_hits w end))
  end.

(** The threads' iterations, in the order in which their lookups happen, each
    with its time. *)
Fixpoint run_threads (sched : list (nat * Z)) (c : cache F) (ws : list worker) : res (cache F * list worker) :=
  match sched with
  | [] => Ok (c, ws)
  | (k, now) :: sched' =>
      match ws !! k with
      | None => Fault
      | Some w =>
          '(c, w') ← run_iter k now c w;
          run_threads sched' c (<[k := w']> ws)
      end
  end.

(** [main] behind its options, for [nthreads] threads and memory for their
    names, up to the end of the threads. *)
Definition bench_run (nthreads : nat) (cold_pct : Z) (now : Z -> Z) (sched : list (nat * Z)) (c : cache F)
    : res (cache F * list worker) :=
  c ← populate now (dns_cache_init c);
  let ws := (fun id => match build_names true (Z.of_nat id) cold_pct with Some ns => Worker ns 0 0 | None => Worker [] 0 0 end)
              <$> seq 0 nthreads in
  run_threads sched c ws.

(** ... and to its own end. *)
Definition bench_main (nthreads : nat) (cold_pct : Z) (now : Z -> Z) (sched : list (nat * Z)) (c : cache F)
    : res (cache F * list worker) :=
  '(c, ws) ← bench_run nthreads cold_pct now sched c;
  c ← dns_cache_fini c;
  Ok (c, ws).
End bench.

(** ** Options and report *)

Record bench_opts := BenchOpts {
  bo_nthreads : Z;
  bo_niters : Z;
  bo_cold_pct : Z
}.

Definition default_bench_opts : bench_opts := BenchOpts 4 1000000 90.

(** What [getopt] finds, with the value of [atoi] or [atol]. *)
Inductive bench_opt := BThreads (v : Z) | BIters (v : Z) | BCold (v : Z) | BOther.

(** [None]: the usage message. *)
Fixpoint bench_getopt (found : list bench_opt) (o : bench_opts) : option bench_opts :=
  match found with
  | [] => Some o
  | BThreads v :: found' => bench_getopt found' (BenchOpts v (bo_niters o) (bo_cold_pct o))
  | BIters v :: found' => bench_getopt found' (BenchOpts (bo_nthreads o) v (bo_cold_pct o))
  | BCold v :: found' => bench_getopt found' (BenchOpts (bo_nthreads o) (bo_niters o) v)
  | BOther :: _ => None
  end.

(** The options [main] runs with, or its exit code. *)
Definition bench_options (found : list bench_opt) : bench_opts + Z :=
  match bench_getopt found default_bench_opts with
  | None => inr 2
  | Some o =>
      if (bo_nthreads o <? 1) || (bo_niters o <? 1) || (bo_cold_pct o <? 0) || (100 <? bo_cold_pct o)
      then inr 2 else inl o
  end.

(** The counts of the report: hits and lookups; with a filter that was asked,
    its rejects, the lookups that missed beyond them, and the updates lost. *)
Record bench_report := BenchReport {
  br_hits : Z;
  br_ops : Z;
  br_bloom : option (Z * Z * Z)
}.

Definition total_hits (ws : list worker) : Z := sum_over w_hits ws.

Definition bench_finish (niters : Z) (ws : list worker) (b : bloom) : bench_report :=
  let '(bq, br, bsat, _) := dns_bloom_stats b in
  let total_ops := niters * zlen ws in
  BenchReport (total_hits ws) total_ops
    (if bq =? 0 then None else Some (br, total_ops - total_hits ws - br, bsat)).

(** ** Reference *)

(** The random numbers of a thread. *)
Fixpoint rands (n : nat) (seed : Z) : list Z :=
  match n with
  | O => []
  | S n' => let r := xrand seed in r :: rands n' r
  end.

(** The number of lookups of a live name among the first [pos] of a thread. *)
Definition live_lookups (id cold_pct pos : Z) : Z :=
  let rs := rands (Z.to_nat NAME_POOL) (Z.lxor 2654435769 (u32 id)) in
  zlen (filter (fun j => cold_pct <= (rs !!! Z.to_nat (Z.of_nat j mod NAME_POOL)) mod 100) (seq 0 (Z.to_nat pos))).

(** ** Lemmas *)

Definition live_key (i : Z) : key := key_of (live_name i) DNS_TYPE_A.

Lemma names_rands cold_pct n : forall seed, names_loop n seed cold_pct = bench_name cold_pct <$> rands n seed.
Proof. induction n as [|n IH]; intros seed; cbn [names_loop rands]; [done|]. by rewrite IH. Qed.

Lemma length_rands n : forall seed, length (rands n seed) = n.
Proof. induction n as [|n IH]; intros seed; cbn; [done|]. by rewrite IH. Qed.

Lemma build_names_rands id cold_pct : build_names true id cold_pct =
  Some (bench_name cold_pct <$> rands (Z.to_nat NAME_POOL) (Z.lxor 2654435769 (u32 id))).
Proof. unfold build_names. by rewrite names_rands. Qed.

(** The pool of 8192 names is used through these lemmas only. *)
#[local] Opaque names_loop rands.

Lemma cold_not_live i j : key_of (cold_name i) DNS_TYPE_A <> live_key j.
Proof. unfold live_key, key_of, cold_name, live_name, ztake, fold_case. cbn. intros [=]. Qed.

Lemma live_name_len i : strlen (live_name i) <= DNS_MAX_NAME.
Proof.
  assert (zlen (live_name i) <= 63) as Hl by (unfold live_name, ztake, zlen; rewrite length_take; lia).
  unfold strlen, DNS_MAX_NAME, zlen in *. pose proof (prefix_length _ _ (cstr_prefix (live_name i))). lia.
Qed.

(** The cache holds the first [n] live names, and none of them expires before
    [t0 + 86400]. *)
Definition holds_live (t0 n : Z) (s : lru) : Prop :=
  (forall k, k ∈ entry_key <$> l_entries s <-> exists i, 0 <= i < n /\ k = live_key i) /\
  Forall (fun e => t0 + 86400 <= e_expires e) (l_entries s) /\ zlen (l_entries s) <= n.

Lemma find_key_perm k es e : NoDup (entry_key <$> es) -> find_key k es = Some e -> e :: remove_key k es ≡ₚ es /\ entry_key e = k.
Proof.
  intros Hnd Hf. destruct (find_key_elem k es e Hf) as [(pre & post & ->)%list_elem_of_split <-]. split; [|done].
  destruct (find_key_split pre e post Hnd) as [_ ->]. by rewrite Permutation_middle.
Qed.

Lemma find_key_in k es : k ∈ entry_key <$> es -> exists e, find_key k es = Some e.
Proof.
  intros (e & -> & He)%list_elem_of_fmap. unfold find_key.
  destruct (list_find (fun e' => entry_key e' = entry_key e) es) as [[j e']|] eqn:Ef; [by exists e'|].
  apply list_find_None in Ef. rewrite Forall_forall in Ef. by destruct (Ef e He).
Qed.

Lemma live_keys_step (K K' : list key) n : 0 <= n -> (forall k, k ∈ K <-> exists i, 0 <= i < n /\ k = live_key i) ->
  (forall k, k ∈ K' <-> k = live_key n \/ k ∈ K) -> forall k, k ∈ K' <-> exists i, 0 <= i < n + 1 /\ k = live_key i.
Proof.
  intros Hn HK HK' k. rewrite HK', HK. split.
  - intros [->|(i & Hi & ->)]; [exists n|exists i]; split; done || lia.
  - intros (i & Hi & ->). destruct (decide (i = n)) as [->|]; [by left|]. right. exists i. split; [lia|done].
Qed.

Lemma put_live t0 n now s ans : NoDup (entry_key <$> l_entries s) -> holds_live t0 n s -> 0 <= n < CACHE_CAPACITY -> t0 <= now ->
  put_ttl (ztake DNS_MAX_ANSWERS ans) = 86400 ->
  holds_live t0 (n + 1) (lru_put true now (live_name n) DNS_TYPE_A ans DNS_RCODE_NOERROR s).
Proof.
  intros Hnd (Hk & He & Hl) Hn Hnow Httl. unfold lru_put. cbv zeta. fold (live_key n). rewrite !Httl.
  destruct (find_key (live_key n) (l_entries s)) as [e|] eqn:Ef.
  - destruct (find_key_perm _ _ _ Hnd Ef) as [Hp Hek]. unfold lru_push. cbn [l_entries].
    set (D := remove_key _ _) in *. clearbody D.
    assert (forall e', entry_key e' = entry_key e -> entry_key <$> e' :: D ≡ₚ entry_key <$> l_entries s) as Hkeys.
    { intros e' E1. rewrite <- Hp. cbn [fmap list_fmap]. by rewrite E1. }
    split_and!.
    + apply (live_keys_step _ _ n ltac:(lia) Hk). intros k. cbn [l_entries]. rewrite Hkeys by done. split; [by right|]. intros [->|?]; [|done].
      rewrite <- Hp, <- Hek. by left.
    + rewrite <- Hp in He. apply Forall_cons in He as [_ He]. constructor; [cbn [e_expires]; lia|done].
    + apply Permutation_length in Hp. unfold zlen in *. cbn [length l_entries] in *. lia.
  - unfold lru_make_room. rewrite (proj2 (Z.leb_gt _ _)) by lia. unfold lru_push. cbn [l_entries]. split_and!.
    + apply (live_keys_step _ _ n ltac:(lia) Hk). intros k. cbn [l_entries fmap list_fmap]. rewrite elem_of_cons.
      unfold entry_key at 1, live_key. cbn [e_name e_qtype]. unfold key_of, fold_case. by rewrite cstr_cstr.
    + constructor; [cbn [e_expires]; lia|done].
    + cbn [l_entries]. zl.
Qed.

(** A lookup before the entries expire. *)
Lemma get_live t0 n now name cap s : NoDup (entry_key <$> l_entries s) -> holds_live t0 n s -> now < t0 + 86400 ->
  let '(s', r) := lru_get now name DNS_TYPE_A cap s in holds_live t0 n s' /\
  (is_Some r <-> exists i, 0 <= i < n /\ key_of name DNS_TYPE_A = live_key i).
Proof.
  intros Hnd (Hk & He & Hl) Hnow. destruct s as [es h m v x]. cbn [l_entries] in *. unfold lru_get.
  pose proof (Hk (key_of name DNS_TYPE_A)) as Hin.
  destruct (find_key (key_of name DNS_TYPE_A) es) as [e|] eqn:Ef.
  - destruct (find_key_perm _ _ _ Hnd Ef) as [Hp Hek]. set (D := remove_key _ _) in *. clearbody D.
    rewrite <- Hp in He. pose proof He as He'. apply Forall_cons in He' as [Hex _].
    rewrite (proj2 (Z.leb_gt _ _)) by lia. split.
    + split_and!; cbn [l_entries]; [intros k; rewrite Hp; apply Hk|done|]. apply Permutation_length in Hp. unfold zlen in *. cbn [length] in *. lia.
    + rewrite <- Hin. split; [|by eexists]. intros _. rewrite <- Hp, <- Hek. by left.
  - split; [by split_and!|]. rewrite <- Hin. split; [by intros []|]. intros Hin'. destruct (find_key_in _ _ Hin') as [e He']. congruence.
Qed.

Lemma bench_name_live cold_pct r : (exists i, 0 <= i < LIVE_ENTRIES /\ key_of (bench_name cold_pct r) DNS_TYPE_A = live_key i) <-> cold_pct <= r mod 100.
Proof.
  unfold bench_name. destruct (Z.ltb_spec (r mod 100) cold_pct) as [Hlt|Hge].
  - split; [|lia]. intros (i & _ & Hi). by apply cold_not_live in Hi.
  - split; [done|]. intros _. exists (r mod LIVE_ENTRIES). split; [|done]. apply Z.mod_pos_bound. done.
Qed.

Lemma land_pool pos : 0 <= pos -> Z.land pos (NAME_POOL - 1) = pos mod NAME_POOL.
Proof. intros Hp. change (NAME_POOL - 1) with (Z.ones 13). by rewrite Z.land_ones. Qed.

Lemma live_lookups_step id cold_pct pos r : 0 <= pos ->
  rands (Z.to_nat NAME_POOL) (Z.lxor 2654435769 (u32 id)) !! Z.to_nat (pos mod NAME_POOL) = Some r ->
  live_lookups id cold_pct (pos + 1) = live_lookups id cold_pct pos + (if cold_pct <=? r mod 100 then 1 else 0).
Proof.
  intros Hp Hr. unfold live_lookups. replace (Z.to_nat (pos + 1)) with (S (Z.to_nat pos)) by lia. rewrite seq_S, filter_app, zlen_app. f_equal.
  cbn [plus]. rewrite filter_cons, filter_nil, Z2Nat.id by done. rewrite (list_lookup_total_correct _ _ _ Hr).
  by destruct (Z.leb_spec cold_pct (r mod 100)); [rewrite decide_True by done|rewrite decide_False by lia].
Qed.

Section bench_lemmas.
Context {F : Type} `{FilterLaws F} (calloc : gset loc -> option loc).
Hypothesis calloc_fresh : forall X l, calloc X = Some l -> l ∉ X.
Hypothesis calloc_memory : forall X, is_Some (calloc X).

Lemma rep_NoDup (c : cache F) s : rep c s -> NoDup (entry_key <$> l_entries s).
Proof. by intros (ls & _ & _ & _ & _ & _ & Hnd & _). Qed.

Lemma populate_spec t0 now n : forall i (c : cache F) s, rep c s -> holds_live t0 i s -> 0 <= i -> i + Z.of_nat n <= CACHE_CAPACITY ->
  (forall j, t0 <= now j) -> exists c' s', populate_loop calloc n i now c = Ok c' /\ rep c' s' /\ holds_live t0 (i + Z.of_nat n) s'.
Proof.
  induction n as [|n IH]; intros i c s Hrep Hl Hi Hn Hnow; cbn [populate_loop].
  - exists c, s. by rewrite Z.add_0_r.
  - set (ans := [live_answer (live_name i)]).
    destruct (put_rep calloc 0 (now i) (live_name i) DNS_TYPE_A ans 1 DNS_RCODE_NOERROR c s) as (c1 & mem & -> & Hrep1 & Hm);
      [done|apply live_name_len|done|done|done|]. rewrite Ok_bind. rewrite (Hm calloc_memory) in Hrep1.
    destruct (IH (i + 1) c1 _ Hrep1) as (c' & s' & -> & Hrep' & Hl'); [|lia|lia|done|].
    + apply put_live; [by eapply rep_NoDup|done|lia|done|done].
    + exists c', s'. replace (i + Z.of_nat (S n)) with (i + 1 + Z.of_nat n) by lia. done.
Qed.

(** The names of a thread, and its hits so far. *)
Definition worker_ok (cold_pct : Z) (id : nat) (w : worker) : Prop :=
  Some (w_names w) = build_names true (Z.of_nat id) cold_pct /\ 0 <= w_pos w /\
  w_hits w = live_lookups (Z.of_nat id) cold_pct (w_pos w).

Lemma run_iter_spec t0 cold_pct k now (c : cache F) s w : rep c s -> holds_live t0 LIVE_ENTRIES s -> now < t0 + 86400 ->
  worker_ok cold_pct k w -> exists c' s' w', run_iter k now c w = Ok (c', w') /\ rep c' s' /\ holds_live t0 LIVE_ENTRIES s' /\
    worker_ok cold_pct k w' /\ w_pos w' = w_pos w + 1.
Proof.
  intros Hrep Hl Hnow (Hnames & Hpos & Hhits). unfold run_iter. rewrite land_pool by done. rewrite build_names_rands in Hnames.
  apply (inj Some) in Hnames. set (rs := rands _ _) in Hnames.
  assert (Z.to_nat (w_pos w mod NAME_POOL) < length rs)%nat as Hlt.
  { unfold rs. rewrite length_rands. apply Z2Nat.inj_lt; [apply Z.mod_pos_bound; done|done|]. apply Z.mod_pos_bound. done. }
  destruct (lookup_lt_is_Some_2 _ _ Hlt) as [r Hr]. rewrite Hnames, list_lookup_fmap, Hr. cbn [fmap option_fmap option_map].
  destruct (get_rep k now (bench_name cold_pct r) DNS_TYPE_A DNS_MAX_ANSWERS c s Hrep) as (c' & -> & Hrep'); [done|].
  pose proof (get_live t0 _ now (bench_name cold_pct r) DNS_MAX_ANSWERS s (rep_NoDup _ _ Hrep) Hl Hnow) as Hget.
  destruct (lru_get _ _ _ _ _) as [s' res]. destruct Hget as [Hl' Hhit]. rewrite bench_name_live in Hhit. cbn [fst snd] in *.
  rewrite Ok_bind. eexists c', s', _. split; [reflexivity|]. split_and!; try done.
  split_and!; cbn [w_names w_pos w_hits]; [by rewrite build_names_rands|lia|].
  rewrite (live_lookups_step _ _ _ r) by done. rewrite <- Hhits.
  destruct res as [x|]; destruct (Z.leb_spec cold_pct (r mod 100)); try lia.
  - destruct Hhit as [Hc _]. specialize (Hc (ltac:(by eexists))). lia.
  - destruct Hhit as [_ Hc]. destruct (Hc ltac:(done)) as [? ?]. done.
Qed.

Lemma run_threads_spec t0 cold_pct sched : forall (c : cache F) s ws, rep c s -> holds_live t0 LIVE_ENTRIES s ->
  (forall k w, ws !! k = Some w -> worker_ok cold_pct k w) ->
  Forall (fun '(k, now) => (k < length ws)%nat /\ now < t0 + 86400) sched ->
  exists c' s' ws', run_threads sched c ws = Ok (c', ws') /\ rep c' s' /\ length ws' = length ws /\
    forall k w', ws' !! k = Some w' -> worker_ok cold_pct k w' /\
      exists w, ws !! k = Some w /\ w_pos w' = w_pos w + zlen (filter (fun x => x.1 = k) sched).
Proof.
  induction sched as [|[k now] sched IH]; intros c s ws Hrep Hl Hws Hs; cbn [run_threads].
  - exists c, s, ws. split_and!; [done..|]. intros k w Hw. split; [by apply Hws|]. exists w. by rewrite Z.add_0_r.
  - apply Forall_cons in Hs as [[[w Hw]%lookup_lt_is_Some_2 Hnow] Hs]. rewrite Hw.
    destruct (run_iter_spec t0 cold_pct k now c s w Hrep Hl Hnow (Hws k w Hw)) as (c1 & s1 & w1 & -> & Hrep1 & Hl1 & Hw1 & Hpos).
    rewrite Ok_bind. destruct (IH c1 s1 (<[k := w1]> ws) Hrep1 Hl1) as (c' & s' & ws' & -> & Hrep' & Hlen & Hws').
    + intros j wj Hj. apply list_lookup_insert_Some in Hj as [(<- & <- & _)|[_ Hj]]; [done|by apply Hws].
    + by rewrite length_insert.
    + exists c', s', ws'. rewrite length_insert in Hlen. split_and!; [done..|]. intros j w' Hj. destruct (Hws' j w' Hj) as (Hok & wj & Hwj & Hp).
      split; [done|]. rewrite filter_cons. cbn [fst]. apply list_lookup_insert_Some in Hwj as [(<- & <- & _)|[Hne Hwj]].
      * exists w. split; [done|]. rewrite decide_True, zlen_cons by done. lia.
      * exists wj. rewrite decide_False by done. done.
Qed.

Lemma bench_run_spec (f : F) nthreads cold_pct now t0 sched :
  (forall i, t0 <= now i) -> Forall (fun '(k, t) => (k < nthreads)%nat /\ t < t0 + 86400) sched ->
  exists c s ws, bench_run calloc nthreads cold_pct now sched (cache_zero f) = Ok (c, ws) /\ rep c s /\ length ws = nthreads /\
    forall k w, ws !! k = Some w -> w_pos w = zlen (filter (fun x => x.1 = k) sched) /\
      w_hits w = live_lookups (Z.of_nat k) cold_pct (w_pos w).
Proof.
  intros Hnow Hs. unfold bench_run, populate.
  destruct (populate_spec t0 now (Z.to_nat LIVE_ENTRIES) 0 (dns_cache_init (cache_zero f)) lru_empty) as (c1 & s1 & -> & Hrep & Hl);
    [by apply init_rep| |done|done|done|].
  { split_and!; [|constructor|done]. intros k. cbn. split; [by intros ?%elem_of_nil|]. intros (i & Hi & _). lia. }
  rewrite Ok_bind. set (ws0 := _ <$> seq 0 nthreads).
  assert (length ws0 = nthreads) as Hlen0 by (unfold ws0; by rewrite length_fmap, length_seq).
  assert (forall k w, ws0 !! k = Some w -> worker_ok cold_pct k w /\ w_pos w = 0) as Hws0.
  { intros k w Hw. unfold ws0 in Hw. rewrite list_lookup_fmap in Hw. destruct (seq 0 nthreads !! k) as [id|] eqn:Eid; [|done].
    apply lookup_seq in Eid as [-> _]. injection Hw as <-. split; [|done]. split_and!; [done|done|]. done. }
  destruct (run_threads_spec t0 cold_pct sched c1 s1 ws0) as (c2 & s2 & ws & -> & Hrep2 & Hlen & Hws); [done|done| |by rewrite Hlen0|].
  { intros k w Hw. by apply Hws0. }
  exists c2, s2, ws. split_and!; [done|done|congruence|].
  intros k w Hw. destruct (Hws k w Hw) as ((_ & _ & Hh) & w0 & Hw0 & Hp). destruct (Hws0 k w0 Hw0) as [_ Hz]. split; [lia|done].
Qed.

(** ** Properties *)

(** with either build of the filter, and however the threads' lookups are
    interleaved, as long as no lookup comes a day after the first insertion:
    the benchmark runs to its end, and the hits each thread counts are exactly
    its lookups of live names. So the printed rate of hits is that of the names
    and does not depend on the filter, and every cold lookup is a miss. *)
Theorem bench_hits_exact (f : F) nthreads cold_pct now t0 sched :
  (forall i, t0 <= now i) -> Forall (fun '(k, t) => (k < nthreads)%nat /\ t < t0 + 86400) sched ->
  exists c ws, bench_main calloc nthreads cold_pct now sched (cache_zero f) = Ok (c, ws) /\ length ws = nthreads /\
    forall k w, ws !! k = Some w -> w_pos w = zlen (filter (fun x => x.1 = k) sched) /\
      w_hits w = live_lookups (Z.of_nat k) cold_pct (w_pos w).
Proof.
  intros Hnow Hs. unfold bench_main.
  destruct (bench_run_spec f nthreads cold_pct now t0 sched Hnow Hs) as (c & s & ws & -> & Hrep & Hlen & Hws). rewrite Ok_bind.
  destruct (fini_rep c s Hrep) as (c' & -> & _). rewrite Ok_bind. exists c', ws. auto.
Qed.
End bench_lemmas.

(** ** The filter's statistics *)

(** [q] queries, of which [r] were rejected. *)
Definition counts (b : bloom) (q r : Z) : Prop :=
  shards_ok b /\ shard_sum st_queries (b_shards b) = u64 q /\ shard_sum st_rejected (b_shards b) = u64 r.

Lemma counts_add_slot t i b q r : counts b q r -> counts (add_slot t b i) q r.
Proof.
  intros (Hb & Hq & Hr). unfold add_slot. case_test; [|done]. destruct (shard_ok t b Hb) as ([Hl Hm] & Hs & _).
  destruct (shard t b) as [b1 st]. cbn [fst snd] in *. unfold bump, counts, shards_ok. cbn [b_shards b_mine]. rewrite length_alter, Hs in *.
  by rewrite !shard_sum_alter_other.
Qed.

Lemma counts_del_slot i b q r : counts b q r -> counts (del_slot b i) q r.
Proof. unfold del_slot. by case_match. Qed.

Lemma counts_fold {A} (f : bloom -> A -> bloom) q r l : (forall b a, counts b q r -> counts (f b a) q r) ->
  forall b, counts b q r -> counts (fold_left f l b) q r.
Proof. intros Hf. induction l as [|a l IH]; intros b Hb; cbn [fold_left]; auto. Qed.

Lemma counts_add t h b q r : counts b q r -> counts (f_add t h b) q r.
Proof. apply counts_fold. intros b' i. apply counts_add_slot. Qed.

Lemma counts_del t h b q r : counts b q r -> counts (f_del t h b) q r.
Proof. apply counts_fold. intros b' i. apply counts_del_slot. Qed.

#[local] Hint Resolve counts_add counts_del : fizz.

Lemma counts_get_calls t now name qtype s b q r : counts b q r -> counts (get_calls t now name qtype s b) q r.
Proof. intros Hb. unfold get_calls. repeat case_match; eauto with fizz. Qed.

Lemma counts_put_calls mem t now name qtype s b q r : counts b q r -> counts (put_calls mem t now name qtype s b) q r.
Proof. intros Hb. unfold put_calls, room_calls. cbv zeta. repeat case_match; eauto with fizz. Qed.

Lemma counts_maybe t h b q r : counts b q r ->
  counts (dns_bloom_maybe t h b).1 (q + 1) (if (dns_bloom_maybe t h b).2 then r else r + 1).
Proof.
  intros (Hb & Hq & Hr). destruct (maybe_sums t h b Hb) as (Hb' & Hq' & Hr'). split_and!; [done|by rewrite Hq', Hq, u64_add_l|].
  rewrite Hr', Hr. destruct (dns_bloom_maybe t h b).2; [done|apply u64_add_l].
Qed.

Section report_lemmas.
Context (calloc : gset loc -> option loc).
Hypothesis calloc_fresh : forall X l, calloc X = Some l -> l ∉ X.

Lemma populate_counts now n : forall i (c c' : cache bloom) s q r, rep c s -> counts (c_filter c) q r ->
  populate_loop calloc n i now c = Ok c' -> counts (c_filter c') q r /\ exists s', rep c' s'.
Proof.
  induction n as [|n IH]; intros i c c' s q r Hrep Hc; cbn [populate_loop]; [intros [= <-]; eauto|].
  destruct (put_rep_calls calloc 0 (now i) (live_name i) DNS_TYPE_A [live_answer (live_name i)] 1 DNS_RCODE_NOERROR c s)
    as (c1 & mem & -> & Hrep1 & _ & Hf); [done|apply live_name_len|done|done|done|].
  rewrite Ok_bind. apply (IH _ _ _ _ _ _ Hrep1). rewrite Hf. by apply counts_put_calls.
Qed.

(** A lookup that the filter rejects is not a hit. *)
Lemma run_iter_counts k now (c c' : cache bloom) s w w' q r : rep c s -> counts (c_filter c) q r -> run_iter k now c w = Ok (c', w') ->
  w_pos w' = w_pos w + 1 /\ (exists s', rep c' s') /\
  exists r', counts (c_filter c') (q + 1) r' /\ r <= r' /\ r' + w_hits w' <= r + w_hits w + 1.
Proof.
  intros Hrep Hc. unfold run_iter. destruct (w_names w !! _) as [name|]; [|done].
  destruct (get_rep_calls k now name DNS_TYPE_A DNS_MAX_ANSWERS c s Hrep) as (c1 & E & Hrep1 & Hf); [done|].
  rewrite E, Ok_bind. intros [= <- <-]. split; [done|]. split; [eauto|].
  pose proof (counts_maybe k (dns_key_hash name DNS_TYPE_A) _ _ _ Hc) as Hm. eexists. rewrite Hf. split; [by apply counts_get_calls|].
  unfold dns_cache_get in E. cbn [f_maybe bloom_filter] in *. destruct (dns_bloom_maybe k _ (c_filter c)) as [b maybe]. cbn [fst snd] in *.
  destruct maybe; cbn [negb] in E; [cbn [w_hits]; case_match; lia|]. injection E as _ <-. cbn [w_hits]. lia.
Qed.

Lemma run_threads_counts sched : forall (c c' : cache bloom) s ws ws' q r, rep c s -> counts (c_filter c) q r ->
  run_threads sched c ws = Ok (c', ws') ->
  sum_over w_pos ws' = sum_over w_pos ws + zlen sched /\
  exists r', counts (c_filter c') (q + zlen sched) r' /\ r <= r' /\ r' + total_hits ws' <= r + total_hits ws + zlen sched.
Proof.
  induction sched as [|[k now] sched IH]; intros c c' s ws ws' q r Hrep Hc; cbn [run_threads].
  - intros [= <- <-]. rewrite !Z.add_0_r. split; [done|]. exists r. split_and!; done || lia.
  - destruct (ws !! k) as [w|] eqn:Hw; [|done]. destruct (run_iter k now c w) as [[c1 w1]| | |] eqn:Ei; [|done..]. rewrite Ok_bind.
    destruct (run_iter_counts _ _ _ _ _ _ _ _ _ Hrep Hc Ei) as (Hpos & (s1 & Hrep1) & r1 & Hc1 & Hr1 & Hh1). intros E.
    destruct (IH _ _ _ _ _ _ _ Hrep1 Hc1 E) as (Hsum & r' & Hc' & Hr' & Hh'). unfold total_hits in *.
    rewrite !(sum_insert _ _ _ _ _ Hw) in *. rewrite zlen_cons. split; [lia|]. exists r'. split_and!; [|lia..].
    by replace (q + (1 + zlen sched)) with (q + 1 + zlen sched) by lia.
Qed.

Lemma bench_run_counts nthreads cold_pct now sched c ws :
  bench_run calloc nthreads cold_pct now sched (cache_zero bloom_zero) = Ok (c, ws) ->
  sum_over w_pos ws = zlen sched /\
  exists r, counts (c_filter c) (zlen sched) r /\ 0 <= r /\ r + total_hits ws <= zlen sched.
Proof.
  unfold bench_run, populate. destruct (populate_loop _ _ _ _ _) as [c1| | |] eqn:Ep; [|done..]. rewrite Ok_bind.
  assert (counts (c_filter (dns_cache_init (cache_zero bloom_zero))) 0 0) as H0.
  { split_and!; [|reflexivity|reflexivity]. split; [reflexivity|]. apply map_Forall_empty. }
  destruct (populate_counts _ _ _ _ _ _ _ _ (init_rep (cache_zero bloom_zero) eq_refl) H0 Ep) as [Hc1 [s1 Hrep1]].
  set (ws0 := _ <$> seq 0 nthreads). intros E. destruct (run_threads_counts _ _ _ _ _ _ _ _ Hrep1 Hc1 E) as (Hp & r & Hc & Hr & Hh).
  assert (sum_over w_pos ws0 = 0 /\ total_hits ws0 = 0) as [Z1 Z2].
  { split; apply sum_zero; intros w (k & -> & _)%list_elem_of_fmap; done. }
  split; [lia|]. exists r. split_and!; [done|lia|lia].
Qed.

(** The report of the build with the filter, when memory has sufficed, every
    thread has made its [niters] lookups within a day and no two of them have
    updated a shard of the statistics at once, as is so with up to
    [STAT_SHARDS] threads: the lookups reported are the hits, which are the
    lookups of live names, the rejects of the filter and the rest, the cold
    lookups it let through, and none of these is negative. *)
Theorem bench_report_exact nthreads niters cold_pct now t0 sched :
  (forall X, is_Some (calloc X)) -> (forall i, t0 <= now i) ->
  Forall (fun '(k, t) => (k < nthreads)%nat /\ t < t0 + 86400) sched ->
  (forall k, (k < nthreads)%nat -> zlen (filter (fun x => x.1 = k) sched) = niters) ->
  1 <= niters -> (0 < nthreads)%nat -> niters * Z.of_nat nthreads < 2 ^ 63 ->
  exists c ws, bench_run calloc nthreads cold_pct now sched (cache_zero bloom_zero) = Ok (c, ws) /\
    let r := bench_finish niters ws (c_filter c) in
    br_ops r = niters * Z.of_nat nthreads /\
    br_hits r = sum_over (fun k => live_lookups (Z.of_nat k) cold_pct niters) (seq 0 nthreads) /\
    exists rejects passed sat, br_bloom r = Some (rejects, passed, sat) /\ 0 <= rejects /\ 0 <= passed /\
      br_hits r + rejects + passed = br_ops r.
Proof.
  intros Hmem Hnow Hs Hall Hn Hth Hb.
  destruct (bench_run_spec calloc calloc_fresh Hmem bloom_zero nthreads cold_pct now t0 sched Hnow Hs) as (c & s & ws & Erun & Hrep & Hlen & Hws).
  exists c, ws. split; [done|]. destruct (bench_run_counts _ _ _ _ _ _ Erun) as (Hpos & rej & (_ & Hq & Hr) & Hrej & Hle).
  assert (forall k w, ws !! k = Some w -> w_pos w = niters /\ w_hits w = live_lookups (Z.of_nat (0 + k)) cold_pct niters) as Hw.
  { intros k w Hw. destruct (Hws k w Hw) as [Hp Hh]. rewrite Hall in Hp by (rewrite <- Hlen; by eapply lookup_lt_Some). by rewrite Hh, Hp. }
  assert (zlen ws = Z.of_nat nthreads) as Hz by (unfold zlen; congruence).
  rewrite (sum_ext w_pos (fun _ => niters)), sum_const in Hpos by (intros w [k Hk]%list_elem_of_lookup; by eapply Hw).
  assert (total_hits ws = sum_over (fun k => live_lookups (Z.of_nat k) cold_pct niters) (seq 0 nthreads)) as Hhits.
  { unfold total_hits. rewrite (sum_index _ (fun k => live_lookups (Z.of_nat k) cold_pct niters) ws 0) by (intros k w Hk; by apply Hw). by rewrite Hlen. }
  assert (0 <= total_hits ws) as H0.
  { rewrite Hhits. clear. generalize (seq 0 nthreads). intros l. induction l as [|k l IH]; cbn [sum_over]; [done|].
    unfold live_lookups at 1. pose proof (zlen_nonneg (filter (fun j => cold_pct <=
      (rands (Z.to_nat NAME_POOL) (Z.lxor 2654435769 (u32 (Z.of_nat k))) !!! Z.to_nat (Z.of_nat j mod NAME_POOL)) mod 100) (seq 0 (Z.to_nat niters)))). lia. }
  assert (shard_sum st_queries (b_shards (c_filter c)) = zlen sched /\ shard_sum st_rejected (b_shards (c_filter c)) = rej) as [Eq Er].
  { rewrite Hq, Hr. unfold u64. rewrite !Z.mod_small by nia. done. }
  unfold bench_finish, dns_bloom_stats. rewrite Eq, Er, (proj2 (Z.eqb_neq (zlen sched) 0)) by nia. cbn [br_ops br_hits br_bloom].
  split; [congruence|]. split; [done|]. eexists _, _, _. split; [reflexivity|]. nia.
Qed.
End report_lemmas.

(** Two threads and three lookups. *)
Lemma bench_hits_exact_witness :
  exists c ws, bench_main fresh_loc 2 90 (fun _ => 100) [(0%nat, 100); (1%nat, 101); (0%nat, 102)] (cache_zero bloom_zero) = Ok (c, ws) /\
    length ws = 2%nat /\
    forall k w, ws !! k = Some w -> w_pos w = zlen (filter (fun x => x.1 = k) [(0%nat, 100); (1%nat, 101); (0%nat, 102)]) /\
      w_hits w = live_lookups (Z.of_nat k) 90 (w_pos w).
Proof.
  apply (bench_hits_exact fresh_loc) with (t0 := 100).
  - apply fresh_loc_fresh.
  - intros X. unfold fresh_loc. by eexists.
  - intros i. lia.
  - repeat constructor; lia.
Defined.

(** Two threads with a lookup each. *)
Lemma bench_report_exact_witness :
  exists c ws, bench_run fresh_loc 2 90 (fun _ => 100) [(1%nat, 100); (0%nat, 101)] (cache_zero bloom_zero) = Ok (c, ws) /\
    let r := bench_finish 1 ws (c_filter c) in
    br_ops r = 1 * Z.of_nat 2 /\
    br_hits r = sum_over (fun k => live_lookups (Z.of_nat k) 90 1) (seq 0 2) /\
    exists rejects passed sat, br_bloom r = Some (rejects, passed, sat) /\ 0 <= rejects /\ 0 <= passed /\
      br_hits r + rejects + passed = br_ops r.
Proof.
  apply (bench_report_exact fresh_loc fresh_loc_fresh 2 1 90 (fun _ => 100) 100 [(1%nat, 100); (0%nat, 101)]).
  - intros X. unfold fresh_loc. by eexists.
  - intros i. lia.
  - repeat constructor; lia.
  - intros [|[|k]] Hk; [reflexivity|reflexivity|lia].
  - lia.
  - lia.
  - lia.
Defined.
