(* ===== verification/Startup.v ===== *)
(** * Start and end of the two servers (src/server.c: main;
      src/af_xdp_user.c: main from the backend's start to its end)

    dns_iface.h asks that the backend is set up before any worker exists and
    taken down after every worker has joined. Both servers also have a TCP
    server whose threads use the backend, and the AF_XDP server has loop threads
    whose rings nobody else may touch. Calls that break these rules fault in the
    model; the theorems show that neither [main] makes one, whichever of the
    calls of the operating system fail. *)

From stdpp Require Import prelude list gmap.
From Stdlib Require Import ZArith Lia.
From S2P Require Import Prelude TcpTable XskSetup XdpConfig.

Local Open Scope Z_scope.

(** ** The process *)

(** The loop threads that run, [global_exit], and the CPUs threads were pinned
    to. *)
Record loop_threads := LoopThreads {
  lt_running : list nat;
  lt_exit : bool;
  lt_pins : list (nat * Z)
}.

(** The backend's state, the listening socket of the TCP server, the worker
    threads that run, the loop threads, whether the queue takes jobs, and the
    open descriptors. *)
Record process := Proc {
  p_backend : bool;
  p_tcp : option Z;
  p_workers : list nat;
  p_loops : loop_threads;
  p_queue_open : bool;
  p_fds : gset Z
}.

Definition with_fds (fds : gset Z) (p : process) : process :=
  Proc (p_backend p) (p_tcp p) (p_workers p) (p_loops p) (p_queue_open p) fds.

(** [dns_backend_init], before any worker exists; [ret] is what it returns. *)
Definition backend_init (ret : Z) (p : process) : res process :=
  if p_backend p || negb (bool_decide (p_workers p = [])) || bool_decide (is_Some (p_tcp p)) then Fault else
  Ok (Proc (ret =? 0) (p_tcp p) (p_workers p) (p_loops p) (p_queue_open p) (p_fds p)).

(** [dns_backend_fini], after every worker has joined. *)
Definition backend_fini (p : process) : res process :=
  if negb (p_backend p) || negb (bool_decide (p_workers p = [])) || bool_decide (is_Some (p_tcp p)) then Fault else
  Ok (Proc false None [] (p_loops p) (p_queue_open p) (p_fds p)).

(** [dns_tcp_server_start] and [dns_tcp_server_stop], of which the latter does
    nothing without a server. *)
Definition tcp_start (c : start_calls) (p : process) : res process :=
  if negb (p_backend p) then Fault else
  let '(srv, fds) := dns_tcp_server_start c (p_fds p) in
  Ok (Proc true (t_listen <$> srv) (p_workers p) (p_loops p) (p_queue_open p) fds).
Definition tcp_stop (p : process) : res process :=
  match p_tcp p with
  | None => Ok p
  | Some lfd =>
      if bool_decide (lfd ∈ p_fds p)
      then Ok (Proc (p_backend p) None (p_workers p) (p_loops p) (p_queue_open p) (p_fds p ∖ {[lfd]})) else Fault
  end.

(** A worker thread starts, and is joined: it ends only when the queue is shut
    down. *)
Definition worker_create (i : nat) (p : process) : res process :=
  if negb (p_backend p) then Fault else
  Ok (Proc (p_backend p) (p_tcp p) (i :: p_workers p) (p_loops p) (p_queue_open p) (p_fds p)).
Definition worker_join (i : nat) (p : process) : res process :=
  if negb (bool_decide (i ∈ p_workers p)) then Fault else
  if p_queue_open p then Diverge else
  Ok (Proc (p_backend p) (p_tcp p) (filter (fun k => k <> i) (p_workers p)) (p_loops p) (p_queue_open p) (p_fds p)).

Definition with_loops (l : loop_threads) (p : process) : process :=
  Proc (p_backend p) (p_tcp p) (p_workers p) l (p_queue_open p) (p_fds p).

(** [pin_to_cpu] of thread [i]; that the call can fail has no effect. *)
Definition pin_to_cpu (i : nat) (cpu : Z) (l : loop_threads) : loop_threads :=
  if cpu <? 0 then l else LoopThreads (lt_running l) (lt_exit l) (lt_pins l ++ [(i, cpu)]).

(** [lp->cpu = opt.pin ? i : -1] *)
Definition loop_cpu (pin : bool) (i : nat) : Z := if pin then Z.of_nat i else -1.

(** The thread of loop [i] starts and is pinned. *)
Definition loop_create (pin : bool) (i : nat) (p : process) : res process :=
  let l := LoopThreads (i :: lt_running (p_loops p)) (lt_exit (p_loops p)) (lt_pins (p_loops p)) in
  Ok (with_loops (if pin then pin_to_cpu i (loop_cpu pin i) l else l) p).

(** It is joined: it is sure to end only once [global_exit] is set. *)
Definition loop_join (i : nat) (p : process) : res process :=
  let l := p_loops p in
  if negb (bool_decide (i ∈ lt_running l)) then Fault else
  if negb (lt_exit l) then Diverge else
  Ok (with_loops (LoopThreads (filter (fun k => k <> i) (lt_running l)) (lt_exit l) (lt_pins l)) p).

(** [global_exit = 1], by [main] or by a signal *)
Definition set_exit (p : process) : process :=
  with_loops (LoopThreads (lt_running (p_loops p)) true (lt_pins (p_loops p))) p.

(** [queue_shutdown] *)
Definition queue_close (p : process) : process :=
  Proc (p_backend p) (p_tcp p) (p_workers p) (p_loops p) false (p_fds p).

(** The main thread touches the rings of loop [i]. *)
Definition drain_loop (i : nat) (p : process) : res process :=
  if bool_decide (i ∈ lt_running (p_loops p)) || negb (bool_decide (p_workers p = [])) then Fault else Ok p.

Definition close_fd (fd : Z) (p : process) : res process :=
  if bool_decide (fd ∈ p_fds p) then Ok (with_fds (p_fds p ∖ {[fd]}) p) else Fault.

(** [for (i = 0; i < n; i++) f(i)] from [i] on. *)
Fixpoint for_each (n i : nat) (f : nat -> process -> res process) (p : process) : res process :=
  match n with
  | O => Ok p
  | S n' => p ← f i p; for_each n' (S i) f p
  end.

(** The loops over [pthread_create]: they stop at the first failure. The result
    has the number of threads. *)
Fixpoint create_all (n i : nat) (ok : nat -> bool) (f : nat -> process -> res process) (p : process) : res (nat * process) :=
  match n with
  | O => Ok (i, p)
  | S n' => if ok i then p ← f i p; create_all n' (S i) ok f p else Ok (i, p)
  end.

(** ** [main] of server.c *)

Record server_opts := ServerOpts {
  so_port : Z;
  so_workers : Z
}.

(** The options: the parsed ones, or the exit code. *)
Fixpoint server_options (o : server_opts) (found : list (Z * list Z)) : res (server_opts + Z) :=
  match found with
  | [] => Ok (inl o)
  | (112, optarg) :: found' => v ← atoi optarg; server_options (ServerOpts v (so_workers o)) found'
  | (119, optarg) :: found' => v ← atoi optarg; server_options (ServerOpts (so_port o) v) found'
  | (104, _) :: _ => Ok (inr 0)
  | _ :: _ => Ok (inr 1)
  end.

(** An iteration of the receive loop: no memory for a job, a datagram (what
    becomes of it is in Server.v), EINTR, or another error of [recvfrom]. *)
Inductive loop_event := LoopNoMemory | LoopDatagram | LoopIntr | LoopError.

(** What its calls return: [socket], [bind], [dns_backend_init], those of the
    TCP server's start, whether each [pthread_create] succeeds, the flag
    [running] at each test of the receive loop, and what its iterations get. *)
Record server_calls := ServerCalls {
  sc_socket : Z;
  sc_bind : Z;
  sc_backend : Z;
  sc_tcp : start_calls;
  sc_thread : nat -> bool;
  sc_running : nat -> bool;
  sc_recv : nat -> loop_event
}.

(** [while (running)], from iteration [i] on; it diverges when it is followed
    for longer than the fuel. *)
Fixpoint receive_loop (fuel i : nat) (c : server_calls) : res unit :=
  match fuel with
  | O => Diverge
  | S fuel' =>
      if negb (sc_running c i) then Ok tt else
      match sc_recv c i with
      | LoopNoMemory | LoopDatagram | LoopIntr => receive_loop fuel' (S i) c
      | LoopError => Ok tt
      end
  end.

(** The exit code, the process, and the number of workers. *)
Definition server_main (fuel : nat) (found : list (Z * list Z)) (c : server_calls) (p : process) : res (Z * process * nat) :=
  r ← server_options (ServerOpts 53 DEFAULT_WORKERS) found;
  match r with
  | inr code => Ok (code, p, 0%nat)
  | inl o =>
      let num_workers := bounded 1 MAX_WORKERS (so_workers o) in
      if sc_socket c <? 0 then Ok (1, p, 0%nat) else
      let p := with_fds ({[sc_socket c]} ∪ p_fds p) p in
      if sc_bind c <? 0 then p ← close_fd (sc_socket c) p; Ok (1, p, 0%nat) else
      p ← backend_init (sc_backend c) p;
      if negb (sc_backend c =? 0) then p ← close_fd (sc_socket c) p; Ok (1, p, 0%nat) else
      p ← tcp_start (sc_tcp c) p;
      '(n, p) ← create_all (Z.to_nat num_workers) 0 (sc_thread c) worker_create p;
      _ ← receive_loop fuel 0 c;
      p ← for_each n 0 worker_join (queue_close p);
      p ← tcp_stop p;
      p ← backend_fini p;
      p ← close_fd (sc_socket c) p;
      Ok (0, p, n)
  end.

(** ** [main] of af_xdp_user.c *)

(** What its calls return, as above, and whether a signal comes while the loops
    run. *)
Record xdp_calls := XdpCalls {
  xc_backend : Z;
  xc_tcp : start_calls;
  xc_worker : nat -> bool;
  xc_loop : nat -> bool;
  xc_signal : bool
}.

(** What it does between the setup of its loops and their teardown
    (XskSetup.v), and the numbers of workers and loops that ran. *)
Definition xdp_threads (pin : bool) (nloops num_workers : nat) (c : xdp_calls) (p : process) : res (process * nat * nat) :=
  p ← backend_init (xc_backend c) p;
  if negb (xc_backend c =? 0) then Ok (p, 0%nat, 0%nat) else
  p ← tcp_start (xc_tcp c) p;
  '(n, p) ← create_all num_workers 0 (xc_worker c) worker_create p;
  '(nstarted, p) ← create_all nloops 0 (xc_loop c) (loop_create pin) p;
  let p := if (nstarted <? nloops)%nat then set_exit p else p in
  let p := if xc_signal c then set_exit p else p in
  p ← for_each nstarted 0 loop_join p;
  p ← for_each n 0 worker_join (queue_close p);
  p ← for_each nloops 0 drain_loop p;
  p ← tcp_stop p;
  p ← backend_fini p;
  Ok (p, n, nstarted).

(** ** Lemmas *)

Lemma filter_first i n : filter (fun k => k <> i) (rev (seq i (S n))) = rev (seq (S i) n).
Proof.
  cbn [seq rev]. rewrite filter_app, filter_cons_False by (intros Hk; by apply Hk). rewrite filter_nil, app_nil_r. apply filter_id.
  intros k Hk%list_elem_of_In. rewrite <- in_rev in Hk. apply list_elem_of_In, elem_of_seq in Hk. lia.
Qed.

(** The threads a loop over [pthread_create] starts. *)
Lemma create_workers n i ok tcp loops op fds : exists k, (i <= k <= i + n)%nat /\
  create_all n i ok worker_create (Proc true tcp (rev (seq 0 i)) loops op fds) = Ok (k, Proc true tcp (rev (seq 0 k)) loops op fds).
Proof.
  revert i. induction n as [|n IH]; intros i; cbn [create_all]; [exists i; split; [lia|done]|].
  destruct (ok i); [|exists i; split; [lia|done]]. cbn. destruct (IH (S i)) as (k & Hk & E1). exists k. split; [lia|].
  rewrite seq_S, rev_app_distr in E1. exact E1.
Qed.

(** The CPUs of the first [n] loops. *)
Definition pins (pin : bool) (n : nat) : list (nat * Z) := if pin then (fun i => (i, Z.of_nat i)) <$> seq 0 n else [].

Lemma pins_S pin i l : loop_create pin i (with_loops (LoopThreads (rev (seq 0 i)) false (pins pin i)) l) =
  Ok (with_loops (LoopThreads (rev (seq 0 (S i))) false (pins pin (S i))) l).
Proof.
  unfold loop_create, with_loops. cbn [p_loops lt_running lt_exit lt_pins p_backend p_tcp p_workers p_queue_open p_fds].
  rewrite seq_S, rev_app_distr. cbn [rev app plus]. destruct pin; [|done]. unfold loop_cpu, pin_to_cpu, pins.
  rewrite (proj2 (Z.ltb_ge _ _)), seq_S, fmap_app by lia. done.
Qed.

Lemma create_loops pin n i ok p : exists k, (i <= k <= i + n)%nat /\
  ((exists j, (i <= j < i + n)%nat /\ ok j = false) -> (k < i + n)%nat) /\
  create_all n i ok (loop_create pin) (with_loops (LoopThreads (rev (seq 0 i)) false (pins pin i)) p) =
  Ok (k, with_loops (LoopThreads (rev (seq 0 k)) false (pins pin k)) p).
Proof.
  revert i. induction n as [|n IH]; intros i; cbn [create_all].
  { exists i. split; [lia|]. split; [intros (j & Hj & _); lia|done]. }
  destruct (ok i) eqn:Ei.
  - rewrite pins_S, Ok_bind. destruct (IH (S i)) as (k & Hk & Hex & E1). exists k. split; [lia|]. split; [|done].
    intros (j & Hj & Ej). rewrite <- Nat.add_succ_comm. apply Hex. exists j. split; [|done]. assert (j <> i) by congruence. lia.
  - exists i. split; [lia|]. split; [lia|done].
Qed.

Lemma in_rev_seq i n : i ∈ rev (seq i (S n)).
Proof. apply list_elem_of_In. rewrite <- in_rev. by left. Qed.

Lemma worker_join_first n i b tcp loops fds :
  worker_join i (Proc b tcp (rev (seq i (S n))) loops false fds) = Ok (Proc b tcp (rev (seq (S i) n)) loops false fds).
Proof.
  unfold worker_join. cbn [p_backend p_tcp p_workers p_loops p_queue_open p_fds]. rewrite bool_decide_eq_true_2 by apply in_rev_seq.
  cbn [negb]. by rewrite filter_first.
Qed.

Lemma join_workers n : forall i b tcp loops fds,
  for_each n i worker_join (Proc b tcp (rev (seq i n)) loops false fds) = Ok (Proc b tcp [] loops false fds).
Proof. induction n as [|n IH]; intros i b tcp loops fds; [done|]. cbn [for_each]. rewrite worker_join_first, Ok_bind. apply IH. Qed.

Lemma loop_join_first n i ps p :
  loop_join i (with_loops (LoopThreads (rev (seq i (S n))) true ps) p) = Ok (with_loops (LoopThreads (rev (seq (S i) n)) true ps) p).
Proof.
  unfold loop_join, with_loops. cbn [p_backend p_tcp p_workers p_loops p_queue_open p_fds lt_running lt_exit lt_pins].
  rewrite bool_decide_eq_true_2 by apply in_rev_seq. cbn [negb]. by rewrite filter_first.
Qed.

Lemma join_loops n ps p : forall i,
  for_each n i loop_join (with_loops (LoopThreads (rev (seq i n)) true ps) p) = Ok (with_loops (LoopThreads [] true ps) p).
Proof. induction n as [|n IH]; intros i; [done|]. cbn [for_each]. rewrite loop_join_first, Ok_bind. apply IH. Qed.

Lemma drain_loops n ps : forall i b tcp op fds, let p := Proc b tcp [] (LoopThreads [] true ps) op fds in for_each n i drain_loop p = Ok p.
Proof.
  assert (forall i b tcp op fds, let p := Proc b tcp [] (LoopThreads [] true ps) op fds in drain_loop i p = Ok p) as Hd.
  { intros. unfold drain_loop, p. cbn [p_loops p_workers lt_running]. by rewrite bool_decide_eq_false_2 by apply not_elem_of_nil. }
  induction n as [|n IH]; intros i b tcp op fds p; [done|]. cbn [for_each]. unfold p. rewrite Hd, Ok_bind. apply IH.
Qed.

(** The TCP server and its end. *)
Lemma tcp_starts c fds : (0 <= st_socket c -> st_socket c ∉ fds) -> exists tcp fds', forall ws loops op,
  tcp_start c (Proc true None ws loops op fds) = Ok (Proc true tcp ws loops op fds') /\
  fds ⊆ fds' /\ forall ws' loops' op', tcp_stop (Proc true tcp ws' loops' op' fds') = Ok (Proc true None ws' loops' op' fds).
Proof.
  intros Hfresh. unfold tcp_start, dns_tcp_server_start. cbn [p_backend p_fds p_workers p_loops p_queue_open negb].
  destruct (st_calloc c); cbn [negb]; [|exists None, fds; intros; by split_and!].
  destruct (Z.ltb_spec (st_socket c) 0) as [|Hs]; [exists None, fds; intros; by split_and!|]. specialize (Hfresh Hs).
  assert (({[st_socket c]} ∪ fds) ∖ {[st_socket c]} = fds) as Hback by set_solver.
  destruct (st_bind c <? 0); [exists None, fds; intros; rewrite Hback; by split_and!|].
  destruct (st_listen c <? 0); [exists None, fds; intros; rewrite Hback; by split_and!|].
  destruct (st_thread c =? 0); cbn [negb]; [|exists None, fds; intros; rewrite Hback; by split_and!].
  exists (Some (st_socket c)), ({[st_socket c]} ∪ fds). intros ws loops op. split; [done|]. split; [set_solver|]. intros ws' loops' op'.
  unfold tcp_stop. cbn [p_tcp p_fds p_backend p_workers p_loops p_queue_open]. rewrite bool_decide_eq_true_2 by set_solver. by rewrite Hback.
Qed.

Lemma close_opened fd b tcp ws loops op fds : fd ∉ fds ->
  close_fd fd (Proc b tcp ws loops op ({[fd]} ∪ fds)) = Ok (Proc b tcp ws loops op fds).
Proof.
  intros Hfd. unfold close_fd, with_fds. cbn [p_fds p_backend p_tcp p_workers p_loops p_queue_open]. rewrite bool_decide_eq_true_2 by set_solver.
  do 2 f_equal. set_solver.
Qed.

(** The receive loop ends at the first cleared flag or error. *)
Lemma receive_loop_ends fuel c k : forall i, (i <= k < i + fuel)%nat -> sc_running c k = false \/ sc_recv c k = LoopError ->
  receive_loop fuel i c = Ok tt.
Proof.
  induction fuel as [|fuel IH]; intros i Hi Hk; [lia|]. cbn [receive_loop].
  destruct (sc_running c i) eqn:E1; cbn [negb]; [|done]. destruct (sc_recv c i) eqn:E2; [..|done];
    apply IH; try done; assert (i <> k) by (intros ->; destruct Hk; congruence); lia.
Qed.

(** A process as a program starts it: no backend, no threads. *)
Definition idle (op : bool) (fds : gset Z) : process := Proc false None [] (LoopThreads [] false []) op fds.

(** ** Properties *)

(** C21: once a signal clears [running] or [recvfrom] fails, whichever other
    calls fail, [main] of server.c comes to its end, and uses the backend as
    dns_iface.h asks: it is set up before any thread that calls it, and taken
    down when every worker has been joined and the TCP server has stopped; no
    worker is joined that was not started, or while it would wait for jobs
    forever. At the end all threads are gone and exactly the descriptors of the
    start are open. The exit code is 0 exactly if only help was asked for, or
    socket and backend could be set up. *)
Theorem server_main_orderly fuel found r c fds k :
  server_options (ServerOpts 53 DEFAULT_WORKERS) found = Ok r ->
  (0 <= sc_socket c -> sc_socket c ∉ fds) -> (0 <= st_socket (sc_tcp c) -> st_socket (sc_tcp c) ∉ {[sc_socket c]} ∪ fds) ->
  (k < fuel)%nat -> sc_running c k = false \/ sc_recv c k = LoopError ->
  exists code op n, server_main fuel found c (idle true fds) = Ok (code, idle op fds, n) /\ Z.of_nat n <= MAX_WORKERS /\
    (code = 0 <-> match r with
                  | inr code => code = 0
                  | inl _ => 0 <= sc_socket c /\ 0 <= sc_bind c /\ sc_backend c = 0
                  end).
Proof.
  intros Ho Hsock Htcp Hk Hend. unfold server_main, idle. rewrite Ho, Ok_bind.
  destruct r as [o|code]; [|by exists code, true, 0%nat]. unfold with_fds. cbn [p_fds p_backend p_tcp p_workers p_loops p_queue_open].
  destruct (Z.ltb_spec (sc_socket c) 0) as [|Hs]; [exists 1, true, 0%nat; split_and!; [done|done|lia]|]. specialize (Hsock Hs).
  destruct (Z.ltb_spec (sc_bind c) 0).
  { rewrite close_opened, Ok_bind by done. exists 1, true, 0%nat. split_and!; [done|done|lia]. }
  unfold backend_init. cbn [p_fds p_backend p_tcp p_workers p_loops p_queue_open orb negb]. rewrite bool_decide_eq_true_2 by done.
  rewrite bool_decide_eq_false_2 by (by intros []). cbn [negb orb]. rewrite Ok_bind.
  destruct (Z.eqb_spec (sc_backend c) 0); cbn [negb].
  2: { rewrite close_opened, Ok_bind by done. exists 1, true, 0%nat. split_and!; [done|done|lia]. }
  destruct (tcp_starts (sc_tcp c) ({[sc_socket c]} ∪ fds) Htcp) as (tcp & fds' & Hstart).
  destruct (Hstart [] (LoopThreads [] false []) true) as (-> & Hsub & Hstop). rewrite Ok_bind.
  destruct (create_workers (Z.to_nat (bounded 1 MAX_WORKERS (so_workers o))) 0 (sc_thread c) tcp (LoopThreads [] false []) true fds') as (n & Hn & E1).
  cbn [seq rev] in E1. rewrite E1, Ok_bind, (receive_loop_ends fuel c k), Ok_bind by (done || lia). unfold queue_close.
  cbn [p_fds p_backend p_tcp p_workers p_loops]. rewrite join_workers, Ok_bind, Hstop, Ok_bind. unfold backend_fini. cbn [p_fds p_backend p_tcp p_workers p_loops p_queue_open negb orb].
  rewrite bool_decide_eq_true_2 by done. rewrite bool_decide_eq_false_2 by (by intros []). cbn [negb orb]. rewrite Ok_bind, close_opened, Ok_bind by done.
  exists 0, false, n. split_and!; [done| |lia]. pose proof (bounded_range 1 MAX_WORKERS (so_workers o) ltac:(done)). lia.
Qed.

(** -w 2, where the second thread cannot be created and port 53 is taken for
    TCP; a signal comes after three datagrams. *)
Lemma server_main_orderly_witness :
  let c := ServerCalls 3 0 0 (StartCalls true 4 (-1) 0 0) (fun i => (i <? 1)%nat) (fun i => (i <? 3)%nat) (fun _ => LoopDatagram) in
  exists code op n, server_main 100 [(119, [50])] c (idle true {[0; 1; 2]}) = Ok (code, idle op {[0; 1; 2]}, n) /\ Z.of_nat n <= MAX_WORKERS /\
    (code = 0 <-> 0 <= sc_socket c /\ 0 <= sc_bind c /\ sc_backend c = 0).
Proof.
  apply (server_main_orderly 100 [(119, [50])] (inl (ServerOpts 53 2)) _ _ 3).
  - vm_compute. reflexivity.
  - cbn. set_solver.
  - cbn. set_solver.
  - lia.
  - left. reflexivity.
Defined.

(** C18: the same of [main] of af_xdp_user.c between the setup of its sockets and
    their teardown, once a signal has come or a loop's thread could not be
    created: [main] comes to its end, since it makes the loops that did start
    end as well; each started loop was pinned to the CPU of its number if the
    option asks for it; and the main thread touches the rings of a loop only
    when the loop's thread has ended and no worker can hand it jobs any more. *)
Theorem xdp_threads_orderly pin nloops num_workers c fds :
  (0 <= st_socket (xc_tcp c) -> st_socket (xc_tcp c) ∉ fds) ->
  xc_signal c = true \/ (exists i, (i < nloops)%nat /\ xc_loop c i = false) ->
  exists exit op n nstarted,
    xdp_threads pin nloops num_workers c (idle true fds) =
      Ok (Proc false None [] (LoopThreads [] exit (pins pin nstarted)) op fds, n, nstarted) /\
    (n <= num_workers)%nat /\ (nstarted <= nloops)%nat /\ (op = false <-> xc_backend c = 0).
Proof.
  intros Htcp Hend. unfold xdp_threads, backend_init, idle. cbn [p_fds p_backend p_tcp p_workers p_loops p_queue_open orb negb].
  rewrite bool_decide_eq_true_2 by done. rewrite bool_decide_eq_false_2 by (by intros []). cbn [negb orb]. rewrite Ok_bind.
  destruct (Z.eqb_spec (xc_backend c) 0); cbn [negb].
  2: { exists false, true, 0%nat, 0%nat. split_and!; [by destruct pin|lia|lia|done]. }
  destruct (tcp_starts (xc_tcp c) fds Htcp) as (tcp & fds' & Hstart).
  destruct (Hstart [] (LoopThreads [] false []) true) as (-> & Hsub & Hstop). rewrite Ok_bind.
  destruct (create_workers num_workers 0 (xc_worker c) tcp (LoopThreads [] false []) true fds') as (n & Hn & E1). cbn [seq rev] in E1. rewrite E1, Ok_bind.
  destruct (create_loops pin nloops 0 (xc_loop c) (Proc true tcp (rev (seq 0 n)) (LoopThreads [] false []) true fds')) as (k & Hk & Hfew & E2).
  assert (pins pin 0 = []) as E0 by (by destruct pin). rewrite E0 in E2. unfold with_loops in E2 at 1. cbn in E2. rewrite E2, Ok_bind.
  set (q := Proc true tcp (rev (seq 0 n)) _ true fds'). cbv zeta.
  assert ((if xc_signal c then set_exit (if (k <? nloops)%nat then set_exit (with_loops (LoopThreads (rev (seq 0 k)) false (pins pin k)) q)
      else with_loops (LoopThreads (rev (seq 0 k)) false (pins pin k)) q)
    else if (k <? nloops)%nat then set_exit (with_loops (LoopThreads (rev (seq 0 k)) false (pins pin k)) q)
      else with_loops (LoopThreads (rev (seq 0 k)) false (pins pin k)) q) = with_loops (LoopThreads (rev (seq 0 k)) true (pins pin k)) q) as ->.
  { destruct (xc_signal c); [by destruct (k <? nloops)%nat|]. destruct Hend as [?|(i & Hi & Ei)]; [done|].
    rewrite (proj2 (Nat.ltb_lt _ _)); [done|]. apply Hfew. exists i. split; [lia|done]. }
  rewrite join_loops, Ok_bind. unfold queue_close, with_loops, q. cbn [p_fds p_backend p_tcp p_workers p_loops].
  rewrite join_workers, Ok_bind, drain_loops, Ok_bind, Hstop, Ok_bind. unfold backend_fini.
  cbn [p_fds p_backend p_tcp p_workers p_loops p_queue_open negb orb]. rewrite bool_decide_eq_true_2 by done.
  rewrite bool_decide_eq_false_2 by (by intros []). cbn [negb orb]. rewrite Ok_bind. exists true, false, n, k. split_and!; [done|lia|lia|done].
Qed.

(** Two loops, of which the second cannot be started; no signal comes. *)
Lemma xdp_threads_orderly_witness :
  let c := XdpCalls 0 (StartCalls true 9 0 0 0) (fun _ => true) (fun i => (i <? 1)%nat) false in
  exists exit op n nstarted,
    xdp_threads true 2 8 c (idle true {[0; 1; 2; 7]}) =
      Ok (Proc false None [] (LoopThreads [] exit (pins true nstarted)) op {[0; 1; 2; 7]}, n, nstarted) /\
    (n <= 8)%nat /\ (nstarted <= 2)%nat /\ (op = false <-> xc_backend c = 0).
Proof. apply (xdp_threads_orderly true 2 8); [cbn; set_solver|]. right. exists 1%nat. by split; [lia|]. Defined.
